(* ===== verification/_CoqProject ===== *)
-Q . S2P
Prelude.v
PyDict.v
Asyncio.v
Evdev.v
Watcher.v
IdleLock.v
Bridge.v
Finder.v
System.v
Runs.v
Coherent.v
Invariant.v
Reachable.v
Shutdown.v
Effects.v
Activity.v
Hotplug.v
Spec.v
Refinement.v
Settled.v
Attach.v
Handles.v
Detach.v
Leak.v
Liveness.v
Interrupt.v
Ending.v
