(* ===== verification/Prelude.v ===== *)
(** * gamepad-lock-inhibit: a verification development

    The program ([src/gamepad-lock-inhibit.py]) keeps a desktop session from
    going idle while a game controller is in use.  It has five parts, which
    run on one asyncio event loop:

    - [GamepadsFinder] (lines 13-62) enumerates the joystick-class input
      devices through udev and forwards later hotplug notifications to the
      event loop as [add]/[remove] callbacks.
    - [GamepadsWatcher] (lines 65-145) owns one asyncio task per device; every
      task reads input events and raises the shared [gamepad_active] flag.
      The dictionary [tasks] maps a device path to [None] (known, not yet
      monitored) or to its task; [devices] maps a path to its open handle.
    - [IdleLock] (lines 148-170) holds at most one logind inhibitor file
      descriptor.
    - [inhibit_idle_when_gamepads_active] (lines 173-186) samples and resets
      the flag every [interval] seconds and takes or releases the lock.
    - [main] (lines 189-206) wires them together and shuts them down; the
      entry point (lines 209-213) runs it with [asyncio.run].

    ** Files, in the order they are checked

    - [Prelude] (this file): Python exceptions as a type [exn], results
      [res], the state-and-exception monad [M] in which every method is
      written (a raised exception keeps the state reached so far, as in
      Python), [try_except], [for_each], lenses with [zoom] to run a
      component's method inside a larger state, log records, the shared
      tactics and the hint database [py].
    - [PyDict]: Python's insertion-ordered [dict] as an association list
      with unique keys ([dict_get], [dict_set], [dict_del], [dict_keys],
      [dict_values]), its well-formedness invariant and its refinement to
      stdpp's [gmap] through [dict_map].
    - [Asyncio]: the part of the asyncio event loop the program relies on:
      tasks with their [started]/[must_cancel]/[done] flags and done
      callbacks, the FIFO [ready] queue, [create_task], [cancel],
      [add_done_callback], [finish].  Modelled from asyncio's documented
      behaviour; the sources only call it.
    - [Evdev]: device nodes and open [InputDevice] handles.
    - [Watcher]: Module [GamepadsWatcher]: the record of the class's
      attributes and every method as a definition of the same name, the
      coroutine [monitor_gamepad_events] as a function of what resumes it
      (its first step, an input event, a cancellation, a read error).
    - [IdleLock]: the lock controller, written against the interface
      [InhibitService] of the logind service, with one instance
      [Logind.service].
    - [Bridge]: Module [Bridge]: [inhibit_idle_when_gamepads_active] as a
      function of how its sleep ends (timer or cancellation), split into the
      sample ([sample], lines 178-182) and the handler of the cancellation
      ([on_cancelled], lines 183-186).
    - [Finder]: Module [GamepadsFinder]: the udev device record, the
      enumeration of [__init__], [start], [stop], the monitor callback
      [_on_new_event], and the observer thread [deliver].  [passes] is the
      filter as the specification states it, and [reported] is a device of
      the database as the event of its addition.
    - [System]: the whole program as a transition system.  The state
      [system] holds the watcher's world (watcher, loop, devices), the
      finder, the lock, the status of the inhibit task, the root logger, the
      phase of [main] and the exceptions reported so far.  [main] is the
      definitions [main_init] (lines 190-196), [main_body] (198-200),
      [main_handler] (203-204), [main_raised] (the [except] clause),
      [main_start], [main_resume] and [main_finish] (205-206, with what
      [gather] raises, [gather_raises]); [run_main] is the [try] statement
      of the entry point around [asyncio_run]; [do_event] gives the effect
      of each event and [step] is the transition relation.
    - [Runs]: the model run on concrete sequences of events: the scenarios
      of the specification and the races the code does not handle.
    - [Coherent]: the relation [coherent] between [self.tasks] and the done
      callbacks of the loop, and the lemmas that the operations of the loop
      and of the dictionary keep it.
    - [Invariant]: [watcher_inv], the well-formedness of the watcher's
      world, kept by every method of the watcher and every step of a task.
    - [Reachable]: [reachable], the invariant [sys_inv] of the reachable
      states, and the safety theorems that follow from it.
    - [Shutdown]: what [main] has established about the inhibit task in
      each phase ([shut_inv]), and the runs without an interrupt ([quiet]).
    - [Effects]: [world_step], the changes a step of the process can make
      to the watcher's world, the induction principle
      [reachable_world_inv] for invariants of the world, and what a udev
      event that passes the filter does ([udev_event_passes]).
    - [Activity]: a window of the inhibit task ([window]): the events
      between two ticks, and what they do to the flag and to the lock.
    - [Hotplug]: the loop run for four handles on a controller that comes
      and goes, by symbolic execution of the methods.
    - [Spec]: Module [Supervisor], the state machine the specification
      gives for the watcher (section 4.2), with the laws it promises.
      Written from the text, not from the code.
    - [Refinement]: the abstraction function [abs] from the watcher's world
      to the state of [Supervisor], the transitions [ops_of] an event stands
      for, and the condition [conforms] under which the code performs
      them.
    - [Settled]: the invariant [settled_inv]: the law [Supervisor.settled]
      carried to the code.
    - [Attach]: the way of an add notification from the observer thread
      through the queue of the loop to a monitor that waits for input
      ([attach]).
    - [Handles]: the invariant [handles_inv] that ties the open devices to
      [self.devices] and to the monitors that read them.
    - [Detach]: the way of a remove notification to the end of the monitor
      and of its entries ([detach]), and of a second notification for the
      same path that the observer delivers before the loop has run
      ([twice]).  The worlds on the way are written out ([notified],
      [gone]) and each turn of the loop is a lemma.
    - [Leak]: the devices that are open while no task reads them
      ([orphan], a boolean test of the state), and the way of a read error
      from the monitor to such a state ([broken]).
    - [Interrupt]: the steps from an interrupt to the exit of the process
      ([stopping], [shutdown]), and the observer of the finder once [main]
      is in its handler ([silent]).  It is checked after [Liveness], whose
      [drain] it uses.
    - [Ending]: the invariant [ends_inv] of how the inhibit task, [main]
      and the process can end, the tasks that [stop] cancels before their
      first step ([doomed]), and the steps from an interrupt that is
      followed by the plugging of a controller to the end of [main]
      ([late_plug]).  It is checked last.
    - [Liveness]: the measure [queue_measure] of the ready queue, the six
      changes a handle can make to the loop ([effect]), the invariant
      [live_inv] (every task that is not done has a step queued; the tasks
      that [stop] waits for were cancelled) and [drain], the loop running
      handles until the queue is empty.

    ** What is proved

    - [PyDict]: every dictionary operation preserves unique keys and
      commutes with [dict_map]; deletion fails exactly on an absent key.
    - [Watcher]: the functional behaviour of each method on each branch,
      the exceptions included.
    - [IdleLock] and [Bridge]: [lock_idle] and [unlock_idle] are idempotent,
      at most one descriptor is held and none leaks, for every
      implementation of [InhibitService]; a tick that returns leaves the lock
      held exactly when the window had input, over single ticks and over
      runs of windows; a cancellation ends the coroutine with the lock
      released by one call of [unlock_idle]; a failing [Inhibit] ends the
      coroutine with the exception.
    - [Finder]: [_on_new_event] queues a callback exactly for the add and
      remove events of joystick devices named [event*], in the order of the
      events; reporting the addition of every device of a database queues
      [cb_add] for exactly the paths that [__init__] puts into
      [self.devices] for that database, in the same order; a property value
      other than ["0"] and ["1"] raises [ValueError] and ends the observer
      thread.
    - [Reachable]: in every reachable state [self.tasks] and [self.devices]
      have unique keys and the done callbacks still to run are exactly the
      entries of [self.tasks] that hold a task; hence a path never has two
      live monitor tasks, [finish_removing_device] never raises, and the
      only exceptions the loop reports are [OSError] of [add_device] and
      [KeyError] of [remove_device]; at most one inhibitor lock is held, and
      none when [main] is not waiting for the inhibit task.
    - [Activity]: the lock follows the activity, end to end.  Of the events
      between two ticks only input sets the flag and none touches the lock;
      the tick that ends the window holds the lock exactly when the flag was
      set before the window or input arrived in it, unless logind refuses a
      lock that has to be taken.  When logind refuses, the exception ends
      the inhibit task and then [main], outside its handler: the process
      exits with it, the finder and the watcher are left as they were.
    - [Attach]: the udev event of a joystick that is plugged in, delivered
      while the watcher runs and the queue is empty, leads in two
      iterations of the loop to a monitor that waits for input on the open
      device, with input on it enabled.
    - [Detach]: the udev event of the removal of a controller whose monitor
      waits for input leads in three iterations of the loop to a state in
      which the path is deleted from both dictionaries, the device is
      closed and the monitor has ended; what the three handles need of the
      state they start in follows from the invariants.  Two races, from
      the same states: an add notification for the path that arrives
      before the loop has run is ignored with a warning, and the
      controller is left without a monitor; a second remove notification
      raises [KeyError] in [remove_device], which the loop reports.
    - [Shutdown]: when [main] is in its handler or has left it, the inhibit
      task has ended by cancellation and no lock is held, so the
      [inhibit_task.cancel()] of line 206 never finds a running task; the
      only exceptions [start], [stop] and the bridge raise; a run without an
      interrupt never reaches the handler nor the end of the process.
    - [Refinement]: the code refines the machine of the specification.  In
      every reachable state an enabled event that conforms changes [abs] of
      the world by exactly the transitions of [Supervisor] it stands for,
      and so does a whole run.  The events that do not conform are an
      [add_device] whose device node has vanished and an [add_device] for a
      path whose monitor was cancelled and whose done callback has not run:
      there the code ignores the notification where the machine starts a
      monitor.
    - [Settled]: while [main] waits for the inhibit task the watcher is
      started and every entry of [self.tasks] holds a task, so the [stop] of
      the handler cancels every entry and does not raise [AttributeError].
    - [Handles]: every entry of [self.devices] is an open device of its
      path and belongs to no other path; a monitor that has not ended and
      was not cancelled is the entry of a path and reads the device of that
      path, which is open.
    - [Hotplug]: adding a path that is not tracked and removing it again
      leaves [self.tasks] and [self.devices] as they were after four
      handles, with one task and one device used up.
    - [Liveness]: every handle lowers the measure of the queue, so the queue
      runs empty between two events of the environment, within three
      iterations of the loop for each handle; when [main] waits in
      [await watcher.stop()], draining the queue ends every task that [stop]
      gave to [gather], so the await ends and [main] with it: it returns,
      or ends by [CancelledError] when a monitor was cancelled before its
      first step.
    - [Interrupt]: from every state in which an interrupt can arrive the
      steps of the shutdown can be taken one after the other, and they end
      with the process exited normally, the lock released, the observer
      stopped, the queue empty and the monitors ended; once [main] is in
      its handler a udev event changes nothing.
    - [Leak]: a device that is open while no path that has it in
      [self.devices] has a task stays so in every run from there: each
      method of the watcher and each change of the world keeps [orphan],
      since [remove_device] closes a device only for a path with a task.
      A read error of a monitor that waits for input leads, once the done
      callback has run, to such a state: the entry of [self.tasks] is
      deleted and the device is left open in [self.devices].
    - [Ending]: in every reachable state the inhibit task has ended, if it
      has, by [CancelledError] or the D-Bus error of a refused lock; [main]
      has ended by returning, by [CancelledError], by that D-Bus error or by
      the [OSError] of a device node that vanished before [start]; the
      entry point logs its message exactly when [main] ended by
      [CancelledError], and lets the other two exceptions through.  A task
      that was cancelled before its first step ends cancelled when the
      queue is drained.  Hence the race of the shutdown: when a controller
      is plugged in after the interrupt and before the inhibit task has
      taken its cancellation, [add_device] runs before the handler of
      [main], [stop] cancels a monitor that has not started, [gather]
      raises, and [main] ends by [CancelledError] in every such state.
    - [Runs]: concrete runs, each checked by evaluation, as examples of the
      theorems above: an input event leads to one lock at the next tick and
      a quiet window releases it; the two races of [Detach] and the refusal
      of [Activity] on the controller [ev3]; a monitor that ends by a read
      error leaves its handle open; an interrupt releases the lock before
      the finder and the watcher are stopped; [stop] leaves the handles
      open; the race of [Ending] on the controller [ev5].

    ** Bounds and fuel

    The [while True] loops of the two coroutines are modelled one
    resumption at a time, and the event loop one handle at a time
    ([run_once]); an unbounded run is a sequence of steps of [step].  The
    concrete runs of [Runs] are finite lists of events, each checked to be
    enabled when its turn comes.  The only definition with fuel is [drain]
    of [Liveness].  Its fuel is [queue_measure]: 3 for a hotplug callback
    (it queues at most one step of a task), 2 for a step (it queues at most
    one done callback), 1 for a done callback (it queues nothing).  That this
    is enough is proved, not assumed: every handle run in a reachable state
    lowers the measure, and at measure 0 the queue is empty.  Three times
    the length of the queue is therefore enough as well, and the removal of
    a controller needs that much.  [four_turns] of [Hotplug] is four
    iterations of [run_once], the number of handles its scenario queues, and
    [attach] of [Attach] two, for the callback and the first step of the
    monitor, [detach] of [Detach] three.  [stopping] of [Interrupt] runs
    [drain] with the measure of the queue as fuel.  A window of [Activity] is any finite list of events.

    ** Assumptions of the model

    A task that is cancelled before its first step ends cancelled without
    running its coroutine, and [gather] raises [CancelledError] when one of
    the tasks it waits for ended so; [main] leaves [await watcher.stop()]
    when the awaited tasks are done and the ready queue is empty.
    [asyncio.run] is that of Python 3.11 and later: an interrupt cancels the
    task of [main], and [KeyboardInterrupt] is raised only when [main] ended
    by that cancellation.  One interrupt is modelled, and it arrives while
    [main] waits for the inhibit task and that task has not ended; what a
    second interrupt, or an interrupt after the inhibit task has ended by
    an exception, does is outside the model, and the theorems on the
    shutdown are about the first interrupt only.  Opening a device fails
    only when the node is absent ([OSError] with errno 2); permission and
    other errors of [evdev.InputDevice] are not distinguished from it, and
    [IdleLock()] at the start of the bridge does not fail: the connection
    to the system bus is taken to be there.  A device and a task are known
    by the number [evdev] or the loop gave them.  There is no garbage collector: a
    device is closed by [close] and by nothing else, so [Leak] speaks of
    what the program does with a device, not of the finalizer that CPython
    runs once no reference to the object is left.

    ** Not modelled

    The threads and the netlink socket of pyudev (an event of the monitor is
    delivered between two handles of the loop), D-Bus marshalling and the
    connection that [IdleLock()] makes, the content of input events, the
    length of the sampling interval, the text of log messages that format
    Python objects (a record keeps the level and the constant part of the
    message), [logging.basicConfig], the delivery of signals, and the
    cancellation of the remaining tasks by [asyncio.run] after [main] has
    ended.  Log records are kept per logger, so the relative order of
    records of different loggers is not represented.  Every line of the
    sources but the imports is the subject of a definition; what remains
    outside is the libraries behind them, of which the model keeps the
    documented behaviour the program relies on.  Fairness of the
    environment (that the timer of the
    inhibit task eventually fires, that udev eventually delivers an event)
    is not assumed and nothing is proved from it. *)

From stdpp Require Export base tactics option list strings gmap.

#[export] Set Warnings "-clear-no-such-hyp".

(** ** Python exceptions and results *)

Inductive exn : Type :=
  | KeyError (key : string)
  | AttributeError (attr : string)
  | ValueError (what : string)
  | OSError (errno : Z)
  | TypeError
  | DBusException
  | CancelledError
  | KeyboardInterrupt.

#[export] Instance exn_eq_dec : EqDecision exn.
Proof. solve_decision. Defined.

Inductive res (A : Type) : Type :=
  | Ok (a : A)
  | Raise (e : exn).
Arguments Ok {A} a.
Arguments Raise {A} e.

#[export] Instance res_eq_dec `{EqDecision A} : EqDecision (res A).
Proof. solve_decision. Defined.

Definition is_ok {A} (r : res A) : bool :=
  match r with Ok _ => true | Raise _ => false end.

Definition raised {A} (r : res A) : option exn :=
  match r with Ok _ => None | Raise e => Some e end.

(** ** The state-and-exception monad

    A computation takes the state and returns its result with the state it
    reached: an exception does not roll the state back. *)

Definition M (S A : Type) : Type := S → res A * S.

Definition ret {S A} (a : A) : M S A := λ s, (Ok a, s).

Definition bind {S A B} (m : M S A) (k : A → M S B) : M S B :=
  λ s, match m s with
       | (Ok a, s') => k a s'
       | (Raise e, s') => (Raise e, s')
       end.

Definition raise {S A} (e : exn) : M S A := λ s, (Raise e, s).

Definition gets {S A} (f : S → A) : M S A := λ s, (Ok (f s), s).

Definition modify {S} (f : S → S) : M S unit := λ s, (Ok tt, f s).

(** [try: m except ...: h]: the handler [h] says which exceptions it
    catches; the others propagate. *)
Definition try_except {S A} (m : M S A) (h : exn → option (M S A)) : M S A :=
  λ s, match m s with
       | (Ok a, s') => (Ok a, s')
       | (Raise e, s') =>
           match h e with
           | Some k => k s'
           | None => (Raise e, s')
           end
       end.

(** [for x in xs: body x]: the first exception ends the loop. *)
Fixpoint for_each {S A} (xs : list A) (body : A → M S unit) : M S unit :=
  match xs with
  | [] => ret tt
  | x :: xs' => bind (body x) (λ _, for_each xs' body)
  end.

Definition exec {S A} (m : M S A) (s : S) : S := (m s).2.
Definition eval {S A} (m : M S A) (s : S) : res A := (m s).1.

Declare Scope py_scope.
Delimit Scope py_scope with py.
Notation "'let*' x := c 'in' k" := (bind c (λ x, k))
  (at level 10, x name, c at level 100, k at level 200) : py_scope.
Notation "c ;; k" := (bind c (λ _, k))
  (at level 100, right associativity) : py_scope.
Open Scope py_scope.

(** ** Lenses: a component's state inside a larger one *)

Record lens (S T : Type) : Type := Lens {
  view : S → T;
  set : T → S → S;
}.
Arguments Lens {S T} view set.
Arguments view {S T} l s.
Arguments set {S T} l t s.

Class LensLaws {S T} (l : lens S T) : Prop := {
  view_set t s : view l (set l t s) = t;
  set_view s : set l (view l s) s = s;
  set_set t t' s : set l t' (set l t s) = set l t' s;
}.

Definition zoom {S T A} (l : lens S T) (m : M T A) : M S A :=
  λ s, let '(r, t) := m (view l s) in (r, set l t s).

(** ** Logging: the records a logger has emitted, oldest first *)

Inductive level : Type := INFO | WARNING | ERROR.

#[export] Instance level_eq_dec : EqDecision level.
Proof. solve_decision. Defined.

Definition logger : Type := list (level * string).

Definition emit (lv : level) (msg : string) (lg : logger) : logger :=
  lg ++ [(lv, msg)].

(** ** Tactics and hints *)

Create HintDb py discriminated.
Create Rewrite HintDb py_rw.

#[export] Hint Unfold ret bind raise gets modify try_except exec eval zoom : py.

(** Unfold the monad's combinators in the goal and in the hypotheses. *)
Ltac py_unfold :=
  unfold exec, eval, zoom, try_except, bind, ret, raise, gets, modify in *.

(** Case analysis on the next run of a computation the goal is stuck on. *)
Ltac py_step :=
  match goal with
  | |- context [match ?m ?s with _ => _ end] =>
      destruct (m s) as [[?|?] ?] eqn:?; simpl in *
  | |- context [let '(_, _) := ?m ?s in _] =>
      destruct (m s) as [? ?] eqn:?; simpl in *
  end.

(** ** Laws of the monad, pointwise *)

Section monad_laws.
Context {S A B C : Type}.
Implicit Types (m : M S A) (k : A → M S B) (s : S).

Lemma bind_ret_l a k s : bind (ret a) k s = k a s.
Proof. reflexivity. Qed.

Lemma bind_ret_r m s : bind m ret s = m s.
Proof. py_unfold. by destruct (m s) as [[?|?] ?]. Qed.

Lemma bind_assoc m k (k' : B → M S C) s :
  bind (bind m k) k' s = bind m (λ a, bind (k a) k') s.
Proof. py_unfold. by destruct (m s) as [[?|?] ?]. Qed.

Lemma bind_raise e k s : bind (raise e) k s = (Raise e, s).
Proof. reflexivity. Qed.

Lemma bind_ok m k s a s' : m s = (Ok a, s') → bind m k s = k a s'.
Proof. intros Hm. unfold bind. by rewrite Hm. Qed.

Lemma bind_err m k s e s' : m s = (Raise e, s') → bind m k s = (Raise e, s').
Proof. intros Hm. unfold bind. by rewrite Hm. Qed.

Lemma try_except_ok m h s a s' :
  m s = (Ok a, s') → try_except m h s = (Ok a, s').
Proof. intros Hm. unfold try_except. by rewrite Hm. Qed.

Lemma try_except_caught m h s e s' (k' : M S A) :
  m s = (Raise e, s') → h e = Some k' → try_except m h s = k' s'.
Proof. intros Hm Hh. unfold try_except. by rewrite Hm, Hh. Qed.

Lemma try_except_uncaught m h s e s' :
  m s = (Raise e, s') → h e = None → try_except m h s = (Raise e, s').
Proof. intros Hm Hh. unfold try_except. by rewrite Hm, Hh. Qed.
End monad_laws.

#[export] Hint Rewrite @bind_ret_l @bind_raise : py_rw.

(** ** Loops *)

Section for_each.
Context {S A : Type}.
Implicit Types (body : A → M S unit) (xs : list A).

Lemma for_each_app xs ys body s :
  for_each (xs ++ ys) body s
  = bind (for_each xs body) (λ _, for_each ys body) s.
Proof.
  revert s. induction xs as [|x xs IH]; intros s; simpl.
  - done.
  - rewrite bind_assoc. unfold bind at 1 2.
    destruct (body x s) as [[[]|e] s']; [apply IH|done].
Qed.

(** An invariant of the body, whatever it returns, is one of the loop. *)
Lemma for_each_preserves (I : S → Prop) xs body :
  (∀ x s, x ∈ xs → I s → I (exec (body x) s)) →
  ∀ s, I s → I (exec (for_each xs body) s).
Proof.
  unfold exec. induction xs as [|x xs IH]; intros Hb s HI; simpl; [done|].
  unfold bind. specialize (Hb x s (list_elem_of_here _ _) HI) as Hx.
  destruct (body x s) as [[[]|e] s']; simpl in *; [|done].
  apply IH; [|done]. intros y s0 Hy. apply Hb. by apply list_elem_of_further.
Qed.

(** What a loop raises, its body raised. *)
Lemma for_each_raises (P : exn → Prop) xs body :
  (∀ x s e, x ∈ xs → eval (body x) s = Raise e → P e) →
  ∀ s e, eval (for_each xs body) s = Raise e → P e.
Proof.
  unfold eval. induction xs as [|x xs IH]; intros Hb s e; simpl; [done|].
  unfold bind. pose proof (Hb x s) as Hx.
  destruct (body x s) as [[[]|e'] s']; simpl in *.
  - apply IH. intros y s0 e0 Hy. apply Hb. by apply list_elem_of_further.
  - intros [= <-]. apply Hx; [apply list_elem_of_here|done].
Qed.

(** A loop whose body never raises runs to its end. *)
Lemma for_each_ok xs body :
  (∀ x s, x ∈ xs → is_ok (eval (body x) s) = true) →
  ∀ s, eval (for_each xs body) s = Ok tt.
Proof.
  unfold eval. induction xs as [|x xs IH]; intros Hb s; simpl; [done|].
  unfold bind. specialize (Hb x s (list_elem_of_here _ _)) as Hx.
  destruct (body x s) as [[[]|e] s']; simpl in *; [|done].
  apply IH. intros y s0 Hy. apply Hb. by apply list_elem_of_further.
Qed.
End for_each.

(** ** Zooming *)

Section zoom.
Context {S T A B : Type} (l : lens S T) `{!LensLaws l}.

Lemma zoom_ret (a : A) s : zoom l (ret a) s = (Ok a, s).
Proof. unfold zoom, ret. by rewrite set_view. Qed.

Lemma zoom_bind (m : M T A) (k : A → M T B) s :
  zoom l (bind m k) s = bind (zoom l m) (λ a, zoom l (k a)) s.
Proof.
  unfold zoom, bind. destruct (m (view l s)) as [[a|e] t]; [|done].
  rewrite view_set. destruct (k a t) as [r t']. by rewrite set_set.
Qed.

Lemma zoom_view (m : M T A) s : view l (exec (zoom l m) s) = exec m (view l s).
Proof.
  unfold exec, zoom. destruct (m (view l s)) as [r t]. apply view_set.
Qed.

Lemma zoom_eval (m : M T A) s : eval (zoom l m) s = eval m (view l s).
Proof. unfold eval, zoom. by destruct (m (view l s)). Qed.
End zoom.

(** ** Lists *)

Lemma filter_Forall_id {A} (P : A → Prop) `{∀ x, Decision (P x)} (l : list A) :
  Forall P l → filter P l = l.
Proof.
  induction 1 as [|x l Hx _ IH]; [done|].
  rewrite filter_cons_True by done. by rewrite IH.
Qed.

Lemma filter_Forall_nil {A} (P : A → Prop) `{∀ x, Decision (P x)} (l : list A) :
  Forall (λ x, ¬ P x) l → filter P l = [].
Proof.
  induction 1 as [|x l Hx _ IH]; [done|].
  by rewrite filter_cons_False by done.
Qed.

Lemma sum_list_app (xs ys : list nat) :
  sum_list (xs ++ ys) = sum_list xs + sum_list ys.
Proof. induction xs as [|x xs IH]; simpl; lia. Qed.

Lemma emit_length lv msg lg : length (emit lv msg lg) = Datatypes.S (length lg).
Proof. unfold emit. rewrite length_app. simpl. lia. Qed.

Lemma emit_last lv msg lg : last (emit lv msg lg) = Some (lv, msg).
Proof. unfold emit. apply last_snoc. Qed.

Lemma emit_prefix lv msg lg : lg `prefix_of` emit lv msg lg.
Proof. by apply prefix_app_r. Qed.
