(* ===== verification/PyDict.v ===== *)
(** * PyDict: Python's insertion-ordered dictionary

    [self.tasks] and [self.devices] of [GamepadsWatcher] are Python [dict]s.
    The watcher iterates over them ([list(self.tasks.keys())],
    [list(self.tasks.values())]), so their order matters: a dictionary is
    modelled as an association list in insertion order with unique keys.
    Assigning to a present key keeps its position, assigning to an absent key
    appends, deleting an absent key fails ([None] here, [KeyError] in the
    methods that call it).  [dict_map] is the abstraction to a finite map;
    the lemmas of this file let the components reason with [gmap] lookups. *)

From S2P Require Import Prelude.

Abbreviation pydict K V := (list (K * V)).

Section pydict.
Context `{Countable K} {V : Type}.
Implicit Types (k : K) (v : V) (d : pydict K V).

(** [d.get(k)], without the default. *)
Fixpoint dict_get k d : option V :=
  match d with
  | [] => None
  | (k', v) :: d' => if decide (k = k') then Some v else dict_get k d'
  end.

(** [d[k] = v]. *)
Fixpoint dict_set k v d : pydict K V :=
  match d with
  | [] => [(k, v)]
  | (k', v') :: d' =>
      if decide (k = k') then (k, v) :: d' else (k', v') :: dict_set k v d'
  end.

(** [del d[k]]; [None] stands for [KeyError]. *)
Fixpoint dict_del k d : option (pydict K V) :=
  match d with
  | [] => None
  | (k', v') :: d' =>
      if decide (k = k') then Some d'
      else match dict_del k d' with
           | Some d'' => Some ((k', v') :: d'')
           | None => None
           end
  end.

(** [list(d.keys())] and [list(d.values())]. *)
Definition dict_keys d : list K := d.*1.
Definition dict_values d : list V := d.*2.

Definition dict_wf d : Prop := NoDup (dict_keys d).

#[global] Instance dict_wf_dec d : Decision (dict_wf d).
Proof. unfold dict_wf. apply _. Defined.

(** The finite map a dictionary denotes. *)
Definition dict_map d : gmap K V := list_to_map d.

(** ** Lookup *)

Lemma dict_get_map k d : dict_get k d = dict_map d !! k.
Proof.
  unfold dict_map. induction d as [|[k' v'] d IH]; simpl; [done|].
  case_decide as Hk.
  - subst. by rewrite lookup_insert_eq.
  - by rewrite lookup_insert_ne.
Qed.

Lemma dict_get_keys k d : k ∈ dict_keys d ↔ is_Some (dict_get k d).
Proof.
  rewrite dict_get_map, <-not_eq_None_Some. unfold dict_keys, dict_map.
  rewrite <-(not_elem_of_list_to_map (M:=gmap K)).
  destruct (decide (k ∈ d.*1)); naive_solver.
Qed.

Lemma dict_get_None_keys k d : dict_get k d = None ↔ k ∉ dict_keys d.
Proof. rewrite dict_get_keys, eq_None_not_Some. done. Qed.

Lemma dict_get_elem k v d : dict_wf d → (k, v) ∈ d ↔ dict_get k d = Some v.
Proof.
  intros Hwf. rewrite dict_get_map. unfold dict_map.
  by rewrite <-elem_of_list_to_map.
Qed.

Lemma dict_values_elem v d :
  dict_wf d → v ∈ dict_values d ↔ ∃ k, dict_get k d = Some v.
Proof.
  intros Hwf. unfold dict_values. rewrite list_elem_of_fmap. split.
  - intros ([k v'] & -> & Hin). exists k. by apply dict_get_elem.
  - intros (k & Hk). exists (k, v). split; [done|]. by apply dict_get_elem.
Qed.

(** ** Assignment *)

Lemma dict_set_map k v d : dict_map (dict_set k v d) = <[k:=v]> (dict_map d).
Proof.
  unfold dict_map. induction d as [|[k' v'] d IH]; simpl; [done|].
  case_decide as Hk; simpl.
  - subst. by rewrite insert_insert_eq.
  - rewrite IH. by apply insert_insert_ne.
Qed.

Lemma dict_get_set k k' v d :
  dict_get k' (dict_set k v d) = if decide (k = k') then Some v else dict_get k' d.
Proof. rewrite !dict_get_map, dict_set_map. apply lookup_insert. Qed.

Lemma dict_set_keys k v d :
  dict_keys (dict_set k v d)
  = if decide (k ∈ dict_keys d) then dict_keys d else dict_keys d ++ [k].
Proof.
  unfold dict_keys. induction d as [|[k' v'] d IH]; [done|]. cbn [dict_set].
  destruct (decide (k = k')) as [->|Hk]; csimpl.
  - by rewrite decide_True by set_solver.
  - rewrite IH. destruct (decide (k ∈ d.*1));
      [rewrite decide_True by set_solver|rewrite decide_False by set_solver];
      done.
Qed.

Lemma dict_set_wf k v d : dict_wf d → dict_wf (dict_set k v d).
Proof.
  unfold dict_wf. rewrite dict_set_keys. case_decide as Hk; [done|].
  intros Hwf. apply NoDup_app. split_and!; [done| |apply NoDup_singleton].
  intros x Hx ->%list_elem_of_singleton. done.
Qed.

(** ** Deletion *)

Lemma dict_del_None k d : dict_del k d = None ↔ dict_get k d = None.
Proof.
  induction d as [|[k' v'] d IH]; simpl; [done|].
  case_decide; [done|]. destruct (dict_del k d); naive_solver.
Qed.

Lemma dict_del_is_Some k d : is_Some (dict_del k d) ↔ is_Some (dict_get k d).
Proof. rewrite <-!not_eq_None_Some, dict_del_None. done. Qed.

Lemma dict_del_keys k d d' :
  dict_del k d = Some d' → dict_wf d →
  dict_keys d' = filter (λ x, x ≠ k) (dict_keys d).
Proof.
  unfold dict_wf, dict_keys. revert d'.
  induction d as [|[k' v'] d IH]; intros d' Hdel Hwf; [done|].
  cbn [dict_del] in Hdel. csimpl in *.
  apply NoDup_cons in Hwf as [Hk' Hwf]. case_decide as Hk.
  - simplify_eq. rewrite filter_cons_False by naive_solver.
    symmetry. apply filter_Forall_id.
    apply Forall_forall. intros x Hx ->. done.
  - destruct (dict_del k d) as [d''|] eqn:Hd; simplify_eq. csimpl.
    rewrite filter_cons_True by naive_solver. f_equal. by apply IH.
Qed.

Lemma dict_del_wf k d d' : dict_del k d = Some d' → dict_wf d → dict_wf d'.
Proof.
  intros Hdel Hwf. unfold dict_wf. rewrite (dict_del_keys k d d') by done.
  by apply NoDup_filter.
Qed.

Lemma dict_del_map k d d' :
  dict_del k d = Some d' → dict_wf d → dict_map d' = delete k (dict_map d).
Proof.
  unfold dict_wf, dict_keys, dict_map. revert d'.
  induction d as [|[k' v'] d IH]; intros d' Hdel Hwf; [done|].
  cbn [dict_del] in Hdel. csimpl in *.
  apply NoDup_cons in Hwf as [Hk' Hwf]. case_decide as Hk.
  - simplify_eq. rewrite delete_insert_eq. symmetry. apply delete_id.
    by apply not_elem_of_list_to_map_1.
  - destruct (dict_del k d) as [d''|] eqn:Hd; simplify_eq. csimpl.
    rewrite (IH d'') by done. by rewrite delete_insert_ne.
Qed.

Lemma dict_get_del k k' d d' :
  dict_del k d = Some d' → dict_wf d →
  dict_get k' d' = if decide (k = k') then None else dict_get k' d.
Proof.
  intros Hdel Hwf. rewrite !dict_get_map, (dict_del_map k d d') by done.
  apply lookup_delete.
Qed.

(** ** Round trips *)

(** Assigning to an absent key appends the item. *)
Lemma dict_set_fresh k v d : dict_get k d = None → dict_set k v d = d ++ [(k, v)].
Proof.
  induction d as [|[k' v'] d IH]; simpl; [done|].
  case_decide; [done|]. intros Hk. by rewrite IH.
Qed.

(** Deleting a key that was absent before it was assigned gives the
    dictionary back, in the same order. *)
Lemma dict_del_set_fresh k v d :
  dict_get k d = None → dict_del k (dict_set k v d) = Some d.
Proof.
  induction d as [|[k' v'] d IH]; simpl; [by rewrite decide_True|].
  case_decide; [done|]. intros Hk. simpl. rewrite decide_False by done.
  by rewrite IH.
Qed.

(** Assigning what a key holds changes nothing. *)
Lemma dict_set_get k v d : dict_get k d = Some v → dict_set k v d = d.
Proof.
  induction d as [|[k' v'] d IH]; simpl; [done|].
  case_decide; [by intros [= ->]; subst|]. intros Hk. by rewrite IH.
Qed.

(** ** The empty dictionary *)

Lemma dict_wf_nil : dict_wf ([] : pydict K V).
Proof. apply NoDup_nil_2. Qed.

Lemma dict_map_nil : dict_map ([] : pydict K V) = ∅.
Proof. done. Qed.
End pydict.

#[export] Hint Resolve dict_set_wf dict_del_wf dict_wf_nil : py.
#[export] Hint Rewrite @dict_get_set : py_rw.
