(* ===== verification/Asyncio.v ===== *)
(** * Asyncio: tasks and the ready queue of the event loop

    The program runs on one asyncio event loop.  This file models the part
    of it that the sources rely on, from asyncio's documented behaviour:

    - the loop keeps a FIFO queue [ready] of handles and runs them one at a
      time, so a callback is atomic with respect to the others;
    - [create_task] makes a task and queues its first step;
    - [cancel] on a task that waits in an [await] cancels what it waits for,
      which queues a step that throws [CancelledError] into the coroutine;
      on a task whose step is already queued it only sets [must_cancel];
      on a finished task it does nothing and returns [False];
    - when a coroutine returns or raises, the task is done and its done
      callbacks are queued, in the order they were added, with the task as
      argument ([finish]);
    - [add_done_callback] on a finished task queues the callback at once.

    The file is generic in the type [C] of callbacks and the type [X] of
    what a task runs; [Watcher] instantiates both.  Wake-ups by input and
    output are events of the environment ([System]), not handles. *)

From S2P Require Import Prelude.

(** What the loop has been asked to run: a step of a task, a callback
    queued by [call_soon], or a done callback with the task it is for. *)
Inductive handle (C : Type) : Type :=
  | Step (t : nat)
  | Call (c : C)
  | CallDone (c : C) (future : nat).
Arguments Step {C} t.
Arguments Call {C} c.
Arguments CallDone {C} c future.

#[export] Instance handle_eq_dec `{EqDecision C} : EqDecision (handle C).
Proof. solve_decision. Defined.

Record task (C X : Type) : Type := Task {
  t_started : bool;      (* the coroutine has run to its first await *)
  t_must_cancel : bool;  (* a cancellation is on its way to the coroutine *)
  t_done : bool;
  t_callbacks : list C;
  t_coro : X;
}.
Arguments Task {C X} t_started t_must_cancel t_done t_callbacks t_coro.
Arguments t_started {C X} _.
Arguments t_must_cancel {C X} _.
Arguments t_done {C X} _.
Arguments t_callbacks {C X} _.
Arguments t_coro {C X} _.

Record loop (C X : Type) : Type := Loop {
  l_tasks : gmap nat (task C X);
  l_next : nat;
  l_ready : list (handle C);
}.
Arguments Loop {C X} l_tasks l_next l_ready.
Arguments l_tasks {C X} _.
Arguments l_next {C X} _.
Arguments l_ready {C X} _.

Section asyncio.
Context {C X : Type}.
Implicit Types (l : loop C X) (t : nat) (tk : task C X) (c : C).

Definition new_loop : loop C X := Loop ∅ 0 [].

Definition enqueue (hs : list (handle C)) l : loop C X :=
  Loop (l_tasks l) (l_next l) (l_ready l ++ hs).

Definition set_task t tk l : loop C X :=
  Loop (<[t := tk]> (l_tasks l)) (l_next l) (l_ready l).

(** [loop.call_soon(c)] and [loop.call_soon_threadsafe(c)]. *)
Definition call_soon c : M (loop C X) unit := modify (enqueue [Call c]).

(** [asyncio.create_task(coro)]. *)
Definition create_task (x : X) : M (loop C X) nat :=
  λ l, let t := l_next l in
       (Ok t, Loop (<[t := Task false false false [] x]> (l_tasks l))
                   (S t) (l_ready l ++ [Step t])).

(** [task.add_done_callback(c)]. *)
Definition add_done_callback t c : M (loop C X) unit :=
  λ l, match l_tasks l !! t with
       | None => (Ok tt, l)
       | Some tk =>
           if t_done tk then (Ok tt, enqueue [CallDone c t] l)
           else (Ok tt, set_task t (Task (t_started tk) (t_must_cancel tk)
                                         false (t_callbacks tk ++ [c])
                                         (t_coro tk)) l)
       end.

(** [task.cancel()]. *)
Definition cancel t : M (loop C X) bool :=
  λ l, match l_tasks l !! t with
       | None => (Ok false, l)
       | Some tk =>
           if t_done tk then (Ok false, l)
           else
             let tk' := Task (t_started tk) true false (t_callbacks tk)
                             (t_coro tk) in
             if t_started tk && negb (t_must_cancel tk)
             then (Ok true, enqueue [Step t] (set_task t tk' l))
             else (Ok true, set_task t tk' l)
       end.

(** The coroutine of [t] returned or raised: the task is done and its done
    callbacks are queued. *)
Definition finish t : M (loop C X) unit :=
  λ l, match l_tasks l !! t with
       | None => (Ok tt, l)
       | Some tk =>
           (Ok tt, enqueue ((λ c, CallDone c t) <$> t_callbacks tk)
                     (set_task t (Task (t_started tk) false true []
                                       (t_coro tk)) l))
       end.

(** The coroutine of [t] ran to its first await. *)
Definition mark_started t : M (loop C X) unit :=
  λ l, match l_tasks l !! t with
       | None => (Ok tt, l)
       | Some tk =>
           (Ok tt, set_task t (Task true (t_must_cancel tk) (t_done tk)
                                    (t_callbacks tk) (t_coro tk)) l)
       end.

(** The loop takes the oldest handle off the queue. *)
Definition pop_ready : M (loop C X) (option (handle C)) :=
  λ l, match l_ready l with
       | [] => (Ok None, l)
       | h :: hs => (Ok (Some h), Loop (l_tasks l) (l_next l) hs)
       end.

(** Is the task finished?  (An unknown task counts as finished.) *)
Definition is_done t l : bool :=
  match l_tasks l !! t with Some tk => t_done tk | None => true end.

(** What [cancel] does to a task. *)
Definition cancelled tk : task C X :=
  if t_done tk then tk
  else Task (t_started tk) true false (t_callbacks tk) (t_coro tk).

(** Task identifiers are below [l_next]. *)
Definition loop_fresh l : Prop := ∀ t, is_Some (l_tasks l !! t) → t < l_next l.

(** ** Lemmas *)

Lemma create_task_fresh l :
  loop_fresh l → l_tasks l !! (l_next l) = None.
Proof.
  intros Hf. destruct (l_tasks l !! l_next l) eqn:E; [|done].
  specialize (Hf (l_next l) (mk_is_Some _ _ E)). lia.
Qed.

Lemma loop_fresh_insert_next tk hs l :
  loop_fresh l →
  loop_fresh (Loop (<[l_next l := tk]> (l_tasks l)) (S (l_next l)) hs).
Proof.
  intros Hf t. simpl. rewrite lookup_insert. case_decide; [lia|].
  intros Ht%Hf. lia.
Qed.

Lemma create_task_loop_fresh x l : loop_fresh l → loop_fresh (exec (create_task x) l).
Proof. apply loop_fresh_insert_next. Qed.

Lemma set_task_loop_fresh t tk l :
  is_Some (l_tasks l !! t) → loop_fresh l → loop_fresh (set_task t tk l).
Proof.
  intros Ht Hf t'. unfold set_task. simpl.
  rewrite lookup_insert. case_decide; [subst; intros _; by apply Hf|apply Hf].
Qed.

Lemma cancel_done t l : is_done t l = true → cancel t l = (Ok false, l).
Proof.
  unfold is_done, cancel. destruct (l_tasks l !! t) as [tk|]; [|done].
  by intros ->.
Qed.

Lemma cancel_next t l : l_next (exec (cancel t) l) = l_next l.
Proof.
  unfold exec, cancel. destruct (l_tasks l !! t) as [tk|]; [|done].
  destruct (t_done tk); [done|]. by destruct (t_started tk && _).
Qed.

Lemma cancelled_idemp tk : cancelled (cancelled tk) = cancelled tk.
Proof. unfold cancelled. destruct (t_done tk) eqn:Hd; simpl; by rewrite ?Hd. Qed.

Lemma cancelled_done tk : t_done (cancelled tk) = t_done tk.
Proof. unfold cancelled. by destruct (t_done tk) eqn:Hd. Qed.

Lemma cancelled_callbacks tk : t_callbacks (cancelled tk) = t_callbacks tk.
Proof. unfold cancelled. by destruct (t_done tk). Qed.

Lemma cancelled_coro tk : t_coro (cancelled tk) = t_coro tk.
Proof. unfold cancelled. by destruct (t_done tk). Qed.

Lemma cancelled_started tk : t_started (cancelled tk) = t_started tk.
Proof. unfold cancelled. by destruct (t_done tk). Qed.

Lemma cancelled_must_cancel tk :
  t_must_cancel (cancelled tk) = if t_done tk then t_must_cancel tk else true.
Proof. unfold cancelled. by destruct (t_done tk). Qed.

Lemma cancel_lookup t t' l :
  l_tasks (exec (cancel t) l) !! t'
  = if decide (t = t') then cancelled <$> l_tasks l !! t' else l_tasks l !! t'.
Proof.
  unfold exec, cancel, cancelled. destruct (l_tasks l !! t) as [tk|] eqn:E.
  - destruct (t_done tk) eqn:Hd; simpl.
    + case_decide; [subst; by rewrite E; simpl; rewrite Hd|done].
    + destruct (t_started tk && _); simpl; rewrite lookup_insert;
        case_decide; subst; rewrite ?E; simpl; by rewrite ?Hd.
  - simpl. case_decide; [subst; by rewrite E|done].
Qed.

Lemma cancel_ready t l :
  l_ready (exec (cancel t) l)
  = l_ready l ++
    match l_tasks l !! t with
    | Some tk =>
        if negb (t_done tk) && t_started tk && negb (t_must_cancel tk)
        then [Step t] else []
    | None => []
    end.
Proof.
  unfold exec, cancel. destruct (l_tasks l !! t) as [tk|]; simpl;
    [|by rewrite app_nil_r].
  destruct (t_done tk); simpl; [by rewrite app_nil_r|].
  destruct (t_started tk && _); simpl; by rewrite ?app_nil_r.
Qed.

Lemma cancel_ok t l : is_ok (eval (cancel t) l) = true.
Proof.
  unfold eval, cancel. destruct (l_tasks l !! t) as [tk|]; [|done].
  destruct (t_done tk); [done|]. by destruct (t_started tk && _).
Qed.
End asyncio.
