(* ===== verification/Evdev.v ===== *)
(** * Evdev: device nodes and open input devices

    [evdev.InputDevice(path)] opens a device node and [close()] closes it.
    The model keeps the device nodes that exist, with their names, and the
    [InputDevice] objects the program has made.  Opening a path that has no
    node raises [OSError] with errno 2; closing twice is allowed, as in
    python-evdev.  Modelled from the library's documented behaviour. *)

From S2P Require Import Prelude.

Record InputDevice : Type := Build_InputDevice {
  d_path : string;
  d_name : string;
  d_open : bool;
}.

#[export] Instance InputDevice_eq_dec : EqDecision InputDevice.
Proof. solve_decision. Defined.

Record evdev : Type := Evdev {
  nodes : gmap string string;        (* device node -> device name *)
  handles : gmap nat InputDevice;    (* the objects made so far *)
  next_handle : nat;
}.

Definition new_evdev (nodes : gmap string string) : evdev := Evdev nodes ∅ 0.

(** [evdev.InputDevice(path)]. *)
Definition open (path : string) : M evdev nat :=
  λ e, match nodes e !! path with
       | None => (Raise (OSError 2), e)
       | Some name =>
           let h := next_handle e in
           (Ok h, Evdev (nodes e)
                        (<[h := Build_InputDevice path name true]> (handles e))
                        (S h))
       end.

(** [device.close()]. *)
Definition close (h : nat) : M evdev unit :=
  λ e, match handles e !! h with
       | None => (Ok tt, e)
       | Some d =>
           (Ok tt, Evdev (nodes e)
                         (<[h := Build_InputDevice (d_path d) (d_name d) false]>
                            (handles e))
                         (next_handle e))
       end.

(** [device.name], the empty string for an object that was never made. *)
Definition name_of (h : nat) (e : evdev) : string :=
  match handles e !! h with Some d => d_name d | None => EmptyString end.

Definition is_open (h : nat) (e : evdev) : bool :=
  match handles e !! h with Some d => d_open d | None => false end.

(** A device node appears or disappears. *)
Definition plug (path name : string) (e : evdev) : evdev :=
  Evdev (<[path := name]> (nodes e)) (handles e) (next_handle e).

Definition unplug (path : string) (e : evdev) : evdev :=
  Evdev (delete path (nodes e)) (handles e) (next_handle e).

Definition evdev_fresh (e : evdev) : Prop :=
  ∀ h, is_Some (handles e !! h) → h < next_handle e.

Lemma open_Ok path e h e' :
  open path e = (Ok h, e') →
  h = next_handle e ∧ is_Some (nodes e !! path)
  ∧ is_open h e' = true
  ∧ (∀ h', h' ≠ h → handles e' !! h' = handles e !! h').
Proof.
  unfold open, is_open. destruct (nodes e !! path) as [name|]; [|done].
  intros [= <- <-]. simpl. rewrite lookup_insert_eq.
  split_and!; [done..|]. intros h' Hh'. by rewrite lookup_insert_ne.
Qed.

Lemma open_Raise path e x e' :
  open path e = (Raise x, e') → x = OSError 2 ∧ e' = e ∧ nodes e !! path = None.
Proof.
  unfold open. destruct (nodes e !! path) as [name|] eqn:E; [done|].
  by intros [= <- <-].
Qed.

Lemma open_fresh path e : evdev_fresh e → evdev_fresh (exec (open path) e).
Proof.
  intros Hf h. unfold exec, open. destruct (nodes e !! path); simpl; [|apply Hf].
  rewrite lookup_insert. case_decide; [lia|]. intros Hh%Hf. lia.
Qed.

Lemma close_fresh h e : evdev_fresh e → evdev_fresh (exec (close h) e).
Proof.
  intros Hf h'. unfold exec, close.
  destruct (handles e !! h) as [d|] eqn:E; simpl; [|apply Hf].
  rewrite lookup_insert. case_decide; [subst; intros _; by apply Hf|apply Hf].
Qed.

Lemma close_lookup h h' e :
  handles (exec (close h) e) !! h'
  = if decide (h = h')
    then (λ d, Build_InputDevice (d_path d) (d_name d) false) <$> handles e !! h'
    else handles e !! h'.
Proof.
  unfold exec, close. destruct (handles e !! h) as [d|] eqn:E; simpl.
  - rewrite lookup_insert. case_decide; [subst; by rewrite E|done].
  - case_decide; [subst; by rewrite E|done].
Qed.

Lemma close_next h e : next_handle (exec (close h) e) = next_handle e.
Proof. unfold exec, close. by destruct (handles e !! h). Qed.

Lemma close_closed h e : is_open h (exec (close h) e) = false.
Proof.
  unfold exec, close, is_open. destruct (handles e !! h) as [d|] eqn:E; simpl.
  - by rewrite lookup_insert_eq.
  - by rewrite E.
Qed.

Lemma close_ok h e : eval (close h) e = Ok tt.
Proof. unfold eval, close. by destruct (handles e !! h). Qed.
