(* ===== verification/Watcher.v ===== *)
(** * Watcher: the activity monitor supervisor

    Class [GamepadsWatcher] of [src/gamepad-lock-inhibit.py] (lines 65-145).
    Module [GamepadsWatcher] has the record of the object's attributes and
    one definition per method, under the method's name.  The methods run in
    the monad [M world]: [world] holds the object ([w_self]), the event loop
    it creates tasks on ([w_loop]) and the evdev devices it opens
    ([w_evdev]).

    The coroutine [monitor_gamepad_events] is modelled one resumption at a
    time: [resume] says what wakes it (its first step, an input event, a
    cancellation, a read error) and the result says whether it is still
    running.  [stop] is the part of the method before its [await]; it
    returns the tasks the [await asyncio.gather] waits for. *)

From S2P Require Import Prelude PyDict Asyncio Evdev.

Module GamepadsWatcher.

(** The callbacks the program hands to the loop: the bound methods
    [watcher.add_device] and [watcher.remove_device] applied to a path (by
    [GamepadsFinder] through [call_soon_threadsafe]) and
    [partial(self.finish_removing_device, device)]. *)
Inductive callback : Type :=
  | cb_add_device (device : string)
  | cb_remove_device (device : string)
  | cb_finish_removing_device (device : string).

#[global] Instance callback_eq_dec : EqDecision callback.
Proof. solve_decision. Defined.

Record GamepadsWatcher : Type := Build {
  logger : Prelude.logger;
  gamepad_active : bool;
  started : bool;
  tasks : pydict string (option nat);
  devices : pydict string nat;
}.

Record world : Type := World {
  w_self : GamepadsWatcher;
  w_loop : loop callback nat;
  w_evdev : evdev;
}.

Definition self_lens : lens world GamepadsWatcher :=
  Lens w_self (λ x w, World x (w_loop w) (w_evdev w)).
Definition loop_lens : lens world (loop callback nat) :=
  Lens w_loop (λ x w, World (w_self w) x (w_evdev w)).
Definition evdev_lens : lens world evdev :=
  Lens w_evdev (λ x w, World (w_self w) (w_loop w) x).

(** ** Attribute access *)

Definition log (lv : level) (msg : string) : M world unit :=
  zoom self_lens (modify (λ s,
    Build (emit lv msg (logger s)) (gamepad_active s) (started s) (tasks s)
          (devices s))).

Definition set_gamepad_active (b : bool) : M world unit :=
  zoom self_lens (modify (λ s,
    Build (logger s) b (started s) (tasks s) (devices s))).

Definition set_started (b : bool) : M world unit :=
  zoom self_lens (modify (λ s,
    Build (logger s) (gamepad_active s) b (tasks s) (devices s))).

Definition set_tasks (d : pydict string (option nat)) : M world unit :=
  zoom self_lens (modify (λ s,
    Build (logger s) (gamepad_active s) (started s) d (devices s))).

Definition set_devices (d : pydict string nat) : M world unit :=
  zoom self_lens (modify (λ s,
    Build (logger s) (gamepad_active s) (started s) (tasks s) d)).

(** [self.tasks[device] = task] *)
Definition tasks_setitem (device : string) (task : option nat) : M world unit :=
  let* d := gets (λ w, tasks (w_self w)) in
  set_tasks (dict_set device task d).

(** [self.tasks.get(device, None)] *)
Definition tasks_get (device : string) : M world (option nat) :=
  gets (λ w, default None (dict_get device (tasks (w_self w)))).

(** [del self.tasks[device]] *)
Definition tasks_delitem (device : string) : M world unit :=
  let* d := gets (λ w, tasks (w_self w)) in
  match dict_del device d with
  | Some d' => set_tasks d'
  | None => raise (KeyError device)
  end.

(** [self.tasks[device]], used as a task *)
Definition tasks_getitem (device : string) : M world nat :=
  let* d := gets (λ w, tasks (w_self w)) in
  match dict_get device d with
  | Some (Some t) => ret t
  | Some None => raise (AttributeError "add_done_callback")
  | None => raise (KeyError device)
  end.

(** [self.devices[device] = gamepad] *)
Definition devices_setitem (device : string) (gamepad : nat) : M world unit :=
  let* d := gets (λ w, devices (w_self w)) in
  set_devices (dict_set device gamepad d).

(** [self.devices[device]] *)
Definition devices_getitem (device : string) : M world nat :=
  let* d := gets (λ w, devices (w_self w)) in
  match dict_get device d with
  | Some h => ret h
  | None => raise (KeyError device)
  end.

(** [del self.devices[device]] *)
Definition devices_delitem (device : string) : M world unit :=
  let* d := gets (λ w, devices (w_self w)) in
  match dict_del device d with
  | Some d' => set_devices d'
  | None => raise (KeyError device)
  end.

(** ** The methods *)

(** [GamepadsWatcher()] *)
Definition init : GamepadsWatcher := Build [] false false [] [].

Definition set_init_devices (devices : list string) : M world unit :=
  for_each devices (λ device, tasks_setitem device None).

Definition create_monitor_task (device : string) : M world unit :=
  let* gamepad := zoom evdev_lens (open device) in
  devices_setitem device gamepad ;;
  let* task := zoom loop_lens (create_task gamepad) in
  tasks_setitem device (Some task) ;;
  let* task' := tasks_getitem device in
  zoom loop_lens (add_done_callback task' (cb_finish_removing_device device)).

Definition add_device (device : string) : M world unit :=
  log INFO ("Adding device " +:+ device) ;;
  let* task := tasks_get device in
  match task with
  | Some _ => log WARNING ("device " +:+ device +:+ " is already present")
  | None =>
      let* started := gets (λ w, started (w_self w)) in
      if negb started then tasks_setitem device None
      else create_monitor_task device
  end.

Definition remove_device (device : string) : M world unit :=
  log INFO ("Removing device " +:+ device) ;;
  let* task := tasks_get device in
  match task with
  | None =>
      try_except (tasks_delitem device)
        (λ e, match e with KeyError _ => Some (ret tt) | _ => None end)
  | Some task =>
      zoom loop_lens (cancel task) ;;
      let* gamepad := devices_getitem device in
      zoom evdev_lens (close gamepad) ;;
      devices_delitem device
  end.

Definition finish_removing_device (device : string) (future : nat) : M world unit :=
  tasks_delitem device.

Definition start : M world unit :=
  set_started true ;;
  let* devices := gets (λ w, dict_keys (tasks (w_self w))) in
  for_each devices (λ device,
    log INFO ("create monitor for " +:+ device) ;;
    create_monitor_task device).

(** [stop], up to its [await]: the result is what [asyncio.gather] is
    given. *)
Definition stop : M world (list (option nat)) :=
  set_started false ;;
  let* tasks := gets (λ w, dict_values (tasks (w_self w))) in
  for_each tasks (λ task,
    match task with
    | Some t => zoom loop_lens (cancel t) ;; ret tt
    | None => raise (AttributeError "cancel")
    end) ;;
  ret tasks.

(** What resumes the coroutine [monitor_gamepad_events]. *)
Inductive resume : Type :=
  | First_step
  | Input_event
  | Cancelled
  | Read_error (errno : Z).

(** One resumption of [monitor_gamepad_events(device)]; the result is
    [true] while the coroutine is still in its loop. *)
Definition monitor_gamepad_events (device : nat) (r : resume) : M world bool :=
  let* name := gets (λ w, name_of device (w_evdev w)) in
  match r with
  | First_step =>
      log INFO ("monitor for " +:+ name +:+ " starts") ;; ret true
  | Input_event =>
      set_gamepad_active true ;; ret true
  | Cancelled =>
      log INFO ("monitor for " +:+ name +:+ " exits") ;; ret false
  | Read_error errno =>
      (if decide (errno = 19%Z)
       then log INFO (name +:+ " disconnected, exit monitor")
       else log ERROR (name +:+ " monitor failed")) ;;
      ret false
  end.

Definition get_and_reset_active : M world bool :=
  let* active := gets (λ w, gamepad_active (w_self w)) in
  set_gamepad_active false ;;
  ret active.


(** The world with one more record in the watcher's log. *)
Definition logged (lv : level) (msg : string) (w : world) : world :=
  exec (log lv msg) w.

(** The world with another [tasks] dictionary. *)
Definition with_tasks (d : pydict string (option nat)) (w : world) : world :=
  exec (set_tasks d) w.

(** The worlds that differ in the log and in the activity flag at most:
    the methods of the watcher, the flag apart, and the loop do not tell
    them apart. *)
Definition same_watcher (w w' : world) : Prop :=
  tasks (w_self w') = tasks (w_self w)
  ∧ devices (w_self w') = devices (w_self w)
  ∧ started (w_self w') = started (w_self w)
  ∧ w_loop w' = w_loop w
  ∧ w_evdev w' = w_evdev w.

#[global] Instance same_watcher_equiv : Equivalence same_watcher.
Proof.
  split.
  - done.
  - by intros w w' (? & ? & ? & ? & ?).
  - intros w1 w2 w3 (? & ? & ? & ? & ?) (? & ? & ? & ? & ?).
    split_and!; congruence.
Qed.

Lemma same_logged lv msg w : same_watcher w (logged lv msg w).
Proof. done. Qed.

(** The task that a [tasks] dictionary holds for a path, if it holds one:
    [None] for an absent path and for the placeholder. *)
Definition entry (d : pydict string (option nat)) (p : string) : option nat :=
  default None (dict_get p d).

Definition task_of (device : string) (w : world) : option nat :=
  entry (tasks (w_self w)) device.

(** The body of the loop of [start]. *)
Definition start_body (device : string) : M world unit :=
  log INFO ("create monitor for " +:+ device) ;; create_monitor_task device.

(** The body of the loop of [stop]. *)
Definition stop_body (task : option nat) : M world unit :=
  match task with
  | Some t => zoom loop_lens (cancel t) ;; ret tt
  | None => raise (AttributeError "cancel")
  end.

(** What a run of the loop of [start] over [ds] has done: task [n + i] and
    handle [m + i] were made for the [i]-th path. *)
Record spawned (ds : list string) (w w' : world) : Prop := {
  sp_next : l_next (w_loop w') = l_next (w_loop w) + length ds;
  sp_next_handle : next_handle (w_evdev w') = next_handle (w_evdev w) + length ds;
  sp_nodes : nodes (w_evdev w') = nodes (w_evdev w);
  sp_ready :
    l_ready (w_loop w')
    = l_ready (w_loop w) ++ (Step <$> seq (l_next (w_loop w)) (length ds));
  sp_started : started (w_self w') = started (w_self w);
  sp_active : gamepad_active (w_self w') = gamepad_active (w_self w);
  sp_new i p :
    ds !! i = Some p →
    task_of p w' = Some (l_next (w_loop w) + i)
    ∧ dict_get p (devices (w_self w')) = Some (next_handle (w_evdev w) + i)
    ∧ l_tasks (w_loop w') !! (l_next (w_loop w) + i)
      = Some (Task false false false [cb_finish_removing_device p]
                   (next_handle (w_evdev w) + i))
    ∧ is_open (next_handle (w_evdev w) + i) (w_evdev w') = true;
  sp_old_tasks p :
    p ∉ ds → dict_get p (tasks (w_self w')) = dict_get p (tasks (w_self w));
  sp_old_devices p :
    p ∉ ds → dict_get p (devices (w_self w')) = dict_get p (devices (w_self w));
  sp_old_loop t :
    t < l_next (w_loop w) → l_tasks (w_loop w') !! t = l_tasks (w_loop w) !! t;
  sp_old_handles h :
    h < next_handle (w_evdev w) →
    handles (w_evdev w') !! h = handles (w_evdev w) !! h;
}.

(** ** Symbolic execution of the methods *)

Ltac unfold_watcher :=
  unfold add_device, remove_device, finish_removing_device, create_monitor_task,
    get_and_reset_active, monitor_gamepad_events, task_of, entry,
    tasks_setitem, tasks_get, tasks_delitem, tasks_getitem,
    devices_setitem, devices_getitem, devices_delitem,
    log, set_gamepad_active, set_started, set_tasks, set_devices in *;
  py_unfold; simpl in *.

Section lemmas.
Implicit Types (w : world) (device : string) (t h : nat).

Lemma create_monitor_task_ok device name w :
  nodes (w_evdev w) !! device = Some name →
  create_monitor_task device w
  = let t := l_next (w_loop w) in
    let h := next_handle (w_evdev w) in
    let s := w_self w in
    (Ok tt,
     World (Build (logger s) (gamepad_active s) (started s)
                  (dict_set device (Some t) (tasks s))
                  (dict_set device h (devices s)))
           (Loop (<[t := Task false false false
                            [cb_finish_removing_device device] h]>
                    (l_tasks (w_loop w)))
                 (S t) (l_ready (w_loop w) ++ [Step t]))
           (Evdev (nodes (w_evdev w))
                  (<[h := Build_InputDevice device name true]>
                     (handles (w_evdev w)))
                  (S h))).
Proof.
  intros Hn. unfold_watcher. unfold open. rewrite Hn. simpl.
  unfold create_task. simpl. rewrite dict_get_set, decide_True by done.
  simpl. unfold add_done_callback. simpl. rewrite lookup_insert_eq. simpl.
  unfold set_task. simpl. by rewrite insert_insert_eq.
Qed.

Lemma create_monitor_task_no_node device w :
  nodes (w_evdev w) !! device = None →
  create_monitor_task device w = (Raise (OSError 2), w).
Proof.
  intros Hn. unfold_watcher. unfold open. rewrite Hn. simpl. by destruct w.
Qed.

Lemma add_device_present device w t :
  task_of device w = Some t →
  add_device device w
  = (Ok tt, logged WARNING ("device " +:+ device +:+ " is already present")
              (logged INFO ("Adding device " +:+ device) w)).
Proof. intros Ht. unfold logged. unfold_watcher. by rewrite Ht. Qed.

Lemma add_device_not_started device w :
  task_of device w = None →
  started (w_self w) = false →
  add_device device w
  = (Ok tt, with_tasks (dict_set device None (tasks (w_self w)))
              (logged INFO ("Adding device " +:+ device) w)).
Proof.
  intros Ht Hs. unfold logged, with_tasks. unfold_watcher. by rewrite Ht, Hs.
Qed.

Lemma add_device_started device w :
  task_of device w = None →
  started (w_self w) = true →
  add_device device w
  = create_monitor_task device (logged INFO ("Adding device " +:+ device) w).
Proof.
  intros Ht Hs. unfold logged. unfold_watcher. rewrite Ht. simpl. by rewrite Hs.
Qed.

Lemma remove_device_not_running device w :
  task_of device w = None →
  remove_device device w
  = (Ok tt,
     let w' := logged INFO ("Removing device " +:+ device) w in
     match dict_del device (tasks (w_self w)) with
     | Some d => with_tasks d w'
     | None => w'
     end).
Proof.
  intros Ht. unfold logged, with_tasks. unfold_watcher. rewrite Ht. simpl.
  by destruct (dict_del device (tasks (w_self w))).
Qed.

Lemma remove_device_running device w t h :
  task_of device w = Some t →
  dict_get device (devices (w_self w)) = Some h →
  ∃ d, dict_del device (devices (w_self w)) = Some d ∧
  remove_device device w
  = (Ok tt,
     let s := w_self w in
     World (Build (emit INFO ("Removing device " +:+ device) (logger s))
                  (gamepad_active s) (started s) (tasks s) d)
           (exec (cancel t) (w_loop w))
           (exec (close h) (w_evdev w))).
Proof.
  intros Ht Hh.
  destruct (dict_del device (devices (w_self w))) as [d|] eqn:Hd; last first.
  { apply dict_del_None in Hd. congruence. }
  exists d. split; [done|]. unfold_watcher. rewrite Ht. simpl.
  pose proof (cancel_ok t (w_loop w)) as Hc. unfold eval in Hc.
  destruct (cancel t (w_loop w)) as [[b|e] l'] eqn:Hcan; [|done]. simpl.
  rewrite Hh. simpl. pose proof (close_ok h (w_evdev w)) as Hcl.
  unfold eval in Hcl. destruct (close h (w_evdev w)) as [r e'] eqn:Hclose.
  simpl in *. subst r. by rewrite Hd.
Qed.

Lemma remove_device_no_handle device w t :
  task_of device w = Some t →
  dict_get device (devices (w_self w)) = None →
  remove_device device w
  = (Raise (KeyError device),
     let s := w_self w in
     World (Build (emit INFO ("Removing device " +:+ device) (logger s))
                  (gamepad_active s) (started s) (tasks s) (devices s))
           (exec (cancel t) (w_loop w))
           (w_evdev w)).
Proof.
  intros Ht Hh. unfold_watcher. rewrite Ht. simpl.
  pose proof (cancel_ok t (w_loop w)) as Hc. unfold eval in Hc.
  destruct (cancel t (w_loop w)) as [[b|e] l'] eqn:Hcan; [|done]. simpl.
  by rewrite Hh.
Qed.

Lemma finish_removing_device_present device future w d :
  dict_del device (tasks (w_self w)) = Some d →
  finish_removing_device device future w = (Ok tt, with_tasks d w).
Proof. intros Hd. unfold with_tasks. unfold_watcher. by rewrite Hd. Qed.

Lemma finish_removing_device_absent device future w :
  dict_get device (tasks (w_self w)) = None →
  finish_removing_device device future w = (Raise (KeyError device), w).
Proof.
  intros Hd%dict_del_None. unfold_watcher. rewrite Hd. by destruct w.
Qed.

(** ** The loops of [start] and [stop] *)

Lemma start_body_ok device name w :
  nodes (w_evdev w) !! device = Some name →
  start_body device w
  = create_monitor_task device
      (logged INFO ("create monitor for " +:+ device) w).
Proof. done. Qed.

Lemma spawned_nil w : spawned [] w w.
Proof.
  split; simpl; rewrite ?Nat.add_0_r, ?app_nil_r; try done.
Qed.

Lemma spawned_cons device name ds w w' :
  device ∉ ds →
  nodes (w_evdev w) !! device = Some name →
  spawned ds (exec (start_body device) w) w' →
  spawned (device :: ds) w w'.
Proof.
  intros Hnin Hn. unfold exec. rewrite (start_body_ok device name) by done.
  rewrite (create_monitor_task_ok device name) by done. simpl.
  intros [].  simpl in *. split; simpl.
  - lia.
  - lia.
  - done.
  - rewrite sp_ready0. by rewrite <-app_assoc.
  - done.
  - done.
  - intros [|i] p Hp; simpl in *.
    + simplify_eq. rewrite !Nat.add_0_r. unfold task_of, entry.
      rewrite sp_old_tasks0, sp_old_devices0, sp_old_loop0 by (done || lia).
      rewrite !dict_get_set, !decide_True by done. simpl.
      rewrite lookup_insert_eq. split_and!; try done.
      unfold is_open. rewrite sp_old_handles0 by lia.
      by rewrite lookup_insert_eq.
    + replace (l_next (w_loop w) + S i) with (S (l_next (w_loop w)) + i) by lia.
      replace (next_handle (w_evdev w) + S i)
        with (S (next_handle (w_evdev w)) + i) by lia.
      by apply sp_new0.
  - intros p [Hp1 Hp2]%not_elem_of_cons.
    by rewrite sp_old_tasks0, dict_get_set, decide_False.
  - intros p [Hp1 Hp2]%not_elem_of_cons.
    by rewrite sp_old_devices0, dict_get_set, decide_False.
  - intros t Ht. rewrite sp_old_loop0 by lia. apply lookup_insert_ne. lia.
  - intros h Hh. rewrite sp_old_handles0 by lia. apply lookup_insert_ne. lia.
Qed.

Lemma start_loop_spawned ds : ∀ w,
  NoDup ds →
  (∀ p, p ∈ ds → is_Some (nodes (w_evdev w) !! p)) →
  ∃ w', for_each ds start_body w = (Ok tt, w') ∧ spawned ds w w'.
Proof.
  induction ds as [|device ds IH]; intros w Hnd Hnodes.
  - exists w. split; [done|apply spawned_nil].
  - apply NoDup_cons in Hnd as [Hnin Hnd].
    destruct (Hnodes device) as [name Hn]; [set_solver|].
    pose proof (start_body_ok device name w Hn) as Hb.
    rewrite (create_monitor_task_ok device name) in Hb by done.
    destruct (IH (exec (start_body device) w) Hnd) as (w' & Hrun & Hsp).
    { intros p Hp. unfold exec. rewrite Hb. simpl. apply Hnodes. set_solver. }
    exists w'. split; [|by apply (spawned_cons device name)].
    simpl. unfold bind. unfold exec in Hrun. rewrite Hb in *. done.
Qed.

Lemma stop_body_Some t w :
  stop_body (Some t) w
  = (Ok tt, World (w_self w) (exec (cancel t) (w_loop w)) (w_evdev w)).
Proof.
  unfold stop_body. py_unfold. simpl.
  pose proof (cancel_ok t (w_loop w)) as Hc. unfold eval in Hc.
  by destruct (cancel t (w_loop w)) as [[b|e] l'].
Qed.

(** The loop of [stop] over tasks that are all present. *)
Lemma stop_loop_Some (ts : list nat) : ∀ w,
  ∃ l', for_each (Some <$> ts) stop_body w = (Ok tt, World (w_self w) l' (w_evdev w))
    ∧ l_next l' = l_next (w_loop w)
    ∧ (∀ t, l_tasks l' !! t
            = (if decide (t ∈ ts) then cancelled else id) <$> l_tasks (w_loop w) !! t)
    ∧ l_ready (w_loop w) `prefix_of` l_ready l'.
Proof.
  induction ts as [|t ts IH]; intros w.
  - exists (w_loop w). split_and!; try done.
    + by destruct w.
    + intros t. rewrite decide_False by set_solver. by rewrite option_fmap_id.
  - destruct (IH (World (w_self w) (exec (cancel t) (w_loop w)) (w_evdev w)))
      as (l' & Hrun & Hnext & Hlook & Hpre).
    exists l'. rewrite fmap_cons. cbn [for_each w_self w_loop w_evdev] in *.
    unfold bind. rewrite stop_body_Some, Hrun.
    split_and!; [done| | |].
    + by rewrite Hnext, cancel_next.
    + intros t'. rewrite Hlook, cancel_lookup.
      destruct (l_tasks (w_loop w) !! t') as [tk|]; simpl;
        repeat case_decide; simpl; rewrite ?cancelled_idemp; set_solver.
    + etrans; [|done]. rewrite cancel_ready. by apply prefix_app_r.
Qed.

Lemma stop_loop_None (vs : list (option nat)) : ∀ w,
  None ∈ vs → eval (for_each vs stop_body) w = Raise (AttributeError "cancel").
Proof.
  unfold eval. induction vs as [|[t|] vs IH]; intros w Hin; cbn [for_each].
  - set_solver.
  - unfold bind. rewrite stop_body_Some. apply IH. set_solver.
  - done.
Qed.

(** ** [add_device] and [remove_device] *)

(** [add_device] for a path that [self.tasks] already holds a task for
    returns normally, logs a warning and changes neither [tasks], [devices],
    the loop nor the open devices. *)
Theorem add_device_already_present device w t :
  task_of device w = Some t →
  let w' := exec (add_device device) w in
  eval (add_device device) w = Ok tt
  ∧ tasks (w_self w') = tasks (w_self w)
  ∧ devices (w_self w') = devices (w_self w)
  ∧ w_loop w' = w_loop w ∧ w_evdev w' = w_evdev w
  ∧ last (logger (w_self w'))
    = Some (WARNING, "device " +:+ device +:+ " is already present").
Proof.
  intros Ht. unfold eval, exec. rewrite (add_device_present device w t) by done.
  split_and!; try done. apply emit_last.
Qed.

(** C39: before [start], [add_device] for a path without a task records the
    path with the placeholder [None] and creates no task. *)
Theorem add_device_before_start device w :
  task_of device w = None → started (w_self w) = false →
  let w' := exec (add_device device) w in
  eval (add_device device) w = Ok tt
  ∧ tasks (w_self w') = dict_set device None (tasks (w_self w))
  ∧ devices (w_self w') = devices (w_self w)
  ∧ w_loop w' = w_loop w ∧ w_evdev w' = w_evdev w.
Proof.
  intros Ht Hs. unfold eval, exec. by rewrite add_device_not_started.
Qed.

(** After [start], [add_device] for a path without a task whose device
    node exists opens the device, creates one task for it that has not run
    yet, queues its first step and records task and handle under the path. *)
Theorem add_device_after_start device name w :
  task_of device w = None → started (w_self w) = true →
  nodes (w_evdev w) !! device = Some name →
  let w' := exec (add_device device) w in
  let t := l_next (w_loop w) in
  let h := next_handle (w_evdev w) in
  eval (add_device device) w = Ok tt
  ∧ task_of device w' = Some t
  ∧ dict_get device (devices (w_self w')) = Some h
  ∧ l_tasks (w_loop w')
    = <[t := Task false false false [cb_finish_removing_device device] h]>
        (l_tasks (w_loop w))
  ∧ l_ready (w_loop w') = l_ready (w_loop w) ++ [Step t]
  ∧ handles (w_evdev w') !! h = Some (Build_InputDevice device name true).
Proof.
  intros Ht Hs Hn. unfold eval, exec, task_of, entry.
  rewrite add_device_started by done.
  rewrite (create_monitor_task_ok device name) by done. simpl.
  rewrite !dict_get_set, !decide_True by done.
  split_and!; try done. apply lookup_insert_eq.
Qed.

(** After [start], [add_device] for a path whose device node is gone
    raises [OSError] with errno 2 and leaves [tasks], [devices] and the loop
    as they were. *)
Theorem add_device_no_node device w :
  task_of device w = None → started (w_self w) = true →
  nodes (w_evdev w) !! device = None →
  let w' := exec (add_device device) w in
  eval (add_device device) w = Raise (OSError 2)
  ∧ tasks (w_self w') = tasks (w_self w)
  ∧ devices (w_self w') = devices (w_self w)
  ∧ w_loop w' = w_loop w.
Proof.
  intros Ht Hs Hn. unfold eval, exec. rewrite add_device_started by done.
  by rewrite create_monitor_task_no_node.
Qed.

(** [remove_device] for a path without a task returns normally and
    leaves the path out of [tasks] (a placeholder is dropped, an unknown path
    is ignored); the other entries, [devices], the loop and the open devices
    are unchanged. *)
Theorem remove_device_untracked device w :
  dict_wf (tasks (w_self w)) → task_of device w = None →
  let w' := exec (remove_device device) w in
  eval (remove_device device) w = Ok tt
  ∧ dict_get device (tasks (w_self w')) = None
  ∧ (∀ p, p ≠ device →
       dict_get p (tasks (w_self w')) = dict_get p (tasks (w_self w)))
  ∧ devices (w_self w') = devices (w_self w)
  ∧ w_loop w' = w_loop w ∧ w_evdev w' = w_evdev w.
Proof.
  intros Hwf Ht. unfold eval, exec. rewrite remove_device_not_running by done.
  simpl. destruct (dict_del device (tasks (w_self w))) as [d|] eqn:Hd; simpl.
  - split_and!; try done.
    + by rewrite (dict_get_del _ device _ _ Hd Hwf), decide_True.
    + intros p Hp. by rewrite (dict_get_del _ p _ _ Hd Hwf), decide_False.
  - apply dict_del_None in Hd. done.
Qed.

(** [remove_device] for a path with a task and a handle requests the
    task's cancellation, closes the handle and deletes it from [devices];
    the entry of [tasks] stays until the done callback runs. *)
Theorem remove_device_cancels device w t h :
  task_of device w = Some t →
  dict_wf (devices (w_self w)) →
  dict_get device (devices (w_self w)) = Some h →
  let w' := exec (remove_device device) w in
  eval (remove_device device) w = Ok tt
  ∧ w_loop w' = exec (cancel t) (w_loop w)
  ∧ is_open h (w_evdev w') = false
  ∧ dict_get device (devices (w_self w')) = None
  ∧ tasks (w_self w') = tasks (w_self w).
Proof.
  intros Ht Hwf Hh. unfold eval, exec.
  destruct (remove_device_running device w t h) as (d & Hd & ->); [done..|].
  simpl. split_and!; try done.
  - apply close_closed.
  - by rewrite (dict_get_del _ device _ _ Hd Hwf), decide_True.
Qed.

(** A second [remove_device] for the same path, before the done
    callback of the cancelled task has run, raises [KeyError]: the handle is
    no longer in [devices]. *)
Theorem remove_device_twice_raises device w t h :
  task_of device w = Some t →
  dict_wf (devices (w_self w)) →
  dict_get device (devices (w_self w)) = Some h →
  eval (remove_device device) (exec (remove_device device) w)
  = Raise (KeyError device).
Proof.
  intros Ht Hwf Hh.
  destruct (remove_device_running device w t h) as (d & Hd & Hrun); [done..|].
  unfold eval, exec. rewrite Hrun. simpl.
  rewrite (remove_device_no_handle _ _ t); [done|done|]. simpl.
  by rewrite (dict_get_del _ device _ _ Hd Hwf), decide_True.
Qed.

(** ** The remaining methods *)

Lemma set_init_devices_tasks ds : ∀ w,
  set_init_devices ds w
  = (Ok tt, with_tasks (foldl (λ d p, dict_set p None d) (tasks (w_self w)) ds) w).
Proof.
  unfold set_init_devices, with_tasks.
  induction ds as [|p ds IH]; intros w; cbn [for_each foldl].
  - unfold_watcher. by destruct w as [[] ? ?].
  - unfold bind at 1. unfold tasks_setitem at 1. unfold_watcher.
    by rewrite IH.
Qed.

Lemma foldl_dict_set_None (ds : list string) : ∀ (d : pydict string (option nat)) p,
  dict_get p (foldl (λ d p, dict_set p None d) d ds)
  = if decide (p ∈ ds) then Some None else dict_get p d.
Proof.
  induction ds as [|q ds IH]; intros d p; cbn [foldl].
  - by rewrite decide_False by set_solver.
  - rewrite IH, dict_get_set. repeat case_decide; set_solver.
Qed.

Lemma foldl_dict_set_wf (ds : list string) : ∀ (d : pydict string (option nat)),
  dict_wf d → dict_wf (foldl (λ d p, dict_set p None d) d ds).
Proof.
  induction ds as [|q ds IH]; intros d Hwf; cbn [foldl]; [done|].
  by apply IH, dict_set_wf.
Qed.

(** [set_init_devices] registers every listed path with the
    placeholder [None], overwriting what [tasks] held for it, keeps the other
    entries and the uniqueness of keys, and creates no task. *)
Theorem set_init_devices_spec ds w :
  let w' := exec (set_init_devices ds) w in
  eval (set_init_devices ds) w = Ok tt
  ∧ (∀ p, dict_get p (tasks (w_self w'))
          = if decide (p ∈ ds) then Some None else dict_get p (tasks (w_self w)))
  ∧ (dict_wf (tasks (w_self w)) → dict_wf (tasks (w_self w')))
  ∧ w_loop w' = w_loop w ∧ w_evdev w' = w_evdev w
  ∧ started (w_self w') = started (w_self w).
Proof.
  unfold eval, exec. rewrite set_init_devices_tasks. simpl.
  split_and!; try done.
  - apply foldl_dict_set_None.
  - apply foldl_dict_set_wf.
Qed.

Lemma start_eq w :
  start w
  = for_each (dict_keys (tasks (w_self w))) start_body
      (exec (set_started true) w).
Proof. done. Qed.

Lemma stop_eq w :
  stop w
  = match for_each (dict_values (tasks (w_self w))) stop_body
            (exec (set_started false) w) with
    | (Ok _, w') => (Ok (dict_values (tasks (w_self w))), w')
    | (Raise e, w') => (Raise e, w')
    end.
Proof. done. Qed.

(** C31: when every registered path has a device node, [start] returns
    with [started] set and, for the [i]-th key of [tasks], a new task
    [l_next + i] that has not run yet, reads the new handle
    [next_handle + i] and carries the done callback for that path; the first
    steps are queued in key order and the tasks that existed are untouched. *)
Theorem start_spec w :
  dict_wf (tasks (w_self w)) →
  (∀ p, p ∈ dict_keys (tasks (w_self w)) → is_Some (nodes (w_evdev w) !! p)) →
  ∃ w', start w = (Ok tt, w')
    ∧ started (w_self w') = true
    ∧ l_ready (w_loop w')
      = l_ready (w_loop w)
        ++ (Step <$> seq (l_next (w_loop w))
                         (length (dict_keys (tasks (w_self w)))))
    ∧ (∀ i p, dict_keys (tasks (w_self w)) !! i = Some p →
         task_of p w' = Some (l_next (w_loop w) + i)
         ∧ dict_get p (devices (w_self w')) = Some (next_handle (w_evdev w) + i)
         ∧ l_tasks (w_loop w') !! (l_next (w_loop w) + i)
           = Some (Task false false false [cb_finish_removing_device p]
                        (next_handle (w_evdev w) + i)))
    ∧ (∀ t, t < l_next (w_loop w) →
         l_tasks (w_loop w') !! t = l_tasks (w_loop w) !! t).
Proof.
  intros Hwf Hnodes.
  destruct (start_loop_spawned (dict_keys (tasks (w_self w)))
              (exec (set_started true) w) Hwf Hnodes) as (w' & Hrun & []).
  exists w'. rewrite start_eq. split; [exact Hrun|]. simpl in *.
  split_and!; try done.
  intros i p Hp. destruct (sp_new0 i p Hp) as (? & ? & ? & ?). done.
Qed.

Lemma start_loop_no_node ds : ∀ w,
  (∃ p, p ∈ ds ∧ nodes (w_evdev w) !! p = None) →
  eval (for_each ds start_body) w = Raise (OSError 2).
Proof.
  unfold eval. induction ds as [|q ds IH]; intros w (p & Hp & Hn).
  - set_solver.
  - cbn [for_each]. unfold bind.
    destruct (nodes (w_evdev w) !! q) as [name|] eqn:Hq.
    + rewrite (start_body_ok q name) by done.
      rewrite (create_monitor_task_ok q name) by done. simpl.
      apply IH. exists p. simpl. split; [|done].
      apply elem_of_cons in Hp as [->|]; [congruence|done].
    + unfold start_body. unfold bind. simpl.
      by rewrite create_monitor_task_no_node.
Qed.

(** C40: when a registered path has no device node, [start] raises
    [OSError] with errno 2 and leaves [started] set. *)
Theorem start_no_node w p :
  p ∈ dict_keys (tasks (w_self w)) → nodes (w_evdev w) !! p = None →
  eval start w = Raise (OSError 2)
  ∧ started (w_self (exec start w)) = true.
Proof.
  intros Hp Hn. unfold eval, exec. rewrite start_eq. split.
  - apply (start_loop_no_node _ (exec (set_started true) w)). eauto.
  - apply (for_each_preserves (λ w, started (w_self w) = true)
             (dict_keys (tasks (w_self w))) start_body); [|done].
    intros q w0 _ Hs. unfold exec, start_body, bind. simpl.
    destruct (nodes (w_evdev w0) !! q) as [name|] eqn:Hq.
    + by rewrite (create_monitor_task_ok q name).
    + by rewrite create_monitor_task_no_node.
Qed.

(** When every entry of [tasks] holds a task, the synchronous part of
    [stop] clears [started], requests cancellation of exactly those tasks (a
    finished task is left as it is), gives them to [asyncio.gather] in
    dictionary order, keeps [tasks] and [devices] and removes nothing from
    the ready queue. *)
Theorem stop_spec w (ts : list nat) :
  dict_values (tasks (w_self w)) = Some <$> ts →
  ∃ w', stop w = (Ok (Some <$> ts), w')
    ∧ started (w_self w') = false
    ∧ tasks (w_self w') = tasks (w_self w)
    ∧ devices (w_self w') = devices (w_self w)
    ∧ w_evdev w' = w_evdev w
    ∧ (∀ t, l_tasks (w_loop w') !! t
            = (if decide (t ∈ ts) then cancelled else id)
              <$> l_tasks (w_loop w) !! t)
    ∧ l_ready (w_loop w) `prefix_of` l_ready (w_loop w').
Proof.
  intros Hvs. rewrite stop_eq, Hvs.
  destruct (stop_loop_Some ts (exec (set_started false) w))
    as (l' & Hrun & Hnext & Hlook & Hpre).
  eexists. rewrite Hrun. split; [done|]. simpl. done.
Qed.

(** C38: [stop] raises [AttributeError] when an entry of [tasks] is still
    the placeholder [None]. *)
Theorem stop_registered_raises w :
  None ∈ dict_values (tasks (w_self w)) →
  eval stop w = Raise (AttributeError "cancel").
Proof.
  intros Hin. unfold eval. rewrite stop_eq.
  pose proof (stop_loop_None _ (exec (set_started false) w) Hin) as Hr.
  unfold eval in Hr.
  destruct (for_each _ _ _) as [[[]|e] w'] eqn:E; simpl in *; congruence.
Qed.

(** The done callback [finish_removing_device] removes the entry of
    its path from [tasks], whatever the task's outcome was, and touches
    nothing else. *)
Theorem finish_removing_device_spec device future w :
  dict_wf (tasks (w_self w)) → is_Some (dict_get device (tasks (w_self w))) →
  let w' := exec (finish_removing_device device future) w in
  eval (finish_removing_device device future) w = Ok tt
  ∧ (∀ p, dict_get p (tasks (w_self w'))
          = if decide (device = p) then None else dict_get p (tasks (w_self w)))
  ∧ dict_wf (tasks (w_self w'))
  ∧ devices (w_self w') = devices (w_self w)
  ∧ w_loop w' = w_loop w ∧ w_evdev w' = w_evdev w.
Proof.
  intros Hwf [d Hd]%dict_del_is_Some. unfold eval, exec.
  rewrite (finish_removing_device_present _ _ _ d) by done. simpl.
  split_and!; try done.
  - intros p. by apply dict_get_del.
  - by apply (dict_del_wf device (tasks (w_self w))).
Qed.

(** [get_and_reset_active] returns the flag and clears it, so that a
    second call returns [False]; nothing else changes. *)
Theorem get_and_reset_active_spec w :
  let w' := exec get_and_reset_active w in
  eval get_and_reset_active w = Ok (gamepad_active (w_self w))
  ∧ gamepad_active (w_self w') = false
  ∧ eval get_and_reset_active w' = Ok false
  ∧ tasks (w_self w') = tasks (w_self w)
  ∧ devices (w_self w') = devices (w_self w)
  ∧ started (w_self w') = started (w_self w)
  ∧ w_loop w' = w_loop w ∧ w_evdev w' = w_evdev w.
Proof. done. Qed.

(** An input event resumes [monitor_gamepad_events], which sets
    [gamepad_active] and stays in its loop: the next sample sees activity. *)
Theorem monitor_gamepad_events_input (gamepad : nat) w :
  let w' := exec (monitor_gamepad_events gamepad Input_event) w in
  eval (monitor_gamepad_events gamepad Input_event) w = Ok true
  ∧ gamepad_active (w_self w') = true
  ∧ eval get_and_reset_active w' = Ok true
  ∧ tasks (w_self w') = tasks (w_self w)
  ∧ w_loop w' = w_loop w.
Proof. done. Qed.

(** A read error ends [monitor_gamepad_events] normally; errno 19 is
    logged at level INFO and any other errno at level ERROR.  The coroutine
    does not close the device and leaves [devices] as it is. *)
Theorem monitor_gamepad_events_read_error (gamepad : nat) errno w :
  let w' := exec (monitor_gamepad_events gamepad (Read_error errno)) w in
  eval (monitor_gamepad_events gamepad (Read_error errno)) w = Ok false
  ∧ (∃ msg, last (logger (w_self w'))
            = Some (if decide (errno = 19%Z) then INFO else ERROR, msg))
  ∧ tasks (w_self w') = tasks (w_self w)
  ∧ devices (w_self w') = devices (w_self w)
  ∧ w_evdev w' = w_evdev w
  ∧ gamepad_active (w_self w') = gamepad_active (w_self w).
Proof.
  unfold eval, exec. unfold_watcher.
  case_decide; simpl; split_and!; try done; eexists; apply emit_last.
Qed.
End lemmas.

(** ** Witnesses *)

Definition ev3 : string := "/dev/input/event3".
Definition ev5 : string := "/dev/input/event5".

(** A new watcher on a machine with two controllers. *)
Definition w_new : world :=
  World init new_loop (new_evdev {[ev3 := "Pad A"; ev5 := "Pad B"]}).

(** [ev3] was found by the initial enumeration. *)
Definition w_registered : world := exec (set_init_devices [ev3]) w_new.

(** The watcher was started: [ev3] has task 0 and handle 0. *)
Definition w_started : world := exec start w_registered.

(** The node of [ev3] vanished before the watcher was started. *)
Definition w_gone : world :=
  World (w_self w_registered) (w_loop w_registered)
        (unplug ev3 (w_evdev w_registered)).

Lemma add_device_already_present_witness :
  task_of ev3 w_started = Some 0
  ∧ eval (add_device ev3) w_started = Ok tt.
Proof.
  split; [reflexivity|].
  exact (proj1 (add_device_already_present ev3 w_started 0 eq_refl)).
Defined.

Lemma add_device_before_start_witness :
  eval (add_device ev5) w_registered = Ok tt
  ∧ tasks (w_self (exec (add_device ev5) w_registered))
    = dict_set ev5 None (tasks (w_self w_registered)).
Proof.
  pose proof (add_device_before_start ev5 w_registered eq_refl eq_refl)
    as (H1 & H2 & _).
  exact (conj H1 H2).
Defined.

Lemma add_device_after_start_witness :
  eval (add_device ev5) w_started = Ok tt
  ∧ task_of ev5 (exec (add_device ev5) w_started) = Some 1.
Proof.
  pose proof (add_device_after_start ev5 "Pad B" w_started eq_refl eq_refl
                eq_refl) as (H1 & H2 & _).
  exact (conj H1 H2).
Defined.

Lemma add_device_no_node_witness :
  eval (add_device "/dev/input/event9") w_started = Raise (OSError 2).
Proof.
  exact (proj1 (add_device_no_node "/dev/input/event9" w_started eq_refl
                  eq_refl eq_refl)).
Defined.

Lemma w_started_wf :
  dict_wf (tasks (w_self w_started)) ∧ dict_wf (devices (w_self w_started)).
Proof. split; refine (bool_decide_unpack _ _); vm_compute; exact I. Qed.

Lemma remove_device_untracked_witness :
  eval (remove_device ev5) w_started = Ok tt
  ∧ dict_get ev5 (tasks (w_self (exec (remove_device ev5) w_started))) = None.
Proof.
  pose proof (remove_device_untracked ev5 w_started (proj1 w_started_wf)
                eq_refl) as (H1 & H2 & _).
  exact (conj H1 H2).
Defined.

Lemma remove_device_cancels_witness :
  eval (remove_device ev3) w_started = Ok tt
  ∧ is_open 0 (w_evdev (exec (remove_device ev3) w_started)) = false.
Proof.
  pose proof (remove_device_cancels ev3 w_started 0 0 eq_refl
                (proj2 w_started_wf) eq_refl) as (H1 & _ & H2 & _).
  exact (conj H1 H2).
Defined.

Lemma remove_device_twice_raises_witness :
  eval (remove_device ev3) (exec (remove_device ev3) w_started)
  = Raise (KeyError ev3).
Proof.
  exact (remove_device_twice_raises ev3 w_started 0 0 eq_refl
           (proj2 w_started_wf) eq_refl).
Defined.

Lemma w_registered_nodes p :
  p ∈ dict_keys (tasks (w_self w_registered)) →
  is_Some (nodes (w_evdev w_registered) !! p).
Proof. intros ->%list_elem_of_singleton. by eexists. Qed.

Lemma start_spec_witness :
  ∃ w', start w_registered = (Ok tt, w') ∧ task_of ev3 w' = Some 0.
Proof.
  destruct (start_spec w_registered (NoDup_singleton _) w_registered_nodes)
    as (w' & Hrun & _ & _ & Hnew & _).
  exists w'. split; [exact Hrun|]. exact (proj1 (Hnew 0 ev3 eq_refl)).
Defined.

Lemma start_no_node_witness :
  eval start w_gone = Raise (OSError 2).
Proof.
  refine (proj1 (start_no_node w_gone ev3 _ eq_refl)).
  apply list_elem_of_singleton. reflexivity.
Defined.

Lemma stop_spec_witness :
  ∃ w', stop w_started = (Ok [Some 0], w') ∧ started (w_self w') = false.
Proof.
  destruct (stop_spec w_started [0] eq_refl) as (w' & Hrun & Hs & _).
  exists w'. exact (conj Hrun Hs).
Defined.

Lemma stop_registered_raises_witness :
  eval stop w_registered = Raise (AttributeError "cancel").
Proof.
  apply stop_registered_raises. apply list_elem_of_singleton. reflexivity.
Defined.

Lemma finish_removing_device_spec_witness :
  eval (finish_removing_device ev3 0) w_started = Ok tt
  ∧ tasks (w_self (exec (finish_removing_device ev3 0) w_started)) = [].
Proof.
  pose proof (finish_removing_device_spec ev3 0 w_started (proj1 w_started_wf)
                (mk_is_Some _ _ eq_refl)) as (H1 & _).
  split; [exact H1|reflexivity].
Defined.

End GamepadsWatcher.
