(* ===== verification/IdleLock.v ===== *)
(** * IdleLock: the idle-inhibition lock controller

    Class [IdleLock] of [src/gamepad-lock-inhibit.py] (lines 148-170).  The
    object keeps an optional file descriptor [fd] of a logind inhibitor lock.
    [lock_idle] asks logind for one when none is held, [unlock_idle] closes
    the one that is held.

    The logind manager is outside the program: the class is written against
    the interface [InhibitService], which says what [Inhibit] and [os.close]
    do to the set of inhibitor descriptors the process has open.  The
    attribute [iface] holds the service; [bus] and [logind] only serve to
    build it.  Module [Logind] gives one implementation, which the witnesses
    run. *)

From S2P Require Import Prelude.

(** ** The interface of the inhibition service *)

Class InhibitService (L : Type) : Type := {
  (** [Inhibit(what, who, why, mode)]: a new descriptor, or an exception. *)
  Inhibit : string → string → string → string → M L nat;
  (** [os.close(fd)] on a descriptor [Inhibit] returned. *)
  os_close : nat → M L unit;
  (** The inhibitor descriptors the process has open. *)
  inhibitors : L → gset nat;

  Inhibit_Ok what who why mode l f l' :
    Inhibit what who why mode l = (Ok f, l') →
    (f ∉ inhibitors l) ∧ inhibitors l' = {[f]} ∪ inhibitors l;
  Inhibit_Raise what who why mode l e l' :
    Inhibit what who why mode l = (Raise e, l') →
    inhibitors l' = inhibitors l;
  os_close_open f l :
    f ∈ inhibitors l → eval (os_close f) l = Ok tt;
  os_close_inhibitors f l :
    inhibitors (exec (os_close f) l) = inhibitors l ∖ {[f]};
}.

(** ** An implementation of the service

    logind hands out descriptors the process does not have yet; when
    [refuse] is set the call fails with a D-Bus error. *)

Module Logind.

Record logind : Type := Build {
  held : gset nat;
  refuse : bool;
}.

Definition inhibit (what who why mode : string) : M logind nat :=
  λ l, if refuse l then (Raise DBusException, l)
       else let f := fresh (held l) in
            (Ok f, Build ({[f]} ∪ held l) (refuse l)).

Definition close (f : nat) : M logind unit :=
  λ l, if decide (f ∈ held l)
       then (Ok tt, Build (held l ∖ {[f]}) (refuse l))
       else (Raise (OSError 9), l).

#[global] Program Instance service : InhibitService logind := {|
  Inhibit := inhibit;
  os_close := close;
  inhibitors := held;
|}.
Next Obligation.
  intros what who why mode l f l'. unfold inhibit.
  destruct (refuse l); intros [= <- <-]; simpl.
  split; [apply is_fresh|done].
Qed.
Next Obligation.
  intros what who why mode l e l'. unfold inhibit.
  by destruct (refuse l); intros [= <- <-].
Qed.
Next Obligation.
  intros f l Hf. unfold eval, close. by rewrite decide_True.
Qed.
Next Obligation.
  intros f l. unfold exec, close. case_decide; simpl; [done|set_solver].
Qed.

End Logind.

Module IdleLock.

Record IdleLock (L : Type) : Type := Build {
  logger : Prelude.logger;
  fd : option nat;
  iface : L;
}.
Arguments Build {L} logger fd iface.
Arguments logger {L} _.
Arguments fd {L} _.
Arguments iface {L} _.

Section methods.
Context `{InhibitService L}.
Implicit Types (s : IdleLock L).

Definition iface_lens : lens (IdleLock L) L :=
  Lens iface (λ l s, Build (logger s) (fd s) l).

Definition info (msg : string) : M (IdleLock L) unit :=
  modify (λ s, Build (emit INFO msg (logger s)) (fd s) (iface s)).

Definition set_fd (o : option nat) : M (IdleLock L) unit :=
  modify (λ s, Build (logger s) o (iface s)).

(** [IdleLock()], given the service the system bus leads to. *)
Definition init (l : L) : IdleLock L := Build [] None l.

Definition lock_idle : M (IdleLock L) unit :=
  let* o := gets fd in
  match o with
  | Some _ => ret tt
  | None =>
      info "Inhibiting idle" ;;
      let* f := zoom iface_lens
                  (Inhibit "shutdown:idle" "Gamepad Idle Inhibit"
                           "Gamepad active" "block") in
      set_fd (Some f)
  end.

Definition unlock_idle : M (IdleLock L) unit :=
  let* o := gets fd in
  match o with
  | None => ret tt
  | Some f =>
      info "Releasing idle lock" ;;
      zoom iface_lens (os_close f) ;;
      set_fd None
  end.

(** The descriptors open at the service are the one [fd] refers to. *)
Definition lock_inv s : Prop :=
  inhibitors (iface s) = match fd s with Some f => {[f]} | None => ∅ end.

(** ** [lock_idle] *)

Lemma lock_idle_held s f : fd s = Some f → lock_idle s = (Ok tt, s).
Proof. intros Hfd. unfold lock_idle. py_unfold. by rewrite Hfd. Qed.

Lemma lock_idle_acquired s f l' :
  fd s = None →
  Inhibit "shutdown:idle" "Gamepad Idle Inhibit" "Gamepad active" "block"
          (iface s) = (Ok f, l') →
  lock_idle s
  = (Ok tt, Build (emit INFO "Inhibiting idle" (logger s)) (Some f) l').
Proof.
  intros Hfd Hinh. unfold lock_idle. py_unfold. rewrite Hfd. simpl.
  by rewrite Hinh.
Qed.

Lemma lock_idle_failed s e l' :
  fd s = None →
  Inhibit "shutdown:idle" "Gamepad Idle Inhibit" "Gamepad active" "block"
          (iface s) = (Raise e, l') →
  lock_idle s
  = (Raise e, Build (emit INFO "Inhibiting idle" (logger s)) None l').
Proof.
  intros Hfd Hinh. unfold lock_idle. py_unfold. rewrite Hfd. simpl.
  by rewrite Hinh, Hfd.
Qed.

(** ** [unlock_idle] *)

Lemma unlock_idle_free s : fd s = None → unlock_idle s = (Ok tt, s).
Proof. intros Hfd. unfold unlock_idle. py_unfold. by rewrite Hfd. Qed.

Lemma unlock_idle_released s f :
  fd s = Some f → f ∈ inhibitors (iface s) →
  unlock_idle s
  = (Ok tt, Build (emit INFO "Releasing idle lock" (logger s)) None
                  (exec (os_close f) (iface s))).
Proof.
  intros Hfd Hopen. unfold unlock_idle. py_unfold. rewrite Hfd. simpl.
  pose proof (os_close_open f _ Hopen) as Hc. unfold eval in Hc.
  destruct (os_close f (iface s)) as [r l']; simpl in *. by subst r.
Qed.

(** ** The invariant and idempotence *)

Lemma lock_idle_inv s : lock_inv s → lock_inv (exec lock_idle s).
Proof.
  unfold lock_inv. intros Hinv. destruct (fd s) as [f|] eqn:Hfd.
  { unfold exec. rewrite (lock_idle_held s f) by done. simpl. by rewrite Hfd. }
  destruct (Inhibit "shutdown:idle" "Gamepad Idle Inhibit" "Gamepad active"
              "block" (iface s)) as [[f|e] l'] eqn:Hinh; unfold exec.
  - rewrite (lock_idle_acquired s f l') by done. simpl.
    apply Inhibit_Ok in Hinh as [_ ->]. rewrite Hinv. set_solver.
  - rewrite (lock_idle_failed s e l') by done. simpl.
    apply Inhibit_Raise in Hinh as ->. done.
Qed.

Lemma unlock_idle_inv s : lock_inv s → lock_inv (exec unlock_idle s).
Proof.
  unfold lock_inv. intros Hinv. destruct (fd s) as [f|] eqn:Hfd; unfold exec.
  - rewrite (unlock_idle_released s f) by (rewrite ?Hinv; set_solver).
    simpl. rewrite os_close_inhibitors, Hinv. set_solver.
  - rewrite unlock_idle_free by done. simpl. by rewrite Hfd.
Qed.

Lemma unlock_idle_ok s : lock_inv s → eval unlock_idle s = Ok tt.
Proof.
  intros Hinv. unfold eval. destruct (fd s) as [f|] eqn:Hfd.
  - rewrite (unlock_idle_released s f); [done..|].
    red in Hinv. rewrite Hinv, Hfd. set_solver.
  - by rewrite unlock_idle_free.
Qed.

Lemma unlock_idle_fd s : lock_inv s → fd (exec unlock_idle s) = None.
Proof.
  intros Hinv. unfold exec. destruct (fd s) as [f|] eqn:Hfd.
  - rewrite (unlock_idle_released s f); [done..|].
    red in Hinv. rewrite Hinv, Hfd. set_solver.
  - by rewrite unlock_idle_free.
Qed.

Lemma lock_idle_fd s :
  eval lock_idle s = Ok tt → is_Some (fd (exec lock_idle s)).
Proof.
  unfold eval, exec. destruct (fd s) as [f|] eqn:Hfd.
  { rewrite (lock_idle_held s f) by done. simpl. by rewrite Hfd. }
  destruct (Inhibit "shutdown:idle" "Gamepad Idle Inhibit" "Gamepad active"
              "block" (iface s)) as [[f|e] l'] eqn:Hinh.
  - rewrite (lock_idle_acquired s f l') by done. by eexists.
  - by rewrite (lock_idle_failed s e l').
Qed.

(** C33: [lock_idle] and [unlock_idle] keep the descriptors open at the
    service equal to the one [fd] refers to: at most one inhibitor lock
    is held and none is leaked, whether the call returns or raises. *)
Theorem lock_inv_preserved s :
  lock_inv s → lock_inv (exec lock_idle s) ∧ lock_inv (exec unlock_idle s).
Proof. intros Hinv. split; [by apply lock_idle_inv|by apply unlock_idle_inv]. Qed.

(** After a call of [lock_idle] that returned, a second call changes
    nothing and exactly one inhibitor lock is open. *)
Theorem lock_idle_twice s :
  lock_inv s → eval lock_idle s = Ok tt →
  lock_idle (exec lock_idle s) = (Ok tt, exec lock_idle s)
  ∧ size (inhibitors (iface (exec lock_idle s))) = 1.
Proof.
  intros Hinv Hok.
  assert (∃ f, fd (exec lock_idle s) = Some f) as [f Hf].
  { revert Hok. unfold eval, exec. destruct (fd s) as [f|] eqn:Hfd.
    - rewrite (lock_idle_held s f) by done. eauto.
    - destruct (Inhibit "shutdown:idle" "Gamepad Idle Inhibit"
                  "Gamepad active" "block" (iface s)) as [[f|e] l'] eqn:Hinh.
      + rewrite (lock_idle_acquired s f l') by done. eauto.
      + by rewrite (lock_idle_failed s e l') by done. }
  split; [by apply (lock_idle_held _ f)|].
  apply lock_idle_inv in Hinv. red in Hinv.
  rewrite Hinv, Hf. apply size_singleton.
Qed.

(** From a state that satisfies the invariant [unlock_idle] returns
    with no descriptor held and none open, and a second call changes
    nothing. *)
Theorem unlock_idle_twice s :
  lock_inv s →
  eval unlock_idle s = Ok tt
  ∧ fd (exec unlock_idle s) = None
  ∧ inhibitors (iface (exec unlock_idle s)) = ∅
  ∧ unlock_idle (exec unlock_idle s) = (Ok tt, exec unlock_idle s).
Proof.
  intros Hinv.
  assert (eval unlock_idle s = Ok tt ∧ fd (exec unlock_idle s) = None)
    as [Hok Hfd'].
  { unfold eval, exec. destruct (fd s) as [f|] eqn:Hfd.
    - rewrite (unlock_idle_released s f); [done..|].
      red in Hinv. rewrite Hinv, Hfd. set_solver.
    - by rewrite unlock_idle_free. }
  split_and!; [done..| |by apply unlock_idle_free].
  apply unlock_idle_inv in Hinv. red in Hinv.
  by rewrite Hinv, Hfd'.
Qed.

(** When no lock is held and [Inhibit] fails, [lock_idle] raises the
    service's exception after logging, and leaves [fd] unset. *)
Theorem lock_idle_error s e l' :
  fd s = None →
  Inhibit "shutdown:idle" "Gamepad Idle Inhibit" "Gamepad active" "block"
          (iface s) = (Raise e, l') →
  eval lock_idle s = Raise e
  ∧ fd (exec lock_idle s) = None
  ∧ last (logger (exec lock_idle s)) = Some (INFO, "Inhibiting idle").
Proof.
  intros Hfd Hinh. unfold eval, exec.
  rewrite (lock_idle_failed s e l') by done. simpl.
  split_and!; [done..|apply emit_last].
Qed.
End methods.

(** ** Witnesses, with the service [Logind.service] *)

Definition fresh_lock : IdleLock Logind.logind :=
  init (Logind.Build ∅ false).

Definition refused_lock : IdleLock Logind.logind :=
  init (Logind.Build ∅ true).

Lemma lock_inv_preserved_witness :
  lock_inv fresh_lock ∧
  lock_inv (exec lock_idle fresh_lock) ∧ lock_inv (exec unlock_idle fresh_lock).
Proof. split; [reflexivity|apply lock_inv_preserved; reflexivity]. Defined.

Lemma lock_idle_twice_witness :
  lock_idle (exec lock_idle fresh_lock) = (Ok tt, exec lock_idle fresh_lock)
  ∧ size (inhibitors (iface (exec lock_idle fresh_lock))) = 1.
Proof. apply lock_idle_twice; reflexivity. Defined.

Lemma unlock_idle_twice_witness :
  let s := exec lock_idle fresh_lock in
  eval unlock_idle s = Ok tt
  ∧ fd (exec unlock_idle s) = None
  ∧ inhibitors (iface (exec unlock_idle s)) = ∅
  ∧ unlock_idle (exec unlock_idle s) = (Ok tt, exec unlock_idle s).
Proof. apply unlock_idle_twice. vm_compute. reflexivity. Defined.

Lemma lock_idle_error_witness :
  eval lock_idle refused_lock = Raise DBusException
  ∧ fd (exec lock_idle refused_lock) = None
  ∧ last (logger (exec lock_idle refused_lock))
    = Some (INFO, "Inhibiting idle").
Proof.
  apply (lock_idle_error refused_lock DBusException (Logind.Build ∅ true));
    reflexivity.
Defined.

End IdleLock.

