(* ===== verification/Bridge.v ===== *)
(** * Bridge: from the activity flag to the idle lock

    Coroutine [inhibit_idle_when_gamepads_active] of
    [src/gamepad-lock-inhibit.py] (lines 173-186).  It creates an [IdleLock]
    and then forever sleeps for the interval, samples and clears the
    watcher's activity flag, and takes the lock when the flag was set and
    releases it when it was not.  A cancellation, which arrives at the sleep,
    is caught: the coroutine logs, releases the lock and raises the
    cancellation again.

    The coroutine is modelled by its turns: [inhibit_idle_when_gamepads_active
    r] runs it from the point where [asyncio.sleep] ends, in the way [r]
    says, to the next sleep (result [Ok]) or to its end (an exception).  Time
    is not modelled: the interval is the distance between two [Timer]
    wake-ups.  The state a turn works on is the world of the watcher, the
    lock, and the root logger that [logging.info] writes to. *)

From S2P Require Import Prelude PyDict Asyncio Evdev Watcher IdleLock.

Module Bridge.

Record state (L : Type) : Type := State {
  b_world : GamepadsWatcher.world;
  lock : IdleLock.IdleLock L;
  root : logger;
}.
Arguments State {L} b_world lock root.
Arguments b_world {L} _.
Arguments lock {L} _.
Arguments root {L} _.

(** How [await asyncio.sleep(interval)] ends. *)
Inductive wakeup : Type :=
  | Timer     (* the interval has passed *)
  | Cancel.   (* the task was cancelled *)

#[global] Instance wakeup_eq_dec : EqDecision wakeup.
Proof. solve_decision. Defined.

Section bridge.
Context `{InhibitService L}.
Implicit Types (s : state L) (r : wakeup).

Definition world_lens : lens (state L) GamepadsWatcher.world :=
  Lens b_world (λ w s, State w (lock s) (root s)).

Definition lock_lens : lens (state L) (IdleLock.IdleLock L) :=
  Lens lock (λ k s, State (b_world s) k (root s)).

(** [logging.info(msg)] *)
Definition logging_info (msg : string) : M (state L) unit :=
  modify (λ s, State (b_world s) (lock s) (emit INFO msg (root s))).

(** [lock = IdleLock()], line 174: the state of the coroutine at its first
    sleep. *)
Definition new (w : GamepadsWatcher.world) (l : L) : state L :=
  State w (IdleLock.init l) [].

(** [await asyncio.sleep(interval)] *)
Definition sleep r : M (state L) unit :=
  match r with
  | Timer => ret tt
  | Cancel => raise CancelledError
  end.

(** Lines 178-182: what follows the sleep in the body of the loop. *)
Definition sample : M (state L) unit :=
  let* active := zoom world_lens GamepadsWatcher.get_and_reset_active in
  if active : bool then zoom lock_lens IdleLock.lock_idle
  else zoom lock_lens IdleLock.unlock_idle.

(** Lines 183-186: the handler of [CancelledError]. *)
Definition on_cancelled : M (state L) unit :=
  logging_info "Inhibit task exits" ;;
  zoom lock_lens IdleLock.unlock_idle ;;
  raise CancelledError.

(** One turn of the loop, from the end of a sleep to the next. *)
Definition inhibit_idle_when_gamepads_active r : M (state L) unit :=
  try_except (sleep r ;; sample)
    (λ e, match e with CancelledError => Some on_cancelled | _ => None end).

(** The sampling windows of a run: [true] for a window with input.  Input
    sets the flag, the timer ends the window. *)
Definition window (active : bool) : M (state L) unit :=
  (if active then zoom world_lens (GamepadsWatcher.set_gamepad_active true)
   else ret tt) ;;
  inhibit_idle_when_gamepads_active Timer.

Definition flag s : bool :=
  GamepadsWatcher.gamepad_active (GamepadsWatcher.w_self (b_world s)).

Definition locked s : bool := bool_decide (is_Some (IdleLock.fd (lock s))).

(** The state after the flag was sampled. *)
Definition sampled s : state L :=
  exec (zoom world_lens GamepadsWatcher.get_and_reset_active) s.

(** ** Equations *)

Lemma sampled_flag s : flag (sampled s) = false.
Proof. done. Qed.

Lemma sampled_lock s : lock (sampled s) = lock s.
Proof. done. Qed.

Lemma sample_eq s :
  sample s
  = if flag s then zoom lock_lens IdleLock.lock_idle (sampled s)
    else zoom lock_lens IdleLock.unlock_idle (sampled s).
Proof.
  unfold sample, flag, sampled. py_unfold. simpl.
  by destruct (GamepadsWatcher.gamepad_active _).
Qed.

Lemma zoom_lock_lock {A} (m : M (IdleLock.IdleLock L) A) s :
  lock (exec (zoom lock_lens m) s) = exec m (lock s).
Proof. unfold exec, zoom. simpl. by destruct (m (lock s)). Qed.

Lemma zoom_lock_world {A} (m : M (IdleLock.IdleLock L) A) s :
  b_world (exec (zoom lock_lens m) s) = b_world s
  ∧ root (exec (zoom lock_lens m) s) = root s.
Proof. unfold exec, zoom. simpl. by destruct (m (lock s)). Qed.

Lemma zoom_lock_eval {A} (m : M (IdleLock.IdleLock L) A) s :
  eval (zoom lock_lens m) s = eval m (lock s).
Proof. unfold eval, zoom. simpl. by destruct (m (lock s)). Qed.

Lemma on_cancelled_raises s : is_ok (eval on_cancelled s) = false.
Proof.
  unfold on_cancelled, logging_info. py_unfold. simpl.
  by destruct (IdleLock.unlock_idle (lock s)) as [[[]|e] k].
Qed.

(** A timer wake-up returns to the sleep exactly when the sample returns. *)
Lemma timer_ok s s' :
  inhibit_idle_when_gamepads_active Timer s = (Ok tt, s')
  ↔ sample s = (Ok tt, s').
Proof.
  unfold inhibit_idle_when_gamepads_active, try_except. simpl.
  rewrite bind_ret_l. destruct (sample s) as [[[]|e] s0]; [done|].
  split; [|done]. destruct e; try done.
  pose proof (on_cancelled_raises s0) as Hc. unfold eval in Hc.
  destruct (on_cancelled s0) as [[[]|e] s1]; naive_solver.
Qed.

(** An exception of the sample other than [CancelledError] ends the
    coroutine: the handler does not run. *)
Lemma timer_raise s e s' :
  sample s = (Raise e, s') → e ≠ CancelledError →
  inhibit_idle_when_gamepads_active Timer s = (Raise e, s').
Proof.
  intros Hs He. unfold inhibit_idle_when_gamepads_active. simpl.
  apply (try_except_uncaught _ _ _ e s'); [by rewrite bind_ret_l|].
  by destruct e.
Qed.

Lemma cancel_eq s :
  inhibit_idle_when_gamepads_active Cancel s = on_cancelled s.
Proof. done. Qed.

Lemma cancel_eq' s :
  eval (inhibit_idle_when_gamepads_active Cancel) s = eval on_cancelled s.
Proof. done. Qed.

Lemma on_cancelled_eq s :
  IdleLock.lock_inv (lock s) →
  on_cancelled s
  = (Raise CancelledError,
     State (b_world s) (exec IdleLock.unlock_idle (lock s))
           (emit INFO "Inhibit task exits" (root s))).
Proof.
  intros Hinv. unfold on_cancelled, logging_info. py_unfold. simpl.
  destruct (IdleLock.fd (lock s)) as [f|] eqn:Hfd.
  - rewrite (IdleLock.unlock_idle_released _ f); [done..|].
    red in Hinv. rewrite Hinv, Hfd. set_solver.
  - by rewrite IdleLock.unlock_idle_free.
Qed.

(** ** What a turn leaves alone *)

Lemma sample_world s : b_world (exec sample s) = b_world (sampled s).
Proof.
  unfold exec. rewrite sample_eq.
  destruct (flag s); apply (zoom_lock_world _ (sampled s)).
Qed.

Lemma on_cancelled_world s : b_world (exec on_cancelled s) = b_world s.
Proof.
  unfold exec, on_cancelled, logging_info. py_unfold. simpl.
  by destruct (IdleLock.unlock_idle (lock s)) as [[[]|e] k].
Qed.

Lemma turn_world r s :
  GamepadsWatcher.same_watcher (b_world s)
    (b_world (exec (inhibit_idle_when_gamepads_active r) s)).
Proof.
  destruct r.
  2: { change (exec (inhibit_idle_when_gamepads_active Cancel) s)
         with (exec on_cancelled s). by rewrite on_cancelled_world. }
  pose proof (sample_world s) as Hs. unfold exec in *.
  unfold inhibit_idle_when_gamepads_active, try_except. simpl.
  rewrite bind_ret_l. destruct (sample s) as [[[]|e] s1]; simpl in Hs.
  - cbn. by rewrite Hs.
  - destruct e; cbn [fst snd]; try (by rewrite Hs).
    change (GamepadsWatcher.same_watcher (b_world s)
              (b_world (exec on_cancelled s1))).
    by rewrite on_cancelled_world, Hs.
Qed.

(** ** The lock follows the flag *)

Lemma sample_inv s :
  IdleLock.lock_inv (lock s) → IdleLock.lock_inv (lock (exec sample s)).
Proof.
  intros Hinv. unfold exec. rewrite sample_eq.
  destruct (flag s); fold (exec (zoom lock_lens IdleLock.lock_idle) (sampled s));
    fold (exec (zoom lock_lens IdleLock.unlock_idle) (sampled s));
    rewrite zoom_lock_lock, sampled_lock;
    [by apply IdleLock.lock_idle_inv|by apply IdleLock.unlock_idle_inv].
Qed.


Lemma sample_eval s :
  eval sample s
  = if flag s then eval IdleLock.lock_idle (lock s)
    else eval IdleLock.unlock_idle (lock s).
Proof.
  unfold eval at 1. rewrite sample_eq.
  destruct (flag s); apply (zoom_lock_eval _ (sampled s)).
Qed.

(** What a sample that returned has done. *)
Lemma sample_ok s s' :
  IdleLock.lock_inv (lock s) → sample s = (Ok tt, s') →
  locked s' = flag s ∧ flag s' = false ∧ IdleLock.lock_inv (lock s')
  ∧ b_world s' = b_world (sampled s) ∧ root s' = root s.
Proof.
  intros Hinv Hs. pose proof (sample_inv s Hinv) as Hinv'.
  unfold exec in Hinv'. rewrite Hs in Hinv'. simpl in Hinv'.
  revert Hs. rewrite sample_eq. unfold locked, zoom. simpl.
  destruct (flag s) eqn:Hf.
  - pose proof (IdleLock.lock_idle_fd (lock s)) as Hfd. unfold eval, exec in Hfd.
    destruct (IdleLock.lock_idle (lock s)) as [r k]. intros [= -> <-]. simpl.
    split_and!; try done. apply bool_decide_eq_true. by apply Hfd.
  - pose proof (IdleLock.unlock_idle_fd (lock s) Hinv) as Hfd. unfold exec in Hfd.
    destruct (IdleLock.unlock_idle (lock s)) as [r k]. intros [= -> <-]. simpl in *.
    split_and!; try done. rewrite Hfd. apply bool_decide_eq_false. by intros [].
Qed.

Lemma window_ok a s s' :
  IdleLock.lock_inv (lock s) → flag s = false → window a s = (Ok tt, s') →
  locked s' = a ∧ flag s' = false ∧ IdleLock.lock_inv (lock s').
Proof.
  intros Hinv Hf. unfold window.
  destruct a; simpl; rewrite ?bind_ret_l; unfold bind; simpl;
    intros Hs%timer_ok; apply sample_ok in Hs as (Hl & ? & ? & _); try done.
  by rewrite Hl.
Qed.

Lemma windows_ok ws : ∀ s s',
  IdleLock.lock_inv (lock s) → flag s = false →
  for_each ws window s = (Ok tt, s') →
  flag s' = false ∧ IdleLock.lock_inv (lock s').
Proof.
  induction ws as [|a ws IH]; intros s s' Hinv Hf; simpl.
  { by intros [= <-]. }
  unfold bind. destruct (window a s) as [[[]|e] s1] eqn:Hw; [|done].
  apply window_ok in Hw as (_ & ? & ?); [|done..]. by apply IH.
Qed.

(** C23: a timer wake-up that returns to the sleep leaves the lock held
    exactly when the flag was set during the window, clears the flag and
    keeps one inhibitor lock at most: the bridge is level-triggered. *)
Theorem tick_follows_flag s :
  IdleLock.lock_inv (lock s) →
  eval (inhibit_idle_when_gamepads_active Timer) s = Ok tt →
  let s' := exec (inhibit_idle_when_gamepads_active Timer) s in
  locked s' = flag s
  ∧ flag s' = false
  ∧ size (inhibitors (IdleLock.iface (lock s'))) = (if flag s then 1 else 0).
Proof.
  intros Hinv Hok s'. subst s'. unfold eval, exec in *.
  destruct (inhibit_idle_when_gamepads_active Timer s) as [r s'] eqn:Hs.
  simpl in *. subst r. apply timer_ok, sample_ok in Hs as (Hl & ? & Hinv' & _);
    [|done]. split_and!; [done..|].
  red in Hinv'. rewrite Hinv'. unfold locked in Hl. rewrite <-Hl.
  destruct (IdleLock.fd (lock s')) as [f|]; [|done]. apply size_singleton.
Qed.

(** A timer wake-up returns to the sleep whenever the service does not
    refuse a lock that has to be taken; in a window without input, and when
    the lock is already held, it always does. *)
Theorem tick_returns s :
  IdleLock.lock_inv (lock s) →
  (flag s = true → IdleLock.fd (lock s) = None →
   is_ok (eval (Inhibit "shutdown:idle" "Gamepad Idle Inhibit"
                        "Gamepad active" "block") (IdleLock.iface (lock s)))
   = true) →
  eval (inhibit_idle_when_gamepads_active Timer) s = Ok tt.
Proof.
  intros Hinv Hsvc. cut (eval sample s = Ok tt).
  { unfold eval. destruct (sample s) as [r s'] eqn:Hs. simpl. intros ->.
    apply timer_ok in Hs. by rewrite Hs. }
  rewrite sample_eval. destruct (flag s); [|by apply IdleLock.unlock_idle_ok].
  unfold eval in *. destruct (IdleLock.fd (lock s)) as [f|] eqn:Hfd.
  { by rewrite (IdleLock.lock_idle_held _ f). }
  specialize (Hsvc eq_refl eq_refl).
  destruct (Inhibit _ _ _ _ (IdleLock.iface (lock s))) as [[f|e] l'] eqn:Hinh;
    [|done]. by rewrite (IdleLock.lock_idle_acquired _ f l').
Qed.

(** When the flag is set, no lock is held and [Inhibit] fails, the
    exception is not caught: the coroutine ends with it, without running the
    handler of the cancellation; the activity of the window is lost. *)
Theorem tick_inhibit_fails s e l' :
  flag s = true → IdleLock.fd (lock s) = None →
  Inhibit "shutdown:idle" "Gamepad Idle Inhibit" "Gamepad active" "block"
          (IdleLock.iface (lock s)) = (Raise e, l') →
  e ≠ CancelledError →
  let s' := exec (inhibit_idle_when_gamepads_active Timer) s in
  eval (inhibit_idle_when_gamepads_active Timer) s = Raise e
  ∧ locked s' = false ∧ flag s' = false ∧ root s' = root s.
Proof.
  intros Hf Hfd Hinh He s'. subst s'. unfold eval, exec.
  rewrite (timer_raise s e
    (State (b_world (sampled s))
       (IdleLock.Build (emit INFO "Inhibiting idle" (IdleLock.logger (lock s)))
          None l') (root s))); [done| |done].
  rewrite sample_eq, Hf. unfold zoom. simpl.
  by rewrite (IdleLock.lock_idle_failed _ e l').
Qed.

(** C32: a cancellation at the sleep ends the coroutine with
    [CancelledError] after one call of [unlock_idle]: no lock is held and no
    inhibitor is open afterwards, and the lock was released once if it was
    held and not at all if it was not. *)
Theorem cancel_unlocks s :
  IdleLock.lock_inv (lock s) →
  let s' := exec (inhibit_idle_when_gamepads_active Cancel) s in
  eval (inhibit_idle_when_gamepads_active Cancel) s = Raise CancelledError
  ∧ locked s' = false
  ∧ inhibitors (IdleLock.iface (lock s')) = ∅
  ∧ b_world s' = b_world s
  ∧ root s' = emit INFO "Inhibit task exits" (root s)
  ∧ IdleLock.logger (lock s')
    = (if locked s
       then emit INFO "Releasing idle lock" (IdleLock.logger (lock s))
       else IdleLock.logger (lock s)).
Proof.
  intros Hinv s'. subst s'. unfold eval, exec. rewrite cancel_eq.
  rewrite on_cancelled_eq by done. simpl.
  pose proof (IdleLock.unlock_idle_fd _ Hinv) as Hfd.
  pose proof (IdleLock.unlock_idle_inv _ Hinv) as Hinv'.
  red in Hinv'. rewrite Hfd in Hinv'. unfold locked. simpl.
  split_and!; try done.
  - rewrite Hfd. apply bool_decide_eq_false. by intros [].
  - unfold exec. destruct (IdleLock.fd (lock s)) as [f|] eqn:Hf.
    + rewrite (IdleLock.unlock_idle_released _ f); [done..|].
      red in Hinv. rewrite Hinv, Hf. set_solver.
    + by rewrite IdleLock.unlock_idle_free.
Qed.

(** A turn that ends the coroutine leaves no lock held. *)
Lemma sample_raises_fd s e s' :
  IdleLock.lock_inv (lock s) → sample s = (Raise e, s') →
  IdleLock.fd (lock s') = None.
Proof.
  intros Hinv. rewrite sample_eq. unfold zoom. simpl. destruct (flag s).
  - destruct (IdleLock.fd (lock s)) as [f|] eqn:Hfd.
    { by rewrite (IdleLock.lock_idle_held _ f). }
    destruct (Inhibit "shutdown:idle" "Gamepad Idle Inhibit" "Gamepad active"
                "block" (IdleLock.iface (lock s))) as [[f|e'] l'] eqn:Hinh.
    + by rewrite (IdleLock.lock_idle_acquired _ f l').
    + rewrite (IdleLock.lock_idle_failed _ e' l') by done. by intros [= _ <-].
  - pose proof (IdleLock.unlock_idle_ok _ Hinv) as Hok. unfold eval in Hok.
    destruct (IdleLock.unlock_idle (lock s)) as [r k]. simpl in Hok.
    by subst r.
Qed.

Lemma turn_raises_fd r s :
  IdleLock.lock_inv (lock s) →
  is_ok (eval (inhibit_idle_when_gamepads_active r) s) = false →
  IdleLock.fd (lock (exec (inhibit_idle_when_gamepads_active r) s)) = None.
Proof.
  intros Hinv. unfold eval, exec. destruct r.
  - pose proof (sample_inv s Hinv) as Hinv1.
    pose proof (sample_raises_fd s) as Hfd. unfold exec in Hinv1.
    unfold inhibit_idle_when_gamepads_active, try_except. simpl.
    rewrite bind_ret_l. destruct (sample s) as [[[]|e] s1]; [done|].
    specialize (Hfd e s1 Hinv eq_refl). simpl in Hinv1.
    destruct e; try done. rewrite on_cancelled_eq by done. simpl.
    intros _. by apply IdleLock.unlock_idle_fd.
  - rewrite cancel_eq, on_cancelled_eq by done. simpl.
    intros _. by apply IdleLock.unlock_idle_fd.
Qed.

(** Every turn of the coroutine, however it ends, keeps the inhibitor
    descriptors open at the service equal to the one the lock refers to. *)
Lemma turn_lock_inv r s :
  IdleLock.lock_inv (lock s) →
  IdleLock.lock_inv (lock (exec (inhibit_idle_when_gamepads_active r) s)).
Proof.
  intros Hinv. destruct r.
  - pose proof (sample_inv s Hinv) as Hs. unfold exec in *.
    unfold inhibit_idle_when_gamepads_active, try_except. simpl.
    rewrite bind_ret_l. destruct (sample s) as [[[]|e] s1]; [done|].
    simpl in Hs. destruct e; try done. rewrite on_cancelled_eq by done.
    by apply IdleLock.unlock_idle_inv.
  - unfold exec. rewrite cancel_eq, on_cancelled_eq by done.
    by apply IdleLock.unlock_idle_inv.
Qed.

(** Over any run of sampling windows in which every wake-up returned,
    the lock is held after the last window exactly when that window had
    input, whatever happened in the windows before. *)
Theorem windows_follow_activity ws a s :
  IdleLock.lock_inv (lock s) → flag s = false →
  eval (for_each (ws ++ [a]) window) s = Ok tt →
  locked (exec (for_each (ws ++ [a]) window) s) = a.
Proof.
  intros Hinv Hf. unfold eval, exec. rewrite for_each_app.
  destruct (for_each ws window s) as [[[]|e] s1] eqn:Hws;
    [|by rewrite (bind_err _ _ _ e s1)].
  rewrite (bind_ok _ _ _ tt s1 Hws). simpl. unfold bind.
  apply windows_ok in Hws as [Hf1 Hinv1]; [|done..].
  destruct (window a s1) as [[[]|e] s2] eqn:Hw; [|done]. simpl.
  intros _. by apply window_ok in Hw as (? & _).
Qed.
End bridge.

(** ** Witnesses, with the service [Logind.service] *)

(** The coroutine at its first sleep, with the watcher started. *)
Definition b_idle : state Logind.logind :=
  new GamepadsWatcher.w_started (Logind.Build ∅ false).

(** Input arrived during the window. *)
Definition b_active : state Logind.logind :=
  exec (zoom world_lens (GamepadsWatcher.set_gamepad_active true)) b_idle.

(** The lock is held. *)
Definition b_locked : state Logind.logind :=
  exec (inhibit_idle_when_gamepads_active Timer) b_active.

(** Input arrived and logind refuses. *)
Definition b_refused : state Logind.logind :=
  exec (zoom world_lens (GamepadsWatcher.set_gamepad_active true))
       (new GamepadsWatcher.w_started (Logind.Build ∅ true)).

Lemma tick_follows_flag_witness :
  locked b_locked = true ∧ flag b_locked = false
  ∧ size (inhibitors (IdleLock.iface (lock b_locked))) = 1.
Proof. apply (tick_follows_flag b_active); reflexivity. Defined.

Lemma tick_returns_witness :
  eval (inhibit_idle_when_gamepads_active Timer) b_active = Ok tt.
Proof. apply (tick_returns b_active); reflexivity. Defined.

Lemma tick_inhibit_fails_witness :
  let s' := exec (inhibit_idle_when_gamepads_active Timer) b_refused in
  eval (inhibit_idle_when_gamepads_active Timer) b_refused = Raise DBusException
  ∧ locked s' = false ∧ flag s' = false ∧ root s' = root b_refused.
Proof.
  apply (tick_inhibit_fails b_refused DBusException (Logind.Build ∅ true));
    [reflexivity..|discriminate].
Defined.

Lemma b_locked_inv : IdleLock.lock_inv (lock b_locked).
Proof. by vm_compute. Qed.

Lemma cancel_unlocks_witness :
  let s' := exec (inhibit_idle_when_gamepads_active Cancel) b_locked in
  eval (inhibit_idle_when_gamepads_active Cancel) b_locked = Raise CancelledError
  ∧ locked s' = false
  ∧ inhibitors (IdleLock.iface (lock s')) = ∅
  ∧ b_world s' = b_world b_locked
  ∧ root s' = emit INFO "Inhibit task exits" (root b_locked)
  ∧ IdleLock.logger (lock s')
    = emit INFO "Releasing idle lock" (IdleLock.logger (lock b_locked)).
Proof. exact (cancel_unlocks b_locked b_locked_inv). Defined.

Lemma windows_follow_activity_witness :
  locked (exec (for_each ([true; true; false] ++ [true]) window) b_idle) = true.
Proof.
  apply (windows_follow_activity [true; true; false] true b_idle); reflexivity.
Defined.

End Bridge.
