(* ===== verification/Finder.v ===== *)
(** * Finder: discovery of controllers and hotplug notifications

    Class [GamepadsFinder] of [src/gamepad-lock-inhibit.py] (lines 13-62).
    The constructor enumerates the input devices that udev classifies as
    joysticks and keeps their device nodes in [self.devices]; after [start]
    an observer thread calls [_on_new_event] for every event of the monitor,
    and [_on_new_event] hands the add and remove events of joysticks to the
    loop with [call_soon_threadsafe].

    pyudev is modelled from its documentation: a device is a record of the
    attributes the program reads, [list_devices] filters a list of devices
    by subsystem, property and name pattern, [asbool] raises [KeyError] for
    a missing property and [ValueError] for a value other than ["0"] and
    ["1"], and the observer thread ends when its callback raises
    ([deliver]).  A device is taken to have a device node, which holds for
    the event devices of the input subsystem.

    The file is generic in the callbacks: [cb_add] and [cb_remove] are the
    constructor's arguments. *)

From S2P Require Import Prelude PyDict Asyncio.

Module GamepadsFinder.

(** [pyudev.Device], as far as the program reads it. *)
Record Device : Type := Build_Device {
  action : string;
  subsystem : string;
  sys_name : string;
  device_node : string;
  properties : gmap string string;
}.

#[global] Instance Device_eq_dec : EqDecision Device.
Proof. solve_decision. Defined.

(** Lines 14-15. *)
Definition SUBSYSTEM : string := "input".
Definition SYS_NAME_PREFIX : string := "event".

Section finder.
Context {C X : Type}.

Record GamepadsFinder : Type := Build {
  logger : Prelude.logger;
  devices : list string;
  observer : bool;            (* the observer thread runs *)
  cb_add : string → C;
  cb_remove : string → C;
}.

(** The finder and the loop it was given. *)
Record world : Type := World {
  f_self : GamepadsFinder;
  f_loop : loop C X;
}.

Implicit Types (device : Device) (w : world) (db : list Device).

Definition self_lens : lens world GamepadsFinder :=
  Lens f_self (λ x w, World x (f_loop w)).
Definition loop_lens : lens world (loop C X) :=
  Lens f_loop (λ x w, World (f_self w) x).

Definition info (msg : string) : M world unit :=
  zoom self_lens (modify (λ s,
    Build (emit INFO msg (logger s)) (devices s) (observer s) (cb_add s)
          (cb_remove s))).

Definition set_observer (b : bool) : M world unit :=
  zoom self_lens (modify (λ s,
    Build (logger s) (devices s) b (cb_add s) (cb_remove s))).

(** ** pyudev *)

(** [context.list_devices(subsystem=..., PROP=value, sys_name=prefix+"*")] *)
Definition list_devices (subsys prop value prefix : string) db : list Device :=
  filter (λ d, subsystem d = subsys ∧ properties d !! prop = Some value
               ∧ String.prefix prefix (sys_name d) = true) db.

(** [device.properties.asbool(prop)] *)
Definition asbool {S} (prop : string) device : M S bool :=
  match properties device !! prop with
  | None => raise (KeyError prop)
  | Some v =>
      if decide (v = "1") then ret true
      else if decide (v = "0") then ret false
      else raise (ValueError v)
  end.

(** ** The methods *)

Definition get_device_path device : string := device_node device.

(** [GamepadsFinder(loop, cb_add, cb_remove)], with the devices udev knows. *)
Definition init db (add remove : string → C) : GamepadsFinder :=
  Build [] (get_device_path
              <$> list_devices SUBSYSTEM "ID_INPUT_JOYSTICK" "1"
                               SYS_NAME_PREFIX db)
        false add remove.

Definition start : M world unit :=
  info "Start monitoring udev for gamepad devices" ;;
  set_observer true.

Definition stop : M world unit :=
  info "Stop monitoring udev for gamepad devices" ;;
  set_observer false.

Definition _on_new_event device : M world unit :=
  if negb (bool_decide (action device ∈ ["add"; "remove"])) then ret tt
  else
    let* joystick :=
      try_except (asbool "ID_INPUT_JOYSTICK" device)
        (λ e, match e with KeyError _ => Some (ret false) | _ => None end) in
    if negb joystick then ret tt
    else if negb (String.prefix SYS_NAME_PREFIX (sys_name device)) then ret tt
    else
      info (device_node device +:+ " action " +:+ action device) ;;
      let* self := gets f_self in
      if decide (action device = "add")
      then zoom loop_lens (call_soon (cb_add self (get_device_path device)))
      else zoom loop_lens (call_soon (cb_remove self (get_device_path device))).

(** The observer thread receives one event.  The monitor passes the events
    of the subsystem it was filtered by (line 24); an exception of the
    callback ends the thread. *)
Definition deliver device : M world unit :=
  let* running := gets (λ w, observer (f_self w)) in
  if negb running || negb (bool_decide (subsystem device = SUBSYSTEM))
  then ret tt
  else try_except (_on_new_event device)
         (λ e, Some (set_observer false ;; raise e)).

(** The event the monitor reports when udev adds or removes [device]: the
    device, with the action. *)
Definition reported (act : string) device : Device :=
  Build_Device act (subsystem device) (sys_name device) (device_node device)
               (properties device).

(** ** Specification of the filter *)

(** The value of the joystick property the program can read. *)
Definition readable device : Prop :=
  properties device !! "ID_INPUT_JOYSTICK" ∈ [None; Some "0"; Some "1"].

(** The event is a hotplug event of a joystick's event device. *)
Definition passes device : bool :=
  bool_decide (action device ∈ ["add"; "remove"])
  && bool_decide (properties device !! "ID_INPUT_JOYSTICK" = Some "1")
  && String.prefix SYS_NAME_PREFIX (sys_name device).

(** The callback the event is turned into. *)
Definition callback_of (s : GamepadsFinder) device : C :=
  if decide (action device = "add") then cb_add s (get_device_path device)
  else cb_remove s (get_device_path device).

Definition queued (s : GamepadsFinder) device : list (handle C) :=
  if passes device then [Call (callback_of s device)] else [].

Definition logged device w : world :=
  exec (info (device_node device +:+ " action " +:+ action device)) w.

(** ** Lemmas *)

Lemma on_new_event_passes device w :
  passes device = true →
  _on_new_event device w
  = (Ok tt, World (f_self (logged device w))
                  (enqueue [Call (callback_of (f_self w) device)] (f_loop w))).
Proof.
  unfold passes, _on_new_event, asbool, callback_of.
  intros [[Ha Hj%bool_decide_eq_true]%andb_prop Hp]%andb_prop.
  rewrite Ha, Hp. simpl. unfold try_except, bind. rewrite Hj. simpl.
  by destruct (decide (action device = "add")).
Qed.

Lemma on_new_event_ignored device w :
  readable device → passes device = false → _on_new_event device w = (Ok tt, w).
Proof.
  unfold readable, passes, _on_new_event, asbool. intros Hr Hp.
  destruct (bool_decide (action device ∈ _)); simpl in *; [|done].
  unfold try_except, bind.
  destruct (properties device !! "ID_INPUT_JOYSTICK") as [v|]; simpl; [|done].
  rewrite !elem_of_cons, elem_of_nil in Hr.
  repeat case_decide; subst; simpl in *; try done;
    try (by rewrite Hp); naive_solver.
Qed.

Lemma on_new_event_unreadable device w :
  action device ∈ ["add"; "remove"] → ¬ readable device →
  ∃ v, properties device !! "ID_INPUT_JOYSTICK" = Some v
       ∧ _on_new_event device w = (Raise (ValueError v), w).
Proof.
  unfold readable, _on_new_event, asbool. intros Ha Hr.
  rewrite bool_decide_eq_true_2 by done. simpl. unfold try_except, bind.
  rewrite !elem_of_cons, elem_of_nil in Hr.
  destruct (properties device !! "ID_INPUT_JOYSTICK") as [v|];
    [|naive_solver].
  exists v. split; [done|]. repeat case_decide; subst; try done; naive_solver.
Qed.

(** [_on_new_event] queues the callback of the event or changes nothing. *)
Lemma on_new_event_cases device w :
  _on_new_event device w
  = (Ok tt, World (f_self (logged device w))
                  (enqueue [Call (callback_of (f_self w) device)] (f_loop w)))
  ∨ ∃ r, _on_new_event device w = (r, w).
Proof.
  destruct (passes device) eqn:Hp; [left; by apply on_new_event_passes|].
  right. destruct (decide (readable device)) as [Hr|Hr].
  { exists (Ok tt). by apply on_new_event_ignored. }
  destruct (decide (action device ∈ ["add"; "remove"])) as [Ha|Ha].
  - destruct (on_new_event_unreadable device w Ha Hr) as (v & _ & Hrun).
    by eexists.
  - exists (Ok tt). unfold _on_new_event. by rewrite bool_decide_eq_false_2.
Qed.

(** The observer changes the loop by queueing the callback of the event,
    if at all, and leaves the callbacks of the finder as they are. *)
Lemma deliver_frame device w :
  let w' := exec (deliver device) w in
  cb_add (f_self w') = cb_add (f_self w)
  ∧ cb_remove (f_self w') = cb_remove (f_self w)
  ∧ (f_loop w' = f_loop w
     ∨ f_loop w' = enqueue [Call (callback_of (f_self w) device)] (f_loop w)).
Proof.
  unfold exec, deliver, bind, gets. simpl.
  destruct (negb (observer (f_self w)) || _); [by auto|]. unfold try_except.
  destruct (on_new_event_cases device w) as [->|[[[]|e] ->]]; simpl; auto.
Qed.

Lemma passes_joystick device :
  passes device = true → properties device !! "ID_INPUT_JOYSTICK" = Some "1".
Proof.
  unfold passes. by intros [[_ ?%bool_decide_eq_true]%andb_prop _]%andb_prop.
Qed.

Lemma passes_readable device : passes device = true → readable device.
Proof. intros Hj%passes_joystick. unfold readable. rewrite Hj. set_solver. Qed.

(** What [_on_new_event] does on a device whose property it can read. *)
Lemma on_new_event_readable device w :
  readable device →
  _on_new_event device w
  = (Ok tt, if passes device
            then World (f_self (logged device w))
                       (enqueue (queued (f_self w) device) (f_loop w))
            else w).
Proof.
  intros Hr. unfold queued. destruct (passes device) eqn:Hp.
  - by apply on_new_event_passes.
  - by apply on_new_event_ignored.
Qed.

(** C30: for an event whose joystick property is absent, ["0"] or ["1"],
    [_on_new_event] returns normally and queues exactly one callback,
    [cb_add] or [cb_remove] of the device node according to the action, when
    the action is add or remove, the property is ["1"] and the name starts
    with [event]; otherwise it queues nothing.  Tasks, the discovered devices
    and the observer are untouched. *)
Theorem on_new_event_filter device w :
  readable device →
  let w' := exec (_on_new_event device) w in
  eval (_on_new_event device) w = Ok tt
  ∧ l_ready (f_loop w') = l_ready (f_loop w) ++ queued (f_self w) device
  ∧ l_tasks (f_loop w') = l_tasks (f_loop w)
  ∧ devices (f_self w') = devices (f_self w)
  ∧ observer (f_self w') = observer (f_self w).
Proof.
  intros Hr w'. subst w'. unfold eval, exec.
  rewrite on_new_event_readable by done. unfold queued.
  destruct (passes device); simpl; by rewrite ?app_nil_r.
Qed.

(** An event of a device that udev does not classify as a joystick
    never queues a callback, whatever its action, its name and the value of
    the property, and whether [_on_new_event] returns or raises. *)
Theorem on_new_event_not_joystick device w :
  properties device !! "ID_INPUT_JOYSTICK" ≠ Some "1" →
  f_loop (exec (_on_new_event device) w) = f_loop w.
Proof.
  intros Hj. destruct (decide (readable device)) as [Hr|Hr].
  - unfold exec. rewrite on_new_event_readable by done.
    destruct (passes device) eqn:Hp; [|done]. by apply passes_joystick in Hp.
  - destruct (decide (action device ∈ ["add"; "remove"])) as [Ha|Ha].
    + destruct (on_new_event_unreadable device w Ha Hr) as (v & _ & Hrun).
      unfold exec. by rewrite Hrun.
    + unfold exec, _on_new_event. by rewrite bool_decide_eq_false_2.
Qed.

Lemma on_new_event_bad_value device w v :
  action device ∈ ["add"; "remove"] →
  properties device !! "ID_INPUT_JOYSTICK" = Some v → v ≠ "0" → v ≠ "1" →
  _on_new_event device w = (Raise (ValueError v), w).
Proof.
  intros Ha Hv H0 H1.
  destruct (on_new_event_unreadable device w Ha) as (v' & Hv' & Hrun).
  - unfold readable. rewrite Hv, !elem_of_cons, elem_of_nil. naive_solver.
  - congruence.
Qed.

(** An add or remove event whose joystick property has a value other
    than ["0"] and ["1"] makes [_on_new_event] raise [ValueError]: only
    [KeyError] is caught.  Nothing is queued, and the finder keeps its
    observer flag: nothing in the handler stops the observer. *)
Theorem on_new_event_ValueError device w v :
  action device ∈ ["add"; "remove"] →
  properties device !! "ID_INPUT_JOYSTICK" = Some v → v ≠ "0" → v ≠ "1" →
  eval (_on_new_event device) w = Raise (ValueError v)
  ∧ l_ready (f_loop (exec (_on_new_event device) w)) = l_ready (f_loop w)
  ∧ observer (f_self (exec (_on_new_event device) w)) = observer (f_self w).
Proof.
  intros Ha Hv H0 H1. unfold eval, exec.
  by rewrite (on_new_event_bad_value device w v).
Qed.

Lemma for_each_on_new_event ds : ∀ w,
  Forall readable ds →
  ∃ w', for_each ds _on_new_event w = (Ok tt, w')
        ∧ l_ready (f_loop w')
          = l_ready (f_loop w) ++ concat (queued (f_self w) <$> ds)
        ∧ cb_add (f_self w') = cb_add (f_self w)
        ∧ cb_remove (f_self w') = cb_remove (f_self w).
Proof.
  induction ds as [|d ds IH]; intros w Hr; simpl.
  { exists w. by rewrite app_nil_r. }
  apply Forall_cons in Hr as [Hd Hds]. unfold bind.
  rewrite on_new_event_readable by done.
  destruct (IH (if passes d
                then World (f_self (logged d w))
                           (enqueue (queued (f_self w) d) (f_loop w))
                else w) Hds) as (w' & -> & Hq & Ha & Hr').
  exists w'. split; [done|]. rewrite Hq, Ha, Hr'. unfold queued, callback_of.
  destruct (passes d) eqn:Hp; simpl; rewrite ?Hp; simpl;
    by rewrite <-?app_assoc.
Qed.

(** C35: the events of a sequence are handed to the loop in the order the
    observer received them: after the sequence the ready queue has grown by
    the callbacks of the events that pass the filter, in that order. *)
Theorem events_in_order ds w :
  Forall readable ds →
  eval (for_each ds _on_new_event) w = Ok tt
  ∧ l_ready (f_loop (exec (for_each ds _on_new_event) w))
    = l_ready (f_loop w) ++ concat (queued (f_self w) <$> ds).
Proof.
  intros Hr. destruct (for_each_on_new_event ds w Hr) as (w' & Hrun & Hq & _).
  unfold eval, exec. by rewrite Hrun.
Qed.

(** What the observer does with an event whose property it can read. *)
Lemma deliver_readable device w :
  observer (f_self w) = true →
  (subsystem device = SUBSYSTEM → readable device) →
  deliver device w
  = (Ok tt, if bool_decide (subsystem device = SUBSYSTEM) && passes device
            then World (f_self (logged device w))
                       (enqueue [Call (callback_of (f_self w) device)] (f_loop w))
            else w).
Proof.
  intros Ho Hr. unfold deliver, bind, gets. cbn [fst snd]. rewrite Ho.
  cbn [negb orb]. case_bool_decide as Hs; cbn [negb andb]; [|done].
  apply try_except_ok.
  rewrite (on_new_event_readable device w (Hr Hs)). unfold queued.
  by destruct (passes device).
Qed.

(** The devices of a database are plugged in one after the other. *)
Lemma deliver_added db : ∀ w,
  observer (f_self w) = true →
  Forall (λ d, subsystem d = SUBSYSTEM → readable d) db →
  ∃ w', for_each (reported "add" <$> db) deliver w = (Ok tt, w')
        ∧ l_ready (f_loop w')
          = l_ready (f_loop w)
            ++ (Call ∘ cb_add (f_self w)
                  <$> (get_device_path
                         <$> list_devices SUBSYSTEM "ID_INPUT_JOYSTICK" "1"
                                          SYS_NAME_PREFIX db)).
Proof.
  induction db as [|d db IH]; intros w Ho Hr; simpl.
  { exists w. by rewrite app_nil_r. }
  apply Forall_cons in Hr as [Hd Hdb]. unfold bind.
  rewrite deliver_readable by done. unfold list_devices in *.
  rewrite filter_cons. unfold passes, callback_of. simpl.
  destruct (decide (subsystem d = SUBSYSTEM)) as [Hs|Hs]; last first.
  { rewrite bool_decide_eq_false_2, decide_False by naive_solver. simpl.
    by apply IH. }
  rewrite (bool_decide_eq_true_2 _ Hs). simpl.
  destruct (decide (properties d !! "ID_INPUT_JOYSTICK" = Some "1")) as [Hj|Hj];
    last first.
  { rewrite bool_decide_eq_false_2, decide_False by naive_solver. simpl.
    by apply IH. }
  rewrite (bool_decide_eq_true_2 _ Hj). simpl.
  destruct (String.prefix SYS_NAME_PREFIX (sys_name d)) eqn:Hp; last first.
  { rewrite decide_False by naive_solver. by apply IH. }
  rewrite decide_True by done.
  match goal with
  | |- ∃ w', for_each _ _ ?w0 = _ ∧ _ =>
      destruct (IH w0) as (w' & Hrun & Hq); [done..|]
  end.
  exists w'. split; [done|]. rewrite Hq. simpl. by rewrite <-app_assoc.
Qed.

(** C37: the constructor and the event handler classify alike.  Let the
    observer run, and let udev report the addition of every device of a
    database, in order.  The handler queues [cb_add] for exactly the device
    nodes that the constructor, given the same database, puts into
    [self.devices], in the same order: a controller is found at start-up
    exactly when it would be found on being plugged in.  The devices of
    the input subsystem must carry a joystick property that [asbool] can
    read. *)
Theorem discovery_agrees_with_filter db add remove w :
  observer (f_self w) = true →
  Forall (λ d, subsystem d = SUBSYSTEM → readable d) db →
  let plug_all := for_each (reported "add" <$> db) deliver in
  eval plug_all w = Ok tt
  ∧ l_ready (f_loop (exec plug_all w))
    = l_ready (f_loop w)
      ++ (Call ∘ cb_add (f_self w) <$> devices (init db add remove)).
Proof.
  intros Ho Hr. destruct (deliver_added db w Ho Hr) as (w' & Hrun & Hq).
  cbv zeta. unfold eval, exec. by rewrite Hrun.
Qed.

(** After [stop] the observer delivers nothing: no event changes the
    loop, and a second [stop] changes only the log. *)
Theorem stop_silences device w :
  let w' := exec stop w in
  observer (f_self w') = false
  ∧ deliver device w' = (Ok tt, w')
  ∧ observer (f_self (exec stop w')) = false
  ∧ f_loop (exec stop w') = f_loop w.
Proof. done. Qed.

(** C36: an event that makes the callback raise ends the observer thread:
    the joystick events that follow it are not delivered. *)
Theorem deliver_ValueError_ends_observer device w v next :
  observer (f_self w) = true → subsystem device = SUBSYSTEM →
  action device ∈ ["add"; "remove"] →
  properties device !! "ID_INPUT_JOYSTICK" = Some v → v ≠ "0" → v ≠ "1" →
  let w' := exec (deliver device) w in
  eval (deliver device) w = Raise (ValueError v)
  ∧ observer (f_self w') = false
  ∧ deliver next w' = (Ok tt, w').
Proof.
  intros Ho Hs Ha Hv H0 H1.
  assert (deliver device w
          = (Raise (ValueError v), exec (set_observer false) w)) as Hrun.
  { unfold deliver, bind, gets. simpl.
    rewrite Ho, bool_decide_eq_true_2 by done. simpl.
    by rewrite (try_except_caught _ _ w (ValueError v) w
                  (set_observer false ;; raise (ValueError v))%py);
      [|apply on_new_event_bad_value|]. }
  unfold eval, exec. by rewrite Hrun.
Qed.
End finder.

Arguments GamepadsFinder : clear implicits.
Arguments world : clear implicits.

(** ** Witnesses *)

Definition joystick (act name node : string) : Device :=
  Build_Device act "input" name node {["ID_INPUT_JOYSTICK" := "1"]}.

Definition keyboard (act : string) : Device :=
  Build_Device act "input" "event0" "/dev/input/event0" ∅.

Definition odd (act : string) : Device :=
  Build_Device act "input" "event7" "/dev/input/event7"
               {["ID_INPUT_JOYSTICK" := "yes"]}.

(** A finder that was started, with callbacks that tag the path. *)
Definition f_started : world (bool * string) nat :=
  exec start (World (init [] (pair true) (pair false)) new_loop).

Lemma on_new_event_filter_witness :
  eval (_on_new_event (joystick "remove" "event3" "/dev/input/event3")) f_started
  = Ok tt
  ∧ l_ready (f_loop (exec (_on_new_event
                             (joystick "remove" "event3" "/dev/input/event3"))
                          f_started))
    = [Call (false, "/dev/input/event3")].
Proof.
  pose proof (on_new_event_filter
    (joystick "remove" "event3" "/dev/input/event3") f_started) as H.
  simpl in H. refine (let '(conj H1 (conj H2 _)) := H _ in conj H1 H2).
  unfold readable. vm_compute. set_solver.
Defined.

Lemma on_new_event_not_joystick_witness :
  f_loop (exec (_on_new_event (keyboard "add")) f_started) = f_loop f_started.
Proof. by apply (on_new_event_not_joystick (keyboard "add") f_started). Defined.

Lemma on_new_event_ValueError_witness :
  eval (_on_new_event (odd "add")) f_started = Raise (ValueError "yes")
  ∧ l_ready (f_loop (exec (_on_new_event (odd "add")) f_started))
    = l_ready (f_loop f_started)
  ∧ observer (f_self (exec (_on_new_event (odd "add")) f_started))
    = observer (f_self f_started).
Proof.
  apply (on_new_event_ValueError (odd "add") f_started "yes");
    [set_solver|done..].
Defined.

Lemma events_in_order_witness :
  eval (for_each [joystick "remove" "event3" "/dev/input/event3";
                  keyboard "add";
                  joystick "add" "event3" "/dev/input/event3"]
                 _on_new_event) f_started = Ok tt
  ∧ l_ready (f_loop (exec (for_each
       [joystick "remove" "event3" "/dev/input/event3"; keyboard "add";
        joystick "add" "event3" "/dev/input/event3"] _on_new_event) f_started))
    = [Call (false, "/dev/input/event3"); Call (true, "/dev/input/event3")].
Proof.
  apply (events_in_order
           [joystick "remove" "event3" "/dev/input/event3"; keyboard "add";
            joystick "add" "event3" "/dev/input/event3"] f_started).
  repeat constructor; unfold readable; vm_compute; set_solver.
Defined.

(** What udev knows: a keyboard, two joysticks with their event devices
    and the legacy [js0] node of the first, and a mouse. *)
Definition udev_db : list Device :=
  [keyboard EmptyString;
   joystick EmptyString "event3" "/dev/input/event3";
   joystick EmptyString "js0" "/dev/input/js0";
   Build_Device EmptyString "hidraw" "hidraw0" "/dev/hidraw0"
                {["ID_INPUT_JOYSTICK" := "yes"]};
   joystick EmptyString "event5" "/dev/input/event5"].

Lemma discovery_agrees_with_filter_witness :
  devices (init udev_db (pair true) (pair false))
  = ["/dev/input/event3"; "/dev/input/event5"]
  ∧ l_ready (f_loop (exec (for_each (reported "add" <$> udev_db) deliver)
                          f_started))
    = [Call (true, "/dev/input/event3"); Call (true, "/dev/input/event5")].
Proof.
  split; [reflexivity|].
  refine (proj2 (discovery_agrees_with_filter udev_db (pair true) (pair false)
                   f_started eq_refl _)).
  repeat constructor; unfold readable; vm_compute; set_solver.
Defined.

Lemma deliver_ValueError_ends_observer_witness :
  let w' := exec (deliver (odd "add")) f_started in
  eval (deliver (odd "add")) f_started = Raise (ValueError "yes")
  ∧ observer (f_self w') = false
  ∧ deliver (joystick "add" "event3" "/dev/input/event3") w' = (Ok tt, w').
Proof.
  apply (deliver_ValueError_ends_observer (odd "add") f_started "yes");
    [done|done|set_solver|done..].
Defined.
End GamepadsFinder.
