(* ===== verification/System.v ===== *)
(** * System: the program on the event loop

    The process is one event loop that runs handles one at a time, an
    observer thread that feeds it, and the coroutine [main] (lines 189-206).
    This file composes the components into the transition system of the
    whole program:

    - [task_step] is one step of a monitor task: the first step starts the
      coroutine, a step after [cancel] delivers the cancellation, and a
      coroutine that returns finishes its task;
    - [run_handle] runs one handle of the ready queue and [run_once] is one
      iteration of the loop, which reports an exception of a callback to the
      loop's exception handler and goes on;
    - [main_init], [main_body], [main_handler] and [main_finish] are the
      segments of [main] between its suspension points; [phase] says where
      [main] is and [bridge_status] where the inhibit task is; [run_main] is
      the entry point (lines 209-213), run when [main] has ended;
    - [event] lists what can happen next: a segment of [main], a wake-up of
      the inhibit task, an event of the udev monitor, a device node
      appearing or disappearing, input or a read error on an open device,
      logind becoming unavailable, and the loop running its oldest handle;
    - [step] is the transition relation of the process.

    The monitor tasks are entries of the loop's task table.  [main] and the
    inhibit task are not: each step of theirs is an event of its own, which
    may happen at any point between two handles, so the relation allows
    more orders of these steps than the FIFO queue of asyncio produces.  A
    keyboard interrupt is taken to cancel the task of [main], as
    [asyncio.run] does: [main] waits in [await inhibit_task], so the
    cancellation reaches the inhibit task first, and [main] runs its handler
    when that task has ended.  One interrupt is modelled, and only while
    [main] waits and the inhibit task has not ended ([enabled]): a second
    interrupt, and one that arrives before [main] waits or after the inhibit
    task has ended by an exception, are not steps of the relation.

    The invariant of the reachable states is in [Invariant] and
    [Reachable]. *)

From S2P Require Import Prelude PyDict Asyncio Evdev Watcher IdleLock Bridge.
From S2P Require Import Finder.
Import GamepadsWatcher.

(** ** One step of a task *)

(** Resume the coroutine of task [t]; a coroutine that leaves its loop
    finishes the task. *)
Definition resume_task (t : nat) (r : resume) : M world unit :=
  let* o := gets (λ w, l_tasks (w_loop w) !! t) in
  match o with
  | None => ret tt
  | Some tk =>
      let* running := monitor_gamepad_events (t_coro tk) r in
      if running : bool then ret tt else zoom loop_lens (finish t)
  end.

(** [Task.__step]: a cancellation that arrives before the first step ends
    the task without running the coroutine. *)
Definition task_step (t : nat) : M world unit :=
  let* o := gets (λ w, l_tasks (w_loop w) !! t) in
  match o with
  | None => ret tt
  | Some tk =>
      if t_done tk then ret tt
      else if negb (t_started tk) then
        if t_must_cancel tk then zoom loop_lens (finish t)
        else zoom loop_lens (mark_started t) ;; resume_task t First_step
      else if t_must_cancel tk then resume_task t Cancelled
      else ret tt
  end.

Definition run_handle (h : handle callback) : M world unit :=
  match h with
  | Step t => task_step t
  | Call (cb_add_device device) => add_device device
  | Call (cb_remove_device device) => remove_device device
  | CallDone (cb_finish_removing_device device) future =>
      finish_removing_device device future
  | _ => raise TypeError
  end.

(** ** The process *)

(** Where [main] is. *)
Inductive phase : Type :=
  | Created                                  (* [asyncio.run(main())] *)
  | Initialised                              (* at the [try], line 197 *)
  | Running                                  (* in [await inhibit_task] *)
  | Cancelling                               (* cancelled, in the same await *)
  | Stopping (awaited : list (option nat))   (* in [await watcher.stop()] *)
  | Stopped                                  (* [main] returned *)
  | Crashed (e : exn)                        (* [main] raised *)
  | Exited (r : res unit).                   (* the process ended, line 211 *)

#[export] Instance phase_eq_dec : EqDecision phase.
Proof. solve_decision. Defined.

(** Where the inhibit task is. *)
Inductive bridge_status : Type :=
  | B_created               (* its first step has not run *)
  | B_sleeping              (* in [await asyncio.sleep(interval)] *)
  | B_ended (e : exn).      (* the coroutine raised [e] *)

#[export] Instance bridge_status_eq_dec : EqDecision bridge_status.
Proof. solve_decision. Defined.

Record system : Type := System {
  sys_world : world;                                    (* watcher, loop, devices *)
  sys_finder : GamepadsFinder.GamepadsFinder callback;
  sys_lock : IdleLock.IdleLock Logind.logind;           (* the lock of the inhibit task *)
  sys_bridge : bridge_status;
  sys_root : Prelude.logger;                                (* the root logger *)
  sys_phase : phase;
  sys_exceptions : list exn;   (* reported by the loop or by the observer thread *)
}.

Definition new_system (nodes : gmap string string) : system :=
  System (World init new_loop (new_evdev nodes))
         (GamepadsFinder.init [] cb_add_device cb_remove_device)
         (IdleLock.init (Logind.Build ∅ false)) B_created [] Created [].

Definition with_world (w : world) (s : system) : system :=
  System w (sys_finder s) (sys_lock s) (sys_bridge s) (sys_root s)
         (sys_phase s) (sys_exceptions s).

Definition with_evdev (e : evdev) (s : system) : system :=
  with_world (World (w_self (sys_world s)) (w_loop (sys_world s)) e) s.

Definition with_phase (p : phase) (s : system) : system :=
  System (sys_world s) (sys_finder s) (sys_lock s) (sys_bridge s) (sys_root s)
         p (sys_exceptions s).

Definition with_bridge (b : bridge_status) (s : system) : system :=
  System (sys_world s) (sys_finder s) (sys_lock s) b (sys_root s)
         (sys_phase s) (sys_exceptions s).

(** The exception goes to an exception handler and the process goes on. *)
Definition report {A} (r : res A) (s : system) : system :=
  match r with
  | Ok _ => s
  | Raise e =>
      System (sys_world s) (sys_finder s) (sys_lock s) (sys_bridge s)
             (sys_root s) (sys_phase s) (sys_exceptions s ++ [e])
  end.

(** The parts of the process each component works on. *)
Definition world_lens : lens system world := Lens sys_world with_world.

Definition finder_lens : lens system (GamepadsFinder.world callback nat) :=
  Lens (λ s, GamepadsFinder.World (sys_finder s) (w_loop (sys_world s)))
       (λ f s, System (World (w_self (sys_world s)) (GamepadsFinder.f_loop f)
                             (w_evdev (sys_world s)))
                      (GamepadsFinder.f_self f) (sys_lock s) (sys_bridge s)
                      (sys_root s) (sys_phase s) (sys_exceptions s)).

Definition bridge_lens : lens system (Bridge.state Logind.logind) :=
  Lens (λ s, Bridge.State (sys_world s) (sys_lock s) (sys_root s))
       (λ b s, System (Bridge.b_world b) (sys_finder s) (Bridge.lock b)
                      (sys_bridge s) (Bridge.root b) (sys_phase s)
                      (sys_exceptions s)).

Definition logging_info (msg : string) : M system unit :=
  modify (λ s, System (sys_world s) (sys_finder s) (sys_lock s) (sys_bridge s)
                      (emit INFO msg (sys_root s)) (sys_phase s)
                      (sys_exceptions s)).

(** One iteration of the loop: an exception of the callback is reported
    and the loop goes on. *)
Definition run_once (s : system) : system :=
  match l_ready (w_loop (sys_world s)) with
  | [] => s
  | h :: hs =>
      let w := sys_world s in
      let w1 := World (w_self w) (Loop (l_tasks (w_loop w)) (l_next (w_loop w)) hs)
                      (w_evdev w) in
      let '(r, w2) := run_handle h w1 in
      report r (with_world w2 s)
  end.

(** ** The inhibit task *)

(** A turn of the inhibit task; an exception ends it. *)
Definition bridge_turn (r : Bridge.wakeup) (s : system) : system :=
  match zoom bridge_lens (Bridge.inhibit_idle_when_gamepads_active r) s with
  | (Ok _, s') => s'
  | (Raise e, s') => with_bridge (B_ended e) s'
  end.

(** The loop runs the step of the inhibit task that [create_task] or
    [cancel] queued.  The first step runs the coroutine to its first sleep;
    a task cancelled before its first step ends without running. *)
Definition bridge_step (s : system) : system :=
  match sys_bridge s, sys_phase s with
  | B_created, Cancelling => with_bridge (B_ended CancelledError) s
  | B_created, Running => with_bridge B_sleeping s
  | B_sleeping, Cancelling => bridge_turn Bridge.Cancel s
  | _, _ => s
  end.

(** ** [main] *)

(** Lines 190-196, given what udev knows at that moment. *)
Definition main_init (db : list GamepadsFinder.Device) (s : system) : system :=
  let finder := GamepadsFinder.init db cb_add_device cb_remove_device in
  System (exec (set_init_devices (GamepadsFinder.devices finder)) (sys_world s))
         finder (sys_lock s) B_created (sys_root s) Initialised
         (sys_exceptions s).

(** Lines 198-200: the body of the [try] up to the await. *)
Definition main_body : M system unit :=
  logging_info "Start watchers" ;;
  zoom finder_lens GamepadsFinder.start ;;
  zoom world_lens start.

(** Lines 203-205: the handler up to the await of [stop]. *)
Definition main_handler : M system (list (option nat)) :=
  logging_info "Stop watchers" ;;
  zoom finder_lens GamepadsFinder.stop ;;
  zoom world_lens stop.

(** Exception [e] was raised inside the [try]. *)
Definition main_raised (e : exn) (s : system) : system :=
  if decide (e = CancelledError) then
    match main_handler s with
    | (Ok ts, s') => with_phase (Stopping ts) s'
    | (Raise e', s') => with_phase (Crashed e') s'
    end
  else with_phase (Crashed e) s.

Definition main_start (s : system) : system :=
  match main_body s with
  | (Ok _, s') => with_phase Running s'
  | (Raise e, s') => main_raised e s'
  end.

(** The inhibit task has ended: [await inhibit_task] raises what it
    raised. *)
Definition main_resume (s : system) : system :=
  match sys_bridge s with
  | B_ended e => main_raised e s
  | _ => s
  end.

(** A monitor task ended cancelled: the cancellation reached it before its
    first step.  A coroutine that has started catches [CancelledError]
    (lines 134-135) and returns, so its task ends with a result. *)
Definition ended_cancelled (t : nat) (w : world) : bool :=
  match l_tasks (w_loop w) !! t with
  | Some tk => t_done tk && negb (t_started tk)
  | None => false
  end.

(** [asyncio.gather] raises [CancelledError] to the one who awaits it when
    one of the awaited tasks ended cancelled. *)
Definition gather_raises (ts : list (option nat)) (w : world) : bool :=
  existsb (λ o, match o with Some t => ended_cancelled t w | None => false end)
          ts.

(** Lines 205-206, when the await of [watcher.stop()] ends.  If [gather]
    raises, [main] is inside its handler and ends with [CancelledError].
    Otherwise [inhibit_task.cancel()], which does nothing to a task that
    has ended, and [main] returns. *)
Definition main_finish (ts : list (option nat)) (s : system) : system :=
  if gather_raises ts (sys_world s) then with_phase (Crashed CancelledError) s
  else
    with_phase Stopped
      match sys_bridge s with
      | B_ended _ => s
      | B_created => with_bridge (B_ended CancelledError) s
      | B_sleeping => bridge_turn Bridge.Cancel s
      end.

(** ** The entry point *)

(** [asyncio.run(main())] when [main] has ended (line 211): it returns when
    [main] returned and raises what [main] raised; when [main] ended by the
    cancellation that an interrupt had requested, it raises
    [KeyboardInterrupt]. *)
Definition asyncio_run (p : phase) : option (res unit) :=
  match p with
  | Stopped => Some (Ok tt)
  | Crashed CancelledError => Some (Raise KeyboardInterrupt)
  | Crashed e => Some (Raise e)
  | _ => None
  end.

(** Lines 209-213: only [KeyboardInterrupt] is caught. *)
Definition run_main (s : system) : system :=
  match asyncio_run (sys_phase s) with
  | None => s
  | Some (Raise KeyboardInterrupt) =>
      with_phase (Exited (Ok tt)) (exec (logging_info "Exiting...") s)
  | Some r => with_phase (Exited r) s
  end.

(** ** Events *)

Inductive event : Type :=
  | Main_init (db : list GamepadsFinder.Device)
  | Main_start
  | Interrupt
  | Main_resume
  | Main_stopped
  | Exit
  | Bridge_step
  | Tick
  | Udev (device : GamepadsFinder.Device)
  | Plug (device name : string)
  | Unplug (device : string)
  | Input (t : nat)
  | Failure (t : nat) (errno : Z)
  | Logind_refuse (b : bool)
  | Run_ready.

#[export] Instance event_eq_dec : EqDecision event.
Proof. solve_decision. Defined.

(** Task [t] waits in [async_read_loop]. *)
Definition waiting (t : nat) (w : world) : bool :=
  match l_tasks (w_loop w) !! t with
  | Some tk => t_started tk && negb (t_done tk) && negb (t_must_cancel tk)
  | None => false
  end.

(** The awaited tasks of [asyncio.gather] are all done. *)
Definition gathered (ts : list (option nat)) (w : world) : bool :=
  forallb (λ o, match o with Some t => is_done t (w_loop w) | None => false end) ts.

(** The loop is running. *)
Definition looping (p : phase) : bool :=
  match p with Running | Cancelling | Stopping _ => true | _ => false end.

Definition enabled (e : event) (s : system) : bool :=
  match e with
  | Main_init _ => bool_decide (sys_phase s = Created)
  | Main_start => bool_decide (sys_phase s = Initialised)
  | Interrupt =>
      bool_decide (sys_phase s = Running)
      && match sys_bridge s with B_ended _ => false | _ => true end
  | Main_resume =>
      bool_decide (sys_phase s ∈ [Running; Cancelling])
      && match sys_bridge s with B_ended _ => true | _ => false end
  | Main_stopped =>
      match sys_phase s with
      | Stopping ts =>
          gathered ts (sys_world s)
          && bool_decide (l_ready (w_loop (sys_world s)) = [])
      | _ => false
      end
  | Exit => bool_decide (is_Some (asyncio_run (sys_phase s)))
  | Bridge_step =>
      match sys_bridge s, sys_phase s with
      | B_created, (Running | Cancelling) => true
      | B_sleeping, Cancelling => true
      | _, _ => false
      end
  | Tick =>
      bool_decide (sys_phase s = Running)
      && bool_decide (sys_bridge s = B_sleeping)
  | Udev _ => looping (sys_phase s)
  | Plug _ _ | Unplug _ | Logind_refuse _ => true
  | Input t =>
      looping (sys_phase s) && waiting t (sys_world s)
      && match l_tasks (w_loop (sys_world s)) !! t with
         | Some tk => is_open (t_coro tk) (w_evdev (sys_world s))
         | None => false
         end
  | Failure t _ => looping (sys_phase s) && waiting t (sys_world s)
  | Run_ready =>
      looping (sys_phase s)
      && bool_decide (l_ready (w_loop (sys_world s)) ≠ [])
  end.

(** The observer thread passes an event of the monitor to the finder; an
    exception goes to the thread's exception hook. *)
Definition udev_event (device : GamepadsFinder.Device) (s : system) : system :=
  let '(r, s') := zoom finder_lens (GamepadsFinder.deliver device) s in
  report r s'.

(** logind starts or stops refusing requests. *)
Definition logind_refuse (b : bool) (s : system) : system :=
  System (sys_world s) (sys_finder s)
         (IdleLock.Build (IdleLock.logger (sys_lock s)) (IdleLock.fd (sys_lock s))
            (Logind.Build (Logind.held (IdleLock.iface (sys_lock s))) b))
         (sys_bridge s) (sys_root s) (sys_phase s) (sys_exceptions s).

Definition do_event (e : event) (s : system) : system :=
  match e with
  | Main_init db => main_init db s
  | Main_start => main_start s
  | Interrupt => with_phase Cancelling s
  | Main_resume => main_resume s
  | Main_stopped =>
      match sys_phase s with Stopping ts => main_finish ts s | _ => s end
  | Exit => run_main s
  | Bridge_step => bridge_step s
  | Tick => bridge_turn Bridge.Timer s
  | Udev device => udev_event device s
  | Plug device name => with_evdev (plug device name (w_evdev (sys_world s))) s
  | Unplug device => with_evdev (unplug device (w_evdev (sys_world s))) s
  | Input t => with_world (exec (resume_task t Input_event) (sys_world s)) s
  | Failure t errno =>
      with_world (exec (resume_task t (Read_error errno)) (sys_world s)) s
  | Logind_refuse b => logind_refuse b s
  | Run_ready => run_once s
  end.

Inductive step (s : system) : system → Prop :=
  | step_event e : enabled e s = true → step s (do_event e s).

(** Run a list of events, skipping those that are not enabled. *)
Definition run_events (es : list event) (s : system) : system :=
  foldl (λ s e, if enabled e s then do_event e s else s) s es.
