(* ===== verification/Runs.v ===== *)
(** * Runs: the model on concrete sequences of events

    One controller, [ev3], is attached when the process starts.  Every run
    below is a list of events each of which is enabled when its turn comes
    ([all_enabled]), so the state it ends in is one the process can reach.
    The theorems read off what the program does in the scenarios of the
    specification and in the races between hotplug notifications, done
    callbacks and the cancellation of [main]. *)

From S2P Require Import Prelude PyDict Asyncio Evdev Watcher IdleLock Bridge.
From S2P Require Import Finder System.
Import GamepadsWatcher.

Definition pad_nodes : gmap string string := {[ev3 := "Pad A"%string]}.

(** The udev device of [ev3], in an event with action [act]. *)
Definition pad (act : string) : GamepadsFinder.Device :=
  GamepadsFinder.joystick act "event3" ev3.

Fixpoint all_enabled (es : list event) (s : system) : bool :=
  match es with
  | [] => true
  | e :: es => enabled e s && all_enabled es (do_event e s)
  end.

Definition final (es : list event) : system :=
  run_events es (new_system pad_nodes).

(** [main] reaches [await inhibit_task]; the inhibit task sleeps and the
    monitor of [ev3], task 0, waits for input. *)
Definition boot : list event :=
  [Main_init [pad EmptyString]; Main_start; Bridge_step; Run_ready].

(** udev reports the removal of [ev3] and its return before the loop has run
    the done callback of the cancelled monitor. *)
Definition replug_run : list event :=
  boot ++ [Udev (pad "remove"); Udev (pad "add");
           Run_ready; Run_ready; Run_ready; Run_ready].

(** udev reports the removal of [ev3] twice. *)
Definition remove_twice_run : list event :=
  boot ++ [Udev (pad "remove"); Udev (pad "remove");
           Run_ready; Run_ready; Run_ready; Run_ready].

(** The read of [ev3] fails with ENODEV before udev reports the removal;
    the controller is then attached again. *)
Definition read_error_run : list event :=
  boot ++ [Failure 0 19; Run_ready; Unplug ev3; Udev (pad "remove"); Run_ready;
           Plug ev3 "Pad A"; Udev (pad "add"); Run_ready; Run_ready].

(** Input on [ev3] in the first window, none in the second. *)
Definition activity_run : list event := boot ++ [Input 0; Tick].

(** The process is interrupted while the lock is held. *)
Definition interrupt_run : list event :=
  activity_run ++ [Interrupt; Bridge_step].

Definition shutdown_run : list event :=
  interrupt_run ++ [Main_resume; Run_ready; Run_ready; Main_stopped].

(** logind refuses the lock when input arrives. *)
Definition refused_run : list event :=
  boot ++ [Logind_refuse true; Input 0; Tick; Main_resume].

(** A second controller, [ev5], is plugged in when the interrupt has
    arrived and the inhibit task has not taken its cancellation yet: the
    loop runs [add_device] after the inhibit task and before [main], so
    that the first step of the new monitor, task 1, is queued behind the
    wake-up of [main]. *)
Definition late_plug_run : list event :=
  boot ++ [Plug ev5 "Pad B"; Interrupt;
           Udev (GamepadsFinder.joystick "add" "event5" ev5);
           Bridge_step; Run_ready; Main_resume;
           Run_ready; Run_ready; Run_ready; Run_ready; Main_stopped].

(** udev has reported the removal of [ev3] and the loop has not run the
    callback yet. *)
Definition removal_queued : system := final (boot ++ [Udev (pad "remove")]).

(** What a state says about the watcher, the loop and the lock. *)
Definition tasks_of (s : system) : pydict string (option nat) :=
  tasks (w_self (sys_world s)).
Definition devices_of (s : system) : pydict string nat :=
  devices (w_self (sys_world s)).
Definition ready_of (s : system) : list (handle callback) :=
  l_ready (w_loop (sys_world s)).
Definition flag_of (s : system) : bool := gamepad_active (w_self (sys_world s)).
Definition held_of (s : system) : list nat :=
  elements (inhibitors (IdleLock.iface (sys_lock s))).

(** The scenario of the specification: discovery returns [ev3] and
    [start] is called; then exactly one monitor task exists, it is the entry
    of [ev3] and reads an open handle of [ev3]; an input event sets the
    activity flag, the next tick takes one inhibitor lock and clears the
    flag, and a tick after a window without input releases the lock. *)
Theorem input_takes_lock :
  all_enabled (activity_run ++ [Tick]) (new_system pad_nodes) = true
  ∧ tasks_of (final boot) = [(ev3, Some 0)]
  ∧ devices_of (final boot) = [(ev3, 0)]
  ∧ l_next (w_loop (sys_world (final boot))) = 1
  ∧ waiting 0 (sys_world (final boot)) = true
  ∧ is_open 0 (w_evdev (sys_world (final boot))) = true
  ∧ flag_of (final boot) = false
  ∧ flag_of (final (boot ++ [Input 0])) = true
  ∧ flag_of (final activity_run) = false
  ∧ IdleLock.fd (sys_lock (final activity_run)) = Some 0
  ∧ held_of (final activity_run) = [0]
  ∧ IdleLock.fd (sys_lock (final (activity_run ++ [Tick]))) = None
  ∧ held_of (final (activity_run ++ [Tick])) = [].
Proof. by vm_compute. Qed.

(** When the add notification of a path arrives before the done callback
    of its cancelled monitor has run, [add_device] ignores it and the
    callback then deletes the entry: the loop is idle, nothing was reported,
    the controller is attached, and the only task there is has ended. *)
Theorem replug_loses_device :
  all_enabled replug_run (new_system pad_nodes) = true
  ∧ sys_phase (final replug_run) = Running
  ∧ nodes (w_evdev (sys_world (final replug_run))) !! ev3 = Some "Pad A"%string
  ∧ GamepadsFinder.observer (sys_finder (final replug_run)) = true
  ∧ ready_of (final replug_run) = []
  ∧ sys_exceptions (final replug_run) = []
  ∧ tasks_of (final replug_run) = []
  ∧ l_next (w_loop (sys_world (final replug_run))) = 1
  ∧ is_done 0 (w_loop (sys_world (final replug_run))) = true.
Proof. by vm_compute. Qed.

(** A second remove notification for a path, delivered before the done
    callback of the first has run, makes [remove_device] raise [KeyError]
    in the loop; the first removal still completes. *)
Theorem remove_twice_reports_KeyError :
  all_enabled remove_twice_run (new_system pad_nodes) = true
  ∧ sys_exceptions (final remove_twice_run) = [KeyError ev3]
  ∧ tasks_of (final remove_twice_run) = []
  ∧ devices_of (final remove_twice_run) = [].
Proof. by vm_compute. Qed.

(** When a monitor ends by a read error, nothing closes its handle:
    [self.devices] keeps it, the later remove notification finds no task and
    returns, and the next [add_device] of the path overwrites the entry with
    a new handle while the old one is still open. *)
Theorem read_error_leaves_handle_open :
  all_enabled read_error_run (new_system pad_nodes) = true
  ∧ sys_exceptions (final read_error_run) = []
  ∧ tasks_of (final read_error_run) = [(ev3, Some 1)]
  ∧ devices_of (final read_error_run) = [(ev3, 1)]
  ∧ is_open 0 (w_evdev (sys_world (final read_error_run))) = true
  ∧ is_open 1 (w_evdev (sys_world (final read_error_run))) = true.
Proof. by vm_compute. Qed.

(** An interrupt while the lock is held reaches the inhibit task first:
    it releases the lock and ends while the observer still delivers hotplug
    events and the monitor still waits for input; [main] has not run its
    handler yet. *)
Theorem interrupt_unlocks_first :
  all_enabled interrupt_run (new_system pad_nodes) = true
  ∧ held_of (final activity_run) = [0]
  ∧ sys_bridge (final interrupt_run) = B_ended CancelledError
  ∧ IdleLock.fd (sys_lock (final interrupt_run)) = None
  ∧ held_of (final interrupt_run) = []
  ∧ sys_phase (final interrupt_run) = Cancelling
  ∧ GamepadsFinder.observer (sys_finder (final interrupt_run)) = true
  ∧ waiting 0 (sys_world (final interrupt_run)) = true.
Proof. by vm_compute. Qed.

(** After the interrupt, [main] stops the finder and the watcher and
    waits for the monitors: when it returns the observer is stopped, every
    task is done, [self.tasks] is empty and no lock is held;
    [self.devices] still holds the handles, which stay open. *)
Theorem shutdown_completes :
  all_enabled shutdown_run (new_system pad_nodes) = true
  ∧ sys_phase (final shutdown_run) = Stopped
  ∧ sys_exceptions (final shutdown_run) = []
  ∧ GamepadsFinder.observer (sys_finder (final shutdown_run)) = false
  ∧ tasks_of (final shutdown_run) = []
  ∧ is_done 0 (w_loop (sys_world (final shutdown_run))) = true
  ∧ started (w_self (sys_world (final shutdown_run))) = false
  ∧ held_of (final shutdown_run) = []
  ∧ devices_of (final shutdown_run) = [(ev3, 0)]
  ∧ is_open 0 (w_evdev (sys_world (final shutdown_run))) = true.
Proof. by vm_compute. Qed.

(** When logind refuses the lock, the exception of [Inhibit] ends the
    inhibit task and then [main], which does not run its handler: the
    observer is left running and the monitor task is neither cancelled nor
    awaited. *)
Theorem inhibit_failure_ends_main :
  all_enabled refused_run (new_system pad_nodes) = true
  ∧ sys_bridge (final refused_run) = B_ended DBusException
  ∧ sys_phase (final refused_run) = Crashed DBusException
  ∧ GamepadsFinder.observer (sys_finder (final refused_run)) = true
  ∧ tasks_of (final refused_run) = [(ev3, Some 0)]
  ∧ waiting 0 (sys_world (final refused_run)) = true
  ∧ started (w_self (sys_world (final refused_run))) = true
  ∧ flag_of (final refused_run) = false.
Proof. by vm_compute. Qed.

(** A monitor that [stop] cancels before its first step ends cancelled,
    so [gather] raises [CancelledError] inside the handler of [main]: [main]
    ends with it, [asyncio.run] turns it into [KeyboardInterrupt], and the
    entry point logs its message and ends normally.  Every task is done and
    no lock is held. *)
Theorem late_plug_cancels_main :
  all_enabled (late_plug_run ++ [Exit]) (new_system pad_nodes) = true
  ∧ tasks_of (final (boot ++ take 6 (drop 4 late_plug_run)))
    = [(ev3, Some 0); (ev5, Some 1)]
  ∧ sys_phase (final (boot ++ take 6 (drop 4 late_plug_run)))
    = Stopping [Some 0; Some 1]
  ∧ ended_cancelled 0 (sys_world (final late_plug_run)) = false
  ∧ ended_cancelled 1 (sys_world (final late_plug_run)) = true
  ∧ sys_phase (final late_plug_run) = Crashed CancelledError
  ∧ tasks_of (final late_plug_run) = []
  ∧ held_of (final late_plug_run) = []
  ∧ sys_phase (final (late_plug_run ++ [Exit])) = Exited (Ok tt)
  ∧ last (sys_root (final (late_plug_run ++ [Exit])))
    = Some (INFO, "Exiting..."%string).
Proof. by vm_compute. Qed.

(** How the process ends.  After an interrupt and a shutdown in which
    [main] returns, [asyncio.run] returns and the message of line 213 is not
    logged: the last record of the root logger is that of the handler of
    [main].  When logind refused the lock, the exception of [Inhibit] leaves
    [asyncio.run] and the entry point does not catch it. *)
Theorem exit_after_shutdown :
  all_enabled (shutdown_run ++ [Exit]) (new_system pad_nodes) = true
  ∧ sys_phase (final (shutdown_run ++ [Exit])) = Exited (Ok tt)
  ∧ snd <$> sys_root (final (shutdown_run ++ [Exit]))
    = ["Start watchers"; "Inhibit task exits"; "Stop watchers"]%string
  ∧ all_enabled (refused_run ++ [Exit]) (new_system pad_nodes) = true
  ∧ sys_phase (final (refused_run ++ [Exit])) = Exited (Raise DBusException).
Proof. by vm_compute. Qed.
