(* ===== verification/Coherent.v ===== *)
(** * Coherent: done callbacks and the entries of [self.tasks]

    [GamepadsWatcher] keeps one entry of [self.tasks] per device path and
    gives every monitor task one done callback, [finish_removing_device],
    which deletes the entry of its path ([src/gamepad-lock-inhibit.py],
    lines 77-83 and 111-112).  The deletion raises [KeyError] when the entry
    is gone, and it deletes whatever the entry holds by then.  This file
    states what keeps the two together: [coherent d l] says that the done
    callbacks still to run in the loop [l] (registered on a task that is not
    done, or queued by one that is) are exactly the entries of the dictionary
    [d] that hold a task.  The lemmas show that each operation of the loop and
    each assignment to the dictionary the watcher makes keeps the relation;
    [Invariant] lifts them to the methods. *)

From S2P Require Import Prelude PyDict Asyncio Watcher.
Import GamepadsWatcher.

(** ** The invariant *)

(** Task [t] is not done and holds the done callback for path [p]. *)
Definition registered (l : loop callback nat) (p : string) (t : nat) : Prop :=
  ∃ tk, l_tasks l !! t = Some tk ∧ t_done tk = false
        ∧ t_callbacks tk = [cb_finish_removing_device p].

(** The done callback of task [t] for path [p] is in the ready queue. *)
Definition scheduled (l : loop callback nat) (p : string) (t : nat) : Prop :=
  CallDone (cb_finish_removing_device p) t ∈ l_ready l.

Definition pending (l : loop callback nat) (p : string) (t : nat) : Prop :=
  registered l p t ∨ scheduled l p t.

(** The handles the program queues: the loop can call them. *)
Definition handle_ok (h : handle callback) : Prop :=
  match h with
  | Step _ => True
  | Call (cb_add_device _ | cb_remove_device _) => True
  | CallDone (cb_finish_removing_device _) _ => True
  | _ => False
  end.

Definition is_done_callback (h : handle callback) : Prop :=
  match h with CallDone _ _ => True | _ => False end.

#[export] Instance is_done_callback_dec h : Decision (is_done_callback h).
Proof. destruct h; apply _. Defined.

Record coherent (d : pydict string (option nat)) (l : loop callback nat) : Prop := {
  co_entry p t : entry d p = Some t → pending l p t;
  co_pending p t : pending l p t → entry d p = Some t;
  co_callbacks t tk :
    l_tasks l !! t = Some tk →
    if t_done tk then t_callbacks tk = []
    else ∃ p, t_callbacks tk = [cb_finish_removing_device p];
  co_scheduled p t :
    scheduled l p t → ∃ tk, l_tasks l !! t = Some tk ∧ t_done tk = true;
  co_nodup : NoDup (filter is_done_callback (l_ready l));
  co_typed : Forall handle_ok (l_ready l);
}.

Section coherent.
Implicit Types (d : pydict string (option nat)) (l : loop callback nat).
Implicit Types (p : string) (t : nat).

Lemma entry_set d p v q :
  entry (dict_set p v d) q = if decide (p = q) then v else entry d q.
Proof. unfold entry. rewrite dict_get_set. by case_decide. Qed.

Lemma entry_del d d' p q :
  dict_wf d → dict_del p d = Some d' →
  entry d' q = if decide (p = q) then None else entry d q.
Proof.
  intros Hwf Hd. unfold entry. rewrite (dict_get_del _ q _ _ Hd Hwf).
  by case_decide.
Qed.

Lemma coherent_new : coherent [] new_loop.
Proof.
  split; simpl; try done.
  - intros p t [(tk & Hl & _)|Hs]; [done|]. by apply elem_of_nil in Hs.
  - intros p t Hs. by apply elem_of_nil in Hs.
  - constructor.
Qed.

(** A placeholder for a path without a task. *)
Lemma coherent_set_None d l p :
  entry d p = None → coherent d l → coherent (dict_set p None d) l.
Proof.
  intros Hp []. split; try done.
  - intros q t. rewrite entry_set. case_decide; [done|]. apply co_entry0.
  - intros q t Hq. rewrite entry_set. case_decide; [|by apply co_pending0].
    subst. apply co_pending0 in Hq. congruence.
Qed.

(** Deleting the entry of a path without a task. *)
Lemma coherent_del_None d d' l p :
  dict_wf d → dict_del p d = Some d' → entry d p = None →
  coherent d l → coherent d' l.
Proof.
  intros Hwf Hd Hp []. split; try done.
  - intros q t. rewrite (entry_del d d' p q) by done.
    case_decide; [done|]. apply co_entry0.
  - intros q t Hq. rewrite (entry_del d d' p q) by done.
    apply co_pending0 in Hq. case_decide; [congruence|done].
Qed.

(** [scheduled] only looks at the done callbacks of the queue. *)
Lemma scheduled_filter l p t :
  scheduled l p t
  ↔ CallDone (cb_finish_removing_device p) t
    ∈ filter is_done_callback (l_ready l).
Proof. unfold scheduled. rewrite list_elem_of_filter. naive_solver. Qed.

(** What the invariant reads of a task. *)
Definition summary (tk : task callback nat) : bool * list callback :=
  (t_done tk, t_callbacks tk).

Lemma summary_lookup l l' t tk' :
  summary <$> l_tasks l' !! t = summary <$> l_tasks l !! t →
  l_tasks l' !! t = Some tk' →
  ∃ tk, l_tasks l !! t = Some tk ∧ t_done tk = t_done tk'
        ∧ t_callbacks tk = t_callbacks tk'.
Proof.
  intros Hs Ht. rewrite Ht in Hs. destruct (l_tasks l !! t) as [tk|]; [|done].
  injection Hs as Hd Hc. eauto.
Qed.

(** A change of the loop that keeps the summaries of the tasks and the done
    callbacks of the queue keeps the invariant. *)
Lemma coherent_frame d l l' :
  (∀ t, summary <$> l_tasks l' !! t = summary <$> l_tasks l !! t) →
  filter is_done_callback (l_ready l') = filter is_done_callback (l_ready l) →
  Forall handle_ok (l_ready l') →
  coherent d l → coherent d l'.
Proof.
  intros Htk Hrd Hok [].
  assert (∀ p t, registered l' p t ↔ registered l p t) as Hreg.
  { intros p t. unfold registered. split; intros (tk & Ht & Hd & Hc).
    - destruct (summary_lookup l l' t tk (Htk t) Ht) as (tk0 & ? & ? & ?).
      exists tk0. split_and!; congruence.
    - destruct (summary_lookup l' l t tk (eq_sym (Htk t)) Ht) as (tk0 & ? & ? & ?).
      exists tk0. split_and!; congruence. }
  assert (∀ p t, scheduled l' p t ↔ scheduled l p t) as Hsch.
  { intros p t. by rewrite !scheduled_filter, Hrd. }
  assert (∀ p t, pending l' p t ↔ pending l p t) as Hpen.
  { intros p t. unfold pending. by rewrite Hreg, Hsch. }
  split; try done.
  - intros p t Hp. apply Hpen. by apply co_entry0.
  - intros p t Hp. apply co_pending0. by apply Hpen.
  - intros t tk' Ht.
    destruct (summary_lookup l l' t tk' (Htk t) Ht) as (tk & E & Hd & Hc).
    specialize (co_callbacks0 t tk E). by rewrite Hd, Hc in co_callbacks0.
  - intros p t Hs. apply Hsch, co_scheduled0 in Hs as (tk & Ht & Hd).
    destruct (summary_lookup l' l t tk (eq_sym (Htk t)) Ht) as (tk' & ? & ? & ?).
    exists tk'. split; congruence.
  - by rewrite Hrd.
Qed.

Lemma coherent_cancel d l t : coherent d l → coherent d (exec (cancel t) l).
Proof.
  intros Hco. apply (coherent_frame d l); [| | |done].
  - intros t'. rewrite cancel_lookup. case_decide; [|done].
    destruct (l_tasks l !! t') as [tk|]; [|done]. simpl. unfold summary.
    by rewrite cancelled_done, cancelled_callbacks.
  - rewrite cancel_ready, filter_app.
    destruct (l_tasks l !! t) as [tk|]; [|by rewrite app_nil_r].
    destruct (_ && _); by rewrite app_nil_r.
  - rewrite cancel_ready. apply Forall_app. split; [apply Hco|].
    destruct (l_tasks l !! t) as [tk|]; [|done].
    destruct (_ && _); by repeat constructor.
Qed.

Lemma coherent_call_soon d l c :
  handle_ok (Call c) → coherent d l → coherent d (exec (call_soon c) l).
Proof.
  intros Hc Hco. apply (coherent_frame d l); [done| | |done]; simpl.
  - by rewrite filter_app, app_nil_r.
  - apply Forall_app. split; [apply Hco|by repeat constructor].
Qed.

Lemma coherent_mark_started d l t :
  coherent d l → coherent d (exec (mark_started t) l).
Proof.
  intros Hco. apply (coherent_frame d l); [| | |done];
    unfold exec, mark_started; destruct (l_tasks l !! t) as [tk|] eqn:E;
    simpl; try done; try apply Hco.
  intros t'. rewrite lookup_insert. case_decide; [subst; by rewrite E|done].
Qed.

(** The loop takes a handle that is not a done callback. *)
Lemma coherent_pop d l h hs :
  l_ready l = h :: hs → ¬ is_done_callback h →
  coherent d l → coherent d (Loop (l_tasks l) (l_next l) hs).
Proof.
  intros Hr Hh Hco. apply (coherent_frame d l); [done| | |done]; simpl.
  - by rewrite Hr, filter_cons_False.
  - destruct Hco. rewrite Hr in co_typed0. by inversion co_typed0.
Qed.

(** [create_monitor_task]: a new task with its done callback, recorded
    under a path that had no task. *)
Lemma coherent_create d l p x :
  loop_fresh l → entry d p = None → coherent d l →
  coherent (dict_set p (Some (l_next l)) d)
    (Loop (<[l_next l := Task false false false
                              [cb_finish_removing_device p] x]> (l_tasks l))
          (S (l_next l)) (l_ready l ++ [Step (l_next l)])).
Proof.
  intros Hf%create_task_fresh Hp [].
  assert (∀ q t, scheduled (Loop (<[l_next l := Task false false false
              [cb_finish_removing_device p] x]> (l_tasks l))
            (S (l_next l)) (l_ready l ++ [Step (l_next l)])) q t
          ↔ scheduled l q t) as Hsch.
  { intros q t. unfold scheduled. simpl. rewrite elem_of_app.
    rewrite list_elem_of_singleton. naive_solver. }
  split; simpl.
  - intros q t. rewrite entry_set. case_decide as Hq.
    + intros [= <-]. left. eexists. simpl. rewrite lookup_insert_eq. by subst.
    + intros [(tk & Ht & ?)|Hs]%co_entry0; [left|right; by apply Hsch].
      exists tk. simpl. rewrite lookup_insert_ne; [done|congruence].
  - intros q t [(tk & Ht & Hd & Hc)|Hs]; rewrite entry_set.
    + simpl in Ht. apply lookup_insert_Some in Ht as [[<- <-]|[Hne Ht]].
      * simpl in Hc. simplify_eq. by rewrite decide_True.
      * assert (entry d q = Some t) as Hq.
        { apply co_pending0. left. by exists tk. }
        case_decide; [congruence|done].
    + apply (proj1 (Hsch q t)) in Hs.
      assert (entry d q = Some t) as Hq by (apply co_pending0; by right).
      case_decide; [congruence|done].
  - intros t tk [[<- <-]|[Hne Ht]]%lookup_insert_Some; simpl;
      [by eexists|by apply (co_callbacks0 t)].
  - intros q t Hs. apply (proj1 (Hsch q t)) in Hs.
    apply co_scheduled0 in Hs as (tk & Ht & Hd).
    exists tk. rewrite lookup_insert_ne; [done|congruence].
  - by rewrite filter_app, app_nil_r.
  - apply Forall_app. split; [done|by repeat constructor].
Qed.

(** The coroutine of a task returns or raises. *)
Lemma coherent_finish d l t : coherent d l → coherent d (exec (finish t) l).
Proof.
  intros Hco. unfold exec, finish.
  destruct (l_tasks l !! t) as [tk|] eqn:E; [|done]. simpl.
  pose proof (co_callbacks d l Hco t tk E) as Hcb.
  destruct (t_done tk) eqn:Hd.
  { rewrite Hcb. apply (coherent_frame d l); [| | |done]; simpl.
    - intros t'. rewrite lookup_insert. case_decide; [subst|done].
      rewrite E. simpl. unfold summary. simpl. by rewrite Hd, Hcb.
    - by rewrite app_nil_r.
    - rewrite app_nil_r. apply Hco. }
  destruct Hcb as [p Hcb]. rewrite Hcb. destruct Hco. simpl.
  assert (¬ scheduled l p t) as Hns.
  { intros (tk' & ? & ?)%co_scheduled0. congruence. }
  split; simpl.
  - intros q t' [(tk' & Ht' & Hd' & Hc')|Hs]%co_entry0.
    + destruct (decide (t' = t)) as [->|Hne].
      * right. unfold scheduled. simpl. rewrite E in Ht'. injection Ht' as <-.
        rewrite Hcb in Hc'. injection Hc' as ->. set_solver.
      * left. exists tk'. simpl. by rewrite lookup_insert_ne.
    + right. unfold scheduled in *. simpl. set_solver.
  - intros q t' [(tk' & Ht' & Hd' & Hc')|Hs]; simpl in *.
    + apply lookup_insert_Some in Ht' as [[<- <-]|[Hne Ht']]; [done|].
      apply co_pending0. left. by exists tk'.
    + unfold scheduled in Hs. simpl in Hs.
      apply elem_of_app in Hs as [Hs|[= <- <-]%list_elem_of_singleton].
      * apply co_pending0. by right.
      * apply co_pending0. left. by exists tk.
  - intros t' tk' [[<- <-]|[Hne Ht']]%lookup_insert_Some; simpl;
      [done|by apply (co_callbacks0 t')].
  - intros q t' Hs. unfold scheduled in Hs. simpl in Hs.
    apply elem_of_app in Hs as [Hs|[= <- <-]%list_elem_of_singleton].
    + apply co_scheduled0 in Hs as (tk' & Ht' & Hd').
      destruct (decide (t' = t)) as [->|Hne]; [congruence|].
      exists tk'. by rewrite lookup_insert_ne.
    + eexists. by rewrite lookup_insert_eq.
  - rewrite filter_app. rewrite (filter_cons_True is_done_callback) by done.
    rewrite filter_nil. apply NoDup_app. split_and!; [done| |apply NoDup_singleton].
    intros h Hh ->%list_elem_of_singleton. by apply Hns, scheduled_filter.
  - apply Forall_app. split; [done|by repeat constructor].
Qed.

(** The loop takes the done callback of task [t] for path [p] and runs
    [finish_removing_device]: the entry is there and its deletion keeps
    the invariant. *)
Lemma coherent_done_callback d l p t hs :
  dict_wf d → l_ready l = CallDone (cb_finish_removing_device p) t :: hs →
  coherent d l →
  ∃ d', dict_del p d = Some d'
        ∧ coherent d' (Loop (l_tasks l) (l_next l) hs).
Proof.
  intros Hwf Hr [].
  assert (scheduled l p t) as Hs by (unfold scheduled; rewrite Hr; set_solver).
  assert (entry d p = Some t) as Hp by (apply co_pending0; by right).
  destruct (dict_del p d) as [d'|] eqn:Hd; last first.
  { apply dict_del_None in Hd. unfold entry in Hp. by rewrite Hd in Hp. }
  exists d'. split; [done|].
  rewrite Hr in co_nodup0, co_typed0.
  rewrite filter_cons_True in co_nodup0 by done.
  apply NoDup_cons in co_nodup0 as [Hnin Hnd].
  assert (∀ q t', pending (Loop (l_tasks l) (l_next l) hs) q t' →
                  pending l q t' ∧ q ≠ p) as Hpen.
  { intros q t' Hq.
    assert (pending l q t') as Hq'.
    { destruct Hq as [?|Hq]; [by left|right].
      unfold scheduled in *. rewrite Hr. set_solver. }
    split; [done|]. intros ->.
    assert (t' = t) as -> by (apply co_pending0 in Hq'; congruence).
    destruct Hq as [(tk & Htk & Hnot & _)|Hq].
    - apply co_scheduled0 in Hs as (tk' & Htk' & Hdn). simpl in Htk.
      congruence.
    - apply Hnin. apply list_elem_of_filter. done. }
  split; simpl.
  - intros q t'. rewrite (entry_del d d' p q) by done.
    case_decide as Hq; [done|].
    intros [?|Hq']%co_entry0; [by left|right].
    unfold scheduled in *. simpl. rewrite Hr in Hq'.
    apply elem_of_cons in Hq' as [[= -> ->]|]; done.
  - intros q t' [Hq Hne]%Hpen. rewrite (entry_del d d' p q) by done.
    rewrite decide_False by done. by apply co_pending0.
  - done.
  - intros q t' Hq. apply (co_scheduled0 q t'). unfold scheduled in *.
    rewrite Hr. set_solver.
  - done.
  - by inversion co_typed0.
Qed.
End coherent.
