(* ===== verification/Invariant.v ===== *)
(** * Invariant: what every method of [GamepadsWatcher] preserves

    [watcher_inv w] collects the well-formedness of a world: both
    dictionaries have unique keys, the loop numbers its tasks below its
    counter, and the done callbacks are coherent with [self.tasks]
    ([Coherent.coherent]).  The lemmas show that [add_device],
    [remove_device], [finish_removing_device], [set_init_devices], [start],
    [stop] and a step of a monitor task each keep it, on every branch, the
    ones that raise included. *)

From S2P Require Import Prelude PyDict Asyncio Evdev Watcher System Coherent.
Import GamepadsWatcher.

Record watcher_inv (w : world) : Prop := {
  inv_tasks_wf : dict_wf (tasks (w_self w));
  inv_devices_wf : dict_wf (devices (w_self w));
  inv_loop_fresh : loop_fresh (w_loop w);
  inv_coherent : coherent (tasks (w_self w)) (w_loop w);
}.

Section watcher_inv.
Implicit Types (w : world) (p : string) (t : nat).

(** The invariant does not read the log, the flags or the open devices. *)
Lemma watcher_inv_ext w w' :
  tasks (w_self w') = tasks (w_self w) →
  devices (w_self w') = devices (w_self w) →
  w_loop w' = w_loop w →
  watcher_inv w → watcher_inv w'.
Proof. intros Ht Hd Hl []. split; by rewrite ?Ht, ?Hd, ?Hl. Qed.

#[export] Instance watcher_inv_proper : Proper (same_watcher ==> iff) watcher_inv.
Proof.
  assert (∀ w w', same_watcher w w' → watcher_inv w → watcher_inv w') as Himp.
  { intros w w' (? & ? & _ & ? & _). by apply watcher_inv_ext. }
  intros w w' Hs. split; apply Himp; [done|by symmetry].
Qed.

Lemma watcher_inv_logged lv msg w : watcher_inv w → watcher_inv (logged lv msg w).
Proof. by apply watcher_inv_ext. Qed.

Lemma watcher_inv_create p w :
  watcher_inv w → task_of p w = None →
  watcher_inv (exec (create_monitor_task p) w).
Proof.
  intros Hinv Hp. unfold exec.
  destruct (nodes (w_evdev w) !! p) as [name|] eqn:Hn.
  - rewrite (create_monitor_task_ok p name) by done. destruct Hinv.
    split; simpl.
    + by apply dict_set_wf.
    + by apply dict_set_wf.
    + by apply loop_fresh_insert_next.
    + by apply coherent_create.
  - by rewrite create_monitor_task_no_node.
Qed.

Lemma watcher_inv_add_device p w :
  watcher_inv w → watcher_inv (exec (add_device p) w).
Proof.
  intros Hinv. unfold exec. destruct (task_of p w) as [t|] eqn:Hp.
  - rewrite (add_device_present p w t) by done. simpl.
    by do 2 apply watcher_inv_logged.
  - destruct (started (w_self w)) eqn:Hs.
    + rewrite add_device_started by done.
      apply watcher_inv_create; [by apply watcher_inv_logged|done].
    + rewrite add_device_not_started by done. simpl. destruct Hinv.
      split; simpl; [by apply dict_set_wf|done..|].
      by apply coherent_set_None.
Qed.

Lemma watcher_inv_cancel t w :
  watcher_inv w →
  watcher_inv (World (w_self w) (exec (cancel t) (w_loop w)) (w_evdev w)).
Proof.
  intros []. split; simpl; [done..| |by apply coherent_cancel].
  intros t' [tk Ht']. rewrite cancel_next. apply inv_loop_fresh0.
  rewrite cancel_lookup in Ht'. case_decide; [|by eexists].
  subst. by destruct (l_tasks (w_loop w) !! t').
Qed.

Lemma watcher_inv_remove_device p w :
  watcher_inv w → watcher_inv (exec (remove_device p) w).
Proof.
  intros Hinv. unfold exec. destruct (task_of p w) as [t|] eqn:Hp.
  - destruct (dict_get p (devices (w_self w))) as [h|] eqn:Hh.
    + destruct (remove_device_running p w t h) as (d & Hd & ->); [done..|].
      simpl. pose proof (watcher_inv_cancel t w Hinv) as [? ? ? ?].
      simpl in *. split; simpl; [done| |done..].
      by apply (dict_del_wf p (devices (w_self w))).
    + rewrite (remove_device_no_handle p w t) by done. simpl.
      by pose proof (watcher_inv_cancel t w Hinv) as [? ? ? ?].
  - rewrite remove_device_not_running by done. simpl.
    destruct (dict_del p (tasks (w_self w))) as [d|] eqn:Hd;
      [|by apply watcher_inv_logged].
    destruct Hinv. split; simpl; [|done..|].
    + by apply (dict_del_wf p (tasks (w_self w))).
    + by apply (coherent_del_None (tasks (w_self w)) d _ p).
Qed.

Lemma watcher_inv_finish t w :
  watcher_inv w →
  watcher_inv (World (w_self w) (exec (finish t) (w_loop w)) (w_evdev w)).
Proof.
  intros []. split; simpl; [done..| |by apply coherent_finish].
  unfold exec, finish. destruct (l_tasks (w_loop w) !! t) as [tk|] eqn:E; [|done].
  simpl. intros t' [tk' Ht']. apply inv_loop_fresh0.
  simpl in Ht'. apply lookup_insert_Some in Ht' as [[<- _]|[_ Ht']]; by eexists.
Qed.

Lemma watcher_inv_mark_started t w :
  watcher_inv w →
  watcher_inv (World (w_self w) (exec (mark_started t) (w_loop w)) (w_evdev w)).
Proof.
  intros []. split; simpl; [done..| |by apply coherent_mark_started].
  unfold exec, mark_started.
  destruct (l_tasks (w_loop w) !! t) as [tk|] eqn:E; [|done].
  simpl. intros t' [tk' Ht']. apply inv_loop_fresh0.
  simpl in Ht'. apply lookup_insert_Some in Ht' as [[<- _]|[_ Ht']]; by eexists.
Qed.

Lemma finish_pair t (l : loop callback nat) : finish t l = (Ok tt, exec (finish t) l).
Proof. unfold exec, finish. by destruct (l_tasks l !! t). Qed.

Lemma resume_task_world t r w :
  ∃ s', tasks s' = tasks (w_self w) ∧ devices s' = devices (w_self w)
    ∧ (exec (resume_task t r) w = World s' (w_loop w) (w_evdev w)
       ∨ exec (resume_task t r) w
         = World s' (exec (finish t) (w_loop w)) (w_evdev w)).
Proof.
  unfold exec, resume_task. unfold_watcher.
  destruct (l_tasks (w_loop w) !! t) as [tk|] eqn:E; simpl.
  - destruct r; simpl; rewrite ?finish_pair; simpl.
    + eexists. split_and!; [..|left; reflexivity]; done.
    + eexists. split_and!; [..|left; reflexivity]; done.
    + eexists. split_and!; [..|right; reflexivity]; done.
    + case_decide; simpl; rewrite finish_pair; simpl;
        eexists; (split_and!; [..|right; reflexivity]); done.
  - exists (w_self w). split_and!; try done. left. by destruct w.
Qed.

(** The loop after a step of task [t]. *)
Lemma task_step_loop t w :
  w_loop (exec (task_step t) w)
  = match l_tasks (w_loop w) !! t with
    | None => w_loop w
    | Some tk =>
        if t_done tk then w_loop w
        else if t_must_cancel tk then exec (finish t) (w_loop w)
        else if t_started tk then w_loop w
        else exec (mark_started t) (w_loop w)
    end.
Proof.
  unfold exec, task_step. py_unfold. simpl.
  destruct (l_tasks (w_loop w) !! t) as [tk|] eqn:Ht; simpl; [|done].
  destruct (t_done tk) eqn:Hd; simpl; [done|].
  destruct (t_started tk) eqn:Hst, (t_must_cancel tk) eqn:Hmc; simpl;
    rewrite ?finish_pair; try done.
  - unfold resume_task. py_unfold. simpl. rewrite Ht. simpl.
    by rewrite finish_pair.
  - unfold mark_started at 1. rewrite Ht. simpl.
    unfold resume_task. py_unfold. simpl. rewrite lookup_insert_eq. simpl.
    unfold mark_started. by rewrite Ht.
Qed.

(** A task changes the log, the activity flag and the loop: the rest of
    the world is as before. *)
Definition same_self (w w' : world) : Prop :=
  started (w_self w') = started (w_self w)
  ∧ tasks (w_self w') = tasks (w_self w)
  ∧ devices (w_self w') = devices (w_self w)
  ∧ w_evdev w' = w_evdev w.

Lemma resume_task_self t r w : same_self w (exec (resume_task t r) w).
Proof.
  unfold same_self, exec, resume_task. unfold_watcher.
  destruct (l_tasks (w_loop w) !! t) as [tk|]; simpl; [|done].
  destruct r; simpl; rewrite ?finish_pair; simpl; try done.
  case_decide; simpl; by rewrite finish_pair.
Qed.

Lemma task_step_self t w : same_self w (exec (task_step t) w).
Proof.
  unfold exec, task_step. py_unfold. simpl.
  destruct (l_tasks (w_loop w) !! t) as [tk|] eqn:E; simpl; [|done].
  destruct (t_done tk); simpl; [done|].
  destruct (t_started tk), (t_must_cancel tk); simpl;
    rewrite ?finish_pair; simpl; try done.
  - apply (resume_task_self t Cancelled w).
  - unfold mark_started at 1. rewrite E. simpl.
    apply (resume_task_self t First_step (World (w_self w) _ (w_evdev w))).
Qed.

Lemma watcher_inv_resume_task t r w :
  watcher_inv w → watcher_inv (exec (resume_task t r) w).
Proof.
  intros Hinv. destruct (resume_task_world t r w) as (s' & Ht & Hd & [->| ->]).
  - by apply (watcher_inv_ext w).
  - apply (watcher_inv_finish t) in Hinv. revert Hinv. by apply watcher_inv_ext.
Qed.

Lemma watcher_inv_task_step t w :
  watcher_inv w → watcher_inv (exec (task_step t) w).
Proof.
  intros Hinv. unfold exec, task_step. py_unfold. simpl.
  destruct (l_tasks (w_loop w) !! t) as [tk|] eqn:E; simpl; [|done].
  destruct (t_done tk); simpl; [done|].
  destruct (t_started tk), (t_must_cancel tk); simpl; try done.
  - by apply watcher_inv_resume_task.
  - pose proof (watcher_inv_finish t w Hinv) as Hf. unfold exec in Hf.
    by destruct (finish t (w_loop w)) as [[] ?].
  - pose proof (watcher_inv_mark_started t w Hinv) as Hm. unfold exec in Hm.
    destruct (mark_started t (w_loop w)) as [[[]|] l'] eqn:Em; simpl in *;
      [|done].
    by apply (watcher_inv_resume_task t First_step) in Hm.
Qed.
End watcher_inv.

Section main_inv.
Implicit Types (w : world) (p : string) (t : nat) (s : system).

Lemma coherent_foldl_None (ds : list string) : ∀ d l,
  (∀ p, entry d p = None) → coherent d l →
  coherent (foldl (λ d p, dict_set p None d) d ds) l
  ∧ ∀ p, entry (foldl (λ d p, dict_set p None d) d ds) p = None.
Proof.
  induction ds as [|q ds IH]; intros d l Hnone Hco; cbn [foldl]; [done|].
  apply IH.
  - intros p. rewrite entry_set. by case_decide.
  - by apply coherent_set_None.
Qed.

Lemma watcher_inv_set_init_devices ds w :
  watcher_inv w → (∀ p, task_of p w = None) →
  watcher_inv (exec (set_init_devices ds) w)
  ∧ ∀ p, task_of p (exec (set_init_devices ds) w) = None.
Proof.
  intros [] Hnone. unfold exec. rewrite set_init_devices_tasks. simpl.
  destruct (coherent_foldl_None ds (tasks (w_self w)) (w_loop w)) as [Hco Hn];
    [done..|].
  split; [|done]. split; simpl; try done. by apply foldl_dict_set_wf.
Qed.

Lemma create_monitor_task_other p q w :
  p ≠ q → task_of q (exec (create_monitor_task p) w) = task_of q w.
Proof.
  intros Hne. unfold exec. destruct (nodes (w_evdev w) !! p) as [name|] eqn:Hn.
  - rewrite (create_monitor_task_ok p name) by done. unfold task_of. simpl.
    by rewrite entry_set, decide_False.
  - by rewrite create_monitor_task_no_node.
Qed.

(** *** What [start] and [stop] preserve

    [start] and [stop] set the flag and loop over the entries: a property
    that [create_monitor_task], for a path without a task, and [cancel]
    preserve is preserved by the two, also when the loop ends by an
    exception. *)
Section preserved.
Context (I : world → Prop).
Context (I_logged : ∀ lv msg w, I w → I (logged lv msg w)).
Context (I_started : ∀ b w, I w → I (exec (set_started b) w)).
Context (I_create :
  ∀ p w, task_of p w = None → I w → I (exec (create_monitor_task p) w)).
Context (I_cancel :
  ∀ t w, I w → I (World (w_self w) (exec (cancel t) (w_loop w)) (w_evdev w))).

Lemma start_loop_preserves ds : ∀ w,
  NoDup ds → I w → (∀ p, p ∈ ds → task_of p w = None) →
  I (exec (for_each ds start_body) w).
Proof.
  induction ds as [|p ds IH]; intros w Hnd Hinv Hnone; [done|].
  apply NoDup_cons in Hnd as [Hnin Hnd].
  pose proof (I_create p (logged INFO ("create monitor for " +:+ p) w)
                (Hnone p (list_elem_of_here _ _)) (I_logged _ _ w Hinv))
    as Hinv1.
  assert (∀ q, q ∈ ds →
    task_of q (exec (create_monitor_task p)
                 (logged INFO ("create monitor for " +:+ p) w)) = None) as Hn1.
  { intros q Hq. rewrite create_monitor_task_other by set_solver.
    apply Hnone. set_solver. }
  unfold exec in *. cbn [for_each]. unfold bind.
  change (start_body p w) with
    (create_monitor_task p (logged INFO ("create monitor for " +:+ p) w)).
  destruct (create_monitor_task p _) as [[[]|e] w1]; simpl in *; [|done].
  by apply IH.
Qed.

Lemma start_preserves w :
  dict_wf (tasks (w_self w)) → (∀ p, task_of p w = None) →
  I w → I (exec start w).
Proof.
  intros Hwf Hnone Hinv. unfold exec. rewrite start_eq.
  apply start_loop_preserves; [done|by apply I_started|].
  intros p _. apply Hnone.
Qed.

Lemma stop_preserves w : I w → I (exec stop w).
Proof.
  intros Hinv. unfold exec. rewrite stop_eq.
  pose proof (for_each_preserves I (dict_values (tasks (w_self w))) stop_body)
    as Hloop.
  unfold exec in Hloop.
  destruct (for_each _ stop_body _) as [[[]|e] w'] eqn:E; simpl.
  all: specialize (Hloop ltac:(intros [t|] w0 _ Hw0;
         [rewrite stop_body_Some; by apply I_cancel|done])
         (exec (set_started false) w)).
  all: rewrite E in Hloop; by apply Hloop, I_started.
Qed.
End preserved.

Lemma watcher_inv_started b w : watcher_inv w → watcher_inv (exec (set_started b) w).
Proof. by apply watcher_inv_ext. Qed.

Lemma watcher_inv_start w :
  watcher_inv w → (∀ p, task_of p w = None) → watcher_inv (exec start w).
Proof.
  intros Hinv Hnone.
  apply start_preserves; auto using watcher_inv_logged, watcher_inv_started,
    watcher_inv_create, watcher_inv_cancel.
  apply Hinv.
Qed.

Lemma watcher_inv_stop w : watcher_inv w → watcher_inv (exec stop w).
Proof.
  apply stop_preserves; auto using watcher_inv_logged, watcher_inv_started,
    watcher_inv_create, watcher_inv_cancel.
Qed.
End main_inv.
