(* ===== verification/Reachable.v ===== *)
(** * Reachable: the invariant in every reachable state, and what follows

    The states of the process are those [System.step] reaches from
    [System.new_system].  The first theorem shows that
    [Invariant.watcher_inv] holds in all of them; the theorems after it read
    off what the program can and cannot do: a path never has two live monitor tasks, a done
    callback never raises, and the only exceptions the loop reports come
    from [add_device] on a node that is gone and from [remove_device] on a
    path whose handle was already dropped. *)

From S2P Require Import Prelude PyDict Asyncio Evdev Watcher System.
From S2P Require Import IdleLock Bridge Finder Coherent Invariant Runs.
Import GamepadsWatcher.

(** The states [main] can reach from a new process with the device nodes
    [nodes]. *)
Definition reachable (nodes : gmap string string) (s : system) : Prop :=
  rtc step (new_system nodes) s.

(** What holds of the components in every phase: the watcher's world is
    well formed, the finder queues the watcher's callbacks, the inhibitor
    descriptors open at logind are the one the lock refers to, and the lock
    is held only while the inhibit task sleeps. *)
Record core_inv (s : system) : Prop := {
  ci_watcher : watcher_inv (sys_world s);
  ci_cb_add : GamepadsFinder.cb_add (sys_finder s) = cb_add_device;
  ci_cb_remove : GamepadsFinder.cb_remove (sys_finder s) = cb_remove_device;
  ci_lock : IdleLock.lock_inv (sys_lock s);
  ci_unlocked : sys_bridge s ≠ B_sleeping → IdleLock.fd (sys_lock s) = None;
}.

(** [main] has not reached its first await. *)
Definition starting (ph : phase) : bool :=
  match ph with Created | Initialised => true | _ => false end.

(** [main] is in [await inhibit_task]. *)
Definition awaiting (ph : phase) : bool :=
  match ph with Running | Cancelling => true | _ => false end.

(** What [main] has established in each phase: the loop has run nothing
    before [main] reaches its await, and the inhibit task sleeps only while
    [main] waits for it. *)
Record sys_inv (s : system) : Prop := {
  si_core : core_inv s;
  si_new : starting (sys_phase s) = true → w_loop (sys_world s) = new_loop;
  si_bridge : awaiting (sys_phase s) = false → sys_bridge s ≠ B_sleeping;
}.

(** The world after the loop took the oldest handle off the queue. *)
Definition popped (w : world) : world :=
  World (w_self w)
        (Loop (l_tasks (w_loop w)) (l_next (w_loop w)) (tail (l_ready (w_loop w))))
        (w_evdev w).

Section sys_inv.
Implicit Types (w : world) (p : string) (t : nat) (s : system).

(** ** The loop *)

Lemma run_once_cons s h hs :
  l_ready (w_loop (sys_world s)) = h :: hs →
  run_once s
  = report (eval (run_handle h) (popped (sys_world s)))
           (with_world (exec (run_handle h) (popped (sys_world s))) s).
Proof.
  intros Hr. unfold run_once, popped, eval, exec. rewrite Hr. simpl.
  by destruct (run_handle h _).
Qed.

Lemma report_world {A} (r : res A) s : sys_world (report r s) = sys_world s.
Proof. by destruct r. Qed.

Lemma report_phase {A} (r : res A) s : sys_phase (report r s) = sys_phase s.
Proof. by destruct r. Qed.

Lemma run_once_world s h hs :
  l_ready (w_loop (sys_world s)) = h :: hs →
  sys_world (run_once s) = exec (run_handle h) (popped (sys_world s))
  ∧ sys_phase (run_once s) = sys_phase s.
Proof.
  intros Hr. rewrite (run_once_cons s h hs Hr).
  by rewrite report_world, report_phase.
Qed.

Lemma watcher_inv_popped w h hs :
  l_ready (w_loop w) = h :: hs → ¬ is_done_callback h →
  watcher_inv w → watcher_inv (popped w).
Proof.
  intros Hr Hh []. unfold popped. rewrite Hr. split; simpl; try done.
  by apply (coherent_pop _ _ h hs).
Qed.

(** Running the oldest handle keeps the invariant, and a done callback
    does not raise. *)
Lemma watcher_inv_run_handle w h hs :
  l_ready (w_loop w) = h :: hs → watcher_inv w →
  watcher_inv (exec (run_handle h) (popped w))
  ∧ (is_done_callback h → eval (run_handle h) (popped w) = Ok tt).
Proof.
  intros Hr Hinv.
  assert (handle_ok h) as Hok.
  { destruct Hinv as [_ _ _ [_ _ _ _ _ Hty]]. rewrite Hr in Hty.
    by inversion Hty. }
  destruct h as [t|c|c t]; simpl in *.
  - split; [|done]. apply watcher_inv_task_step.
    apply (watcher_inv_popped w (Step t) hs); [done|by intros []|done].
  - split; [|done]. destruct c as [p|p|p]; [| |done].
    + apply watcher_inv_add_device.
      apply (watcher_inv_popped w (Call (cb_add_device p)) hs);
        [done|by intros []|done].
    + apply watcher_inv_remove_device.
      apply (watcher_inv_popped w (Call (cb_remove_device p)) hs);
        [done|by intros []|done].
  - destruct c as [p|p|p]; [done..|]. destruct Hinv as [Hwf Hdw Hf Hco].
    destruct (coherent_done_callback _ _ p t hs Hwf Hr Hco) as (d' & Hd & Hco').
    unfold exec, eval, popped. rewrite Hr. simpl.
    rewrite (finish_removing_device_present p t _ d') by done. simpl.
    split; [|done]. split; simpl; try done.
    by apply (dict_del_wf p (tasks (w_self w))).
Qed.

Lemma watcher_inv_call_soon c w :
  handle_ok (Call c) → watcher_inv w →
  watcher_inv (World (w_self w) (enqueue [Call c] (w_loop w)) (w_evdev w)).
Proof.
  intros Hc []. split; simpl; try done. by apply (coherent_call_soon _ _ c).
Qed.

Lemma watcher_inv_new nodes : watcher_inv (World init new_loop (new_evdev nodes)).
Proof.
  split; simpl; [apply dict_wf_nil..| |apply coherent_new].
  intros t [tk Ht]. done.
Qed.

Lemma task_of_new_loop w p :
  watcher_inv w → w_loop w = new_loop → task_of p w = None.
Proof.
  intros [_ _ _ Hco] Hl. destruct (task_of p w) as [t|] eqn:Hp; [|done].
  apply (co_entry _ _ Hco) in Hp as [(tk & Ht & _)|Hs].
  - by rewrite Hl in Ht.
  - unfold scheduled in Hs. rewrite Hl in Hs. by apply elem_of_nil in Hs.
Qed.

(** ** The components keep [core_inv] *)

Lemma core_inv_with_phase ph s : core_inv s → core_inv (with_phase ph s).
Proof. by intros []. Qed.

Lemma core_inv_report {A} (r : res A) s : core_inv s → core_inv (report r s).
Proof. by destruct r; intros []. Qed.

Lemma core_inv_with_world w s :
  watcher_inv w → core_inv s → core_inv (with_world w s).
Proof. by intros ? []. Qed.

Lemma core_inv_run_once s : core_inv s → core_inv (run_once s).
Proof.
  intros Hinv. destruct (l_ready (w_loop (sys_world s))) as [|h hs] eqn:Hr.
  { unfold run_once. by rewrite Hr. }
  rewrite (run_once_cons s h hs Hr).
  apply core_inv_report, core_inv_with_world; [|done].
  apply (watcher_inv_run_handle _ h hs); [done|apply Hinv].
Qed.

Lemma core_inv_udev_event d s : core_inv s → core_inv (udev_event d s).
Proof.
  intros [Hw Ha Hr Hl Hu]. unfold udev_event.
  pose proof (GamepadsFinder.deliver_frame d (view finder_lens s))
    as (Ha' & Hr' & Hloop).
  unfold zoom, exec in *.
  destruct (GamepadsFinder.deliver d (view finder_lens s)) as [r f]. simpl in *.
  apply core_inv_report. split; simpl; [|congruence|congruence|done|done].
  destruct Hloop as [->| ->]; [by destruct (sys_world s)|].
  apply watcher_inv_call_soon; [|done]. unfold GamepadsFinder.callback_of.
  rewrite Ha, Hr. by case_decide.
Qed.

Lemma main_body_eq s :
  main_body s
  = (eval start (sys_world s),
     System (exec start (sys_world s))
            (GamepadsFinder.f_self
               (exec GamepadsFinder.start (view finder_lens s)))
            (sys_lock s) (sys_bridge s)
            (emit INFO "Start watchers" (sys_root s)) (sys_phase s)
            (sys_exceptions s)).
Proof.
  unfold main_body, logging_info, eval, exec. py_unfold. simpl.
  destruct (sys_world s) as [g l e]. simpl. by destruct (start _) as [[[]|?] ?].
Qed.

Lemma main_handler_eq s :
  main_handler s
  = (eval stop (sys_world s),
     System (exec stop (sys_world s))
            (GamepadsFinder.f_self
               (exec GamepadsFinder.stop (view finder_lens s)))
            (sys_lock s) (sys_bridge s)
            (emit INFO "Stop watchers" (sys_root s)) (sys_phase s)
            (sys_exceptions s)).
Proof.
  unfold main_handler, logging_info, eval, exec. py_unfold. simpl.
  destruct (sys_world s) as [g l e]. simpl. by destruct (stop _) as [[?|?] ?].
Qed.

Lemma core_inv_main_body s :
  core_inv s → (∀ p, task_of p (sys_world s) = None) →
  core_inv (exec main_body s).
Proof.
  intros [] Hnone. unfold exec at 1. rewrite main_body_eq.
  split; simpl; try done. by apply watcher_inv_start.
Qed.

Lemma core_inv_main_handler s : core_inv s → core_inv (exec main_handler s).
Proof.
  intros []. unfold exec at 1. rewrite main_handler_eq.
  split; simpl; try done. by apply watcher_inv_stop.
Qed.

Lemma main_raised_phase e s :
  starting (sys_phase (main_raised e s)) = false
  ∧ awaiting (sys_phase (main_raised e s)) = false
  ∧ sys_bridge (main_raised e s) = sys_bridge s.
Proof.
  unfold main_raised. case_decide; [rewrite main_handler_eq|];
    [destruct (eval stop _)|]; done.
Qed.

Lemma core_inv_main_raised e s : core_inv s → core_inv (main_raised e s).
Proof.
  intros Hinv. unfold main_raised. case_decide; [|by apply core_inv_with_phase].
  pose proof (core_inv_main_handler s Hinv) as Hh. unfold exec in Hh.
  destruct (main_handler s) as [[ts|e'] s']; by apply core_inv_with_phase.
Qed.

Lemma bridge_turn_eq r s :
  let b := view bridge_lens s in
  let m := Bridge.inhibit_idle_when_gamepads_active r in
  bridge_turn r s
  = System (Bridge.b_world (exec m b)) (sys_finder s) (Bridge.lock (exec m b))
           (match eval m b with Ok _ => sys_bridge s | Raise e => B_ended e end)
           (Bridge.root (exec m b)) (sys_phase s) (sys_exceptions s).
Proof.
  unfold bridge_turn, zoom, eval, exec. simpl.
  by destruct (Bridge.inhibit_idle_when_gamepads_active r _) as [[[]|e] b'].
Qed.

Lemma core_inv_bridge_turn r s :
  sys_bridge s = B_sleeping → core_inv s → core_inv (bridge_turn r s).
Proof.
  intros Hb [Hw Ha Hr Hl Hu]. rewrite bridge_turn_eq. simpl.
  pose proof (Bridge.turn_world r (view bridge_lens s))
    as (Ht & Hd & _ & Hloop & _).
  split; simpl; try done.
  - revert Hw. by apply watcher_inv_ext.
  - by apply Bridge.turn_lock_inv.
  - pose proof (Bridge.turn_raises_fd r (view bridge_lens s) Hl) as Hfd.
    destruct (eval _ _); [by rewrite Hb|]. intros _. by apply Hfd.
Qed.

Lemma bridge_turn_cancel_ended s :
  sys_bridge (bridge_turn Bridge.Cancel s) ≠ B_sleeping.
Proof.
  rewrite bridge_turn_eq. simpl.
  pose proof (Bridge.on_cancelled_raises (view bridge_lens s)) as Hc.
  rewrite Bridge.cancel_eq'. by destruct (eval Bridge.on_cancelled _).
Qed.

(** ** Every step keeps [sys_inv] *)

Lemma sys_inv_new nodes : sys_inv (new_system nodes).
Proof.
  split; [split; simpl; try done; apply watcher_inv_new|done|done].
Qed.

Lemma sys_inv_looping s s' :
  looping (sys_phase s) = true → sys_phase s' = sys_phase s →
  sys_bridge s' = sys_bridge s → core_inv s' → sys_inv s → sys_inv s'.
Proof.
  intros Hl Hp Hb Hc [_ Hn Hbr]. split; [done|rewrite Hp..].
  - by destruct (sys_phase s).
  - by rewrite Hb.
Qed.

Lemma sys_inv_main_init db s :
  sys_phase s = Created → sys_inv s → sys_inv (main_init db s).
Proof.
  intros Hp [[Hw Ha Hr Hl Hu] Hn Hb]. rewrite Hp in *.
  specialize (Hn eq_refl). specialize (Hu (Hb eq_refl)).
  destruct (watcher_inv_set_init_devices
              (GamepadsFinder.devices
                 (GamepadsFinder.init db cb_add_device cb_remove_device))
              _ Hw) as [Hw' _].
  { intros p. by apply task_of_new_loop. }
  split; [by split|simpl..]; [|done].
  intros _. unfold exec. by rewrite set_init_devices_tasks.
Qed.

Lemma sys_inv_main_raised e s :
  sys_bridge s ≠ B_sleeping → core_inv s → sys_inv (main_raised e s).
Proof.
  intros Hb Hc. destruct (main_raised_phase e s) as (Hp & Hp' & Hb').
  split; [by apply core_inv_main_raised|by rewrite Hp|by rewrite Hb'].
Qed.

Lemma sys_inv_main_start s :
  sys_phase s = Initialised → sys_inv s → sys_inv (main_start s).
Proof.
  intros Hp [Hc Hn Hb]. rewrite Hp in *.
  specialize (Hn eq_refl). specialize (Hb eq_refl).
  assert (core_inv (exec main_body s)) as Hc'.
  { apply core_inv_main_body; [done|]. intros p.
    apply task_of_new_loop; [apply Hc|done]. }
  unfold main_start, exec in *. rewrite main_body_eq in *. simpl in *.
  destruct (eval start (sys_world s)).
  - split; [apply core_inv_with_phase; exact Hc'|by simpl..].
  - apply sys_inv_main_raised; [done|exact Hc'].
Qed.

Lemma sys_inv_bridge_turn r s :
  looping (sys_phase s) = true → sys_bridge s = B_sleeping →
  sys_inv s → sys_inv (bridge_turn r s).
Proof.
  intros Hl Hb Hinv. pose proof (si_bridge s Hinv) as Hbr.
  split; [apply core_inv_bridge_turn; [done|apply Hinv]|..];
    rewrite bridge_turn_eq; simpl.
  - by destruct (sys_phase s).
  - intros Hp. by destruct (Hbr Hp).
Qed.

Lemma sys_inv_bridge_step s :
  looping (sys_phase s) = true → sys_inv s → sys_inv (bridge_step s).
Proof.
  intros Hl Hinv. unfold bridge_step.
  destruct (sys_bridge s) eqn:Hb, (sys_phase s) eqn:Hp; try done;
    try (by apply sys_inv_bridge_turn; rewrite ?Hp);
    destruct Hinv as [[Hw Ha Hr Hk Hu] Hn Hbr]; rewrite Hb, Hp in *;
    (split; [split|..]; simpl; rewrite ?Hp; try done; intros; by apply Hu).
Qed.

Lemma sys_inv_main_finish ts s :
  sys_phase s = Stopping ts → sys_inv s → sys_inv (main_finish ts s).
Proof.
  intros Hp Hinv. pose proof (si_bridge s Hinv) as Hb.
  rewrite Hp in Hb. specialize (Hb eq_refl).
  unfold main_finish. destruct Hinv as [[Hw Ha Hr Hk Hu] Hn _].
  destruct (gather_raises ts _); [by split; [split|..]|].
  destruct (sys_bridge s) eqn:Hbr; [|done|];
    (split; [split|..]; simpl; rewrite ?Hbr; try done; intros; by apply Hu).
Qed.

(** The entry point changes the root logger and the phase only, and the
    process is over. *)
Lemma run_main_frame s :
  sys_world (run_main s) = sys_world s
  ∧ ∀ ts, sys_phase (run_main s) = Stopping ts →
          sys_phase s = Stopping ts ∧ asyncio_run (sys_phase s) = None.
Proof.
  unfold run_main.
  destruct (asyncio_run (sys_phase s)) as [[[]|[]]|] eqn:Hr; by split.
Qed.

Lemma sys_inv_run_main s : sys_inv s → sys_inv (run_main s).
Proof.
  intros Hinv. unfold run_main.
  destruct (asyncio_run (sys_phase s)) as [r|] eqn:Hr; [|done].
  assert (sys_bridge s ≠ B_sleeping) as Hb.
  { apply (si_bridge s Hinv). by destruct (sys_phase s). }
  destruct Hinv as [[Hw Ha Hr' Hk Hu] _ _].
  destruct r as [[]|[]]; by split; [split|..].
Qed.

Lemma sys_inv_step s s' : step s s' → sys_inv s → sys_inv s'.
Proof.
  intros [e He] Hinv. pose proof (si_core s Hinv) as Hc.
  destruct e as [db| | | | | | | |d|p name|p|t|t errno|b|]; simpl in *.
  - apply sys_inv_main_init; [|done]. by apply bool_decide_eq_true in He.
  - apply sys_inv_main_start; [|done]. by apply bool_decide_eq_true in He.
  - apply andb_prop in He as [Hp%bool_decide_eq_true _].
    destruct Hinv as [[] Hn Hb]. by split; [split|..].
  - apply andb_prop in He as [_ Hb]. unfold main_resume.
    destruct (sys_bridge s) eqn:Hbr; try done.
    apply sys_inv_main_raised; [by rewrite Hbr|done].
  - destruct (sys_phase s) eqn:Hp; try done. by apply sys_inv_main_finish.
  - by apply sys_inv_run_main.
  - apply sys_inv_bridge_step; [|done].
    by destruct (sys_bridge s), (sys_phase s).
  - apply andb_prop in He as [Hp%bool_decide_eq_true Hb%bool_decide_eq_true].
    apply sys_inv_bridge_turn; [by rewrite Hp|done..].
  - apply (sys_inv_looping s); [done| | |by apply core_inv_udev_event|done];
      unfold udev_event, zoom; simpl;
      by destruct (GamepadsFinder.deliver d _) as [[[]|?] ?].
  - destruct Hinv as [[] Hn Hb].
    split; [split; simpl; try done; by apply (watcher_inv_ext (sys_world s))|
            done..].
  - destruct Hinv as [[] Hn Hb].
    split; [split; simpl; try done; by apply (watcher_inv_ext (sys_world s))|
            done..].
  - apply andb_prop in He as [[Hl _]%andb_prop _].
    apply (sys_inv_looping s); [done..| |done].
    apply core_inv_with_world; [|done]. apply watcher_inv_resume_task, Hc.
  - apply andb_prop in He as [Hl _].
    apply (sys_inv_looping s); [done..| |done].
    apply core_inv_with_world; [|done]. apply watcher_inv_resume_task, Hc.
  - destruct Hinv as [[] Hn Hb]. by split; [split|..].
  - apply andb_prop in He as [Hl _].
    apply (sys_inv_looping s); [done| | |by apply core_inv_run_once|done];
      unfold run_once; destruct (l_ready _); try done;
      by destruct (run_handle _ _) as [[[]|?] ?].
Qed.

(** Skipping the events that are not enabled, every list of events is a run
    of the process. *)
Lemma run_events_steps es s : rtc step s (run_events es s).
Proof.
  unfold run_events. induction es as [|e es IH] using rev_ind; [done|].
  rewrite foldl_app. simpl. destruct (enabled e _) eqn:He; [|done].
  eapply rtc_r; [apply IH|]. by constructor.
Qed.

Lemma run_events_reachable nodes es :
  reachable nodes (run_events es (new_system nodes)).
Proof. apply run_events_steps. Qed.

Lemma reachable_sys_inv nodes s : reachable nodes s → sys_inv s.
Proof.
  revert s. apply rtc_ind_r; [apply sys_inv_new|].
  intros y z _ Hstep IH. by apply (sys_inv_step y).
Qed.

Lemma reachable_watcher_inv nodes s :
  reachable nodes s → watcher_inv (sys_world s).
Proof. by intros [[] _ _]%reachable_sys_inv. Qed.

(** C1: in every state the process reaches from [new_system], whatever the
    order of udev events, input events, read errors, loop iterations and the
    cancellation of [main], the watcher's world is well formed
    ([watcher_inv]): [self.tasks] and [self.devices] have unique keys, task
    numbers are below the loop's counter, and the done callbacks still to run
    are exactly the entries of [self.tasks] that hold a task. *)
Theorem reachable_inv nodes s :
  reachable nodes s → watcher_inv (sys_world s).
Proof. apply reachable_watcher_inv. Qed.

(** C4: in every reachable state a device path has at most one monitor task
    whose done callback is still to run, and [self.tasks] holds that task
    under the path: [add_device] never starts a second monitor for a path
    that is being watched or removed. *)
Theorem one_task_per_path nodes s p t1 t2 :
  reachable nodes s →
  pending (w_loop (sys_world s)) p t1 → pending (w_loop (sys_world s)) p t2 →
  t1 = t2 ∧ task_of p (sys_world s) = Some t1.
Proof.
  intros [_ _ _ Hco]%reachable_watcher_inv H1 H2.
  apply (co_pending _ _ Hco) in H1, H2. unfold task_of. split; congruence.
Qed.

Lemma resume_task_ok t r w : eval (resume_task t r) w = Ok tt.
Proof.
  unfold eval, resume_task. unfold_watcher.
  destruct (l_tasks (w_loop w) !! t) as [tk|]; simpl; [|done].
  destruct r; simpl; rewrite ?finish_pair; try done.
  case_decide; simpl; by rewrite finish_pair.
Qed.

Lemma task_step_ok t w : eval (task_step t) w = Ok tt.
Proof.
  unfold eval, task_step. py_unfold. simpl.
  destruct (l_tasks (w_loop w) !! t) as [tk|]; simpl; [|done].
  destruct (t_done tk); simpl; [done|].
  destruct (t_started tk), (t_must_cancel tk); simpl; try done.
  - apply resume_task_ok.
  - by rewrite finish_pair.
  - unfold mark_started. destruct (l_tasks (w_loop w) !! t); simpl;
      apply resume_task_ok.
Qed.

(** C16: in every reachable state, if running the oldest handle of the ready
    queue raises, then it is either [add_device] for a path whose device node
    is gone ([OSError], errno 2, from [evdev.InputDevice]) or [remove_device]
    for a path that holds a task but no handle any more ([KeyError] from
    [self.devices[device]]): monitor tasks and done callbacks never raise. *)
Theorem callback_exceptions nodes s h hs e :
  reachable nodes s →
  l_ready (w_loop (sys_world s)) = h :: hs →
  eval (run_handle h) (popped (sys_world s)) = Raise e →
  (∃ p, h = Call (cb_add_device p) ∧ e = OSError 2
        ∧ Evdev.nodes (w_evdev (sys_world s)) !! p = None)
  ∨ (∃ p t, h = Call (cb_remove_device p) ∧ e = KeyError p
            ∧ task_of p (sys_world s) = Some t
            ∧ dict_get p (devices (w_self (sys_world s))) = None).
Proof.
  intros Hinv%reachable_watcher_inv Hr.
  destruct (watcher_inv_run_handle _ h hs Hr Hinv) as [_ Hdone].
  assert (handle_ok h) as Hok.
  { destruct Hinv as [_ _ _ [_ _ _ _ _ Hty]]. rewrite Hr in Hty.
    by inversion Hty. }
  set (w := popped (sys_world s)).
  destruct h as [t|[p|p|p]|c t]; simpl in *; try done.
  - by rewrite task_step_ok.
  - intros He. left. exists p. split; [done|]. revert He. unfold eval.
    destruct (task_of p w) as [t|] eqn:Hp.
    { by rewrite (add_device_present p w t). }
    destruct (started (w_self w)) eqn:Hs; [|by rewrite add_device_not_started].
    rewrite add_device_started by done.
    destruct (Evdev.nodes (w_evdev (sys_world s)) !! p) as [name|] eqn:Hn.
    + by rewrite (create_monitor_task_ok p name).
    + rewrite create_monitor_task_no_node by done. by intros [= <-].
  - intros He. right. exists p. revert He. unfold eval.
    destruct (task_of p w) as [t|] eqn:Hp;
      [|by rewrite remove_device_not_running].
    destruct (dict_get p (devices (w_self w))) as [h|] eqn:Hh.
    + by destruct (remove_device_running p w t h) as (d & Hd & ->).
    + rewrite (remove_device_no_handle p w t) by done. intros [= <-]. eauto.
  - subst w. intros He. rewrite Hdone in He; done.
Qed.

(** C22: in every reachable state the done callback
    [finish_removing_device] finds the entry it deletes: it returns
    normally, the [KeyError] of [del self.tasks[device]] cannot happen. *)
Theorem finish_removing_device_never_raises nodes s p t hs :
  reachable nodes s →
  l_ready (w_loop (sys_world s)) = CallDone (cb_finish_removing_device p) t :: hs →
  eval (finish_removing_device p t) (popped (sys_world s)) = Ok tt
  ∧ task_of p (exec (finish_removing_device p t) (popped (sys_world s))) = None.
Proof.
  intros Hinv%reachable_watcher_inv Hr.
  destruct (watcher_inv_run_handle _ _ hs Hr Hinv) as [Hinv' Hok].
  split; [by apply Hok|]. simpl in *. specialize (Hok I).
  destruct Hinv as [Hwf _ _ _]. revert Hok. unfold eval, exec.
  destruct (dict_del p (tasks (w_self (popped (sys_world s))))) as [d|] eqn:Hd.
  - rewrite (finish_removing_device_present p t _ d Hd).
    intros _. unfold task_of, entry. simpl.
    rewrite (dict_get_del _ p _ _ Hd Hwf). by rewrite decide_True.
  - apply dict_del_None in Hd. by rewrite finish_removing_device_absent.
Qed.
End sys_inv.

(** C5: in every reachable state the inhibitor descriptors open at logind
    are the one the lock refers to, so the process holds one inhibitor lock
    at most; and whenever [main] is not in [await inhibit_task] (before it
    got there, after it was stopped, and after it raised) no lock is held:
    the process does not end holding a lock. *)
Theorem lock_released_outside_await nodes s :
  reachable nodes s →
  size (inhibitors (IdleLock.iface (sys_lock s))) ≤ 1
  ∧ (awaiting (sys_phase s) = false →
     IdleLock.fd (sys_lock s) = None
     ∧ inhibitors (IdleLock.iface (sys_lock s)) = ∅).
Proof.
  intros [[_ _ _ Hl Hu] _ Hb]%reachable_sys_inv. red in Hl. split.
  - rewrite Hl. destruct (IdleLock.fd (sys_lock s));
      rewrite ?size_singleton, ?size_empty; lia.
  - intros Hp. specialize (Hu (Hb Hp)). by rewrite Hl, Hu.
Qed.

(** In every reachable state the inhibit task is asleep only while
    [main] waits for it, the finder queues the watcher's own callbacks, and
    before [main] reaches its await the loop has run nothing. *)
Theorem reachable_phases nodes s :
  reachable nodes s →
  (awaiting (sys_phase s) = false → sys_bridge s ≠ B_sleeping)
  ∧ (starting (sys_phase s) = true → w_loop (sys_world s) = new_loop)
  ∧ GamepadsFinder.cb_add (sys_finder s) = cb_add_device
  ∧ GamepadsFinder.cb_remove (sys_finder s) = cb_remove_device.
Proof. by intros [[] ? ?]%reachable_sys_inv. Qed.

(** ** Witnesses *)

Lemma reachable_inv_witness : watcher_inv (sys_world (final replug_run)).
Proof. exact (reachable_inv pad_nodes _ (run_events_reachable _ _)). Defined.

Lemma boot_registered : registered (w_loop (sys_world (final boot))) ev3 0.
Proof. eexists. split_and!; by vm_compute. Qed.

Lemma one_task_per_path_witness :
  0 = 0 ∧ task_of ev3 (sys_world (final boot)) = Some 0.
Proof.
  exact (one_task_per_path pad_nodes (final boot) ev3 0 0
           (run_events_reachable _ _) (or_introl boot_registered)
           (or_introl boot_registered)).
Defined.

(** The state in which the second [remove_device] is the oldest handle. *)
Definition remove_twice_head : system :=
  final (boot ++ [Udev (pad "remove"); Udev (pad "remove"); Run_ready]).

Lemma callback_exceptions_witness :
  (∃ p, Call (cb_remove_device ev3) = Call (cb_add_device p)
        ∧ KeyError ev3 = OSError 2
        ∧ nodes (w_evdev (sys_world remove_twice_head)) !! p = None)
  ∨ (∃ p t, Call (cb_remove_device ev3) = Call (cb_remove_device p)
            ∧ KeyError ev3 = KeyError p
            ∧ task_of p (sys_world remove_twice_head) = Some t
            ∧ dict_get p (devices (w_self (sys_world remove_twice_head))) = None).
Proof.
  refine (callback_exceptions pad_nodes remove_twice_head
            (Call (cb_remove_device ev3)) [Step 0] (KeyError ev3)
            (run_events_reachable _ _) _ _); by vm_compute.
Defined.

(** The state in which the done callback of task 0 is the oldest handle. *)
Definition callback_head : system :=
  final (boot ++ [Udev (pad "remove"); Run_ready; Run_ready]).

Lemma finish_removing_device_never_raises_witness :
  eval (finish_removing_device ev3 0) (popped (sys_world callback_head)) = Ok tt
  ∧ task_of ev3 (exec (finish_removing_device ev3 0)
                      (popped (sys_world callback_head))) = None.
Proof.
  refine (finish_removing_device_never_raises pad_nodes callback_head ev3 0 []
            (run_events_reachable _ _) _); by vm_compute.
Defined.

Lemma lock_released_outside_await_witness :
  size (inhibitors (IdleLock.iface (sys_lock (final shutdown_run)))) ≤ 1
  ∧ (awaiting (sys_phase (final shutdown_run)) = false →
     IdleLock.fd (sys_lock (final shutdown_run)) = None
     ∧ inhibitors (IdleLock.iface (sys_lock (final shutdown_run))) = ∅).
Proof.
  exact (lock_released_outside_await pad_nodes _ (run_events_reachable _ _)).
Defined.

Lemma reachable_phases_witness :
  (awaiting (sys_phase (final refused_run)) = false →
   sys_bridge (final refused_run) ≠ B_sleeping)
  ∧ (starting (sys_phase (final refused_run)) = true →
     w_loop (sys_world (final refused_run)) = new_loop)
  ∧ GamepadsFinder.cb_add (sys_finder (final refused_run)) = cb_add_device
  ∧ GamepadsFinder.cb_remove (sys_finder (final refused_run))
    = cb_remove_device.
Proof. exact (reachable_phases pad_nodes _ (run_events_reachable _ _)). Defined.
