(* ===== verification/Shutdown.v ===== *)
(** * Shutdown: how [main] and the process end

    [main] (lines 189-206) leaves its [try] in one way only, by an exception
    of [await inhibit_task], and the entry point (lines 209-213) catches
    [KeyboardInterrupt] only.  This file proves, for every run of the
    process, what that means:

    - the handler of [main] runs only after the inhibit task has ended by
      cancellation, with the lock released: [inhibit_task.cancel()], the
      last statement of [main], never finds a task to cancel;
    - without an interrupt [main] never enters its handler and the process
      never ends normally: it runs on, or ends by the exception of a failed
      start or of a refused lock.

    The lemmas say which exceptions [start], [stop] and a turn of the
    inhibit task can raise. *)

From S2P Require Import Prelude PyDict Asyncio Evdev Watcher IdleLock Bridge.
From S2P Require Import Finder System Runs Coherent Invariant Reachable.
Import GamepadsWatcher.

(** [main] is in its handler, or has left it. *)
Definition in_handler (p : phase) : bool :=
  match p with
  | Stopping _ | Stopped | Crashed CancelledError => true
  | _ => false
  end.

(** The process is shutting down, or has ended normally. *)
Definition shutting_down (p : phase) : bool :=
  match p with
  | Cancelling | Stopping _ | Stopped | Exited (Ok _) => true
  | Crashed (CancelledError | KeyboardInterrupt) => true
  | _ => false
  end.

(** The events of [main] and of the inhibit task. *)
Definition of_main (e : event) : bool :=
  match e with
  | Main_init _ | Main_start | Interrupt | Main_resume | Main_stopped | Exit
  | Bridge_step | Tick => true
  | _ => false
  end.

(** What [main] has established about the inhibit task. *)
Record shut_inv (s : system) : Prop := {
  sh_starting : starting (sys_phase s) = true → sys_bridge s = B_created;
  sh_handler :
    in_handler (sys_phase s) = true → sys_bridge s = B_ended CancelledError;
}.

(** No interrupt has happened. *)
Record quiet (s : system) : Prop := {
  qu_phase : shutting_down (sys_phase s) = false;
  qu_bridge e :
    sys_bridge s = B_ended e → e ≠ CancelledError ∧ e ≠ KeyboardInterrupt;
}.

(** ** What the components raise *)

Section raises.
Implicit Types (w : world) (s : system) (e : exn).

Lemma create_monitor_task_raises p w e :
  eval (create_monitor_task p) w = Raise e → e = OSError 2.
Proof.
  unfold eval. destruct (nodes (w_evdev w) !! p) as [name|] eqn:Hn.
  - by rewrite (create_monitor_task_ok p name).
  - rewrite create_monitor_task_no_node by done. by intros [= <-].
Qed.

Lemma start_raises w e : eval start w = Raise e → e = OSError 2.
Proof.
  unfold eval at 1. rewrite start_eq.
  apply (for_each_raises (λ e, e = OSError 2)). intros p w0 e0 _.
  unfold eval, start_body, bind. simpl.
  intros He. by eapply create_monitor_task_raises.
Qed.

Lemma stop_raises w e : eval stop w = Raise e → e = AttributeError "cancel".
Proof.
  unfold eval at 1. rewrite stop_eq.
  pose proof (for_each_raises (λ e, e = AttributeError "cancel")
                (dict_values (tasks (w_self w))) stop_body) as Hf.
  unfold eval in Hf.
  destruct (for_each _ _ _) as [[[]|e'] w'] eqn:E; [done|]. intros [= <-].
  eapply Hf; [|by rewrite E].
  intros [t|] w0 e0 _; [by rewrite stop_body_Some|by intros [= <-]].
Qed.

(** With the logind of [IdleLock.Logind], a turn that the timer starts
    raises only the D-Bus error of a refused lock or the error of closing a
    descriptor that is not open. *)
Lemma timer_raises (b : Bridge.state Logind.logind) e :
  eval (Bridge.inhibit_idle_when_gamepads_active Bridge.Timer) b = Raise e →
  e = DBusException ∨ e = OSError 9.
Proof.
  assert (∀ e', eval Bridge.sample b = Raise e' →
                e' = DBusException ∨ e' = OSError 9) as Hs.
  { intros e'. rewrite Bridge.sample_eval.
    unfold eval, IdleLock.lock_idle, IdleLock.unlock_idle. py_unfold. simpl.
    unfold Logind.inhibit, Logind.close.
    destruct (Bridge.flag b), (IdleLock.fd (Bridge.lock b)); simpl; try done.
    - destruct (Logind.refuse _); simpl; [|done]. intros [= <-]. by left.
    - case_decide; simpl; [done|]. intros [= <-]. by right. }
  unfold eval in *.
  destruct (Bridge.sample b) as [[[]|e'] b'] eqn:E.
  - apply Bridge.timer_ok in E. by rewrite E.
  - specialize (Hs e' eq_refl).
    rewrite (Bridge.timer_raise b e' b') by (done || by destruct Hs as [->| ->]).
    by intros [= <-].
Qed.
End raises.

(** ** The steps of the process *)

Section steps.
Implicit Types (w : world) (s : system) (e : event).

(** The environment and the loop leave [main] and the inhibit task where
    they are. *)
Lemma do_event_frame e s :
  of_main e = false →
  sys_phase (do_event e s) = sys_phase s
  ∧ sys_bridge (do_event e s) = sys_bridge s.
Proof.
  destruct e as [db| | | | | | | |d|p name|p|t|t errno|b|]; try done;
    intros _; simpl.
  - unfold udev_event, zoom.
    by destruct (GamepadsFinder.deliver d _) as [[[]|?] ?].
  - unfold run_once. destruct (l_ready _); [done|].
    by destruct (run_handle _ _) as [[[]|?] ?].
Qed.

Lemma bridge_turn_frame r s :
  sys_phase (bridge_turn r s) = sys_phase s
  ∧ sys_bridge (bridge_turn r s)
    = match eval (Bridge.inhibit_idle_when_gamepads_active r)
                 (view bridge_lens s) with
      | Ok _ => sys_bridge s
      | Raise e => B_ended e
      end.
Proof. by rewrite bridge_turn_eq. Qed.

(** What [main_raised] makes of an exception. *)
Lemma main_raised_cases (x : exn) s :
  sys_bridge (main_raised x s) = sys_bridge s
  ∧ if decide (x = CancelledError) then
      (∃ ts, sys_phase (main_raised x s) = Stopping ts)
      ∨ sys_phase (main_raised x s) = Crashed (AttributeError "cancel")
    else sys_phase (main_raised x s) = Crashed x.
Proof.
  unfold main_raised. case_decide; [|done]. rewrite main_handler_eq.
  destruct (eval stop (sys_world s)) as [ts|x'] eqn:E; simpl; [by eauto|].
  apply stop_raises in E as ->. by auto.
Qed.

Lemma main_start_cases s :
  sys_bridge (main_start s) = sys_bridge s
  ∧ (sys_phase (main_start s) = Running
     ∨ sys_phase (main_start s) = Crashed (OSError 2)).
Proof.
  unfold main_start. rewrite main_body_eq.
  destruct (eval start (sys_world s)) as [[]|x] eqn:E; [by auto|].
  apply start_raises in E as ->. by auto.
Qed.

Lemma shut_inv_new nodes : shut_inv (new_system nodes).
Proof. by split. Qed.

Lemma shut_inv_same s s' :
  sys_phase s' = sys_phase s → sys_bridge s' = sys_bridge s →
  shut_inv s → shut_inv s'.
Proof. intros Hp Hb []. split; by rewrite Hp, Hb. Qed.

Lemma shut_inv_step s s' : step s s' → shut_inv s → shut_inv s'.
Proof.
  intros [e He] Hinv.
  destruct (of_main e) eqn:Hm; last first.
  { destruct (do_event_frame e s Hm). by apply (shut_inv_same s). }
  destruct Hinv as [Hst Hh].
  destruct e as [db| | | | | | | |d|p name|p|t|t errno|b|]; try done;
    simpl in *.
  - apply bool_decide_eq_true in He.
    destruct (main_start_cases s) as [Hb [Hp|Hp]]; by split; rewrite Hp.
  - apply andb_prop in He as [_ He]. unfold main_resume.
    destruct (sys_bridge s) as [| |e] eqn:Hbr; try done.
    destruct (main_raised_cases e s) as [Hb Hp]. rewrite Hbr in Hb.
    case_decide; [subst e; destruct Hp as [[ts Hp]|Hp]|];
      split; rewrite Hp; try done.
    simpl. by destruct e.
  - destruct (sys_phase s) eqn:Hp; try done. specialize (Hh eq_refl).
    unfold main_finish. rewrite Hh. by destruct (gather_raises _ _).
  - unfold run_main.
    destruct (asyncio_run (sys_phase s)) as [[[]|[]]|] eqn:Hr; by split.
  - unfold bridge_step.
    destruct (sys_bridge s) eqn:Hb, (sys_phase s) eqn:Hp; try done;
      try (by split; simpl; rewrite Hp).
    destruct (bridge_turn_frame Bridge.Cancel s) as [Hp' _].
    split; by rewrite Hp', Hp.
  - apply andb_prop in He as [Hp%bool_decide_eq_true _].
    destruct (bridge_turn_frame Bridge.Timer s) as [Hp' _].
    split; by rewrite Hp', Hp.
Qed.

Lemma reachable_shut_inv nodes s : reachable nodes s → shut_inv s.
Proof.
  revert s. apply rtc_ind_r; [apply shut_inv_new|].
  intros y z _ Hstep IH. by apply (shut_inv_step y).
Qed.

(** An event other than the interrupt keeps the process [quiet]. *)
Lemma quiet_step e s :
  e ≠ Interrupt → enabled e s = true → quiet s → quiet (do_event e s).
Proof.
  intros Hne He [Hp Hb].
  destruct (of_main e) eqn:Hm; last first.
  { destruct (do_event_frame e s Hm) as [Hp' Hb']. split; by rewrite ?Hp', ?Hb'. }
  destruct e as [db| | | | | | | |d|p name|p|t|t errno|b|]; try done;
    simpl in *.
  - destruct (main_start_cases s) as [Hb' [Hp'|Hp']];
      split; by rewrite ?Hp', ?Hb'.
  - apply andb_prop in He as [_ He]. unfold main_resume.
    destruct (sys_bridge s) as [| |e] eqn:Hbr; try done.
    destruct (Hb e eq_refl) as [Hc Hk].
    destruct (main_raised_cases e s) as [Hb' Hp']. rewrite Hbr in Hb'.
    rewrite decide_False in Hp' by done.
    split; [rewrite Hp'; by destruct e|by rewrite Hb'; intros ? [= <-]].
  - by destruct (sys_phase s).
  - unfold run_main. destruct (sys_phase s) as [| | | | | |e|]; try done.
    destruct e; try done; by split.
  - unfold bridge_step.
    destruct (sys_bridge s) eqn:Hbr, (sys_phase s) eqn:Hph; try done;
      split; simpl; by rewrite ?Hph.
  - destruct (bridge_turn_frame Bridge.Timer s) as [Hp' Hb'].
    split; [by rewrite Hp'|]. intros e. rewrite Hb'.
    destruct (eval _ _) as [[]|e'] eqn:E; [apply Hb|].
    intros [= <-]. by destruct (timer_raises _ _ E) as [->| ->].
Qed.

Lemma quiet_run es : ∀ s,
  quiet s → all_enabled es s = true → Interrupt ∉ es →
  quiet (run_events es s).
Proof.
  induction es as [|e es IH]; intros s Hq He Hn; [done|].
  simpl in He. apply andb_prop in He as [He Hes].
  unfold run_events in *. simpl. rewrite He.
  apply IH; [apply quiet_step; set_solver|done|set_solver].
Qed.
End steps.

(** ** The theorems *)

(** C20: in every reachable state in which [main] is in its handler or has
    left it, the inhibit task has ended by cancellation, the lock object
    holds no descriptor and logind has none of the process open.  So the
    lock is released before the finder and the watcher are stopped, and
    [inhibit_task.cancel()] at the end of [main] does nothing: the last
    segment of [main] only decides how [main] ends. *)
Theorem handler_after_inhibit_task nodes s :
  reachable nodes s → in_handler (sys_phase s) = true →
  sys_bridge s = B_ended CancelledError
  ∧ IdleLock.fd (sys_lock s) = None
  ∧ inhibitors (IdleLock.iface (sys_lock s)) = ∅
  ∧ ∀ ts, main_finish ts s
          = with_phase (if gather_raises ts (sys_world s)
                        then Crashed CancelledError else Stopped) s.
Proof.
  intros Hr Hp. pose proof (sh_handler s (reachable_shut_inv nodes s Hr) Hp) as Hb.
  destruct (reachable_sys_inv nodes s Hr) as [[_ _ _ Hl Hu] _ _].
  assert (IdleLock.fd (sys_lock s) = None) as Hfd by (apply Hu; by rewrite Hb).
  split_and!; [done..| |].
  - unfold IdleLock.lock_inv in Hl. by rewrite Hfd in Hl.
  - intros ts. unfold main_finish. rewrite Hb.
    by destruct (gather_raises ts (sys_world s)).
Qed.

(** C27: a run of the process without an interrupt never shuts down: if
    after a run of enabled events [main] is cancelled, is in its handler or
    has left it, or the process has ended normally, then the run contains
    an interrupt.  Without one the process runs on, or it ends by the
    exception of [start] or of the inhibit task. *)
Theorem shutdown_needs_interrupt nodes es :
  all_enabled es (new_system nodes) = true →
  shutting_down (sys_phase (run_events es (new_system nodes))) = true →
  Interrupt ∈ es.
Proof.
  intros He Hp. destruct (decide (Interrupt ∈ es)) as [|Hn]; [done|].
  destruct (quiet_run es (new_system nodes)) as [Hq _]; [by split|done..|].
  congruence.
Qed.

(** ** Witnesses *)

Lemma handler_after_inhibit_task_witness :
  sys_bridge (final shutdown_run) = B_ended CancelledError
  ∧ IdleLock.fd (sys_lock (final shutdown_run)) = None
  ∧ inhibitors (IdleLock.iface (sys_lock (final shutdown_run))) = ∅
  ∧ ∀ ts, main_finish ts (final shutdown_run)
          = with_phase (if gather_raises ts (sys_world (final shutdown_run))
                        then Crashed CancelledError else Stopped)
                       (final shutdown_run).
Proof.
  apply (handler_after_inhibit_task pad_nodes (final shutdown_run));
    [apply run_events_reachable|by vm_compute].
Defined.

Lemma shutdown_needs_interrupt_witness : Interrupt ∈ shutdown_run.
Proof. apply (shutdown_needs_interrupt pad_nodes shutdown_run); by vm_compute. Defined.
