(* ===== verification/Effects.v ===== *)
(** * Effects: what a step of the process does to the watcher

    The watcher, the loop and the open devices ([world]) are changed by the
    methods of [GamepadsWatcher], by the loop and by the environment, and by
    nothing else.  [world_step] lists these changes, and [step_world] shows
    that every step of the process is one of them.  An invariant of the
    world is then proved against [world_step] alone ([reachable_world_inv]):
    it need not know the phases of [main], the finder or the bridge. *)

From S2P Require Import Prelude PyDict Asyncio Evdev Watcher IdleLock Bridge.
From S2P Require Import Finder System Runs Coherent Invariant Reachable Shutdown.
Import GamepadsWatcher.

Inductive world_step (w : world) : world → Prop :=
  | ws_same w' :
      (* a log record, the activity flag *)
      same_watcher w w' → world_step w w'
  | ws_nodes ns :
      (* a device node appears or disappears *)
      world_step w (World (w_self w) (w_loop w)
                      (Evdev ns (handles (w_evdev w)) (next_handle (w_evdev w))))
  | ws_call_soon c :
      (* the finder queues a callback *)
      handle_ok (Call c) →
      world_step w (World (w_self w) (enqueue [Call c] (w_loop w)) (w_evdev w))
  | ws_run_handle h hs :
      (* the loop runs the oldest handle *)
      l_ready (w_loop w) = h :: hs →
      world_step w (exec (run_handle h) (popped w))
  | ws_resume t r :
      (* input, or a read error, wakes a monitor *)
      waiting t w = true → world_step w (exec (resume_task t r) w)
  | ws_set_init_devices ds :
      w_loop w = new_loop → world_step w (exec (set_init_devices ds) w)
  | ws_start :
      w_loop w = new_loop → world_step w (exec start w)
  | ws_stop :
      world_step w (exec stop w).

Section effects.
Implicit Types (w : world) (s : system) (e : event).

Lemma ws_refl w : world_step w w.
Proof. by apply ws_same. Qed.

Lemma main_raised_world (x : exn) s :
  sys_world (main_raised x s)
  = if decide (x = CancelledError) then exec stop (sys_world s)
    else sys_world s.
Proof.
  unfold main_raised. case_decide; [|done]. rewrite main_handler_eq.
  by destruct (eval stop (sys_world s)).
Qed.

Lemma main_start_world s : sys_world (main_start s) = exec start (sys_world s).
Proof.
  unfold main_start. rewrite main_body_eq.
  destruct (eval start (sys_world s)) as [[]|x] eqn:E; [done|].
  apply start_raises in E as ->. by rewrite main_raised_world.
Qed.

Lemma bridge_turn_world r s :
  same_watcher (sys_world s) (sys_world (bridge_turn r s)).
Proof. rewrite bridge_turn_eq. apply (Bridge.turn_world r (view bridge_lens s)). Qed.

Lemma main_finish_world ts s :
  same_watcher (sys_world s) (sys_world (main_finish ts s)).
Proof.
  unfold main_finish. destruct (gather_raises ts (sys_world s)); [done|].
  destruct (sys_bridge s); try done. apply bridge_turn_world.
Qed.

Lemma udev_event_world d s :
  core_inv s →
  sys_world (udev_event d s) = sys_world s
  ∨ ∃ c, handle_ok (Call c)
      ∧ sys_world (udev_event d s)
        = World (w_self (sys_world s)) (enqueue [Call c] (w_loop (sys_world s)))
                (w_evdev (sys_world s)).
Proof.
  intros [_ Ha Hr _ _]. unfold udev_event.
  pose proof (GamepadsFinder.deliver_frame d (view finder_lens s))
    as (_ & _ & Hloop).
  unfold zoom, exec in *.
  destruct (GamepadsFinder.deliver d (view finder_lens s)) as [r f].
  rewrite report_world. simpl in *.
  destruct Hloop as [->| ->]; [left; by destruct (sys_world s)|right].
  eexists. split; [|done]. unfold GamepadsFinder.callback_of.
  rewrite Ha, Hr. by case_decide.
Qed.

(** An event that passes the filter, delivered while the observer runs:
    the callback of the watcher is queued, and the observer runs on. *)
Lemma udev_event_passes d s :
  core_inv s → GamepadsFinder.observer (sys_finder s) = true →
  GamepadsFinder.subsystem d = GamepadsFinder.SUBSYSTEM →
  GamepadsFinder.passes d = true →
  let c := if decide (GamepadsFinder.action d = "add"%string)
           then cb_add_device (GamepadsFinder.device_node d)
           else cb_remove_device (GamepadsFinder.device_node d) in
  sys_world (udev_event d s)
  = World (w_self (sys_world s)) (enqueue [Call c] (w_loop (sys_world s)))
          (w_evdev (sys_world s))
  ∧ sys_phase (udev_event d s) = sys_phase s
  ∧ sys_exceptions (udev_event d s) = sys_exceptions s
  ∧ GamepadsFinder.observer (sys_finder (udev_event d s)) = true
  ∧ core_inv (udev_event d s).
Proof.
  intros Hinv Hobs Hsub Hpass. cbv zeta.
  pose proof (core_inv_udev_event d s Hinv) as Hinv'. revert Hinv'.
  unfold udev_event, zoom, GamepadsFinder.deliver, bind, gets. simpl.
  rewrite Hobs, Hsub, bool_decide_eq_true_2 by done. simpl.
  unfold try_except. rewrite GamepadsFinder.on_new_event_passes by done.
  simpl. unfold GamepadsFinder.callback_of, GamepadsFinder.get_device_path.
  rewrite (ci_cb_add _ Hinv), (ci_cb_remove _ Hinv). by intros Hinv'.
Qed.

(** Every step of the process is one of the changes of [world_step]. *)
Lemma step_world s s' :
  step s s' → sys_inv s → world_step (sys_world s) (sys_world s').
Proof.
  intros [e He] Hinv.
  destruct e as [db| | | | | | | |d|p name|p|t|t errno|b|]; simpl in *;
    try apply ws_refl.
  - apply bool_decide_eq_true in He.
    apply ws_set_init_devices, (si_new _ Hinv). by rewrite He.
  - apply bool_decide_eq_true in He. rewrite main_start_world.
    apply ws_start, (si_new _ Hinv). by rewrite He.
  - unfold main_resume. destruct (sys_bridge s) as [| |x]; try apply ws_refl.
    rewrite main_raised_world.
    destruct (decide (x = CancelledError)); [apply ws_stop|apply ws_refl].
  - destruct (sys_phase s); try apply ws_refl.
    apply ws_same, main_finish_world.
  - rewrite (proj1 (run_main_frame s)). apply ws_refl.
  - unfold bridge_step.
    destruct (sys_bridge s), (sys_phase s); try apply ws_refl;
      apply ws_same, bridge_turn_world.
  - apply ws_same, bridge_turn_world.
  - destruct (udev_event_world d s (si_core _ Hinv)) as [->|(c & Hc & ->)];
      [apply ws_refl|by apply ws_call_soon].
  - apply ws_nodes.
  - apply ws_nodes.
  - apply andb_prop in He as [[_ Hw]%andb_prop _]. by apply ws_resume.
  - apply andb_prop in He as [_ Hw]. by apply ws_resume.
  - apply andb_prop in He as [_ Hr%bool_decide_eq_true].
    destruct (l_ready (w_loop (sys_world s))) as [|h hs] eqn:Hq; [done|].
    rewrite (proj1 (run_once_world s h hs Hq)). by apply (ws_run_handle _ h hs).
Qed.

(** A property of the world that the changes keep, where the invariant of
    the watcher holds, holds in every reachable state. *)
Lemma reachable_world_inv (P : world → Prop) nodes :
  P (World init new_loop (new_evdev nodes)) →
  (∀ w w', watcher_inv w → P w → world_step w w' → P w') →
  ∀ s, reachable nodes s → P (sys_world s).
Proof.
  intros Hnew Hstep. apply rtc_ind_r; [done|].
  intros s s' Hr Hs IH. pose proof (reachable_sys_inv nodes s Hr) as Hinv.
  apply (Hstep (sys_world s)); [apply Hinv|done|by apply step_world].
Qed.
End effects.
