(* ===== verification/Activity.v ===== *)
(** * Activity: from input to the lock

    What the program is for, end to end: input on a controller reaches the
    lock at the next tick of the inhibit task.  Between two ticks the
    process sees hotplug notifications, device nodes that come and go, read
    errors, input and iterations of the loop, in any order.  This file
    proves that none of them but input touches the activity flag, that none
    touches the lock, and that the tick which ends the window then holds the
    lock exactly when the flag was set before the window or input arrived
    in it. *)

From S2P Require Import Prelude PyDict Asyncio Evdev Watcher IdleLock Bridge.
From S2P Require Import Finder System Runs Coherent Invariant Reachable.
From S2P Require Import Shutdown Effects.
Import GamepadsWatcher.

Definition is_input (e : event) : bool :=
  match e with Input _ => true | _ => false end.

Definition sets_flag (r : resume) : bool :=
  match r with Input_event => true | _ => false end.

(** The lock is held. *)
Definition locked (s : system) : bool :=
  bool_decide (is_Some (IdleLock.fd (sys_lock s))).

Section flag.
Implicit Types (w : world) (s : system) (e : event) (t : nat) (p : string).


(** ** The methods of the watcher leave the flag alone *)

Lemma create_monitor_task_flag p w :
  gamepad_active (w_self (exec (create_monitor_task p) w)) = gamepad_active (w_self w).
Proof.
  unfold exec. destruct (nodes (w_evdev w) !! p) as [name|] eqn:Hn.
  - by rewrite (create_monitor_task_ok p name).
  - by rewrite create_monitor_task_no_node.
Qed.

Lemma add_device_flag p w :
  gamepad_active (w_self (exec (add_device p) w)) = gamepad_active (w_self w).
Proof.
  unfold exec. destruct (task_of p w) as [t|] eqn:Hp.
  { by rewrite (add_device_present p w t). }
  destruct (started (w_self w)) eqn:Hs.
  - rewrite add_device_started by done.
    apply (create_monitor_task_flag p (logged INFO _ w)).
  - by rewrite add_device_not_started.
Qed.

Lemma remove_device_flag p w :
  gamepad_active (w_self (exec (remove_device p) w)) = gamepad_active (w_self w).
Proof.
  unfold exec. destruct (task_of p w) as [t|] eqn:Hp.
  - destruct (dict_get p (devices (w_self w))) as [h|] eqn:Hh.
    + by destruct (remove_device_running p w t h) as (d & _ & ->).
    + by rewrite (remove_device_no_handle p w t).
  - rewrite remove_device_not_running by done. simpl.
    by destruct (dict_del p (tasks (w_self w))).
Qed.

Lemma finish_removing_device_flag p t w :
  gamepad_active (w_self (exec (finish_removing_device p t) w)) = gamepad_active (w_self w).
Proof.
  unfold exec. destruct (dict_del p (tasks (w_self w))) as [d|] eqn:Hd.
  - by rewrite (finish_removing_device_present p t w d).
  - apply dict_del_None in Hd. by rewrite finish_removing_device_absent.
Qed.

(** Of what resumes a monitor, input alone sets the flag. *)
Lemma resume_task_flag t r w :
  gamepad_active (w_self (exec (resume_task t r) w))
  = gamepad_active (w_self w)
    || (sets_flag r && bool_decide (is_Some (l_tasks (w_loop w) !! t))).
Proof.
  unfold exec, resume_task. unfold_watcher.
  destruct (l_tasks (w_loop w) !! t) as [tk|]; simpl;
    [|by rewrite andb_false_r, orb_false_r].
  destruct r; simpl; rewrite ?finish_pair; simpl;
    rewrite ?orb_false_r, ?orb_true_r; try done.
  case_decide; simpl; by rewrite finish_pair.
Qed.

Lemma task_step_flag t w :
  gamepad_active (w_self (exec (task_step t) w)) = gamepad_active (w_self w).
Proof.
  pose proof (resume_task_flag t Cancelled w) as Hc.
  pose proof (λ l, resume_task_flag t First_step
                     (World (w_self w) l (w_evdev w))) as Hf.
  unfold exec, task_step in *. py_unfold. simpl in *.
  destruct (l_tasks (w_loop w) !! t) as [tk|] eqn:E; simpl; [|done].
  destruct (t_done tk); simpl; [done|].
  destruct (t_started tk), (t_must_cancel tk); simpl;
    rewrite ?finish_pair; simpl; try done.
  - by rewrite Hc, orb_false_r.
  - unfold mark_started at 1. rewrite E. simpl. by rewrite Hf, orb_false_r.
Qed.

Lemma run_handle_flag h w :
  gamepad_active (w_self (exec (run_handle h) w)) = gamepad_active (w_self w).
Proof.
  destruct h as [t|[p|p|p]|[p|p|p] t]; simpl; try done;
    auto using task_step_flag, add_device_flag, remove_device_flag,
      finish_removing_device_flag.
Qed.
End flag.

(** ** A window of the inhibit task *)

Section window.
Implicit Types (w : world) (s : system) (e : event) (es : list event).

(** An event of the environment or of the loop sets the flag when it is
    input, leaves it alone otherwise, and does not touch the lock. *)
Lemma env_event_flag e s :
  of_main e = false → enabled e s = true →
  flag_of (do_event e s) = flag_of s || is_input e.
Proof.
  unfold flag_of.
  destruct e as [db| | | | | | | |d|p name|p|t|t errno|b|]; try done;
    intros _ He; simpl in *; rewrite ?orb_false_r; try done.
  - unfold udev_event, zoom. simpl.
    by destruct (GamepadsFinder.deliver d _) as [[[]|?] ?].
  - apply andb_prop in He as [[_ Hw]%andb_prop _]. unfold waiting in Hw.
    rewrite (resume_task_flag t Input_event), orb_true_r.
    destruct (l_tasks _ !! t); [|done]. by rewrite orb_true_r.
  - by rewrite (resume_task_flag t (Read_error errno)), orb_false_r.
  - apply andb_prop in He as [_ Hr%bool_decide_eq_true].
    destruct (l_ready (w_loop (sys_world s))) as [|h hs] eqn:Hq; [done|].
    rewrite (proj1 (run_once_world s h hs Hq)).
    apply (run_handle_flag h (popped (sys_world s))).
Qed.

Lemma env_event_lock e s :
  of_main e = false →
  IdleLock.fd (sys_lock (do_event e s)) = IdleLock.fd (sys_lock s)
  ∧ Logind.held (IdleLock.iface (sys_lock (do_event e s)))
    = Logind.held (IdleLock.iface (sys_lock s)).
Proof.
  destruct e as [db| | | | | | | |d|p name|p|t|t errno|b|]; try done;
    intros _; simpl.
  - unfold udev_event, zoom.
    by destruct (GamepadsFinder.deliver d _) as [[[]|?] ?].
  - unfold run_once. destruct (l_ready _); [done|].
    by destruct (run_handle _ _) as [[[]|?] ?].
Qed.

(** A window: events of the environment and of the loop, each enabled
    when its turn comes. *)
Definition window (es : list event) (s : system) : bool :=
  forallb (λ e, negb (of_main e)) es && all_enabled es s.

Lemma window_cons e es s :
  window (e :: es) s = true ↔
  of_main e = false ∧ enabled e s = true ∧ window es (do_event e s) = true.
Proof.
  unfold window. simpl. rewrite !andb_true_iff, negb_true_iff. naive_solver.
Qed.

(** What a window does: the flag gathers the input, the lock, the phase
    of [main] and the inhibit task stay as they are. *)
Lemma window_run es : ∀ s,
  window es s = true →
  rtc step s (run_events es s)
  ∧ flag_of (run_events es s) = flag_of s || existsb is_input es
  ∧ IdleLock.fd (sys_lock (run_events es s)) = IdleLock.fd (sys_lock s)
  ∧ sys_phase (run_events es s) = sys_phase s
  ∧ sys_bridge (run_events es s) = sys_bridge s.
Proof.
  induction es as [|e es IH]; intros s Hw.
  { split_and!; try done. by rewrite orb_false_r. }
  apply window_cons in Hw as (Hm & He & Hw).
  destruct (IH _ Hw) as (Hrtc & Hf & Hl & Hp & Hb).
  destruct (do_event_frame e s Hm) as [Hp' Hb'].
  destruct (env_event_lock e s Hm) as [Hl' _].
  unfold run_events in *. simpl. rewrite He, Hf, Hl, Hp, Hb.
  rewrite (env_event_flag e s Hm He), orb_assoc.
  split_and!; try done. eapply rtc_l; [by constructor|done].
Qed.
End window.

(** The tick that ends a window returns to its sleep, unless logind
    refuses a lock that has to be taken; the lock is then held exactly when
    the flag was set, and the flag is clear. *)
Lemma tick_locks s :
  sys_inv s →
  (flag_of s = true → IdleLock.fd (sys_lock s) = None →
   Logind.refuse (IdleLock.iface (sys_lock s)) = false) →
  sys_bridge (bridge_turn Bridge.Timer s) = sys_bridge s
  ∧ locked (bridge_turn Bridge.Timer s) = flag_of s
  ∧ flag_of (bridge_turn Bridge.Timer s) = false.
Proof.
  intros Hinv Href. pose proof (ci_lock _ (si_core _ Hinv)) as Hlock.
  assert (eval (Bridge.inhibit_idle_when_gamepads_active Bridge.Timer)
            (view bridge_lens s) = Ok tt) as Hok.
  { apply Bridge.tick_returns; [done|]. intros Hf Hfd. simpl.
    unfold eval, Logind.inhibit. by rewrite (Href Hf Hfd). }
  rewrite bridge_turn_eq. cbv zeta. rewrite Hok. unfold eval, exec in *.
  destruct (Bridge.inhibit_idle_when_gamepads_active _ _) as [r b] eqn:Hb.
  simpl in Hok. subst r.
  apply Bridge.timer_ok, Bridge.sample_ok in Hb as (Hl & Hf & _); [|done].
  by split_and!.
Qed.

(** C3: the lock follows the activity.  Take any reachable state in which
    [main] waits for the inhibit task and the inhibit task sleeps, and any
    window after it: hotplug notifications, device nodes that appear and
    vanish, read errors, input, iterations of the loop, in any order and
    number.  Unless logind refuses a lock that has to be taken, the tick
    that ends the window leaves the inhibit task asleep, with the lock held
    exactly when the flag was set before the window or input arrived in
    it, and with the flag clear for the next window. *)
Theorem lock_follows_activity nodes s es :
  reachable nodes s → sys_phase s = Running → sys_bridge s = B_sleeping →
  window es s = true →
  ((flag_of s || existsb is_input es) = true →
   IdleLock.fd (sys_lock s) = None →
   Logind.refuse (IdleLock.iface (sys_lock (run_events es s))) = false) →
  let s' := do_event Tick (run_events es s) in
  enabled Tick (run_events es s) = true
  ∧ reachable nodes s'
  ∧ sys_bridge s' = B_sleeping
  ∧ locked s' = flag_of s || existsb is_input es
  ∧ flag_of s' = false.
Proof.
  intros Hr Hp Hb Hw Href. cbv zeta.
  destruct (window_run es s Hw) as (Hrtc & Hf & Hl & Hp' & Hb').
  assert (reachable nodes (run_events es s)) as Hr1
    by (unfold reachable in *; by etrans).
  assert (enabled Tick (run_events es s) = true) as He.
  { simpl. by rewrite Hp', Hb', Hp, Hb, !bool_decide_eq_true_2. }
  destruct (tick_locks (run_events es s)) as (Hb2 & Hl2 & Hf2).
  { by apply (reachable_sys_inv nodes). }
  { rewrite Hf, Hl. apply Href. }
  split_and!; [done| |by rewrite <-Hb, <-Hb'|by rewrite <-Hf|done].
  unfold reachable in *. eapply rtc_r; [done|]. by apply (step_event _ Tick).
Qed.

(** ** When logind refuses

    The other end of the condition above: a lock has to be taken and
    logind refuses it. *)

(** The tick ends the inhibit task with the D-Bus error, and changes
    nothing else but the flag and the log. *)
Lemma tick_refused s :
  flag_of s = true → IdleLock.fd (sys_lock s) = None →
  Logind.refuse (IdleLock.iface (sys_lock s)) = true →
  sys_bridge (bridge_turn Bridge.Timer s) = B_ended DBusException
  ∧ sys_phase (bridge_turn Bridge.Timer s) = sys_phase s
  ∧ sys_finder (bridge_turn Bridge.Timer s) = sys_finder s
  ∧ same_watcher (sys_world s) (sys_world (bridge_turn Bridge.Timer s))
  ∧ IdleLock.fd (sys_lock (bridge_turn Bridge.Timer s)) = None.
Proof.
  intros Hf Hfd Href.
  destruct (Bridge.tick_inhibit_fails (view bridge_lens s) DBusException
              (IdleLock.iface (sys_lock s))) as (He & Hl & _); [done..| |done|].
  { simpl. unfold Logind.inhibit. by rewrite Href. }
  split_and!; [| | |apply bridge_turn_world|].
  - destruct (bridge_turn_frame Bridge.Timer s) as [_ ->]. by rewrite He.
  - apply bridge_turn_frame.
  - by rewrite bridge_turn_eq.
  - rewrite bridge_turn_eq. simpl. unfold Bridge.locked in Hl.
    apply bool_decide_eq_false in Hl. by apply eq_None_not_Some.
Qed.

(** C13: a refusal of logind ends the process.  In any reachable state in
    which [main] waits for the inhibit task, the inhibit task sleeps, the
    activity flag is set, no lock is held and logind refuses the lock, the
    tick ends the inhibit task with the D-Bus error; [main] then ends with
    it without running its handler, and the process exits with the error.
    The finder is as it was, its observer running if it was, and so is the
    watcher with its monitors, none of which was cancelled: nothing is
    cleaned up, and no later tick retries. *)
Theorem refusal_ends_main nodes s :
  reachable nodes s → sys_phase s = Running → sys_bridge s = B_sleeping →
  flag_of s = true → IdleLock.fd (sys_lock s) = None →
  Logind.refuse (IdleLock.iface (sys_lock s)) = true →
  let s' := do_event Exit (do_event Main_resume (do_event Tick s)) in
  reachable nodes s'
  ∧ sys_phase s' = Exited (Raise DBusException)
  ∧ sys_finder s' = sys_finder s
  ∧ same_watcher (sys_world s) (sys_world s').
Proof.
  intros Hr Hp Hb Hf Hfd Href. cbv zeta.
  destruct (tick_refused s Hf Hfd Href) as (Hb1 & Hp1 & Hf1 & Hw1 & _).
  assert (step s (do_event Tick s)) as H1.
  { apply (step_event s Tick). simpl.
    by rewrite Hp, Hb, !bool_decide_eq_true_2. }
  set (s1 := do_event Tick s) in *.
  change (bridge_turn Bridge.Timer s) with s1 in *.
  assert (step s1 (do_event Main_resume s1)) as H2.
  { apply (step_event s1 Main_resume). simpl. by rewrite Hp1, Hp, Hb1. }
  assert (do_event Main_resume s1 = with_phase (Crashed DBusException) s1) as E.
  { simpl. unfold main_resume, main_raised. by rewrite Hb1. }
  rewrite E in *.
  assert (step (with_phase (Crashed DBusException) s1)
               (do_event Exit (with_phase (Crashed DBusException) s1))) as H3
    by by apply (step_event _ Exit).
  split; [|by rewrite <-Hf1]. unfold reachable in *. etrans; [done|].
  do 2 (eapply rtc_l; [done|]). by apply rtc_once.
Qed.

(** ** Witnesses *)

(** A second controller is plugged in while the first is in use. *)
Definition busy_window : list event :=
  [Plug ev5 "Pad B"; Udev (GamepadsFinder.joystick "add" "event5" ev5);
   Input 0; Run_ready; Run_ready; Input 1; Unplug ev5; Failure 1 19].

Lemma lock_follows_activity_witness :
  let s' := do_event Tick (run_events busy_window (final boot)) in
  enabled Tick (run_events busy_window (final boot)) = true
  ∧ reachable pad_nodes s'
  ∧ sys_bridge s' = B_sleeping
  ∧ locked s' = flag_of (final boot) || existsb is_input busy_window
  ∧ flag_of s' = false.
Proof.
  apply (lock_follows_activity pad_nodes (final boot) busy_window);
    [apply run_events_reachable|by vm_compute..].
Defined.

(** Input has arrived and logind has begun to refuse. *)
Definition refused : system := final (boot ++ [Logind_refuse true; Input 0]).

Lemma refusal_ends_main_witness :
  let s' := do_event Exit (do_event Main_resume (do_event Tick refused)) in
  reachable pad_nodes s'
  ∧ sys_phase s' = Exited (Raise DBusException)
  ∧ sys_finder s' = sys_finder refused
  ∧ same_watcher (sys_world refused) (sys_world s').
Proof.
  apply (refusal_ends_main pad_nodes refused);
    [apply run_events_reachable|by vm_compute..].
Defined.
