(* ===== verification/Hotplug.v ===== *)
(** * Hotplug: a controller that comes and goes

    When a controller is plugged in and out again while the watcher is
    started, the loop runs four handles for it: the callback [add_device],
    the callback [remove_device], the step that delivers the cancellation
    to the new monitor task (which has not run yet, so it ends without
    running), and the done callback [finish_removing_device].  This file
    follows the world through the four handles and shows that they are a
    round trip: [self.tasks] and [self.devices] are what they were, item for
    item and in the same order, the handle that was opened is closed, the
    task is done and nothing is left in the queue. *)

From S2P Require Import Prelude PyDict Asyncio Evdev Watcher Finder System Runs.
From S2P Require Import Coherent Invariant Reachable.
Import GamepadsWatcher.

(** The four handles of a controller [p] that comes and goes; [t] is the
    monitor task that [add_device] makes. *)
Definition come_and_go (p : string) (t : nat) : list (handle callback) :=
  [Call (cb_add_device p); Call (cb_remove_device p); Step t;
   CallDone (cb_finish_removing_device p) t].

(** Four iterations of the loop. *)
Definition four_turns (s : system) : system :=
  run_once (run_once (run_once (run_once s))).

Section hotplug.
Context (p name : string) (s : system).
Let w := sys_world s.
Let t := l_next (w_loop w).
Let h := next_handle (w_evdev w).
Let cb := cb_finish_removing_device p.
Hypothesis Hstarted : started (w_self w) = true.
Hypothesis Htask : dict_get p (tasks (w_self w)) = None.
Hypothesis Hdev : dict_get p (devices (w_self w)) = None.
Hypothesis Hnode : nodes (w_evdev w) !! p = Some name.
Hypothesis Hready :
  l_ready (w_loop w) = [Call (cb_add_device p); Call (cb_remove_device p)].

(** The world after each of the four handles. *)
Definition after (n : nat) : world :=
  let g := w_self w in
  let lg := emit INFO ("Adding device " +:+ p) (logger g) in
  World
    (Build (if n =? 1 then lg else emit INFO ("Removing device " +:+ p) lg)
           (gamepad_active g) true
           (if n =? 4 then tasks g else dict_set p (Some t) (tasks g))
           (if n =? 1 then dict_set p h (devices g) else devices g))
    (Loop (<[t := Task false (n =? 2) (2 <? n) (if n <? 3 then [cb] else []) h]>
             (l_tasks (w_loop w)))
          (S t)
          match n with
          | 1 => [Call (cb_remove_device p); Step t]
          | 2 => [Step t]
          | 3 => [CallDone cb t]
          | _ => []
          end)
    (Evdev (nodes (w_evdev w))
           (<[h := Build_InputDevice p name (n =? 1)]> (handles (w_evdev w)))
           (S h)).

(** An iteration whose callback returns. *)
Lemma run_once_ok s0 hd hs w' :
  l_ready (w_loop (sys_world s0)) = hd :: hs →
  run_handle hd (popped (sys_world s0)) = (Ok tt, w') →
  run_once s0 = with_world w' s0.
Proof.
  intros Hr Hrun. rewrite (run_once_cons s0 hd hs Hr).
  unfold eval, exec. by rewrite Hrun.
Qed.

Lemma turn_1 : run_once s = with_world (after 1) s.
Proof.
  apply (run_once_ok s _ _ _ Hready). simpl.
  rewrite add_device_started;
    [|by unfold task_of, entry; simpl; fold w; rewrite Htask|done].
  rewrite (create_monitor_task_ok p name) by done. simpl. fold w.
  rewrite Hready, Hstarted. reflexivity.
Qed.

Lemma turn_2 : run_once (with_world (after 1) s) = with_world (after 2) s.
Proof.
  rewrite (run_once_ok _ (Call (cb_remove_device p)) [Step t] (after 2));
    [done..|].
  simpl. destruct (remove_device_running p (popped (after 1)) t h)
    as (d & Hd & ->).
  - unfold task_of, entry. simpl. by rewrite dict_get_set, decide_True.
  - simpl. by rewrite dict_get_set, decide_True.
  - simpl in Hd. rewrite dict_del_set_fresh in Hd by done.
    injection Hd as <-. unfold after, exec, cancel, close, set_task. simpl.
    rewrite !lookup_insert_eq. simpl. by rewrite !insert_insert_eq.
Qed.

Lemma turn_3 : run_once (with_world (after 2) s) = with_world (after 3) s.
Proof.
  rewrite (run_once_ok _ (Step t) [] (after 3)); [done..|].
  simpl. unfold task_step. py_unfold. simpl. rewrite lookup_insert_eq. simpl.
  unfold finish, set_task. simpl. rewrite lookup_insert_eq. simpl.
  by rewrite insert_insert_eq.
Qed.

Lemma turn_4 : run_once (with_world (after 3) s) = with_world (after 4) s.
Proof.
  rewrite (run_once_ok _ (CallDone cb t) [] (after 4)); [done..|].
  simpl. rewrite (finish_removing_device_present p t _ (tasks (w_self w)));
    [done|]. simpl. by apply dict_del_set_fresh.
Qed.

Lemma four_turns_eq : four_turns s = with_world (after 4) s.
Proof.
  unfold four_turns. rewrite turn_1, turn_2, turn_3. apply turn_4.
Qed.
End hotplug.

(** C26: round trip.  When the watcher is started, path [p] has a device
    node and neither dictionary has an entry for it, and the queue of the
    loop holds the add and the remove callback of [p], four iterations of the
    loop leave [self.tasks] and [self.devices] exactly as they were, item
    for item and in the same order: the entry and the handle that
    [add_device] made are gone, the handle is closed, the monitor task has
    ended without running, the queue is empty and no exception was
    reported. *)
Theorem come_and_go_roundtrip p name s :
  started (w_self (sys_world s)) = true →
  dict_get p (tasks (w_self (sys_world s))) = None →
  dict_get p (devices (w_self (sys_world s))) = None →
  nodes (w_evdev (sys_world s)) !! p = Some name →
  ready_of s = [Call (cb_add_device p); Call (cb_remove_device p)] →
  let s' := four_turns s in
  tasks_of s' = tasks_of s
  ∧ devices_of s' = devices_of s
  ∧ ready_of s' = []
  ∧ sys_exceptions s' = sys_exceptions s
  ∧ sys_phase s' = sys_phase s
  ∧ l_tasks (w_loop (sys_world s')) !! l_next (w_loop (sys_world s))
    = Some (Task false false true [] (next_handle (w_evdev (sys_world s))))
  ∧ handles (w_evdev (sys_world s')) !! next_handle (w_evdev (sys_world s))
    = Some (Build_InputDevice p name false).
Proof.
  intros Hs Ht Hd Hn Hr. cbv zeta. rewrite (four_turns_eq p name s) by done.
  unfold tasks_of, devices_of, ready_of. simpl.
  by rewrite !lookup_insert_eq.
Qed.

(** ** Witness *)

(** A second controller, [ev5], was plugged in and out before the loop ran
    a callback for it. *)
Definition came_and_went : system :=
  final (boot ++ [Plug ev5 "Pad B";
                  Udev (GamepadsFinder.joystick "add" "event5" ev5);
                  Udev (GamepadsFinder.joystick "remove" "event5" ev5)]).

Lemma come_and_go_roundtrip_witness :
  let s' := four_turns came_and_went in
  tasks_of s' = tasks_of came_and_went
  ∧ devices_of s' = devices_of came_and_went
  ∧ ready_of s' = []
  ∧ sys_exceptions s' = sys_exceptions came_and_went
  ∧ sys_phase s' = sys_phase came_and_went
  ∧ l_tasks (w_loop (sys_world s')) !! 1 = Some (Task false false true [] 1)
  ∧ handles (w_evdev (sys_world s')) !! 1
    = Some (Build_InputDevice ev5 "Pad B" false).
Proof.
  apply (come_and_go_roundtrip ev5 "Pad B" came_and_went); by vm_compute.
Defined.
