(* ===== verification/Spec.v ===== *)
(** * Spec: the supervisor of the specification

    The specification describes the activity monitor supervisor
    ([GamepadsWatcher] in the sources) as a machine with one state per
    device path: a path is absent, registered and not started, running, or
    stopping (spec.md, sections 3 and 4.2).  This file writes that machine
    down, independently of the code: Module [Supervisor] has the state, one
    function per transition and the laws of the machine that the text
    promises.  [Refinement] relates the code to it.

    The text leaves two cases open, and the machine fixes them as follows.
    An add notification for a path that is stopping starts a new monitor,
    since the text ignores the notification only for a path that is running
    or registered.  A remove notification for a path that is stopping does
    nothing, since its task has been cancelled already. *)

From S2P Require Import Prelude.

Module Supervisor.

(** The state of a tracked path; an absent path is not in the map. *)
Inductive pstate : Type :=
  | Registered    (* known, monitoring not started *)
  | Running       (* its monitor task runs *)
  | Stopping.     (* its task was cancelled or has ended; the completion
                     callback has not run *)

#[global] Instance pstate_eq_dec : EqDecision pstate.
Proof. solve_decision. Defined.

Record state : Type := State {
  started : bool;
  paths : gmap string pstate;
}.

#[global] Instance state_eq_dec : EqDecision state.
Proof. solve_decision. Defined.

Definition init : state := State false ∅.

(** What can happen to the supervisor. *)
Inductive op : Type :=
  | Register (ds : list string)   (* the paths of the initial discovery *)
  | Add (p : string)
  | Remove (p : string)
  | Start
  | Stop
  | Exit (p : string)             (* the monitor task of [p] ends *)
  | Done (p : string).            (* its completion callback runs *)

#[global] Instance op_eq_dec : EqDecision op.
Proof. solve_decision. Defined.

Definition register (ds : list string) (σ : state) : state :=
  State (started σ) (foldl (λ m p, <[p := Registered]> m) (paths σ) ds).

Definition add (p : string) (σ : state) : state :=
  match paths σ !! p with
  | Some (Registered | Running) => σ
  | _ =>
      State (started σ)
            (<[p := if started σ then Running else Registered]> (paths σ))
  end.

Definition remove (p : string) (σ : state) : state :=
  match paths σ !! p with
  | Some Registered => State (started σ) (delete p (paths σ))
  | Some Running => State (started σ) (<[p := Stopping]> (paths σ))
  | _ => σ
  end.

(** A registered path gets its monitor. *)
Definition begin (st : pstate) : pstate :=
  match st with Registered => Running | _ => st end.

(** The task of a running path is cancelled, or ends. *)
Definition halt (st : pstate) : pstate :=
  match st with Running => Stopping | _ => st end.

Definition start (σ : state) : state := State true (begin <$> paths σ).

Definition stop (σ : state) : state := State false (halt <$> paths σ).

Definition exit (p : string) (σ : state) : state :=
  State (started σ) (alter halt p (paths σ)).

Definition done (p : string) (σ : state) : state :=
  State (started σ) (delete p (paths σ)).

Definition do (a : op) (σ : state) : state :=
  match a with
  | Register ds => register ds σ
  | Add p => add p σ
  | Remove p => remove p σ
  | Start => start σ
  | Stop => stop σ
  | Exit p => exit p σ
  | Done p => done p σ
  end.

Definition run (ops : list op) (σ : state) : state :=
  foldl (λ σ a, do a σ) σ ops.

Inductive step (σ : state) : state → Prop :=
  | step_op a : step σ (do a σ).

(** The paths in a given state. *)
Definition in_state (st : pstate) (σ : state) : gset string :=
  dom (filter (λ kv, kv.2 = st) (paths σ)).

(** While the supervisor is started no path waits for its monitor. *)
Definition settled (σ : state) : Prop :=
  started σ = true → ∀ p, paths σ !! p ≠ Some Registered.

(** ** The laws of the machine *)

Section laws.
Implicit Types (σ : state) (p q : string) (st : pstate).

Lemma state_eq σ σ' :
  started σ = started σ' → paths σ = paths σ' → σ = σ'.
Proof. destruct σ, σ'. simpl. by intros -> ->. Qed.

Lemma run_app ops ops' σ : run (ops ++ ops') σ = run ops' (run ops σ).
Proof. apply foldl_app. Qed.

Lemma run_steps ops σ : rtc step σ (run ops σ).
Proof.
  induction ops as [|a ops IH] using rev_ind; [done|].
  rewrite run_app. simpl. eapply rtc_r; [done|constructor].
Qed.

Lemma register_lookup ds : ∀ σ p,
  paths (register ds σ) !! p
  = if decide (p ∈ ds) then Some Registered else paths σ !! p.
Proof.
  unfold register. simpl. induction ds as [|d ds IH] using rev_ind; intros σ p.
  { by rewrite decide_False by set_solver. }
  rewrite foldl_app. simpl. rewrite lookup_insert. case_decide as Hd.
  - subst. by rewrite decide_True by set_solver.
  - rewrite IH. by repeat case_decide; set_solver.
Qed.

Lemma add_lookup p q σ :
  paths (add p σ) !! q
  = if decide (p = q) then
      match paths σ !! p with
      | Some (Registered | Running) => paths σ !! p
      | _ => Some (if started σ then Running else Registered)
      end
    else paths σ !! q.
Proof.
  unfold add. case_decide as Hq; [subst q|].
  - destruct (paths σ !! p) as [[]|] eqn:E; simpl;
      by rewrite ?E, ?lookup_insert_eq.
  - destruct (paths σ !! p) as [[]|] eqn:E; simpl;
      by rewrite ?lookup_insert_ne.
Qed.

Lemma remove_lookup p q σ :
  paths (remove p σ) !! q
  = if decide (p = q) then
      match paths σ !! p with
      | Some Registered => None
      | Some _ => Some Stopping
      | None => None
      end
    else paths σ !! q.
Proof.
  unfold remove. case_decide as Hq; [subst q|].
  - destruct (paths σ !! p) as [[]|] eqn:E; simpl;
      by rewrite ?E, ?lookup_insert_eq, ?lookup_delete_eq.
  - destruct (paths σ !! p) as [[]|] eqn:E; simpl;
      by rewrite ?lookup_insert_ne, ?lookup_delete_ne.
Qed.

(** An add notification leaves the path tracked, and a path that is
    tracked after it was tracked before or is the one added. *)
Lemma add_tracked p σ : is_Some (paths (add p σ) !! p).
Proof.
  rewrite add_lookup, decide_True by done.
  by destruct (paths σ !! p) as [[]|].
Qed.

(** A second remove notification changes nothing. *)
Lemma remove_idemp p σ : remove p (remove p σ) = remove p σ.
Proof.
  apply state_eq.
  - unfold remove. destruct (paths σ !! p) as [[]|] eqn:E; simpl;
      by rewrite ?E, ?lookup_insert_eq, ?lookup_delete_eq.
  - apply map_eq. intros q. rewrite !remove_lookup.
    case_decide; [|done]. rewrite decide_True by done.
    by destruct (paths σ !! p) as [[]|].
Qed.

(** A notification for one path does not touch another. *)
Lemma do_other a p q σ :
  a ∈ [Add p; Remove p; Exit p; Done p] → p ≠ q →
  paths (do a σ) !! q = paths σ !! q.
Proof.
  rewrite !elem_of_cons, elem_of_nil. intros [->|[->|[->|[->|[]]]]] Hq; simpl.
  - by rewrite add_lookup, decide_False.
  - by rewrite remove_lookup, decide_False.
  - by rewrite lookup_alter_ne.
  - by rewrite lookup_delete_ne.
Qed.

(** Plugging a controller in and out again, while the supervisor is
    started, leaves no trace once the completion callback has run. *)
Lemma add_remove_done p σ :
  started σ = true → paths σ !! p = None →
  done p (remove p (add p σ)) = σ.
Proof.
  intros Hs Hp. apply state_eq.
  - unfold done, remove, add. rewrite Hp. simpl.
    rewrite lookup_insert_eq, Hs. done.
  - apply map_eq. intros q. unfold done. simpl.
    destruct (decide (p = q)) as [->|Hq].
    + by rewrite lookup_delete_eq.
    + by rewrite lookup_delete_ne, remove_lookup, decide_False, add_lookup,
        decide_False.
Qed.

(** After [start] every registered path runs, and [stop] leaves no path
    running. *)
Lemma start_lookup p σ : paths (start σ) !! p = begin <$> paths σ !! p.
Proof. apply lookup_fmap. Qed.

Lemma stop_lookup p σ : paths (stop σ) !! p = halt <$> paths σ !! p.
Proof. apply lookup_fmap. Qed.

Lemma stop_no_running p σ : paths (stop σ) !! p ≠ Some Running.
Proof. rewrite stop_lookup. by destruct (paths σ !! p) as [[]|]. Qed.

Lemma add_started p σ : started (add p σ) = started σ.
Proof. unfold add. by destruct (paths σ !! p) as [[]|]. Qed.

Lemma remove_started p σ : started (remove p σ) = started σ.
Proof. unfold remove. by destruct (paths σ !! p) as [[]|]. Qed.

(** [settled] is an invariant of the machine once discovery is over. *)
Lemma settled_do a σ :
  (∀ ds, a ≠ Register ds) → settled σ → settled (do a σ).
Proof.
  intros Ha Hσ. destruct a as [ds|p|p| | |p|p]; simpl.
  - by destruct (Ha ds).
  - unfold settled. rewrite add_started. intros Hs q. specialize (Hσ Hs).
    rewrite add_lookup, Hs. case_decide; [|done].
    destruct (paths σ !! p) as [[]|] eqn:E; try done. by destruct (Hσ p).
  - unfold settled. rewrite remove_started. intros Hs q. specialize (Hσ Hs).
    rewrite remove_lookup.
    case_decide; [by destruct (paths σ !! p) as [[]|]|done].
  - intros _ q. rewrite start_lookup. by destruct (paths σ !! q) as [[]|].
  - done.
  - intros Hs q. simpl. specialize (Hσ Hs q).
    destruct (decide (p = q)) as [->|Hq];
      [rewrite lookup_alter_eq|by rewrite lookup_alter_ne].
    by destruct (paths σ !! q) as [[]|].
  - intros Hs q. simpl. specialize (Hσ Hs q).
    destruct (decide (p = q)) as [->|Hq];
      [by rewrite lookup_delete_eq|by rewrite lookup_delete_ne].
Qed.

Lemma settled_start σ : settled (start σ).
Proof. intros _ q. rewrite start_lookup. by destruct (paths σ !! q) as [[]|]. Qed.

Lemma settled_stop σ : settled (stop σ).
Proof. done. Qed.

(** Only [start] and [stop] change the flag. *)
Lemma do_started a σ :
  a ≠ Start → a ≠ Stop → started (do a σ) = started σ.
Proof.
  destruct a; simpl; try done; intros _ _;
    [apply add_started|apply remove_started].
Qed.

Lemma settled_run ops : ∀ σ,
  Forall (λ a, ∀ ds, a ≠ Register ds) ops → settled σ → settled (run ops σ).
Proof.
  induction ops as [|a ops IH]; intros σ Hops Hσ; [done|].
  apply Forall_cons in Hops as [Ha Hops]. simpl.
  by apply IH, settled_do.
Qed.

Lemma run_started ops : ∀ σ,
  Forall (λ a, a ≠ Start ∧ a ≠ Stop) ops → started (run ops σ) = started σ.
Proof.
  induction ops as [|a ops IH]; intros σ Hops; [done|].
  apply Forall_cons in Hops as [[? ?] Hops]. simpl.
  by rewrite IH, do_started.
Qed.
End laws.

End Supervisor.
