(* ===== verification/Refinement.v ===== *)
(** * Refinement: [GamepadsWatcher] implements the supervisor of the
    specification

    [abs] reads the state of the machine of [Spec] off a world of the
    watcher: the flag [started], and for every key of [self.tasks] the state
    of its path.  The placeholder [None] is a registered path.  An entry
    that holds a task is running while the task has neither ended nor been
    asked to cancel, and stopping from then on, until the done callback
    deletes the entry.

    One lemma per method says which transition of the machine the method
    performs on the abstract state, on every branch, the ones that raise
    included.  [remove_device], [finish_removing_device], [set_init_devices]
    and the steps of a monitor task follow the machine in every world that
    satisfies the invariant.  [add_device], [start] and [stop] follow it
    under the conditions [add_conforms], [start_conforms] and
    [stop_conforms]; outside them the code leaves the machine, and the
    theorems at the end of the file say how.

    The theorems for the whole process map every event of [System] to the
    transitions of the machine it performs ([ops_of], no transition for most
    events) and show that a run of the process whose events conform is a run
    of the machine. *)

From S2P Require Import Prelude PyDict Asyncio Evdev Watcher System Runs.
From S2P Require Import IdleLock Bridge Finder.
From S2P Require Import Coherent Invariant Reachable Shutdown Effects Spec.
Import GamepadsWatcher.

(** ** The abstraction *)

(** The monitor task [t] has neither ended nor been asked to cancel. *)
Definition alive (t : nat) (l : loop callback nat) : bool :=
  match l_tasks l !! t with
  | Some tk => negb (t_done tk) && negb (t_must_cancel tk)
  | None => false
  end.

Definition pstate_of (l : loop callback nat) (o : option nat) : Supervisor.pstate :=
  match o with
  | None => Supervisor.Registered
  | Some t => if alive t l then Supervisor.Running else Supervisor.Stopping
  end.

Definition abs (w : world) : Supervisor.state :=
  Supervisor.State (started (w_self w))
                   (pstate_of (w_loop w) <$> dict_map (tasks (w_self w))).

(** The state of path [p]. *)
Definition path_state (w : world) (p : string) : option Supervisor.pstate :=
  Supervisor.paths (abs w) !! p.

(** The path whose entry holds task [t]. *)
Definition path_of (t : nat) (w : world) : option string :=
  (λ ikv, ikv.2.1)
    <$> list_find (λ kv : string * option nat, kv.2 = Some t) (tasks (w_self w)).

(** When [add_device] does what the machine does: the path is not
    stopping, it is not a placeholder left while the watcher is started,
    and a monitor that has to be created finds its device node. *)
Definition add_conforms (p : string) (w : world) : bool :=
  match path_state w p with
  | Some Supervisor.Stopping => false
  | Some Supervisor.Registered => negb (started (w_self w))
  | Some Supervisor.Running => true
  | None =>
      negb (started (w_self w))
      || bool_decide (is_Some (nodes (w_evdev w) !! p))
  end.

(** When [start] does: no entry holds a task yet and every key has its
    device node. *)
Definition start_conforms (w : world) : bool :=
  forallb (λ kv, bool_decide (kv.2 = None)
                 && bool_decide (is_Some (nodes (w_evdev w) !! kv.1)))
          (tasks (w_self w)).

(** When [stop] does: no entry is a placeholder. *)
Definition stop_conforms (w : world) : bool :=
  forallb (λ kv, bool_decide (is_Some kv.2)) (tasks (w_self w)).

Section abs.
Implicit Types (w : world) (p q : string) (t : nat) (l : loop callback nat).

Lemma abs_lookup w p :
  path_state w p = pstate_of (w_loop w) <$> dict_get p (tasks (w_self w)).
Proof. unfold path_state, abs. simpl. by rewrite lookup_fmap, dict_get_map. Qed.

(** Two worlds with the same flag and the same state of every path. *)
Lemma abs_eq w w' :
  started (w_self w') = started (w_self w) →
  (∀ p, path_state w' p = path_state w p) →
  abs w' = abs w.
Proof. intros Hs Hp. apply Supervisor.state_eq; [done|by apply map_eq]. Qed.

(** [abs] reads [started], [tasks] and the tasks of the loop that the
    entries hold. *)
Lemma abs_frame w w' :
  started (w_self w') = started (w_self w) →
  tasks (w_self w') = tasks (w_self w) →
  (∀ p t, task_of p w = Some t → alive t (w_loop w') = alive t (w_loop w)) →
  abs w' = abs w.
Proof.
  intros Hs Ht Ha. apply abs_eq; [done|]. intros p. rewrite !abs_lookup, Ht.
  destruct (dict_get p (tasks (w_self w))) as [[t|]|] eqn:Hp; simpl; [|done..].
  rewrite (Ha p t); [done|]. unfold task_of, entry. by rewrite Hp.
Qed.

(** [abs] does not read the log nor the activity flag. *)
#[export] Instance abs_proper : Proper (same_watcher ==> (=)) abs.
Proof.
  intros w w' (Ht & _ & Hs & Hl & _). symmetry. apply abs_frame; [done..|].
  intros p t _. by rewrite Hl.
Qed.

Lemma abs_logged lv msg w : abs (logged lv msg w) = abs w.
Proof. by rewrite <-(same_logged lv msg w). Qed.

Lemma path_state_logged lv msg w p :
  path_state (logged lv msg w) p = path_state w p.
Proof. unfold path_state. by rewrite abs_logged. Qed.

Lemma task_of_Some p t w :
  task_of p w = Some t ↔ dict_get p (tasks (w_self w)) = Some (Some t).
Proof.
  unfold task_of, entry.
  destruct (dict_get p (tasks (w_self w))) as [[?|]|]; naive_solver.
Qed.

Lemma task_of_None p w :
  task_of p w = None →
  dict_get p (tasks (w_self w)) = None
  ∨ dict_get p (tasks (w_self w)) = Some None.
Proof.
  unfold task_of, entry.
  destruct (dict_get p (tasks (w_self w))) as [[?|]|]; naive_solver.
Qed.

Lemma path_state_task p t w :
  task_of p w = Some t →
  path_state w p
  = Some (if alive t (w_loop w) then Supervisor.Running else Supervisor.Stopping).
Proof. intros Hp%task_of_Some. by rewrite abs_lookup, Hp. Qed.

Lemma path_state_no_task p w :
  task_of p w = None →
  path_state w p
  = match dict_get p (tasks (w_self w)) with
    | Some _ => Some Supervisor.Registered
    | None => None
    end.
Proof.
  unfold task_of, entry. rewrite abs_lookup.
  by destruct (dict_get p (tasks (w_self w))) as [[?|]|].
Qed.

(** ** What the invariant says about the tasks of the entries *)

Lemma alive_not_done t l tk :
  l_tasks l !! t = Some tk → alive t l = true → t_done tk = false.
Proof.
  unfold alive. intros ->. by destruct (t_done tk).
Qed.

(** An entry holds a task of the loop. *)
Lemma entry_in_loop p t w :
  watcher_inv w → task_of p w = Some t → is_Some (l_tasks (w_loop w) !! t).
Proof.
  intros [_ _ _ Hco] Hp.
  destruct (co_entry _ _ Hco p t Hp) as [(tk & Ht & _)|Hs]; [by eexists|].
  destruct (co_scheduled _ _ Hco p t Hs) as (tk & Ht & _). by eexists.
Qed.

(** A task that has not ended is the entry of one path only. *)
Lemma alive_unique p q t w :
  watcher_inv w → task_of p w = Some t → task_of q w = Some t →
  alive t (w_loop w) = true → p = q.
Proof.
  intros [_ _ _ Hco] Hp Hq Ha.
  assert (∀ r, task_of r w = Some t → registered (w_loop w) r t) as Hreg.
  { intros r Hr. destruct (co_entry _ _ Hco r t Hr) as [|Hs]; [done|].
    destruct (co_scheduled _ _ Hco r t Hs) as (tk & Ht & Hd).
    by rewrite (alive_not_done t (w_loop w) tk) in Hd. }
  destruct (Hreg p Hp) as (tk & Ht & _ & Hcb).
  destruct (Hreg q Hq) as (tk' & Ht' & _ & Hcb'). congruence.
Qed.

Lemma alive_cancel t t' l :
  alive t' (exec (cancel t) l) = if decide (t = t') then false else alive t' l.
Proof.
  unfold alive. rewrite cancel_lookup. case_decide; [subst|done].
  destruct (l_tasks l !! t') as [tk|]; [|done]. simpl.
  rewrite cancelled_done, cancelled_must_cancel.
  by destruct (t_done tk).
Qed.

(** Cancelling the task of [p] changes the state of no other path. *)
Lemma alive_cancel_other p q t t' w :
  watcher_inv w → task_of p w = Some t → task_of q w = Some t' → p ≠ q →
  alive t' (exec (cancel t) (w_loop w)) = alive t' (w_loop w).
Proof.
  intros Hinv Hp Hq Hne. rewrite alive_cancel. case_decide; [subst t'|done].
  destruct (alive t (w_loop w)) eqn:Ha; [|done].
  by destruct (Hne (alive_unique p q t w Hinv Hp Hq Ha)).
Qed.
End abs.

(** ** The callbacks *)

Section callbacks.
Implicit Types (w : world) (p q : string) (t : nat) (l : loop callback nat).

Lemma abs_paths w p : Supervisor.paths (abs w) !! p = path_state w p.
Proof. done. Qed.

(** [abs w'] is the state [σ] of the machine. *)
Lemma abs_is w' σ :
  started (w_self w') = Supervisor.started σ →
  (∀ q, path_state w' q = Supervisor.paths σ !! q) →
  abs w' = σ.
Proof. intros Hs Hp. apply Supervisor.state_eq; [done|by apply map_eq]. Qed.

(** What [remove_device] leaves of the world, whether it raises or not. *)
Lemma remove_device_frame p w :
  let w' := exec (remove_device p) w in
  started (w_self w') = started (w_self w)
  ∧ match task_of p w with
    | Some t =>
        tasks (w_self w') = tasks (w_self w)
        ∧ w_loop w' = exec (cancel t) (w_loop w)
    | None =>
        tasks (w_self w')
        = default (tasks (w_self w)) (dict_del p (tasks (w_self w)))
        ∧ w_loop w' = w_loop w
    end.
Proof.
  unfold exec. destruct (task_of p w) as [t|] eqn:Hp.
  - destruct (dict_get p (devices (w_self w))) as [h|] eqn:Hh.
    + by destruct (remove_device_running p w t h) as (d & _ & ->).
    + by rewrite (remove_device_no_handle p w t).
  - rewrite remove_device_not_running by done. simpl.
    by destruct (dict_del p (tasks (w_self w))).
Qed.

(** [remove_device] is the transition [remove] of the machine, also when
    it raises [KeyError]. *)
Lemma abs_remove_device p w :
  watcher_inv w → abs (exec (remove_device p) w) = Supervisor.remove p (abs w).
Proof.
  intros Hinv. destruct (remove_device_frame p w) as [Hs Hrest].
  apply abs_is; [by rewrite Supervisor.remove_started|]. intros q.
  rewrite Supervisor.remove_lookup, !abs_paths, !abs_lookup.
  destruct (task_of p w) as [t|] eqn:Hp.
  - destruct Hrest as [-> ->]. pose proof Hp as Hp'%task_of_Some.
    case_decide as Hq; [subst q; rewrite Hp'; simpl|].
    + rewrite alive_cancel, decide_True by done.
      by destruct (alive t (w_loop w)).
    + destruct (dict_get q (tasks (w_self w))) as [[t'|]|] eqn:Hq'; [|done..].
      simpl. by rewrite (alive_cancel_other p q t t' w) by by rewrite ?task_of_Some.
  - destruct Hrest as [-> ->].
    destruct (dict_del p (tasks (w_self w))) as [d|] eqn:Hd; simpl.
    + rewrite (dict_get_del p q _ d) by (done || apply Hinv).
      apply task_of_None in Hp as [Hp|Hp]; rewrite Hp; [|by case_decide].
      apply dict_del_None in Hp. congruence.
    + apply dict_del_None in Hd. case_decide; [subst q; by rewrite Hd|done].
Qed.

(** The done callback is the transition [done], also when it raises. *)
Lemma abs_finish_removing_device p t w :
  dict_wf (tasks (w_self w)) →
  abs (exec (finish_removing_device p t) w) = Supervisor.done p (abs w).
Proof.
  intros Hwf. unfold exec.
  destruct (dict_del p (tasks (w_self w))) as [d|] eqn:Hd.
  - rewrite (finish_removing_device_present p t w d) by done.
    apply abs_is; [done|]. intros q. simpl. rewrite abs_lookup. simpl.
    rewrite (dict_get_del p q _ d) by done.
    rewrite lookup_delete, lookup_fmap, <-dict_get_map. by case_decide.
  - apply dict_del_None in Hd.
    rewrite finish_removing_device_absent by done. simpl. symmetry.
    apply Supervisor.state_eq; [done|]. simpl. apply delete_id.
    by rewrite lookup_fmap, <-dict_get_map, Hd.
Qed.

(** A task that the loop has not made yet is the entry of no path. *)
Lemma alive_create q t tk hs w :
  watcher_inv w → task_of q w = Some t →
  alive t (Loop (<[l_next (w_loop w) := tk]> (l_tasks (w_loop w)))
                (S (l_next (w_loop w))) hs)
  = alive t (w_loop w).
Proof.
  intros Hinv Hq. unfold alive. simpl. rewrite lookup_insert_ne; [done|].
  intros <-. destruct (entry_in_loop q _ w Hinv Hq) as [tk' Ht].
  by rewrite (create_task_fresh _ (inv_loop_fresh _ Hinv)) in Ht.
Qed.

(** Where [add_device] conforms it is the transition [add]. *)
Lemma abs_add_device p w :
  watcher_inv w → add_conforms p w = true →
  abs (exec (add_device p) w) = Supervisor.add p (abs w).
Proof.
  intros Hinv Hc. unfold add_conforms in Hc. unfold exec.
  apply abs_is; [rewrite Supervisor.add_started|intros q;
    rewrite Supervisor.add_lookup, !abs_paths].
  - destruct (task_of p w) as [t|] eqn:Hp;
      [by rewrite (add_device_present p w t)|].
    destruct (started (w_self w)) eqn:Hs;
      [|by rewrite add_device_not_started].
    rewrite add_device_started by done.
    destruct (nodes (w_evdev w) !! p) as [name|] eqn:Hn;
      [by rewrite (create_monitor_task_ok p name)|
       by rewrite create_monitor_task_no_node].
  - destruct (task_of p w) as [t|] eqn:Hp.
    { rewrite (add_device_present p w t) by done. simpl.
      rewrite !path_state_logged, (path_state_task p t w Hp) in *.
      case_decide; [subst q; rewrite (path_state_task p t w Hp)|done].
      by destruct (alive t (w_loop w)). }
    rewrite (path_state_no_task p w Hp) in *.
    destruct (started (w_self w)) eqn:Hs.
    + destruct (dict_get p (tasks (w_self w))) as [o|] eqn:Hd; [done|].
      simpl in Hc. apply bool_decide_eq_true in Hc as [name Hn].
      rewrite add_device_started, (create_monitor_task_ok p name) by done.
      rewrite abs_lookup. simpl. rewrite dict_get_set.
      case_decide; [subst q; simpl|].
      * unfold alive. simpl. by rewrite lookup_insert_eq, Hs.
      * rewrite abs_lookup.
        destruct (dict_get q (tasks (w_self w))) as [[t|]|] eqn:Hq; [|done..].
        simpl. rewrite (alive_create q t _ _ w); [done..|].
        by apply task_of_Some.
    + rewrite add_device_not_started by done. rewrite abs_lookup. simpl.
      rewrite dict_get_set, Hs. case_decide; [subst q|by rewrite abs_lookup].
      by destruct (dict_get p (tasks (w_self w))).
Qed.
End callbacks.

(** ** The monitor tasks *)

(** The resumptions that end the coroutine. *)
Definition ends (r : resume) : bool :=
  match r with Cancelled | Read_error _ => true | _ => false end.

Section tasks.
Implicit Types (w : world) (p q : string) (t : nat) (l : loop callback nat).

Lemma alive_finish t t' l :
  alive t' (exec (finish t) l) = if decide (t = t') then false else alive t' l.
Proof.
  unfold alive, exec, finish.
  destruct (l_tasks l !! t) as [tk|] eqn:Ht; simpl.
  - rewrite lookup_insert. by case_decide.
  - case_decide; [subst; by rewrite Ht|done].
Qed.

Lemma alive_mark_started t t' l :
  alive t' (exec (mark_started t) l) = alive t' l.
Proof.
  unfold alive, exec, mark_started.
  destruct (l_tasks l !! t) as [tk|] eqn:Ht; simpl; [|done].
  rewrite lookup_insert. case_decide; [subst; by rewrite Ht|done].
Qed.

Lemma path_of_task t p w :
  dict_wf (tasks (w_self w)) → path_of t w = Some p → task_of p w = Some t.
Proof.
  intros Hwf. unfold path_of. rewrite task_of_Some, <-dict_get_elem by done.
  intros ([i [p' o]] & (Hi & Ho & _)%list_find_Some & ->)%fmap_Some.
  simpl in *. subst o. by apply list_elem_of_lookup_2 in Hi.
Qed.

Lemma path_of_None t p w :
  dict_wf (tasks (w_self w)) → path_of t w = None → task_of p w ≠ Some t.
Proof.
  intros Hwf. unfold path_of. rewrite task_of_Some, <-dict_get_elem by done.
  intros Hf%fmap_None%list_find_None Hin. rewrite Forall_forall in Hf.
  by destruct (Hf _ Hin).
Qed.

(** A resumption of the coroutine of [t] changes the loop only when it
    ends the coroutine. *)
Lemma resume_task_frame t r w :
  let w' := exec (resume_task t r) w in
  started (w_self w') = started (w_self w)
  ∧ tasks (w_self w') = tasks (w_self w)
  ∧ w_loop w' = if ends r then exec (finish t) (w_loop w) else w_loop w.
Proof.
  cbv zeta. unfold exec at 1 2 3, resume_task. unfold_watcher.
  destruct (l_tasks (w_loop w) !! t) as [tk|] eqn:E; simpl.
  - destruct r; simpl; rewrite ?finish_pair; simpl; try done.
    case_decide; simpl; by rewrite finish_pair.
  - split_and!; try done. unfold exec, finish. rewrite E. by destruct (ends r).
Qed.

(** A resumption that ends the coroutine is the transition [exit] of the
    path of the task; the others are no transition. *)
Lemma abs_resume_task t r w :
  watcher_inv w →
  abs (exec (resume_task t r) w)
  = match path_of t w with
    | Some p => if ends r then Supervisor.exit p (abs w) else abs w
    | None => abs w
    end.
Proof.
  intros Hinv. pose proof (inv_tasks_wf _ Hinv) as Hwf.
  destruct (resume_task_frame t r w) as (Hs & Ht & Hl).
  assert (ends r = false ∨ (∀ p, task_of p w ≠ Some t)
          ∨ alive t (w_loop w) = false → abs (exec (resume_task t r) w) = abs w)
    as Hsame.
  { intros Hcase. apply abs_frame; [done..|]. intros q t' Hq. rewrite Hl.
    destruct (ends r); [|done]. rewrite alive_finish.
    case_decide; [subst t'|done]. destruct Hcase as [|[Hno|Ha]]; [done| |done].
    by destruct (Hno q). }
  destruct (path_of t w) as [p|] eqn:Hp; last first.
  { apply Hsame. right. left. intros p. by apply path_of_None. }
  apply path_of_task in Hp; [|done].
  destruct (ends r) eqn:Hr; [|by apply Hsame; left].
  apply abs_is; [done|]. intros q. unfold Supervisor.exit.
  cbn [Supervisor.paths]. destruct (decide (p = q)) as [<-|Hq].
  - rewrite lookup_alter_eq, abs_paths, (path_state_task p t w Hp).
    rewrite (path_state_task p t); [|by rewrite task_of_Some, Ht, <-task_of_Some].
    rewrite Hl, alive_finish, decide_True by done.
    by destruct (alive t (w_loop w)).
  - rewrite lookup_alter_ne, abs_paths, !abs_lookup, Ht, Hl by done.
    destruct (dict_get q (tasks (w_self w))) as [[t'|]|] eqn:Hq'; [|done..].
    simpl. rewrite alive_finish. case_decide; [subst t'|done].
    destruct (alive t (w_loop w)) eqn:Ha; [|done].
    destruct Hq.
    apply (alive_unique p q t w); [done|done|by apply task_of_Some|done].
Qed.

(** A step of a task is no transition: a task that a step ends had been
    asked to cancel, and its path is stopping already. *)
Lemma abs_task_step t w : abs (exec (task_step t) w) = abs w.
Proof.
  destruct (task_step_self t w) as (Hs & Ht & _).
  apply abs_frame; [done..|]. intros p t' _. rewrite task_step_loop.
  unfold alive at 2.
  destruct (l_tasks (w_loop w) !! t) as [tk|] eqn:E; [|done].
  destruct (t_done tk) eqn:Hd; [done|].
  destruct (t_must_cancel tk) eqn:Hc.
  - rewrite alive_finish. case_decide; [subst t'|done].
    unfold alive. by rewrite E, Hd, Hc.
  - destruct (t_started tk); [done|]. apply alive_mark_started.
Qed.
End tasks.

(** ** [set_init_devices], [start] and [stop] *)

Section main_methods.
Implicit Types (w : world) (p q : string) (t : nat) (l : loop callback nat).

Lemma abs_set_init_devices ds w :
  abs (exec (set_init_devices ds) w) = Supervisor.register ds (abs w).
Proof.
  unfold exec. rewrite set_init_devices_tasks. simpl.
  apply abs_is; [done|]. intros q.
  rewrite Supervisor.register_lookup, abs_paths, !abs_lookup. simpl.
  rewrite foldl_dict_set_None. by case_decide.
Qed.

Lemma start_conforms_entry w p o :
  start_conforms w = true → (p, o) ∈ tasks (w_self w) →
  o = None ∧ is_Some (nodes (w_evdev w) !! p).
Proof.
  unfold start_conforms. rewrite forallb_forall.
  intros Hc Hin%list_elem_of_In. specialize (Hc _ Hin). simpl in Hc.
  by apply andb_prop in Hc as [?%bool_decide_eq_true ?%bool_decide_eq_true].
Qed.

Lemma stop_conforms_entry w p o :
  stop_conforms w = true → (p, o) ∈ tasks (w_self w) → is_Some o.
Proof.
  unfold stop_conforms. rewrite forallb_forall.
  intros Hc Hin%list_elem_of_In. specialize (Hc _ Hin).
  by apply bool_decide_eq_true in Hc.
Qed.

(** Where [start] conforms it is the transition [start]. *)
Lemma abs_start w :
  watcher_inv w → start_conforms w = true →
  abs (exec start w) = Supervisor.start (abs w).
Proof.
  intros Hinv Hc. pose proof (inv_tasks_wf _ Hinv) as Hwf.
  destruct (start_loop_spawned (dict_keys (tasks (w_self w)))
              (exec (set_started true) w)) as (w' & Hrun & Hsp); [done| |].
  { intros p [o Ho]%dict_get_keys. apply dict_get_elem in Ho; [|done].
    by destruct (start_conforms_entry w p o Hc Ho). }
  unfold exec at 1. rewrite start_eq, Hrun. simpl.
  apply abs_is; [by rewrite (sp_started _ _ _ Hsp)|]. intros q.
  rewrite Supervisor.start_lookup, abs_paths, (abs_lookup w).
  destruct (dict_get q (tasks (w_self w))) as [o|] eqn:Hq.
  - pose proof Hq as Hq'%dict_get_elem; [|done].
    destruct (start_conforms_entry w q o Hc Hq') as [-> _].
    assert (q ∈ dict_keys (tasks (w_self w))) as [i Hi]%list_elem_of_lookup_1
      by by apply dict_get_keys.
    destruct (sp_new _ _ _ Hsp i q Hi) as (Ht & _ & Hl & _).
    rewrite (path_state_task q _ w' Ht). unfold alive. by rewrite Hl.
  - rewrite abs_lookup, (sp_old_tasks _ _ _ Hsp); [by simpl; rewrite Hq|].
    by apply dict_get_None_keys.
Qed.

Lemma values_Some (vs : list (option nat)) :
  Forall is_Some vs → vs = Some <$> (default 0 <$> vs).
Proof.
  induction 1 as [|o vs [t ->] _ IH]; [done|]. csimpl. by rewrite <-IH.
Qed.

(** Where [stop] conforms it is the transition [stop]. *)
Lemma abs_stop w :
  watcher_inv w → stop_conforms w = true →
  abs (exec stop w) = Supervisor.stop (abs w).
Proof.
  intros Hinv Hc. pose proof (inv_tasks_wf _ Hinv) as Hwf.
  assert (Forall is_Some (dict_values (tasks (w_self w)))) as Hvs%values_Some.
  { apply Forall_forall. intros o (p & Hp)%dict_values_elem; [|done].
    apply dict_get_elem in Hp; [|done]. by apply (stop_conforms_entry w p). }
  set (ts := default 0 <$> dict_values (tasks (w_self w))) in *.
  destruct (stop_loop_Some ts (exec (set_started false) w))
    as (l' & Hrun & _ & Hlook & _).
  unfold exec at 1. rewrite stop_eq, Hvs, Hrun. simpl.
  apply abs_is; [done|]. intros q.
  rewrite Supervisor.stop_lookup, abs_paths, !abs_lookup. simpl.
  destruct (dict_get q (tasks (w_self w))) as [[t|]|] eqn:Hq; simpl; [|..|done].
  - assert (t ∈ ts) as Hin.
    { assert (Some t ∈ dict_values (tasks (w_self w))) as Hin
        by (apply dict_values_elem; eauto).
      rewrite Hvs in Hin. by apply list_elem_of_fmap in Hin as (? & [= <-] & ?). }
    unfold alive at 1. rewrite Hlook, decide_True by done. simpl in *.
    destruct (l_tasks (w_loop w) !! t) as [tk|]; simpl;
      [|by destruct (alive t (w_loop w))].
    rewrite cancelled_done, cancelled_must_cancel.
    destruct (alive t (w_loop w)); by destruct (t_done tk).
  - apply dict_get_elem in Hq; [|done].
    by destruct (stop_conforms_entry w q None Hc Hq).
Qed.
End main_methods.

(** ** The process *)

(** The transitions of the machine that the callback of a handle performs:
    none for a step of a task. *)
Definition handle_ops (h : handle callback) : list Supervisor.op :=
  match h with
  | Call (cb_add_device p) => [Supervisor.Add p]
  | Call (cb_remove_device p) => [Supervisor.Remove p]
  | CallDone (cb_finish_removing_device p) _ => [Supervisor.Done p]
  | _ => []
  end.

(** The transitions of the machine that an event of the process performs. *)
Definition ops_of (e : event) (s : system) : list Supervisor.op :=
  match e with
  | Main_init db =>
      [Supervisor.Register
         (GamepadsFinder.devices
            (GamepadsFinder.init db cb_add_device cb_remove_device))]
  | Main_start => [Supervisor.Start]
  | Main_resume =>
      if bool_decide (sys_bridge s = B_ended CancelledError)
      then [Supervisor.Stop] else []
  | Failure t _ =>
      match path_of t (sys_world s) with
      | Some p => [Supervisor.Exit p]
      | None => []
      end
  | Run_ready =>
      match l_ready (w_loop (sys_world s)) with
      | h :: _ => handle_ops h
      | [] => []
      end
  | _ => []
  end.

(** The events at which the code does what the machine does. *)
Definition conforms (e : event) (s : system) : bool :=
  match e with
  | Main_start => start_conforms (sys_world s)
  | Main_resume =>
      negb (bool_decide (sys_bridge s = B_ended CancelledError))
      || stop_conforms (sys_world s)
  | Run_ready =>
      match l_ready (w_loop (sys_world s)) with
      | Call (cb_add_device p) :: _ => add_conforms p (sys_world s)
      | _ => true
      end
  | _ => true
  end.

Fixpoint trace_ops (es : list event) (s : system) : list Supervisor.op :=
  match es with
  | [] => []
  | e :: es => ops_of e s ++ trace_ops es (do_event e s)
  end.

Fixpoint all_conform (es : list event) (s : system) : bool :=
  match es with
  | [] => true
  | e :: es => conforms e s && all_conform es (do_event e s)
  end.

Section process.
Implicit Types (w : world) (s : system) (e : event).

(** [abs] reads the tasks of the loop, not its queue. *)
Lemma abs_same w w' :
  started (w_self w') = started (w_self w) →
  tasks (w_self w') = tasks (w_self w) →
  l_tasks (w_loop w') = l_tasks (w_loop w) →
  abs w' = abs w.
Proof.
  intros Hs Ht Hl. apply abs_frame; [done..|]. intros p t _.
  unfold alive. by rewrite Hl.
Qed.

Lemma abs_popped w : abs (popped w) = abs w.
Proof. by apply abs_same. Qed.

Lemma abs_bridge_turn r s :
  abs (sys_world (bridge_turn r s)) = abs (sys_world s).
Proof. by rewrite <-(bridge_turn_world r s). Qed.

Lemma abs_udev_event d s :
  abs (sys_world (udev_event d s)) = abs (sys_world s).
Proof.
  unfold udev_event.
  pose proof (GamepadsFinder.deliver_frame d (view finder_lens s))
    as (_ & _ & Hloop).
  unfold zoom, exec in *.
  destruct (GamepadsFinder.deliver d (view finder_lens s)) as [r f]. simpl in *.
  rewrite report_world. apply abs_same; simpl; [done..|].
  by destruct Hloop as [->| ->].
Qed.

Lemma start_conforms_ok w :
  watcher_inv w → start_conforms w = true → eval start w = Ok tt.
Proof.
  intros Hinv Hc. pose proof (inv_tasks_wf _ Hinv) as Hwf.
  destruct (start_loop_spawned (dict_keys (tasks (w_self w)))
              (exec (set_started true) w)) as (w' & Hrun & _); [done| |].
  { intros p [o Ho]%dict_get_keys. apply dict_get_elem in Ho; [|done].
    by destruct (start_conforms_entry w p o Hc Ho). }
  unfold eval. by rewrite start_eq, Hrun.
Qed.

(** The callback of a handle, run by the loop. *)
Lemma abs_run_handle h hs w :
  watcher_inv w → l_ready (w_loop w) = h :: hs →
  match h with Call (cb_add_device p) => add_conforms p w | _ => true end = true →
  abs (exec (run_handle h) (popped w)) = Supervisor.run (handle_ops h) (abs w).
Proof.
  intros Hinv Hr Hc. rewrite <-(abs_popped w).
  destruct h as [t|[p|p|p]|[p|p|p] t]; simpl; try done.
  - apply abs_task_step.
  - apply abs_add_device; [eapply watcher_inv_popped; eauto|].
    unfold add_conforms, path_state in *. by rewrite abs_popped.
  - apply abs_remove_device. eapply watcher_inv_popped; eauto.
  - apply abs_finish_removing_device, Hinv.
Qed.

(** Every event that conforms performs its transitions of the machine. *)
Lemma abs_do_event e s :
  sys_inv s → enabled e s = true → conforms e s = true →
  abs (sys_world (do_event e s))
  = Supervisor.run (ops_of e s) (abs (sys_world s)).
Proof.
  intros Hinv He Hc. pose proof (ci_watcher _ (si_core _ Hinv)) as Hw.
  destruct e as [db| | | | | | | |d|p name|p|t|t errno|b|]; simpl in *;
    try done.
  - apply abs_set_init_devices.
  - unfold main_start. rewrite main_body_eq, (start_conforms_ok _ Hw Hc).
    by apply abs_start.
  - unfold main_resume, main_raised.
    destruct (sys_bridge s) as [| |e]; [by rewrite andb_false_r in He..|].
    destruct (decide (e = CancelledError)) as [->|Hne].
    + rewrite bool_decide_eq_true_2 in * by done.
      rewrite main_handler_eq. destruct (eval stop _); by apply abs_stop.
    + rewrite bool_decide_eq_false_2 by congruence. done.
  - destruct (sys_phase s); try done. unfold main_finish.
    destruct (gather_raises _ _); [done|].
    destruct (sys_bridge s); try done. apply abs_bridge_turn.
  - by rewrite (proj1 (run_main_frame s)).
  - unfold bridge_step.
    destruct (sys_bridge s), (sys_phase s); try done; apply abs_bridge_turn.
  - apply abs_bridge_turn.
  - apply abs_udev_event.
  - rewrite abs_resume_task by done. by destruct (path_of _ _).
  - rewrite abs_resume_task by done. by destruct (path_of _ _).
  - destruct (l_ready (w_loop (sys_world s))) as [|h hs] eqn:Hr;
      [by rewrite andb_false_r in He|].
    rewrite (proj1 (run_once_world s h hs Hr)).
    apply (abs_run_handle h hs); [done..|]. by destruct h as [|[]|].
Qed.

(** A run of events that are enabled and conform is a run of the
    machine. *)
Lemma abs_run_events es : ∀ s,
  sys_inv s → all_enabled es s = true → all_conform es s = true →
  abs (sys_world (run_events es s))
  = Supervisor.run (trace_ops es s) (abs (sys_world s)).
Proof.
  induction es as [|e es IH]; intros s Hinv He Hc; [done|].
  simpl in *. apply andb_prop in He as [He Hes], Hc as [Hc Hcs].
  unfold run_events in *. simpl. rewrite He, Supervisor.run_app.
  rewrite IH; [by rewrite abs_do_event|..|done|done].
  apply (sys_inv_step s); [by constructor|done].
Qed.
End process.

(** ** The refinement theorems *)

(** C2: simulation.  In every reachable state, an enabled event that
    conforms changes the abstract state of the watcher by exactly the
    transitions of the supervisor of the specification that [ops_of] names:
    [add], [remove] and [done] for the callbacks the loop runs, [exit] for a
    read error, [register], [start] and [stop] for the segments of [main],
    and none for every other event.  So the abstract states before and
    after are related by steps of the machine. *)
Theorem step_refines nodes s e :
  reachable nodes s → enabled e s = true → conforms e s = true →
  abs (sys_world (do_event e s))
  = Supervisor.run (ops_of e s) (abs (sys_world s))
  ∧ rtc Supervisor.step (abs (sys_world s)) (abs (sys_world (do_event e s))).
Proof.
  intros Hr He Hc.
  assert (abs (sys_world (do_event e s))
          = Supervisor.run (ops_of e s) (abs (sys_world s))) as ->
    by by apply abs_do_event; [apply (reachable_sys_inv nodes)|..].
  split; [done|apply Supervisor.run_steps].
Qed.

(** C17: refinement of runs.  A run of the process from its initial state
    whose events are enabled and conform is a run of the supervisor of the
    specification from its initial state: the abstract state at the end is
    the state of the machine after the transitions of the run. *)
Theorem run_refines nodes es :
  all_enabled es (new_system nodes) = true →
  all_conform es (new_system nodes) = true →
  abs (sys_world (run_events es (new_system nodes)))
  = Supervisor.run (trace_ops es (new_system nodes)) Supervisor.init.
Proof.
  intros He Hc. by rewrite abs_run_events by (done || apply sys_inv_new).
Qed.

(** C18: where the code leaves the machine.  An add notification for a path
    whose monitor has been cancelled or has ended, and whose done callback
    has not run yet, is answered with the warning that the device is already
    present and changes nothing: the path stays stopping, where the machine
    of the specification tracks it again.  The done callback then deletes
    the entry, so the controller is not monitored although it is attached. *)
Theorem add_device_while_stopping p w :
  watcher_inv w → path_state w p = Some Supervisor.Stopping →
  eval (add_device p) w = Ok tt
  ∧ abs (exec (add_device p) w) = abs w
  ∧ add_conforms p w = false
  ∧ Supervisor.paths (Supervisor.add p (abs w)) !! p
    = Some (if started (w_self w) then Supervisor.Running
            else Supervisor.Registered).
Proof.
  intros Hinv Hp. unfold add_conforms. rewrite Hp.
  rewrite Supervisor.add_lookup, decide_True, abs_paths, Hp by done.
  assert (∃ t, task_of p w = Some t) as [t Ht].
  { rewrite abs_lookup in Hp. unfold task_of, entry.
    destruct (dict_get p (tasks (w_self w))) as [[t|]|]; by eauto. }
  unfold eval, exec. rewrite (add_device_present p w t) by done.
  by split_and!.
Qed.

(** ** Witnesses *)


(** The loop has run [remove_device]: [ev3] is stopping. *)
Definition removal_run : system := do_event Run_ready removal_queued.

(** A second controller comes and goes, then the process is interrupted
    and shuts down. *)
Definition plug_unplug_run : list event :=
  boot ++ [Plug ev5 "Pad B"; Udev (GamepadsFinder.joystick "add" "event5" ev5);
           Run_ready; Run_ready; Input 1; Failure 1 19; Run_ready;
           Udev (GamepadsFinder.joystick "remove" "event5" ev5); Run_ready;
           Interrupt; Bridge_step; Main_resume; Run_ready; Run_ready;
           Main_stopped; Exit].

Lemma step_refines_witness :
  abs (sys_world (do_event Run_ready removal_queued))
  = Supervisor.run (ops_of Run_ready removal_queued)
                   (abs (sys_world removal_queued))
  ∧ rtc Supervisor.step (abs (sys_world removal_queued))
        (abs (sys_world (do_event Run_ready removal_queued))).
Proof.
  apply (step_refines pad_nodes removal_queued Run_ready);
    [apply run_events_reachable|by vm_compute..].
Defined.

Lemma run_refines_witness :
  abs (sys_world (run_events plug_unplug_run (new_system pad_nodes)))
  = Supervisor.run (trace_ops plug_unplug_run (new_system pad_nodes))
                   Supervisor.init.
Proof. apply (run_refines pad_nodes plug_unplug_run); by vm_compute. Defined.

Lemma removal_run_reachable : reachable pad_nodes removal_run.
Proof.
  apply (run_events_reachable pad_nodes (boot ++ [Udev (pad "remove"); Run_ready])).
Qed.

Lemma add_device_while_stopping_witness :
  eval (add_device ev3) (sys_world removal_run) = Ok tt
  ∧ abs (exec (add_device ev3) (sys_world removal_run))
    = abs (sys_world removal_run)
  ∧ add_conforms ev3 (sys_world removal_run) = false
  ∧ Supervisor.paths (Supervisor.add ev3 (abs (sys_world removal_run))) !! ev3
    = Some Supervisor.Running.
Proof.
  apply (add_device_while_stopping ev3 (sys_world removal_run));
    [apply (reachable_watcher_inv pad_nodes), removal_run_reachable|
     by vm_compute].
Defined.
