(* ===== verification/Settled.v ===== *)
(** * Settled: what an entry of [self.tasks] is, phase by phase

    An entry of [self.tasks] is a task or the placeholder [None], and the
    methods treat the two differently: [stop] calls [cancel] on every value,
    [add_device] takes a placeholder for an absent path.  This file proves
    that the process keeps the two apart.  While [main] waits for the
    inhibit task the watcher is started and every entry holds a task; a
    placeholder exists only before [start] and after [stop].  So [stop],
    which [main] calls from its handler, never meets a placeholder.

    The invariant is the law [Supervisor.settled] of the machine of the
    specification, carried to the code by the lemmas of [Refinement]. *)

From S2P Require Import Prelude PyDict Asyncio Evdev Watcher IdleLock Bridge.
From S2P Require Import Finder System Runs Coherent Invariant Reachable.
From S2P Require Import Shutdown Spec Refinement.
Import GamepadsWatcher.

Record settled_inv (s : system) : Prop := {
  se_started :
    awaiting (sys_phase s) = true → started (w_self (sys_world s)) = true;
  se_settled :
    looping (sys_phase s) = true → Supervisor.settled (abs (sys_world s));
}.

(** The transitions of a callback or of a task. *)
Definition plain (a : Supervisor.op) : Prop :=
  (∀ ds, a ≠ Supervisor.Register ds) ∧ a ≠ Supervisor.Start ∧ a ≠ Supervisor.Stop.

Section settled.
Implicit Types (w : world) (s : system) (e : event) (p : string).

Lemma settled_tasks w :
  Supervisor.settled (abs w)
  ↔ (started (w_self w) = true →
     ∀ p, dict_get p (tasks (w_self w)) ≠ Some None).
Proof.
  unfold Supervisor.settled.
  change (Supervisor.started (abs w)) with (started (w_self w)).
  split; intros Hs Hst p; specialize (Hs Hst p);
    rewrite abs_paths, abs_lookup in *;
    destruct (dict_get p (tasks (w_self w))) as [[t|]|]; simpl in *; try done.
  by destruct (alive t (w_loop w)).
Qed.

Lemma stop_started w : started (w_self (exec stop w)) = false.
Proof.
  assert (started (w_self (exec (for_each (dict_values (tasks (w_self w)))
                                          stop_body)
                                (exec (set_started false) w))) = false) as Hf.
  { apply (for_each_preserves (λ w, started (w_self w) = false)); [|done].
    intros [t|] w0 _ Hw0; unfold exec; by rewrite ?stop_body_Some. }
  unfold exec in *. rewrite stop_eq.
  by destruct (for_each _ _ _) as [[[]|e] w'].
Qed.

(** A [start] that returns has found every node. *)
Lemma start_ok_conforms w :
  watcher_inv w → (∀ p, task_of p w = None) → eval start w = Ok tt →
  start_conforms w = true.
Proof.
  intros Hinv Hnone Hok. pose proof (inv_tasks_wf _ Hinv) as Hwf.
  apply forallb_forall. intros [p o] Hin%list_elem_of_In. simpl.
  apply dict_get_elem in Hin; [|done]. apply andb_true_intro. split.
  - apply bool_decide_eq_true. specialize (Hnone p).
    unfold task_of, entry in Hnone. rewrite Hin in Hnone. by destruct o.
  - apply bool_decide_eq_true.
    destruct (nodes (w_evdev w) !! p) as [name|] eqn:Hn; [done|].
    pose proof (start_loop_no_node (dict_keys (tasks (w_self w)))
                  (exec (set_started true) w)) as Hno.
    unfold eval in *. rewrite start_eq, Hno in Hok; [done|].
    exists p. split; [|done]. apply dict_get_keys. by eexists.
Qed.

(** Where [add_device] does not conform it changes nothing, once no
    placeholder is left. *)
Lemma abs_add_device_off p w :
  add_conforms p w = false → Supervisor.settled (abs w) →
  abs (exec (add_device p) w) = abs w.
Proof.
  unfold add_conforms. intros Hc Hs. unfold exec.
  destruct (path_state w p) as [[]|] eqn:Hp; [| |clear Hc|]; try done.
  - apply negb_false_iff in Hc. by destruct (Hs Hc p).
  - assert (∃ t, task_of p w = Some t) as [t Ht].
    { rewrite abs_lookup in Hp. unfold task_of, entry.
      destruct (dict_get p (tasks (w_self w))) as [[t|]|]; by eauto. }
    rewrite (add_device_present p w t) by done. cbn [snd].
    by rewrite !abs_logged.
  - apply orb_false_iff in Hc as [Hst%negb_false_iff Hn%bool_decide_eq_false].
    rewrite abs_lookup in Hp.
    destruct (dict_get p (tasks (w_self w))) as [o|] eqn:Hd; [done|].
    rewrite add_device_started, create_monitor_task_no_node;
      [cbn [snd]; by rewrite abs_logged| |
       by unfold task_of, entry; rewrite Hd|done].
    simpl. by apply eq_None_not_Some.
Qed.

Lemma stop_conforms_ok w :
  watcher_inv w → stop_conforms w = true →
  eval stop w = Ok (dict_values (tasks (w_self w))).
Proof.
  intros Hinv Hc. pose proof (inv_tasks_wf _ Hinv) as Hwf.
  assert (Forall is_Some (dict_values (tasks (w_self w)))) as Hvs%values_Some.
  { apply Forall_forall. intros o (p & Hp)%dict_values_elem; [|done].
    apply dict_get_elem in Hp; [|done]. by apply (stop_conforms_entry w p). }
  destruct (stop_loop_Some (default 0 <$> dict_values (tasks (w_self w)))
              (exec (set_started false) w)) as (l' & Hrun & _).
  unfold eval. rewrite stop_eq. rewrite Hvs at 1. by rewrite Hrun.
Qed.

Lemma settled_stop_conforms w :
  watcher_inv w → started (w_self w) = true → Supervisor.settled (abs w) →
  stop_conforms w = true.
Proof.
  intros Hinv Hst Hs. pose proof (proj1 (settled_tasks w) Hs Hst) as Hn.
  apply forallb_forall.
  intros [p o] Hin%list_elem_of_In. apply bool_decide_eq_true. simpl.
  apply dict_get_elem in Hin; [|apply Hinv].
  destruct o; [done|]. by destruct (Hn p).
Qed.

(** The transitions of an event of the environment or of the loop are
    those of a callback or of a task. *)
Lemma ops_of_plain e s : of_main e = false → Forall plain (ops_of e s).
Proof.
  destruct e as [db| | | | | | | |d|p name|p|t|t errno|b|]; try done;
    intros _; simpl; try by constructor.
  - destruct (path_of t (sys_world s)); by repeat constructor.
  - destruct (l_ready _) as [|[t|[]|[] t] hs]; by repeat constructor.
Qed.

(** An event of the environment or of the loop performs transitions of a
    callback or of a task, whether it conforms or not. *)
Lemma abs_do_event_env e s :
  of_main e = false → sys_inv s → enabled e s = true →
  (looping (sys_phase s) = true → Supervisor.settled (abs (sys_world s))) →
  ∃ ops, Forall plain ops
    ∧ abs (sys_world (do_event e s)) = Supervisor.run ops (abs (sys_world s)).
Proof.
  intros Hm Hinv He Hs. destruct (conforms e s) eqn:Hc.
  { exists (ops_of e s). split; [by apply ops_of_plain|by apply abs_do_event]. }
  exists []. split; [done|].
  destruct e as [db| | | | | | | |d|p name|p|t|t errno|b|]; try done.
  simpl in *. apply andb_prop in He as [Hl _].
  destruct (l_ready (w_loop (sys_world s))) as [|h hs] eqn:Hr; [done|].
  destruct h as [|[p|p|p]|]; try done.
  rewrite (proj1 (run_once_world s _ hs Hr)). simpl.
  rewrite <-(abs_popped (sys_world s)).
  apply abs_add_device_off; [|rewrite abs_popped; by apply Hs].
  unfold add_conforms, path_state in *. by rewrite abs_popped.
Qed.

Lemma settled_inv_env e s :
  of_main e = false → sys_inv s → enabled e s = true →
  settled_inv s → settled_inv (do_event e s).
Proof.
  intros Hm Hinv He [Hst Hs].
  destruct (abs_do_event_env e s) as (ops & Hops & Habs); [done..|].
  destruct (do_event_frame e s Hm) as [Hp _].
  assert (started (w_self (sys_world (do_event e s)))
          = started (w_self (sys_world s))) as Hst'.
  { change (Supervisor.started (abs (sys_world (do_event e s)))
            = Supervisor.started (abs (sys_world s))).
    rewrite Habs. apply Supervisor.run_started.
    eapply Forall_impl; [done|]. by intros a (_ & ? & ?). }
  split; rewrite Hp; [by rewrite Hst'|]. intros Hl. rewrite Habs.
  apply Supervisor.settled_run; [|by apply Hs].
  eapply Forall_impl; [done|]. by intros a (? & _).
Qed.

Lemma bridge_step_frame s :
  sys_phase (bridge_step s) = sys_phase s
  ∧ abs (sys_world (bridge_step s)) = abs (sys_world s).
Proof.
  unfold bridge_step.
  destruct (sys_bridge s), (sys_phase s) eqn:Hp; try done.
  destruct (bridge_turn_frame Bridge.Cancel s) as [-> _].
  by rewrite abs_bridge_turn.
Qed.

(** The same flag and the same abstract state, in the same phase. *)
Lemma settled_inv_same s s' :
  sys_phase s' = sys_phase s → abs (sys_world s') = abs (sys_world s) →
  settled_inv s → settled_inv s'.
Proof.
  intros Hp Ha [Hst Hs]. split; rewrite Hp, ?Ha; [|done].
  change (started (w_self (sys_world s')))
    with (Supervisor.started (abs (sys_world s'))). by rewrite Ha.
Qed.

Lemma settled_inv_step s s' :
  step s s' → sys_inv s → settled_inv s → settled_inv s'.
Proof.
  intros [e He] Hinv Hset. pose proof (ci_watcher _ (si_core _ Hinv)) as Hw.
  destruct (of_main e) eqn:Hm; [|by apply settled_inv_env].
  destruct e as [db| | | | | | | |d|p name|p|t|t errno|b|]; try done;
    simpl in *.
  - apply bool_decide_eq_true in He.
    assert (∀ p, task_of p (sys_world s) = None) as Hnone.
    { intros p. apply task_of_new_loop; [done|].
      apply (si_new _ Hinv). by rewrite He. }
    unfold main_start. rewrite main_body_eq.
    destruct (eval start (sys_world s)) as [[]|x] eqn:Hok.
    + pose proof (start_ok_conforms _ Hw Hnone Hok) as Hc.
      split; simpl; intros _;
        [change (Supervisor.started (abs (exec start (sys_world s))) = true)|];
        rewrite abs_start by done; [done|apply Supervisor.settled_start].
    + apply start_raises in Hok as ->. by split.
  - apply andb_prop in He as [He%bool_decide_eq_true _].
    destruct Hset as [Hst Hs]. rewrite He in *. by split.
  - apply andb_prop in He as [_ He]. unfold main_resume, main_raised.
    destruct (sys_bridge s) as [| |x]; try done.
    case_decide; [|by split]. rewrite main_handler_eq.
    destruct (eval stop (sys_world s)); split; try done; simpl; intros _.
    apply settled_tasks. by rewrite stop_started.
  - destruct (sys_phase s); try done. unfold main_finish.
    destruct (gather_raises _ _); by split.
  - unfold run_main.
    destruct (asyncio_run (sys_phase s)) as [[[]|[]]|]; by split.
  - destruct (bridge_step_frame s). by apply (settled_inv_same s).
  - destruct (bridge_turn_frame Bridge.Timer s) as [Hp _].
    apply (settled_inv_same s); [done|apply abs_bridge_turn|done].
Qed.

Lemma reachable_settled_inv nodes s : reachable nodes s → settled_inv s.
Proof.
  revert s. apply rtc_ind_r; [by split|].
  intros y z Hy Hstep IH. apply (settled_inv_step y); [done| |done].
  by apply (reachable_sys_inv nodes).
Qed.
End settled.

(** C19: the entries of [self.tasks] are typed by the phase of [main].  In
    every reachable state in which [main] waits for the inhibit task the
    watcher is started and every entry of [self.tasks] holds a task, none
    the placeholder [None]; hence the [stop] that the handler of [main]
    calls finds a task in every entry, cancels them all and returns the
    values of [self.tasks] for [gather]: it does not raise
    [AttributeError]. *)
Theorem tasks_settled nodes s :
  reachable nodes s → awaiting (sys_phase s) = true →
  started (w_self (sys_world s)) = true
  ∧ (∀ p, dict_get p (tasks (w_self (sys_world s))) ≠ Some None)
  ∧ eval stop (sys_world s) = Ok (dict_values (tasks (w_self (sys_world s)))).
Proof.
  intros Hr Hp. destruct (reachable_settled_inv nodes s Hr) as [Hst Hs].
  pose proof (reachable_watcher_inv nodes s Hr) as Hw.
  assert (looping (sys_phase s) = true) as Hl by by destruct (sys_phase s).
  specialize (Hst Hp). specialize (Hs Hl). split_and!; [done| |].
  - by apply settled_tasks.
  - by apply stop_conforms_ok, settled_stop_conforms.
Qed.

(** ** Witness *)

Lemma tasks_settled_witness :
  started (w_self (sys_world (final interrupt_run))) = true
  ∧ (∀ p, dict_get p (tasks (w_self (sys_world (final interrupt_run))))
          ≠ Some None)
  ∧ eval stop (sys_world (final interrupt_run))
    = Ok (dict_values (tasks (w_self (sys_world (final interrupt_run))))).
Proof.
  apply (tasks_settled pad_nodes (final interrupt_run));
    [apply run_events_reachable|by vm_compute].
Defined.
