(* ===== verification/Attach.v ===== *)
(** * Attach: a controller that is plugged in gets its monitor

    The way of a hotplug notification through the program: the observer
    thread of the finder passes the udev event to [_on_new_event], which
    queues the callback [add_device] on the loop; the loop runs it, which
    opens the device and creates the monitor task; the loop runs the first
    step of the task, which then waits for input.  This file follows the
    process through the three steps and shows where it ends: the controller
    is monitored, on an open device, and input on it is the next thing the
    process can see. *)

From S2P Require Import Prelude PyDict Asyncio Evdev Watcher IdleLock Bridge.
From S2P Require Import Finder System Runs Coherent Invariant Reachable.
From S2P Require Import Shutdown Effects Hotplug Spec Refinement Settled.
Import GamepadsWatcher.

(** The observer has handed the event to the loop and the loop has run
    two handles. *)
Definition attach (d : GamepadsFinder.Device) (s : system) : system :=
  run_once (run_once (do_event (Udev d) s)).

Section attach.
Context (d : GamepadsFinder.Device) (name : string) (s : system).
Let w := sys_world s.
Let p := GamepadsFinder.device_node d.
Let t := l_next (w_loop w).
Let h := next_handle (w_evdev w).
Hypothesis Hinv : core_inv s.
Hypothesis Hobserver : GamepadsFinder.observer (sys_finder s) = true.
Hypothesis Hsubsystem : GamepadsFinder.subsystem d = GamepadsFinder.SUBSYSTEM.
Hypothesis Hpasses : GamepadsFinder.passes d = true.
Hypothesis Hadd : GamepadsFinder.action d = "add"%string.
Hypothesis Hstarted : started (w_self w) = true.
Hypothesis Htask : dict_get p (tasks (w_self w)) = None.
Hypothesis Hnode : nodes (w_evdev w) !! p = Some name.
Hypothesis Hready : l_ready (w_loop w) = [].

(** The world when the monitor waits for its first input. *)
Definition attached : world :=
  let g := w_self w in
  World
    (Build (emit INFO ("monitor for " +:+ name +:+ " starts")
              (emit INFO ("Adding device " +:+ p) (logger g)))
           (gamepad_active g) true
           (dict_set p (Some t) (tasks g)) (dict_set p h (devices g)))
    (Loop (<[t := Task true false false [cb_finish_removing_device p] h]>
             (l_tasks (w_loop w)))
          (S t) [])
    (Evdev (nodes (w_evdev w))
           (<[h := Build_InputDevice p name true]> (handles (w_evdev w)))
           (S h)).

(** The observer queues the callback. *)
Lemma udev_event_add :
  sys_world (udev_event d s)
  = World (w_self w) (enqueue [Call (cb_add_device p)] (w_loop w)) (w_evdev w)
  ∧ sys_phase (udev_event d s) = sys_phase s
  ∧ sys_exceptions (udev_event d s) = sys_exceptions s.
Proof.
  unfold udev_event, zoom, GamepadsFinder.deliver, bind, gets. simpl.
  rewrite Hobserver, Hsubsystem, bool_decide_eq_true_2 by done. simpl.
  unfold try_except. rewrite GamepadsFinder.on_new_event_passes by done.
  simpl. unfold GamepadsFinder.callback_of.
  by rewrite Hadd, (ci_cb_add _ Hinv), decide_True.
Qed.

(** The world when [add_device] has returned. *)
Definition added : world :=
  let g := w_self w in
  World
    (Build (emit INFO ("Adding device " +:+ p) (logger g))
           (gamepad_active g) true
           (dict_set p (Some t) (tasks g)) (dict_set p h (devices g)))
    (Loop (<[t := Task false false false [cb_finish_removing_device p] h]>
             (l_tasks (w_loop w)))
          (S t) [Step t])
    (Evdev (nodes (w_evdev w))
           (<[h := Build_InputDevice p name true]> (handles (w_evdev w)))
           (S h)).

(** The loop runs [add_device]. *)
Lemma attach_turn_1 s1 :
  sys_world s1
  = World (w_self w) (enqueue [Call (cb_add_device p)] (w_loop w)) (w_evdev w) →
  run_once s1 = with_world added s1.
Proof.
  intros Hw1. apply (run_once_ok s1 (Call (cb_add_device p)) []).
  { rewrite Hw1. simpl. by rewrite Hready. }
  rewrite Hw1. simpl.
  rewrite add_device_started;
    [|by unfold task_of, entry; simpl; fold w; rewrite Htask|done].
  rewrite (create_monitor_task_ok p name) by done. simpl. fold w.
  rewrite Hready, Hstarted. reflexivity.
Qed.

(** The loop runs the first step of the monitor. *)
Lemma attach_turn_2 s1 :
  run_once (with_world added s1) = with_world attached s1.
Proof.
  rewrite (run_once_ok _ (Step t) [] attached); [done..|].
  simpl. unfold task_step. py_unfold. simpl. rewrite lookup_insert_eq. simpl.
  unfold mark_started, set_task. simpl. rewrite lookup_insert_eq. simpl.
  unfold resume_task. py_unfold. simpl. rewrite lookup_insert_eq. simpl.
  unfold_watcher. unfold name_of. simpl. rewrite lookup_insert_eq. simpl.
  by rewrite insert_insert_eq.
Qed.

Lemma attach_eq :
  sys_world (attach d s) = attached
  ∧ sys_phase (attach d s) = sys_phase s
  ∧ sys_exceptions (attach d s) = sys_exceptions s.
Proof.
  destruct udev_event_add as (Hw1 & Hp1 & He1). unfold attach. simpl.
  by rewrite (attach_turn_1 _ Hw1), attach_turn_2.
Qed.

(** The three steps are steps of the process. *)
Lemma attach_reachable nodes :
  reachable nodes s → looping (sys_phase s) = true →
  reachable nodes (attach d s).
Proof.
  intros Hr Hl. destruct udev_event_add as (Hw1 & Hp1 & He1).
  pose proof (attach_turn_1 _ Hw1) as H1. unfold attach, reachable in *.
  simpl. etrans; [done|].
  apply rtc_l with (udev_event d s); [by apply (step_event s (Udev d))|].
  apply rtc_l with (run_once (udev_event d s)).
  { apply (step_event _ Run_ready). simpl. rewrite Hp1, Hl, Hw1. simpl.
    by rewrite Hready. }
  apply rtc_once. rewrite H1. apply (step_event _ Run_ready). simpl.
  by rewrite Hp1, Hl.
Qed.
End attach.

(** C9: a controller that is plugged in gets its monitor.  Take any
    reachable state in which [main] waits for the inhibit task, the
    observer of the finder runs and the ready queue is empty, and the udev
    event of the addition of a joystick device whose node exists and whose
    path the watcher does not track.  When the observer has delivered the
    event and the loop has run two handles, the path has its entry in
    [self.tasks] and in [self.devices], the device is open, the monitor
    waits for input, nothing is left in the queue, no exception was
    reported, and input on the controller is enabled. *)
Theorem attach_monitored ns s d name :
  reachable ns s → sys_phase s = Running →
  GamepadsFinder.observer (sys_finder s) = true →
  GamepadsFinder.subsystem d = GamepadsFinder.SUBSYSTEM →
  GamepadsFinder.passes d = true → GamepadsFinder.action d = "add"%string →
  dict_get (GamepadsFinder.device_node d) (tasks_of s) = None →
  nodes (w_evdev (sys_world s)) !! GamepadsFinder.device_node d = Some name →
  ready_of s = [] →
  let p := GamepadsFinder.device_node d in
  let t := l_next (w_loop (sys_world s)) in
  let h := next_handle (w_evdev (sys_world s)) in
  let s' := attach d s in
  reachable ns s'
  ∧ tasks_of s' = dict_set p (Some t) (tasks_of s)
  ∧ devices_of s' = dict_set p h (devices_of s)
  ∧ handles (w_evdev (sys_world s')) !! h = Some (Build_InputDevice p name true)
  ∧ ready_of s' = []
  ∧ sys_exceptions s' = sys_exceptions s
  ∧ enabled (Input t) s' = true.
Proof.
  intros Hr Hp Hobs Hsub Hpass Hadd Htask Hnode Hready. cbv zeta.
  pose proof (si_core _ (reachable_sys_inv ns s Hr)) as Hinv.
  assert (started (w_self (sys_world s)) = true) as Hst.
  { apply (reachable_settled_inv ns s Hr). by rewrite Hp. }
  destruct (attach_eq d name s) as (Hw & Hp' & He); [done..|].
  split; [apply (attach_reachable d name); by rewrite ?Hp|].
  unfold tasks_of, devices_of, ready_of. simpl. rewrite Hw, Hp', Hp, He.
  unfold waiting, is_open. simpl. by rewrite !lookup_insert_eq.
Qed.

(** ** Witness *)

(** The node of a second controller, [ev5], has appeared. *)
Definition plugged : system := final (boot ++ [Plug ev5 "Pad B"]).

Lemma attach_monitored_witness :
  let d := GamepadsFinder.joystick "add" "event5" ev5 in
  let s' := attach d plugged in
  reachable pad_nodes s'
  ∧ tasks_of s' = dict_set ev5 (Some 1) (tasks_of plugged)
  ∧ devices_of s' = dict_set ev5 1 (devices_of plugged)
  ∧ handles (w_evdev (sys_world s')) !! 1
    = Some (Build_InputDevice ev5 "Pad B" true)
  ∧ ready_of s' = []
  ∧ sys_exceptions s' = sys_exceptions plugged
  ∧ enabled (Input 1) s' = true.
Proof.
  apply (attach_monitored pad_nodes plugged
           (GamepadsFinder.joystick "add" "event5" ev5) "Pad B");
    [apply run_events_reachable|by vm_compute..].
Defined.
