(* ===== verification/Handles.v ===== *)
(** * Handles: the devices the monitors read

    [create_monitor_task] opens a device and gives it to a new task;
    [remove_device] cancels the task and closes the device.  Nothing else
    opens or closes a device.  This file proves that the two stay in step:
    in every reachable state each entry of [self.devices] is an open device
    of its path, and a monitor that has not ended and was not cancelled is
    the entry of a path whose device it reads.  So no monitor waits for
    input on a device that was closed.

    In the model a device is known by the number [evdev] gave it and a task
    by the number the loop gave it; each call of [create_monitor_task]
    takes one of either, so that the monitor and its
    device have the same number ([hi_next], [hi_coro]).  The invariant is
    proved against the changes of [Effects] alone. *)

From S2P Require Import Prelude PyDict Asyncio Evdev Watcher IdleLock Bridge.
From S2P Require Import Finder System Runs Coherent Invariant Reachable.
From S2P Require Import Shutdown Effects Spec Refinement.
Import GamepadsWatcher.

Record handles_inv (w : world) : Prop := {
  hi_fresh : evdev_fresh (w_evdev w);
  hi_next : next_handle (w_evdev w) = l_next (w_loop w);
  hi_coro t tk : l_tasks (w_loop w) !! t = Some tk → t_coro tk = t;
  hi_open p h :
    dict_get p (devices (w_self w)) = Some h →
    ∃ name, handles (w_evdev w) !! h = Some (Build_InputDevice p name true);
  hi_entry p h t :
    dict_get p (devices (w_self w)) = Some h → task_of p w = Some t → t = h;
  hi_alive t :
    alive t (w_loop w) = true →
    ∃ p, task_of p w = Some t ∧ dict_get p (devices (w_self w)) = Some t;
}.

(** The loop [l'] has the tasks of [l] with their devices, and no monitor
    that was cancelled or has ended in [l] is alive in [l']. *)
Definition calmer (l l' : loop callback nat) : Prop :=
  l_next l' = l_next l
  ∧ (∀ t tk', l_tasks l' !! t = Some tk' →
       ∃ tk, l_tasks l !! t = Some tk ∧ t_coro tk' = t_coro tk)
  ∧ (∀ t, alive t l' = true → alive t l = true).

Section calmer.
Implicit Types (l : loop callback nat) (w : world) (t : nat) (p : string).

#[export] Instance calmer_preorder : PreOrder calmer.
Proof.
  split.
  - intros l. split_and!; [done| |done]. intros t tk ?. by exists tk.
  - intros l1 l2 l3 (Hn & Hc & Ha) (Hn' & Hc' & Ha'). split_and!.
    + congruence.
    + intros t tk3 (tk2 & (tk1 & ? & ?)%Hc & ?)%Hc'. exists tk1.
      split; [done|congruence].
    + intros t ?%Ha'. by apply Ha.
Qed.

(** A change of the queue alone. *)
Lemma calmer_ready l hs : calmer l (Loop (l_tasks l) (l_next l) hs).
Proof.
  split_and!; [done| |done]. intros t tk ?. by exists tk.
Qed.

Lemma calmer_cancel t l : calmer l (exec (cancel t) l).
Proof.
  split_and!.
  - apply cancel_next.
  - intros t' tk'. rewrite cancel_lookup. case_decide; [|by eauto].
    intros (tk & ? & ->)%fmap_Some. exists tk. by rewrite cancelled_coro.
  - intros t'. rewrite alive_cancel. by case_decide.
Qed.

Lemma calmer_finish t l : calmer l (exec (finish t) l).
Proof.
  split_and!.
  - unfold exec, finish. by destruct (l_tasks l !! t).
  - intros t' tk'. unfold exec, finish.
    destruct (l_tasks l !! t) as [tk|] eqn:Ht; simpl; [|by eauto].
    rewrite lookup_insert. case_decide; [subst t'|by eauto].
    intros [= <-]. by exists tk.
  - intros t'. rewrite alive_finish. by case_decide.
Qed.

Lemma calmer_mark_started t l : calmer l (exec (mark_started t) l).
Proof.
  split_and!.
  - unfold exec, mark_started. by destruct (l_tasks l !! t).
  - intros t' tk'. unfold exec, mark_started.
    destruct (l_tasks l !! t) as [tk|] eqn:Ht; simpl; [|by eauto].
    rewrite lookup_insert. case_decide; [subst t'|by eauto].
    intros [= <-]. by exists tk.
  - intros t'. by rewrite alive_mark_started.
Qed.

(** The invariant lets the loop calm down and the watcher forget an entry
    whose task is not alive. *)
Lemma handles_inv_forget w w' :
  devices (w_self w') = devices (w_self w) →
  handles (w_evdev w') = handles (w_evdev w) →
  next_handle (w_evdev w') = next_handle (w_evdev w) →
  calmer (w_loop w) (w_loop w') →
  (∀ q t, task_of q w' = Some t → task_of q w = Some t) →
  (∀ q t, alive t (w_loop w') = true →
          task_of q w = Some t → task_of q w' = Some t) →
  handles_inv w → handles_inv w'.
Proof.
  intros Hd Hh Hn (Hl & Hc & Ha) Hsub Hkeep [Hf Hnx Hco Ho He Hal].
  split; unfold evdev_fresh in *; rewrite ?Hd, ?Hh, ?Hn, ?Hl; try done.
  - intros t tk' (tk & Htk & ->)%Hc. by apply Hco.
  - intros p h t Hp Ht%Hsub. by apply (He p).
  - intros t Ht. destruct (Hal t (Ha t Ht)) as (p & Hp & Hdev).
    exists p. split; [by apply Hkeep|done].
Qed.

Lemma handles_inv_calmer w w' :
  tasks (w_self w') = tasks (w_self w) →
  devices (w_self w') = devices (w_self w) →
  handles (w_evdev w') = handles (w_evdev w) →
  next_handle (w_evdev w') = next_handle (w_evdev w) →
  calmer (w_loop w) (w_loop w') → handles_inv w → handles_inv w'.
Proof.
  intros Ht Hd Hh Hn Hl.
  apply handles_inv_forget; unfold task_of; by rewrite ?Ht.
Qed.

#[export] Instance handles_inv_proper : Proper (same_watcher ==> iff) handles_inv.
Proof.
  assert (∀ w w', same_watcher w w' → handles_inv w → handles_inv w') as Himp.
  { intros w w' (? & ? & _ & Hl & He).
    apply handles_inv_calmer; by rewrite ?He, ?Hl. }
  intros w w' Hs. split; apply Himp; [done|by symmetry].
Qed.

Lemma handles_inv_self w w' :
  same_self w w' → calmer (w_loop w) (w_loop w') →
  handles_inv w → handles_inv w'.
Proof.
  intros (_ & Ht & Hd & He). apply handles_inv_calmer; by rewrite ?He.
Qed.

Lemma handles_inv_task_step t w :
  handles_inv w → handles_inv (exec (task_step t) w).
Proof.
  apply handles_inv_self; [apply task_step_self|]. rewrite task_step_loop.
  destruct (l_tasks (w_loop w) !! t) as [tk|]; [|done].
  destruct (t_done tk); [done|].
  destruct (t_must_cancel tk); [apply calmer_finish|].
  destruct (t_started tk); [done|apply calmer_mark_started].
Qed.

Lemma handles_inv_resume_task t r w :
  handles_inv w → handles_inv (exec (resume_task t r) w).
Proof.
  apply handles_inv_self; [apply resume_task_self|].
  destruct (resume_task_frame t r w) as (_ & _ & ->).
  destruct (ends r); [apply calmer_finish|done].
Qed.
End calmer.

(** ** The methods of the watcher *)

Section methods.
Implicit Types (w : world) (t : nat) (p : string).

Lemma handles_inv_logged lv msg w : handles_inv w → handles_inv (logged lv msg w).
Proof. by rewrite <-(same_logged lv msg w). Qed.

Lemma handles_inv_create p w :
  task_of p w = None → handles_inv w →
  handles_inv (exec (create_monitor_task p) w).
Proof.
  intros Hp [Hf Hnx Hco Ho He Hal]. unfold exec.
  destruct (nodes (w_evdev w) !! p) as [name|] eqn:Hn;
    [|by rewrite create_monitor_task_no_node].
  rewrite (create_monitor_task_ok p name) by done. cbn [snd].
  split; unfold task_of, alive, evdev_fresh; simpl.
  - intros h. rewrite lookup_insert. case_decide; [lia|]. intros ?%Hf. lia.
  - by rewrite Hnx.
  - intros t tk. rewrite lookup_insert.
    case_decide; [by intros [= <-]; subst|apply Hco].
  - intros q h. rewrite dict_get_set. case_decide.
    + subst. intros [= <-]. exists name. by rewrite lookup_insert_eq.
    + intros [nm Hh]%Ho. exists nm. rewrite lookup_insert_ne; [done|].
      intros <-. specialize (Hf _ (mk_is_Some _ _ Hh)). lia.
  - intros q h t. rewrite dict_get_set, entry_set.
    case_decide; [by intros [= <-] [= <-]|apply He].
  - intros t. rewrite lookup_insert. case_decide.
    + subst. intros _. exists p.
      by rewrite entry_set, dict_get_set, !decide_True, Hnx.
    + intros (q & Hq & Hd)%Hal. exists q.
      assert (p ≠ q) by (intros ->; congruence).
      by rewrite entry_set, dict_get_set, !decide_False.
Qed.

Lemma handles_inv_add_device p w :
  handles_inv w → handles_inv (exec (add_device p) w).
Proof.
  intros Hinv. unfold exec. destruct (task_of p w) as [t|] eqn:Hp.
  { rewrite (add_device_present p w t) by done.
    by do 2 apply handles_inv_logged. }
  destruct (started (w_self w)) eqn:Hs.
  - rewrite add_device_started by done.
    by apply handles_inv_create, handles_inv_logged.
  - rewrite add_device_not_started by done. revert Hinv.
    apply handles_inv_forget; try done; unfold task_of in *; simpl;
      intros q t; rewrite entry_set; case_decide; subst; try done.
    intros _. by rewrite Hp.
Qed.

(** [remove_device] closes the device of the task it cancels, and no
    other. *)
Lemma handles_inv_close p t h w :
  watcher_inv w → task_of p w = Some t →
  dict_get p (devices (w_self w)) = Some h →
  handles_inv w → handles_inv (exec (remove_device p) w).
Proof.
  intros Hw Hp Hh [Hf Hnx Hco Ho He Hal]. unfold exec.
  destruct (remove_device_running p w t h) as (d & Hd & ->); [done..|].
  cbn [snd]. pose proof (inv_devices_wf _ Hw) as Hwf.
  assert (t = h) as -> by by apply (He p).
  split; unfold task_of in *; simpl.
  - by apply close_fresh.
  - by rewrite close_next, cancel_next.
  - intros t tk' (tk & ? & ->)%(proj1 (proj2 (calmer_cancel h _))).
    by apply Hco.
  - intros q h'. rewrite (dict_get_del p q _ _ Hd Hwf). case_decide; [done|].
    intros Hq. destruct (Ho q h' Hq) as [nm Hn]. exists nm.
    rewrite close_lookup, decide_False; [done|].
    intros <-. destruct (Ho p h Hh) as [nm' Hn']. congruence.
  - intros q h' t'. rewrite (dict_get_del p q _ _ Hd Hwf).
    case_decide; [done|apply He].
  - intros t'. rewrite alive_cancel. case_decide; [done|].
    intros (q & Hq & Hdq)%Hal. exists q. split; [done|].
    rewrite (dict_get_del p q _ _ Hd Hwf), decide_False; [done|].
    intros ->. congruence.
Qed.

Lemma handles_inv_cancel t w :
  handles_inv w →
  handles_inv (World (w_self w) (exec (cancel t) (w_loop w)) (w_evdev w)).
Proof. apply handles_inv_calmer; try done. apply calmer_cancel. Qed.

Lemma handles_inv_remove_device p w :
  watcher_inv w → handles_inv w → handles_inv (exec (remove_device p) w).
Proof.
  intros Hw Hinv. destruct (task_of p w) as [t|] eqn:Hp.
  - destruct (dict_get p (devices (w_self w))) as [h|] eqn:Hh;
      [by apply (handles_inv_close p t h)|].
    unfold exec. rewrite (remove_device_no_handle p w t) by done.
    by apply (handles_inv_cancel t (logged INFO _ w)), handles_inv_logged.
  - unfold exec. rewrite remove_device_not_running by done. cbn [snd].
    destruct (dict_del p (tasks (w_self w))) as [d|] eqn:Hd;
      [|by apply handles_inv_logged].
    revert Hinv. apply handles_inv_forget; try done; unfold task_of in *;
      simpl; intros q t; rewrite (entry_del _ _ p q (inv_tasks_wf _ Hw) Hd);
      case_decide; subst; try done.
    intros _. by rewrite Hp.
Qed.

(** The done callback of a task deletes the entry of a task that has
    ended. *)
Lemma handles_inv_done_callback p t hs w :
  watcher_inv w →
  l_ready (w_loop w) = CallDone (cb_finish_removing_device p) t :: hs →
  handles_inv w → handles_inv (exec (finish_removing_device p t) (popped w)).
Proof.
  intros [Hwf _ _ Hco] Hr.
  assert (scheduled (w_loop w) p t) as Hs
    by (unfold scheduled; rewrite Hr; set_solver).
  assert (task_of p w = Some t) as Hp by (apply (co_pending _ _ Hco); by right).
  destruct (co_scheduled _ _ Hco p t Hs) as (tk & Ht & Hdone).
  destruct (dict_del p (tasks (w_self w))) as [d|] eqn:Hd; last first.
  { apply dict_del_None in Hd. unfold task_of, entry in Hp. by rewrite Hd in Hp. }
  unfold exec. rewrite (finish_removing_device_present p t _ d) by done.
  cbn [snd]. apply handles_inv_forget; try done; [apply calmer_ready|..];
    unfold task_of in *; simpl; intros q t';
    rewrite (entry_del _ _ p q Hwf Hd); case_decide; subst; try done.
  unfold alive. simpl. intros Ha Hq. assert (t' = t) as -> by congruence.
  by rewrite Ht, Hdone in Ha.
Qed.

Lemma handles_inv_run_handle h hs w :
  watcher_inv w → l_ready (w_loop w) = h :: hs → handles_inv w →
  handles_inv (exec (run_handle h) (popped w)).
Proof.
  intros Hw Hr Hinv.
  assert (handles_inv (popped w)) as Hpop.
  { revert Hinv. apply handles_inv_calmer; try done. apply calmer_ready. }
  destruct h as [t|[p|p|p]|[p|p|p] t]; simpl; try done.
  - by apply handles_inv_task_step.
  - by apply handles_inv_add_device.
  - apply handles_inv_remove_device; [|done].
    by apply (watcher_inv_popped w (Call (cb_remove_device p)) hs);
      [|intros []|].
  - by apply (handles_inv_done_callback p t hs).
Qed.

Lemma handles_inv_set_init_devices ds w :
  w_loop w = new_loop → handles_inv w →
  handles_inv (exec (set_init_devices ds) w).
Proof.
  intros Hl. unfold exec. rewrite set_init_devices_tasks. cbn [snd].
  apply handles_inv_forget; try done; unfold alive; simpl.
  - intros q t. unfold task_of. simpl. revert q t.
    induction ds as [|p ds IH] using rev_ind; intros q t; [done|].
    rewrite foldl_app. simpl. rewrite entry_set. case_decide; [done|apply IH].
  - intros q t. by rewrite Hl.
Qed.

(** ** Every change of the world keeps the invariant *)

Lemma handles_inv_started b w :
  handles_inv w → handles_inv (exec (set_started b) w).
Proof. by apply handles_inv_calmer. Qed.

Lemma handles_inv_step w w' :
  watcher_inv w → handles_inv w → world_step w w' → handles_inv w'.
Proof.
  intros Hw Hinv [w1 Hs|ns|c _|h hs Hr|t r _|ds Hl|Hl|].
  - by rewrite <-Hs.
  - revert Hinv. by apply handles_inv_calmer.
  - revert Hinv. apply handles_inv_calmer; try done. apply calmer_ready.
  - by apply (handles_inv_run_handle h hs).
  - by apply handles_inv_resume_task.
  - by apply handles_inv_set_init_devices.
  - apply start_preserves; auto using handles_inv_logged,
      handles_inv_started, handles_inv_create, handles_inv_cancel;
      [apply Hw|]. intros p. by apply task_of_new_loop.
  - apply stop_preserves; auto using handles_inv_logged,
      handles_inv_started, handles_inv_create, handles_inv_cancel.
Qed.

Lemma handles_inv_new nodes :
  handles_inv (World init new_loop (new_evdev nodes)).
Proof.
  split; unfold evdev_fresh, alive; simpl; try done. by intros h [d ?].
Qed.

Lemma reachable_handles_inv nodes s :
  reachable nodes s → handles_inv (sys_world s).
Proof.
  apply (reachable_world_inv handles_inv);
    [apply handles_inv_new|apply handles_inv_step].
Qed.
End methods.

(** C8: no monitor reads a closed device.  In every reachable state a
    monitor task that has not ended and whose cancellation was not
    requested is the entry of a path in [self.tasks], the device it reads
    is the entry of that path in [self.devices], and that device is open
    and is the device of that path: [remove_device] closes a device only
    together with the cancellation of its monitor. *)
Theorem monitor_reads_open nodes s t tk :
  reachable nodes s → l_tasks (w_loop (sys_world s)) !! t = Some tk →
  t_done tk = false → t_must_cancel tk = false →
  ∃ p name,
    task_of p (sys_world s) = Some t
    ∧ dict_get p (devices (w_self (sys_world s))) = Some (t_coro tk)
    ∧ handles (w_evdev (sys_world s)) !! t_coro tk
      = Some (Build_InputDevice p name true).
Proof.
  intros Hr Ht Hd Hc. pose proof (reachable_handles_inv nodes s Hr) as Hinv.
  destruct (hi_alive _ Hinv t) as (p & Hp & Hdev).
  { unfold alive. by rewrite Ht, Hd, Hc. }
  destruct (hi_open _ Hinv p t Hdev) as [name Hh].
  exists p, name. by rewrite (hi_coro _ Hinv t tk Ht).
Qed.

(** C28: the entries of [self.devices] are the open devices.  In every
    reachable state an entry of [self.devices] is a device that [evdev]
    made for that path and that is open, and no other path has it. *)
Theorem devices_open nodes s p h :
  reachable nodes s → dict_get p (devices (w_self (sys_world s))) = Some h →
  is_open h (w_evdev (sys_world s)) = true
  ∧ h < next_handle (w_evdev (sys_world s))
  ∧ ∀ q, dict_get q (devices (w_self (sys_world s))) = Some h → q = p.
Proof.
  intros Hr Hp. pose proof (reachable_handles_inv nodes s Hr) as Hinv.
  destruct (hi_open _ Hinv p h Hp) as [name Hh]. unfold is_open. rewrite Hh.
  split_and!; [done|by apply (hi_fresh _ Hinv)|].
  intros q [name' Hq]%(hi_open _ Hinv). congruence.
Qed.

(** ** Witnesses *)

Lemma monitor_reads_open_witness :
  ∃ p name,
    task_of p (sys_world (final boot)) = Some 0
    ∧ dict_get p (devices (w_self (sys_world (final boot)))) = Some 0
    ∧ handles (w_evdev (sys_world (final boot))) !! 0
      = Some (Build_InputDevice p name true).
Proof.
  apply (monitor_reads_open pad_nodes (final boot) 0
           (Task true false false [cb_finish_removing_device ev3] 0));
    [apply run_events_reachable|by vm_compute..].
Defined.

Lemma devices_open_witness :
  is_open 0 (w_evdev (sys_world (final boot))) = true
  ∧ 0 < next_handle (w_evdev (sys_world (final boot)))
  ∧ ∀ q, dict_get q (devices (w_self (sys_world (final boot)))) = Some 0 →
         q = ev3.
Proof.
  apply (devices_open pad_nodes (final boot) ev3 0);
    [apply run_events_reachable|by vm_compute].
Defined.
