(* ===== verification/Detach.v ===== *)
(** * Detach: a controller that is unplugged loses its monitor

    The way of a remove notification through the program, for a controller
    whose monitor waits for input: the observer queues the callback
    [remove_device]; the loop runs it, which requests the cancellation of
    the monitor, closes the device and deletes it from [self.devices]; the
    loop runs the step that throws [CancelledError] into the coroutine,
    which logs and returns; the loop runs the done callback, which deletes
    the entry of [self.tasks].  What the three handles need of the state
    they start in is supplied by the invariants of the reachable states.

    Between [remove_device] and the done callback the path is neither
    monitored nor forgotten, and a notification that the loop runs in
    between meets that state.  The file follows the two races to their
    end ([twice]): an add notification is ignored, so the controller that
    came back is left without a monitor; a second remove notification
    raises [KeyError]. *)

From S2P Require Import Prelude PyDict Asyncio Evdev Watcher IdleLock Bridge.
From S2P Require Import Finder System Runs Coherent Invariant Reachable.
From S2P Require Import Shutdown Effects Hotplug Spec Refinement Settled.
From S2P Require Import Handles.
Import GamepadsWatcher.

(** The observer has handed the event to the loop and the loop has run
    three handles. *)
Definition detach (d : GamepadsFinder.Device) (s : system) : system :=
  run_once (run_once (run_once (do_event (Udev d) s))).

(** The observer has handed two events to the loop and the loop has run
    four handles. *)
Definition twice (d d' : GamepadsFinder.Device) (s : system) : system :=
  run_once (run_once (run_once (run_once
    (do_event (Udev d') (do_event (Udev d) s))))).

Section detach.
Context (p name : string) (s : system) (t h : nat).
Context (dt : pydict string (option nat)) (dd : pydict string nat).
Let w := sys_world s.
Let cb := cb_finish_removing_device p.
Hypothesis Hentry : task_of p w = Some t.
Hypothesis Hdev : dict_get p (devices (w_self w)) = Some h.
Hypothesis Htask : l_tasks (w_loop w) !! t = Some (Task true false false [cb] h).
Hypothesis Hhandle :
  handles (w_evdev w) !! h = Some (Build_InputDevice p name true).
Hypothesis Hdt : dict_del p (tasks (w_self w)) = Some dt.
Hypothesis Hdd : dict_del p (devices (w_self w)) = Some dd.

(** The log of the watcher after [remove_device]. *)
Definition removing : Prelude.logger :=
  emit INFO ("Removing device " +:+ p) (logger (w_self w)).

(** The world after [remove_device] (1), with the handles [more] queued
    behind it and the log [lg]; after the step of the monitor (2); after
    the done callback (3). *)
Definition gone (lg : Prelude.logger) (n : nat) (more : list (handle callback)) :
    world :=
  let g := w_self w in
  World
    (Build (if n =? 1 then lg
            else emit INFO ("monitor for " +:+ name +:+ " exits") lg)
           (gamepad_active g) (started g)
           (if n =? 3 then dt else tasks g) dd)
    (Loop (<[t := Task true (n =? 1) (1 <? n) (if n =? 1 then [cb] else []) h]>
             (l_tasks (w_loop w)))
          (l_next (w_loop w))
          match n with
          | 1 => more ++ [Step t]
          | 2 => [CallDone cb t]
          | _ => []
          end)
    (Evdev (nodes (w_evdev w))
           (<[h := Build_InputDevice p name false]> (handles (w_evdev w)))
           (next_handle (w_evdev w))).

(** The world when the observer has queued the callbacks [cs]. *)
Definition notified (cs : list callback) : world :=
  World (w_self w)
        (Loop (l_tasks (w_loop w)) (l_next (w_loop w)) (Call <$> cs))
        (w_evdev w).

(** The loop runs [remove_device]. *)
Lemma turn_remove cs s1 :
  sys_world s1 = notified (cb_remove_device p :: cs) →
  run_once s1 = with_world (gone removing 1 (Call <$> cs)) s1.
Proof.
  intros Hw1.
  apply (run_once_ok s1 (Call (cb_remove_device p)) (Call <$> cs));
    [by rewrite Hw1|].
  rewrite Hw1. simpl.
  destruct (remove_device_running p (popped (notified (cb_remove_device p :: cs)))
              t h) as (d' & Hd' & ->); [done..|].
  simpl in Hd'. fold w in Hd'. rewrite Hdd in Hd'. injection Hd' as <-.
  unfold gone, exec, cancel, close, set_task. simpl. fold w.
  by rewrite Htask, Hhandle.
Qed.

(** The loop delivers the cancellation: the coroutine logs and returns. *)
Lemma turn_step lg s1 :
  sys_world s1 = gone lg 1 [] → run_once s1 = with_world (gone lg 2 []) s1.
Proof.
  intros Hw1. apply (run_once_ok s1 (Step t) []); [by rewrite Hw1|].
  rewrite Hw1. simpl. unfold task_step. py_unfold. simpl.
  rewrite lookup_insert_eq. simpl.
  unfold resume_task. py_unfold. simpl. rewrite lookup_insert_eq. simpl.
  unfold_watcher. unfold name_of. simpl. rewrite lookup_insert_eq. simpl.
  unfold finish, set_task. simpl. rewrite lookup_insert_eq. simpl.
  by rewrite insert_insert_eq.
Qed.

(** The loop runs the done callback. *)
Lemma turn_done lg s1 :
  sys_world s1 = gone lg 2 [] → run_once s1 = with_world (gone lg 3 []) s1.
Proof.
  intros Hw1. apply (run_once_ok s1 (CallDone cb t) []); [by rewrite Hw1|].
  rewrite Hw1. simpl.
  by rewrite (finish_removing_device_present p t _ dt).
Qed.

(** An add notification that the loop runs before the step of the
    cancelled monitor is ignored. *)
Lemma turn_add lg s1 :
  sys_world s1 = gone lg 1 [Call (cb_add_device p)] →
  run_once s1
  = with_world
      (gone (emit WARNING ("device " +:+ p +:+ " is already present")
               (emit INFO ("Adding device " +:+ p) lg)) 1 []) s1.
Proof.
  intros Hw1.
  apply (run_once_ok s1 (Call (cb_add_device p)) [Step t]); [by rewrite Hw1|].
  rewrite Hw1. simpl. by rewrite (add_device_present p _ t).
Qed.

(** A second remove notification finds the task, and no device. *)
Lemma turn_remove_again lg s1 :
  dict_wf (devices (w_self w)) →
  sys_world s1 = gone lg 1 [Call (cb_remove_device p)] →
  run_once s1
  = report (Raise (KeyError p) : res unit)
      (with_world (gone (emit INFO ("Removing device " +:+ p) lg) 1 []) s1).
Proof.
  intros Hwf Hw1.
  rewrite (run_once_cons s1 (Call (cb_remove_device p)) [Step t])
    by by rewrite Hw1.
  rewrite Hw1. unfold eval, exec. simpl.
  rewrite (remove_device_no_handle p _ t); [|done|]; last first.
  { simpl. by rewrite (dict_get_del p p _ _ Hdd Hwf), decide_True. }
  simpl. unfold gone, exec, cancel, set_task. simpl.
  rewrite lookup_insert_eq. simpl. by rewrite insert_insert_eq.
Qed.
End detach.

(** What the invariants say of a monitor that waits for input: it carries
    the done callback of its path and reads the device of its path, which
    is open. *)
Lemma waiting_monitor ns s p t :
  reachable ns s → task_of p (sys_world s) = Some t →
  waiting t (sys_world s) = true →
  ∃ name,
    dict_get p (devices (w_self (sys_world s))) = Some t
    ∧ l_tasks (w_loop (sys_world s)) !! t
      = Some (Task true false false [cb_finish_removing_device p] t)
    ∧ handles (w_evdev (sys_world s)) !! t
      = Some (Build_InputDevice p name true).
Proof.
  intros Hr Hp Hw. pose proof (reachable_watcher_inv ns s Hr) as Hinv.
  pose proof (reachable_handles_inv ns s Hr) as Hh. unfold waiting in Hw.
  destruct (l_tasks (w_loop (sys_world s)) !! t) as [[st mc dn cbs x]|] eqn:Ht;
    [|done]. simpl in Hw.
  destruct st, dn, mc; try done. clear Hw.
  pose proof (hi_coro _ Hh t _ Ht) as Hx. simpl in Hx. subst x.
  assert (cbs = [cb_finish_removing_device p]) as ->.
  { destruct (co_entry _ _ (inv_coherent _ Hinv) p t Hp)
      as [(tk & Htk & _ & Hcb)|Hs]; [by simplify_eq|].
    destruct (co_scheduled _ _ (inv_coherent _ Hinv) p t Hs) as (tk & ? & ?).
    by simplify_eq. }
  destruct (hi_alive _ Hh t) as (q & Hq & Hd); [unfold alive; by rewrite Ht|].
  assert (p = q) as <- by (apply (alive_unique p q t (sys_world s));
    [done..|unfold alive; by rewrite Ht]).
  destruct (hi_open _ Hh p t Hd) as [name Hn]. by exists name.
Qed.

Section runs.
Implicit Types (s : system) (d : GamepadsFinder.Device).

(** An iteration of the loop is a step of the process. *)
Lemma run_once_reachable ns s h hs :
  reachable ns s → looping (sys_phase s) = true →
  l_ready (w_loop (sys_world s)) = h :: hs →
  reachable ns (run_once s).
Proof.
  intros Hr Hl Hq. unfold reachable in *. eapply rtc_r; [done|].
  apply (step_event s Run_ready). simpl. by rewrite Hl, Hq.
Qed.

Lemma udev_reachable ns s d :
  reachable ns s → looping (sys_phase s) = true →
  reachable ns (udev_event d s).
Proof.
  intros Hr Hl. unfold reachable in *. eapply rtc_r; [done|].
  by apply (step_event s (Udev d)).
Qed.

(** What the three handles need: the facts of [waiting_monitor] and the
    two dictionaries without the path. *)
Lemma detach_ready ns s p t :
  reachable ns s → task_of p (sys_world s) = Some t →
  waiting t (sys_world s) = true →
  ∃ name dt dd,
    dict_get p (devices (w_self (sys_world s))) = Some t
    ∧ l_tasks (w_loop (sys_world s)) !! t
      = Some (Task true false false [cb_finish_removing_device p] t)
    ∧ handles (w_evdev (sys_world s)) !! t
      = Some (Build_InputDevice p name true)
    ∧ dict_del p (tasks (w_self (sys_world s))) = Some dt
    ∧ dict_del p (devices (w_self (sys_world s))) = Some dd.
Proof.
  intros Hr Hp Hw.
  destruct (waiting_monitor ns s p t Hr Hp Hw) as (name & Hd & Ht & Hh).
  destruct (dict_del_is_Some p (tasks (w_self (sys_world s)))) as [_ [dt Hdt]].
  { apply task_of_Some in Hp. by rewrite Hp. }
  destruct (dict_del_is_Some p (devices (w_self (sys_world s))))
    as [_ [dd Hdd]]; [by rewrite Hd|].
  by exists name, dt, dd.
Qed.

(** The state after the observer has delivered one more event. *)
Lemma notified_nil s : ready_of s = [] → sys_world s = notified s [].
Proof.
  unfold ready_of, notified. destruct (sys_world s) as [g [ts n q] e].
  simpl. by intros ->.
Qed.

Lemma notify ns s s1 d cs :
  reachable ns s1 → looping (sys_phase s1) = true →
  GamepadsFinder.observer (sys_finder s1) = true →
  GamepadsFinder.subsystem d = GamepadsFinder.SUBSYSTEM →
  GamepadsFinder.passes d = true →
  sys_world s1 = notified s cs →
  let c := if decide (GamepadsFinder.action d = "add"%string)
           then cb_add_device (GamepadsFinder.device_node d)
           else cb_remove_device (GamepadsFinder.device_node d) in
  let s2 := do_event (Udev d) s1 in
  reachable ns s2
  ∧ sys_world s2 = notified s (cs ++ [c])
  ∧ sys_phase s2 = sys_phase s1
  ∧ sys_exceptions s2 = sys_exceptions s1
  ∧ GamepadsFinder.observer (sys_finder s2) = true.
Proof.
  intros Hr Hl Hobs Hsub Hpass Hw. cbv zeta. simpl.
  pose proof (si_core _ (reachable_sys_inv ns s1 Hr)) as Hinv.
  destruct (udev_event_passes d s1 Hinv Hobs Hsub Hpass)
    as (Hw1 & Hp1 & He1 & Hobs1 & _).
  cbv zeta in Hw1.
  split_and!; [by apply udev_reachable| |done..].
  rewrite Hw1, Hw. unfold notified, enqueue. simpl. by rewrite fmap_app.
Qed.

(** A turn of the loop that is known by its result. *)
Lemma turn_reachable ns s1 s2 :
  reachable ns s1 → looping (sys_phase s1) = true →
  l_ready (w_loop (sys_world s1)) ≠ [] → run_once s1 = s2 →
  reachable ns s2.
Proof.
  intros Hr Hl Hq <-.
  destruct (l_ready (w_loop (sys_world s1))) as [|h hs] eqn:E; [done|].
  by apply (run_once_reachable ns s1 h hs).
Qed.
End runs.

(** C10: a controller that is unplugged is forgotten.  In a reachable state
    whose loop is idle and whose observer runs, let a remove notification
    arrive for a path whose monitor waits for input.  After three turns of
    the loop the process is in a reachable state in which the path is in
    neither dictionary, every other entry is as before, the device is
    closed, the task is done, the loop is idle again, and no exception has
    been reported. *)
Theorem detach_forgotten ns s d t :
  reachable ns s → looping (sys_phase s) = true →
  GamepadsFinder.observer (sys_finder s) = true →
  GamepadsFinder.subsystem d = GamepadsFinder.SUBSYSTEM →
  GamepadsFinder.passes d = true →
  GamepadsFinder.action d = "remove"%string →
  task_of (GamepadsFinder.device_node d) (sys_world s) = Some t →
  waiting t (sys_world s) = true → ready_of s = [] →
  let s' := detach d s in
  reachable ns s'
  ∧ dict_del (GamepadsFinder.device_node d) (tasks_of s) = Some (tasks_of s')
  ∧ dict_del (GamepadsFinder.device_node d) (devices_of s)
    = Some (devices_of s')
  ∧ is_open t (w_evdev (sys_world s')) = false
  ∧ is_done t (w_loop (sys_world s')) = true
  ∧ ready_of s' = [] ∧ sys_exceptions s' = sys_exceptions s.
Proof.
  intros Hr Hl Hobs Hsub Hpass Hrem Hp Hw Hq. cbv zeta.
  destruct (detach_ready ns s _ t Hr Hp Hw)
    as (name & dt & dd & Hd & Ht & Hh & Hdt & Hdd).
  destruct (notify ns s s d [] Hr Hl Hobs Hsub Hpass (notified_nil s Hq))
    as (Hr1 & Hw1 & Hp1 & He1 & _).
  cbv zeta in Hw1. rewrite Hrem, decide_False in Hw1 by done.
  unfold detach. set (s1 := do_event (Udev d) s) in *.
  pose proof (turn_remove _ name s t t dt dd Hp Hd Ht Hh Hdd [] s1 Hw1) as E1.
  assert (reachable ns (run_once s1)) as Hr2
    by (apply (turn_reachable ns s1); by rewrite ?Hp1, ?Hw1).
  rewrite E1 in Hr2 |- *. set (s2 := with_world _ s1) in *.
  pose proof (turn_step _ name s t t dt dd _ s2 eq_refl) as E2.
  assert (reachable ns (run_once s2)) as Hr3
    by (apply (turn_reachable ns s2); by simpl; rewrite ?Hp1).
  rewrite E2 in Hr3 |- *. set (s3 := with_world _ s2) in *.
  pose proof (turn_done _ name s t t dt dd Hdt _ s3 eq_refl) as E3.
  assert (reachable ns (run_once s3)) as Hr4
    by (apply (turn_reachable ns s3); by simpl; rewrite ?Hp1).
  rewrite E3 in Hr4 |- *.
  split_and!; try done.
  - unfold is_open. simpl. by rewrite lookup_insert_eq.
  - unfold is_done. simpl. by rewrite lookup_insert_eq.
Qed.

Lemma detach_forgotten_witness :
  let s' := detach (pad "remove") (final boot) in
  reachable pad_nodes s' ∧ tasks_of s' = [] ∧ devices_of s' = []
  ∧ ready_of s' = [].
Proof.
  destruct (detach_forgotten pad_nodes (final boot) (pad "remove") 0)
    as (Hr & _); [apply run_events_reachable|by vm_compute..|].
  by split.
Defined.

(** C11: a controller that is plugged back in too early stays unmonitored.
    In a reachable state whose loop is idle, let the observer deliver a
    remove notification for a path whose monitor waits for input and then,
    before the loop has run, an add notification for the same path.
    [add_device] finds the entry of the cancelled task and ignores the
    notification with a warning; after four turns of the loop the path is
    in neither dictionary, the loop is idle, and no exception has been
    reported: the controller has no monitor until udev reports it again. *)
Theorem replug_unmonitored ns s d d' t :
  reachable ns s → looping (sys_phase s) = true →
  GamepadsFinder.observer (sys_finder s) = true →
  GamepadsFinder.subsystem d = GamepadsFinder.SUBSYSTEM →
  GamepadsFinder.passes d = true →
  GamepadsFinder.action d = "remove"%string →
  GamepadsFinder.subsystem d' = GamepadsFinder.SUBSYSTEM →
  GamepadsFinder.passes d' = true →
  GamepadsFinder.action d' = "add"%string →
  GamepadsFinder.device_node d' = GamepadsFinder.device_node d →
  task_of (GamepadsFinder.device_node d) (sys_world s) = Some t →
  waiting t (sys_world s) = true → ready_of s = [] →
  let s' := twice d d' s in
  let p := GamepadsFinder.device_node d in
  reachable ns s'
  ∧ dict_del p (tasks_of s) = Some (tasks_of s')
  ∧ dict_del p (devices_of s) = Some (devices_of s')
  ∧ (WARNING, "device " +:+ p +:+ " is already present")
    ∈ logger (w_self (sys_world s'))
  ∧ ready_of s' = [] ∧ sys_exceptions s' = sys_exceptions s.
Proof.
  intros Hr Hl Hobs Hsub Hpass Hrem Hsub' Hpass' Hadd Hnode Hp Hw Hq.
  cbv zeta.
  destruct (detach_ready ns s _ t Hr Hp Hw)
    as (name & dt & dd & Hd & Ht & Hh & Hdt & Hdd).
  destruct (notify ns s s d [] Hr Hl Hobs Hsub Hpass (notified_nil s Hq))
    as (Hr0 & Hw0 & Hp0 & He0 & Hobs0).
  cbv zeta in Hw0. rewrite Hrem, decide_False in Hw0 by done.
  rewrite <-Hp0 in Hl.
  destruct (notify ns s _ d' _ Hr0 Hl Hobs0 Hsub' Hpass' Hw0)
    as (Hr1 & Hw1 & Hp1 & He1 & _).
  cbv zeta in Hw1. rewrite Hadd, decide_True, Hnode in Hw1 by done.
  rewrite <-Hp1 in Hl. rewrite He0 in He1. clear Hr0 Hw0 Hp0 He0 Hobs0.
  unfold twice. set (s1 := do_event (Udev d') _) in *.
  pose proof (turn_remove _ name s t t dt dd Hp Hd Ht Hh Hdd _ s1 Hw1) as E1.
  assert (reachable ns (run_once s1)) as Hr2
    by (apply (turn_reachable ns s1); by rewrite ?Hw1).
  rewrite E1 in Hr2 |- *. set (s2 := with_world _ s1) in *.
  pose proof (turn_add _ name s t t dt dd Hp _ s2 eq_refl) as E2.
  assert (reachable ns (run_once s2)) as Hr3
    by (by apply (turn_reachable ns s2)).
  rewrite E2 in Hr3 |- *. set (s3 := with_world _ s2) in *.
  pose proof (turn_step _ name s t t dt dd _ s3 eq_refl) as E3.
  assert (reachable ns (run_once s3)) as Hr4
    by (by apply (turn_reachable ns s3)).
  rewrite E3 in Hr4 |- *. set (s4 := with_world _ s3) in *.
  pose proof (turn_done _ name s t t dt dd Hdt _ s4 eq_refl) as E4.
  assert (reachable ns (run_once s4)) as Hr5
    by (by apply (turn_reachable ns s4)).
  rewrite E4 in Hr5 |- *. split_and!; try done.
  simpl. unfold emit. set_solver.
Qed.

Lemma replug_unmonitored_witness :
  let s' := twice (pad "remove") (pad "add") (final boot) in
  reachable pad_nodes s' ∧ tasks_of s' = [] ∧ devices_of s' = []
  ∧ nodes (w_evdev (sys_world s')) !! ev3 = Some "Pad A"%string.
Proof.
  cbv zeta. destruct (replug_unmonitored pad_nodes (final boot) (pad "remove")
              (pad "add") 0)
    as (Hr & _); [apply run_events_reachable|by vm_compute..|].
  split; [exact Hr|by vm_compute].
Defined.

(** C12: a remove notification that is repeated raises [KeyError].  In a
    reachable state whose loop is idle, let the observer deliver two
    remove notifications for a path whose monitor waits for input before
    the loop has run.  The second call of [remove_device] finds the entry
    of the cancelled task in [self.tasks] and no entry in [self.devices]:
    it raises [KeyError], which the loop reports.  The monitor ends as
    after one notification. *)
Theorem remove_twice_raises ns s d d' t :
  reachable ns s → looping (sys_phase s) = true →
  GamepadsFinder.observer (sys_finder s) = true →
  GamepadsFinder.subsystem d = GamepadsFinder.SUBSYSTEM →
  GamepadsFinder.passes d = true →
  GamepadsFinder.action d = "remove"%string →
  GamepadsFinder.subsystem d' = GamepadsFinder.SUBSYSTEM →
  GamepadsFinder.passes d' = true →
  GamepadsFinder.action d' = "remove"%string →
  GamepadsFinder.device_node d' = GamepadsFinder.device_node d →
  task_of (GamepadsFinder.device_node d) (sys_world s) = Some t →
  waiting t (sys_world s) = true → ready_of s = [] →
  let s' := twice d d' s in
  let p := GamepadsFinder.device_node d in
  reachable ns s'
  ∧ sys_exceptions s' = sys_exceptions s ++ [KeyError p]
  ∧ dict_del p (tasks_of s) = Some (tasks_of s')
  ∧ dict_del p (devices_of s) = Some (devices_of s')
  ∧ is_done t (w_loop (sys_world s')) = true
  ∧ ready_of s' = [].
Proof.
  intros Hr Hl Hobs Hsub Hpass Hrem Hsub' Hpass' Hrem' Hnode Hp Hw Hq.
  cbv zeta.
  pose proof (inv_devices_wf _ (reachable_watcher_inv ns s Hr)) as Hwf.
  destruct (detach_ready ns s _ t Hr Hp Hw)
    as (name & dt & dd & Hd & Ht & Hh & Hdt & Hdd).
  destruct (notify ns s s d [] Hr Hl Hobs Hsub Hpass (notified_nil s Hq))
    as (Hr0 & Hw0 & Hp0 & He0 & Hobs0).
  cbv zeta in Hw0. rewrite Hrem, decide_False in Hw0 by done.
  rewrite <-Hp0 in Hl.
  destruct (notify ns s _ d' _ Hr0 Hl Hobs0 Hsub' Hpass' Hw0)
    as (Hr1 & Hw1 & Hp1 & He1 & _).
  cbv zeta in Hw1. rewrite Hrem', decide_False, Hnode in Hw1 by done.
  rewrite <-Hp1 in Hl. rewrite He0 in He1. clear Hr0 Hw0 Hp0 He0 Hobs0.
  unfold twice. set (s1 := do_event (Udev d') _) in *.
  pose proof (turn_remove _ name s t t dt dd Hp Hd Ht Hh Hdd _ s1 Hw1) as E1.
  assert (reachable ns (run_once s1)) as Hr2
    by (apply (turn_reachable ns s1); by rewrite ?Hw1).
  rewrite E1 in Hr2 |- *. set (s2 := with_world _ s1) in *.
  pose proof (turn_remove_again _ name s t t dt dd Hp Hdd _ s2 Hwf eq_refl)
    as E2.
  assert (reachable ns (run_once s2)) as Hr3
    by (by apply (turn_reachable ns s2)).
  rewrite E2 in Hr3 |- *. set (s3 := report _ _) in *.
  pose proof (turn_step _ name s t t dt dd _ s3 eq_refl) as E3.
  assert (reachable ns (run_once s3)) as Hr4
    by (by apply (turn_reachable ns s3)).
  rewrite E3 in Hr4 |- *. set (s4 := with_world _ s3) in *.
  pose proof (turn_done _ name s t t dt dd Hdt _ s4 eq_refl) as E4.
  assert (reachable ns (run_once s4)) as Hr5
    by (by apply (turn_reachable ns s4)).
  rewrite E4 in Hr5 |- *. split_and!; try done.
  - simpl. by rewrite He1.
  - unfold is_done. simpl. by rewrite lookup_insert_eq.
Qed.

Lemma remove_twice_raises_witness :
  let s' := twice (pad "remove") (pad "remove") (final boot) in
  reachable pad_nodes s'
  ∧ sys_exceptions s' = [KeyError ev3]
  ∧ tasks_of s' = [].
Proof.
  cbv zeta. destruct (remove_twice_raises pad_nodes (final boot) (pad "remove")
              (pad "remove") 0)
    as (Hr & _); [apply run_events_reachable|by vm_compute..|].
  split; [exact Hr|by vm_compute].
Defined.
