(* ===== verification/Leak.v ===== *)
(** * Leak: a device that lost its monitor stays open

    [remove_device] closes the device of a path only when the entry of the
    path in [self.tasks] holds a task, and nothing else in the program
    closes a device.  A monitor that ends by itself, on a read error, has
    its entry deleted by the done callback while the device stays in
    [self.devices]: from then on no call of the program closes it
    ([orphan]).  The first part of the file shows that such a device stays
    as it is in every run; the second follows a read error to the state in
    which the device is left.

    The model has no garbage collector: a device that the program does not
    close is open.  In CPython the finalizer of the object closes it once
    nothing refers to it, which for a device of [self.devices] is when a
    later [create_monitor_task] of the path overwrites the entry. *)

From S2P Require Import Prelude PyDict Asyncio Evdev Watcher IdleLock Bridge.
From S2P Require Import Finder System Runs Coherent Invariant Reachable.
From S2P Require Import Shutdown Effects Hotplug Spec Refinement Settled.
From S2P Require Import Handles Detach.
Import GamepadsWatcher.

(** The device [h] is open and no path whose entry of [self.devices] it is
    has a task. *)
Definition orphan (h : nat) (w : world) : bool :=
  is_open h (w_evdev w)
  && forallb (λ p, bool_decide (dict_get p (devices (w_self w)) = Some h →
                                task_of p w = None))
       (dict_keys (devices (w_self w))).

Section orphan.
Context (h : nat).
Implicit Types (w : world) (t : nat) (p q : string).

Lemma orphan_spec w :
  orphan h w = true
  ↔ is_open h (w_evdev w) = true
    ∧ ∀ p, dict_get p (devices (w_self w)) = Some h → task_of p w = None.
Proof.
  unfold orphan. rewrite andb_true_iff, forallb_forall.
  split; intros [Ho Hd]; (split; [done|]).
  - intros p Hp. specialize (Hd p). rewrite bool_decide_eq_true in Hd.
    apply Hd; [|done]. apply list_elem_of_In, dict_get_keys. by rewrite Hp.
  - intros p _. apply bool_decide_eq_true, Hd.
Qed.

(** The device stays an orphan when it stays open, no path gains it and
    no path that has it gains a task. *)
Lemma orphan_keep w w' :
  (is_open h (w_evdev w) = true → is_open h (w_evdev w') = true) →
  (∀ p, dict_get p (devices (w_self w')) = Some h →
        dict_get p (devices (w_self w)) = Some h
        ∧ (task_of p w = None → task_of p w' = None)) →
  orphan h w = true → orphan h w' = true.
Proof.
  rewrite !orphan_spec. intros Ho Hd [Hopen Hnone]. split; [by apply Ho|].
  intros p Hp. destruct (Hd p Hp) as [Hp' Ht]. by apply Ht, Hnone.
Qed.

Lemma orphan_self w w' : same_self w w' → orphan h w = true → orphan h w' = true.
Proof.
  intros (_ & Ht & Hd & He). apply orphan_keep; unfold task_of;
    by rewrite ?He, ?Hd, ?Ht.
Qed.

#[export] Instance orphan_proper : Proper (same_watcher ==> (=)) (orphan h).
Proof.
  assert (∀ w w', same_watcher w w' → orphan h w = true → orphan h w' = true)
    as Himp.
  { intros w w' (Ht & Hd & _ & _ & He). apply orphan_keep; unfold task_of;
      by rewrite <-?He, <-?Hd, <-?Ht. }
  intros w w' Hs. apply eq_true_iff_eq. split; apply Himp; [done|by symmetry].
Qed.

Lemma orphan_logged lv msg w : orphan h w = true → orphan h (logged lv msg w) = true.
Proof. by rewrite <-(same_logged lv msg w). Qed.

Lemma orphan_started b w : orphan h w = true → orphan h (exec (set_started b) w) = true.
Proof. by apply orphan_keep. Qed.

Lemma orphan_cancel t w :
  orphan h w = true →
  orphan h (World (w_self w) (exec (cancel t) (w_loop w)) (w_evdev w)) = true.
Proof. by apply orphan_keep. Qed.

Lemma orphan_with_tasks d w :
  (∀ p, task_of p w = None → entry d p = None) →
  orphan h w = true → orphan h (with_tasks d w) = true.
Proof.
  intros Hd. apply orphan_keep; [done|]. intros p Hp. split; [done|apply Hd].
Qed.

(** A new monitor gets a new device. *)
Lemma orphan_create p w :
  evdev_fresh (w_evdev w) →
  orphan h w = true → orphan h (exec (create_monitor_task p) w) = true.
Proof.
  intros Hf Ho. unfold exec.
  destruct (nodes (w_evdev w) !! p) as [name|] eqn:Hn;
    [|by rewrite create_monitor_task_no_node].
  rewrite (create_monitor_task_ok p name) by done. cbn [snd].
  assert (h ≠ next_handle (w_evdev w)) as Hne.
  { apply orphan_spec in Ho as [Hopen _]. unfold is_open in Hopen.
    destruct (handles (w_evdev w) !! h) eqn:E; [|done].
    specialize (Hf h (mk_is_Some _ _ E)). lia. }
  revert Ho. apply orphan_keep; unfold is_open, task_of; simpl.
  - by rewrite lookup_insert_ne.
  - intros q. rewrite dict_get_set, entry_set.
    case_decide; [by intros [= <-]|done].
Qed.

Lemma orphan_add_device p w :
  evdev_fresh (w_evdev w) →
  orphan h w = true → orphan h (exec (add_device p) w) = true.
Proof.
  intros Hf Ho. unfold exec. destruct (task_of p w) as [t|] eqn:Hp.
  { rewrite (add_device_present p w t) by done.
    by do 2 apply orphan_logged. }
  destruct (started (w_self w)) eqn:Hs.
  - rewrite add_device_started by done.
    by apply orphan_create, orphan_logged.
  - rewrite add_device_not_started by done. cbn [snd].
    apply orphan_with_tasks, orphan_logged; [|done].
    intros q. unfold task_of. simpl. rewrite entry_set. by case_decide.
Qed.

(** [remove_device] closes the device of a path that has a task, which is
    another one. *)
Lemma orphan_remove_device p w :
  watcher_inv w → handles_inv w →
  orphan h w = true → orphan h (exec (remove_device p) w) = true.
Proof.
  intros Hw Hinv Ho. pose proof (proj1 (orphan_spec w) Ho) as [_ Hnone].
  destruct (task_of p w) as [t|] eqn:Hp.
  - destruct (dict_get p (devices (w_self w))) as [h'|] eqn:Hh; last first.
    { unfold exec. rewrite (remove_device_no_handle p w t) by done.
      by apply (orphan_cancel t (logged INFO _ w)), orphan_logged. }
    unfold exec.
    destruct (remove_device_running p w t h') as (d & Hd & ->); [done..|].
    cbn [snd]. assert (h' ≠ h) as Hne by (intros ->; by rewrite Hnone in Hp).
    revert Ho. apply orphan_keep; unfold is_open, task_of; simpl.
    + by rewrite close_lookup, decide_False.
    + intros q. rewrite (dict_get_del p q _ _ Hd (inv_devices_wf _ Hw)).
      by case_decide.
  - unfold exec. rewrite remove_device_not_running by done. cbn [snd].
    destruct (dict_del p (tasks (w_self w))) as [d|] eqn:Hd;
      [|by apply orphan_logged].
    apply orphan_with_tasks, orphan_logged; [|done]. intros q.
    unfold task_of. simpl. rewrite (entry_del _ _ p q (inv_tasks_wf _ Hw) Hd).
    by case_decide.
Qed.

Lemma orphan_done_callback p t w :
  dict_wf (tasks (w_self w)) →
  orphan h w = true → orphan h (exec (finish_removing_device p t) w) = true.
Proof.
  intros Hwf Ho. unfold exec.
  destruct (dict_del p (tasks (w_self w))) as [d|] eqn:Hd.
  - rewrite (finish_removing_device_present p t _ d) by done.
    apply orphan_with_tasks; [|done]. intros q. unfold task_of.
    rewrite (entry_del _ _ p q Hwf Hd). by case_decide.
  - apply dict_del_None in Hd. by rewrite finish_removing_device_absent.
Qed.

Lemma orphan_popped w : orphan h w = true → orphan h (popped w) = true.
Proof. by apply orphan_keep. Qed.
End orphan.

(** ** Every change of the world keeps the device an orphan *)

Section steps.
Context (h : nat).
Implicit Types (w : world) (s : system).

Lemma orphan_run_handle hd w :
  watcher_inv w → handles_inv w →
  orphan h w = true → orphan h (exec (run_handle hd) w) = true.
Proof.
  intros Hw Hinv Ho.
  destruct hd as [t|[p|p|p]|[p|p|p] t]; simpl; try done.
  - revert Ho. apply orphan_self, task_step_self.
  - apply orphan_add_device; [apply Hinv|done].
  - by apply orphan_remove_device.
  - apply orphan_done_callback; [apply Hw|done].
Qed.

Lemma orphan_set_init_devices ds w :
  orphan h w = true → orphan h (exec (set_init_devices ds) w) = true.
Proof.
  unfold exec. rewrite set_init_devices_tasks. cbn [snd].
  apply orphan_with_tasks. intros q. unfold task_of.
  induction ds as [|p ds IH] using rev_ind; [done|].
  rewrite foldl_app. simpl. rewrite entry_set. by case_decide.
Qed.

(** The invariant of [Handles] together with the orphan: what [start] and
    [stop] keep. *)
Definition lost (w : world) : Prop := handles_inv w ∧ orphan h w = true.

Lemma lost_start_stop w :
  watcher_inv w → lost w →
  (w_loop w = new_loop → lost (exec start w)) ∧ lost (exec stop w).
Proof.
  intros Hw Hl.
  assert (∀ lv msg w, lost w → lost (logged lv msg w)) as H1
    by (intros ??? []; split; [by apply handles_inv_logged|by apply orphan_logged]).
  assert (∀ b w, lost w → lost (exec (set_started b) w)) as H2
    by (intros ?? []; split; [by apply handles_inv_started|by apply orphan_started]).
  assert (∀ p w, task_of p w = None → lost w →
                 lost (exec (create_monitor_task p) w)) as H3.
  { intros p w0 Hp [Hi Ho]. split; [by apply handles_inv_create|].
    apply orphan_create; [apply Hi|done]. }
  assert (∀ t w, lost w →
    lost (World (w_self w) (exec (cancel t) (w_loop w)) (w_evdev w))) as H4
    by (intros ?? []; split; [by apply handles_inv_cancel|by apply orphan_cancel]).
  split; [intros Hnew|].
  - apply start_preserves; auto; [apply Hw|].
    intros p. by apply task_of_new_loop.
  - by apply stop_preserves.
Qed.

Lemma orphan_step w w' :
  watcher_inv w → handles_inv w → world_step w w' →
  orphan h w = true → orphan h w' = true.
Proof.
  intros Hw Hinv [w1 Hs|ns|c _|hd hs Hr|t r _|ds Hl|Hl|] Ho.
  - by rewrite <-Hs.
  - revert Ho. by apply orphan_keep.
  - revert Ho. by apply orphan_keep.
  - destruct (decide (is_done_callback hd)) as [Hd|Hd].
    + destruct hd as [|[]|[p|p|p] t]; try done. simpl.
      apply orphan_done_callback; [apply Hw|by apply orphan_popped].
    + apply orphan_run_handle; [by apply (watcher_inv_popped w hd hs)|
        |by apply orphan_popped].
      revert Hinv. apply handles_inv_calmer; try done. apply calmer_ready.
  - revert Ho. apply orphan_self, resume_task_self.
  - by apply orphan_set_init_devices.
  - by apply (lost_start_stop w).
  - by apply (lost_start_stop w).
Qed.
End steps.

Section runs.
Implicit Types (s : system).

Lemma orphan_steps ns h s s' :
  reachable ns s → rtc step s s' → orphan h (sys_world s) = true →
  reachable ns s' ∧ orphan h (sys_world s') = true.
Proof.
  intros Hr Hs Ho. revert s' Hs.
  apply (rtc_ind_r (λ s', reachable ns s' ∧ orphan h (sys_world s') = true));
    [done|].
  intros s2 s3 _ H23 [Hr2 Ho2]. split; [by eapply rtc_r|].
  apply (orphan_step h (sys_world s2));
    [apply (reachable_watcher_inv ns s2 Hr2)|by apply (reachable_handles_inv ns)
    |apply step_world; [done|by apply (reachable_sys_inv ns)]|done].
Qed.
End runs.

(** ** A read error

    The monitor of [p] waits for input and the read fails: the coroutine
    logs and returns, and the task is done (1); the loop runs its done
    callback (2). *)

Section broken.
Context (p name : string) (s : system) (t : nat) (errno : Z).
Context (dt : pydict string (option nat)).
Let w := sys_world s.
Let cb := cb_finish_removing_device p.
Hypothesis Htask : l_tasks (w_loop w) !! t = Some (Task true false false [cb] t).
Hypothesis Hhandle :
  handles (w_evdev w) !! t = Some (Build_InputDevice p name true).
Hypothesis Hdt : dict_del p (tasks (w_self w)) = Some dt.
Hypothesis Hready : l_ready (w_loop w) = [].

Definition broken (n : nat) : world :=
  let g := w_self w in
  World
    (Build (if decide (errno = 19%Z)
            then emit INFO (name +:+ " disconnected, exit monitor") (logger g)
            else emit ERROR (name +:+ " monitor failed") (logger g))
           (gamepad_active g) (started g)
           (if n =? 1 then tasks g else dt) (devices g))
    (Loop (<[t := Task true false true [] t]> (l_tasks (w_loop w)))
          (l_next (w_loop w))
          (if n =? 1 then [CallDone cb t] else []))
    (w_evdev w).

Lemma read_fails : do_event (Failure t errno) s = with_world (broken 1) s.
Proof.
  simpl. f_equal. unfold exec, resume_task. py_unfold. fold w. rewrite Htask.
  simpl. unfold_watcher. unfold name_of, broken. rewrite Hhandle.
  case_decide; simpl; unfold finish, set_task, enqueue; simpl;
    by rewrite Htask, Hready.
Qed.

Lemma turn_callback s1 :
  sys_world s1 = broken 1 → run_once s1 = with_world (broken 2) s1.
Proof.
  intros Hw1. apply (run_once_ok s1 (CallDone cb t) []); [by rewrite Hw1|].
  rewrite Hw1. simpl.
  by rewrite (finish_removing_device_present p t _ dt).
Qed.
End broken.

(** The monitor of [ev3] has ended by a read error and its done callback
    has run. *)
Definition broken_pad : system :=
  run_once (do_event (Failure 0 19) (final boot)).

(** udev reports the removal of the controller and then its return. *)
Definition comes_back : list event :=
  [Unplug ev3; Udev (pad "remove"); Run_ready; Plug ev3 "Pad A";
   Udev (pad "add"); Run_ready; Run_ready].

(** C15: a monitor that ends by a read error leaves its device open.  In a
    reachable state whose loop is idle, let the read of a monitor that
    waits for input fail, and let the loop run the done callback of the
    task.  The entry of the path is deleted from [self.tasks]; the device
    is still the entry of the path in [self.devices], it is open, and it is
    an orphan: the coroutine returns without closing the device it read. *)
Theorem read_error_orphans ns s p t errno :
  reachable ns s → looping (sys_phase s) = true →
  task_of p (sys_world s) = Some t → waiting t (sys_world s) = true →
  ready_of s = [] →
  let s' := run_once (do_event (Failure t errno) s) in
  reachable ns s'
  ∧ dict_del p (tasks_of s) = Some (tasks_of s')
  ∧ devices_of s' = devices_of s
  ∧ dict_get p (devices_of s') = Some t
  ∧ orphan t (sys_world s') = true
  ∧ is_done t (w_loop (sys_world s')) = true
  ∧ ready_of s' = [] ∧ sys_exceptions s' = sys_exceptions s.
Proof.
  intros Hr Hl Hp Hw Hq. cbv zeta.
  pose proof (reachable_watcher_inv ns s Hr) as Hinv.
  destruct (detach_ready ns s p t Hr Hp Hw)
    as (name & dt & dd & Hd & Ht & Hh & Hdt & _).
  assert (reachable ns (do_event (Failure t errno) s)) as Hr1.
  { eapply rtc_r; [done|]. apply step_event. simpl. by rewrite Hl, Hw. }
  rewrite (read_fails p name s t errno dt Ht Hh Hq) in Hr1 |- *.
  set (s1 := with_world _ s) in *.
  pose proof (turn_callback p name s t errno dt Hdt s1 eq_refl) as E.
  assert (reachable ns (run_once s1)) as Hr2
    by (by apply (turn_reachable ns s1)).
  rewrite E in Hr2 |- *. split_and!; try done.
  - apply orphan_spec. unfold is_open, task_of. simpl. rewrite Hh.
    split; [done|]. intros q Hq'.
    rewrite (entry_del _ _ p q (inv_tasks_wf _ Hinv) Hdt).
    case_decide; [done|].
    destruct (hi_open _ (reachable_handles_inv ns s Hr) q t Hq') as [nm Hn].
    congruence.
  - unfold is_done. simpl. by rewrite lookup_insert_eq.
Qed.

Lemma read_error_orphans_witness :
  reachable pad_nodes broken_pad ∧ tasks_of broken_pad = []
  ∧ devices_of broken_pad = [(ev3, 0)] ∧ orphan 0 (sys_world broken_pad) = true.
Proof.
  destruct (read_error_orphans pad_nodes (final boot) ev3 0 19)
    as (Hr & _); [apply run_events_reachable|by vm_compute..|].
  split; [exact Hr|by vm_compute].
Defined.

Lemma broken_pad_reachable : reachable pad_nodes broken_pad.
Proof.
  unfold broken_pad.
  refine (turn_reachable pad_nodes (do_event (Failure 0 19) (final boot))
            _ _ _ _ eq_refl); [|by vm_compute..].
  eapply rtc_r; [apply run_events_reachable|].
  apply (step_event _ (Failure 0 19)). by vm_compute.
Qed.

(** C14: a device that lost its monitor is never closed.  From a reachable
    state in which a device is open and no path that has it in
    [self.devices] has a task, no run of the process closes the device,
    whatever udev reports and whatever [main] does: at every later state
    it is open and without a task.  [remove_device] finds no task for its
    path and returns; [stop] cancels tasks and closes nothing;
    [create_monitor_task] opens another device and overwrites the entry. *)
Theorem orphan_stays_open ns h s s' :
  reachable ns s → rtc step s s' → orphan h (sys_world s) = true →
  orphan h (sys_world s') = true ∧ is_open h (w_evdev (sys_world s')) = true.
Proof.
  intros Hr Hs Ho. destruct (orphan_steps ns h s s' Hr Hs Ho) as [_ Ho'].
  split; [done|]. by apply orphan_spec in Ho' as [? _].
Qed.

Lemma orphan_stays_open_witness :
  let s' := run_events comes_back broken_pad in
  all_enabled comes_back broken_pad = true
  ∧ is_open 0 (w_evdev (sys_world s')) = true
  ∧ devices_of s' = [(ev3, 1)] ∧ tasks_of s' = [(ev3, Some 1)].
Proof.
  cbv zeta.
  destruct (orphan_stays_open pad_nodes 0 broken_pad
              (run_events comes_back broken_pad)) as [_ Ho];
    [apply broken_pad_reachable|apply run_events_steps|by vm_compute|].
  split_and!; [by vm_compute|exact Ho|by vm_compute..].
Defined.
