(* ===== verification/Liveness.v ===== *)
(** * Liveness: the ready queue runs empty and [stop] completes

    The handles of the ready queue cannot keep the loop busy for ever: a
    hotplug callback queues at most one step of a task, a step at most one
    done callback, a done callback nothing.  [queue_measure] weighs the
    queue accordingly and [drain] runs it with that much fuel.

    That the tasks [stop] cancels do end needs a second invariant of the
    reachable states, [live_inv]: a task that has its first step or a
    cancellation to take has a step in the queue, and the tasks that
    [gather] waits for have their cancellation requested.  With an empty
    queue such a task is done.

    Every change the program makes to the loop is one of the six of
    [effect], so the two properties and the measure are proved once, by
    cases on [effect], and each method is shown to have an effect. *)

From S2P Require Import Prelude PyDict Asyncio Evdev Watcher IdleLock Bridge.
From S2P Require Import Finder System Runs Coherent Invariant Reachable.
Import GamepadsWatcher.

(** ** Tasks and their steps *)

Section loops.
Context {C X : Type}.
Implicit Types (l : loop C X) (t : nat) (tk : task C X) (h : handle C).

(** The task has a step to take: its first, or the one that delivers a
    cancellation. *)
Definition needs_step tk : bool :=
  negb (t_done tk) && (negb (t_started tk) || t_must_cancel tk).

(** Every task that has a step to take, [skip] apart, has it in the queue. *)
Definition steps_queued (skip : option nat) l : Prop :=
  ∀ t tk, Some t ≠ skip → l_tasks l !! t = Some tk → needs_step tk = true →
          Step t ∈ l_ready l.

(** The task is done or will be: its cancellation was requested. *)
Definition cancel_requested t l : Prop :=
  ∃ tk, l_tasks l !! t = Some tk ∧ (t_done tk = true ∨ t_must_cancel tk = true).

(** The work a handle can cause: a callback can create or cancel a task,
    which queues a step; a step can end a task, which queues its done
    callback. *)
Definition weight h : nat :=
  match h with Call _ => 3 | Step _ => 2 | CallDone _ _ => 1 end.

Definition queue_measure l : nat := sum_list (weight <$> l_ready l).

Lemma steps_queued_enqueue skip hs l :
  steps_queued skip l → steps_queued skip (enqueue hs l).
Proof.
  intros Hq t tk Hs Ht Hn. simpl. apply elem_of_app. left. by apply (Hq t tk).
Qed.

Lemma steps_queued_cancel skip t l :
  steps_queued skip l → steps_queued skip (exec (cancel t) l).
Proof.
  intros Hq t' tk' Hs Ht' Hn. rewrite cancel_ready, elem_of_app.
  rewrite cancel_lookup in Ht'. case_decide as Heq; [subst t'|by left; apply (Hq t' tk')].
  destruct (l_tasks l !! t) as [tk|] eqn:Ht; [|done]. simpl in Ht'.
  injection Ht' as <-. unfold needs_step, cancelled in *.
  destruct (t_done tk) eqn:Hd; [by rewrite Hd in Hn|]. simpl in *.
  destruct (t_started tk) eqn:Hst, (t_must_cancel tk) eqn:Hmc; simpl;
    try (by left; apply (Hq t tk);
           [done..|unfold needs_step; rewrite Hd, Hst, Hmc]).
  right. by apply list_elem_of_singleton.
Qed.

Lemma steps_queued_finish skip t l :
  steps_queued skip l → steps_queued skip (exec (finish t) l).
Proof.
  intros Hq. unfold exec, finish. destruct (l_tasks l !! t) as [tk|] eqn:Ht; [|done].
  simpl. apply steps_queued_enqueue. intros t' tk' Hs Ht' Hn. simpl in *.
  apply lookup_insert_Some in Ht' as [[<- <-]|[_ Ht']]; [done|].
  by apply (Hq t' tk').
Qed.

(** A new task with its first step queued. *)
Lemma steps_queued_spawn skip tk l :
  steps_queued skip l →
  steps_queued skip (Loop (<[l_next l := tk]> (l_tasks l)) (S (l_next l))
                          (l_ready l ++ [Step (l_next l)])).
Proof.
  intros Hq t' tk' Hs Ht' Hn. simpl in *. rewrite elem_of_app.
  apply lookup_insert_Some in Ht' as [[<- <-]|[_ Ht']];
    [right; by apply list_elem_of_singleton|].
  left. by apply (Hq t' tk').
Qed.

(** Once requested, a cancellation stays requested until the task is
    done. *)
Lemma cancel_requested_cancel t t' l :
  cancel_requested t l → cancel_requested t (exec (cancel t') l).
Proof.
  intros (tk & Ht & Hk). unfold cancel_requested. rewrite cancel_lookup, Ht.
  case_decide; [|by eauto]. simpl. eexists. split; [done|].
  rewrite cancelled_done, cancelled_must_cancel. destruct (t_done tk); naive_solver.
Qed.

Lemma cancel_requested_finish t t' l :
  cancel_requested t l → cancel_requested t (exec (finish t') l).
Proof.
  intros (tk & Ht & Hk). unfold exec, finish, cancel_requested.
  destruct (l_tasks l !! t') as [tk'|] eqn:Ht'; [|by eauto]. simpl.
  destruct (decide (t' = t)) as [->|Hne].
  - rewrite lookup_insert_eq. eexists. split; [done|]. by left.
  - rewrite lookup_insert_ne by done. eauto.
Qed.

Lemma cancel_requested_mark_started t t' l :
  cancel_requested t l → cancel_requested t (exec (mark_started t') l).
Proof.
  intros (tk & Ht & Hk). unfold exec, mark_started, cancel_requested.
  destruct (l_tasks l !! t') as [tk'|] eqn:Ht'; [|by eauto]. simpl.
  destruct (decide (t' = t)) as [->|Hne].
  - rewrite lookup_insert_eq. eexists. split; [done|]. naive_solver.
  - rewrite lookup_insert_ne by done. eauto.
Qed.

Lemma cancel_requested_spawn t tk l hs :
  loop_fresh l → cancel_requested t l →
  cancel_requested t (Loop (<[l_next l := tk]> (l_tasks l)) (S (l_next l)) hs).
Proof.
  intros Hf (tk' & Ht & Hk). exists tk'. split; [|done]. simpl.
  rewrite lookup_insert_ne; [done|]. intros <-.
  specialize (Hf (l_next l) (mk_is_Some _ _ Ht)). lia.
Qed.

(** With an empty queue, a task whose cancellation was requested is done. *)
Lemma cancel_requested_done t l :
  steps_queued None l → l_ready l = [] → cancel_requested t l →
  is_done t l = true.
Proof.
  intros Hq Hr (tk & Ht & Hk). unfold is_done. rewrite Ht.
  destruct (t_done tk) eqn:Hd; [done|]. destruct Hk as [|Hmc]; [done|].
  specialize (Hq t tk ltac:(done) Ht). unfold needs_step in Hq.
  rewrite Hd, Hmc, orb_true_r, Hr in Hq. specialize (Hq eq_refl).
  by apply elem_of_nil in Hq.
Qed.
End loops.

(** ** What a handler does to the loop

    Each method of the watcher, each step of a task and each event of
    the observer changes the loop in one of six ways.  [effect l skip n l'] says that [l'] is [l] after one
    of them, that the task [skip], if any, is the one being stepped, and
    that [n] bounds the weight of what was queued. *)
Inductive effect (l : loop callback nat) :
  option nat → nat → loop callback nat → Prop :=
  | eff_none skip n : effect l skip n l
  | eff_call skip n c : 3 ≤ n → effect l skip n (exec (call_soon c) l)
  | eff_spawn skip n tk :
      2 ≤ n →
      effect l skip n (Loop (<[l_next l := tk]> (l_tasks l)) (S (l_next l))
                            (l_ready l ++ [Step (l_next l)]))
  | eff_cancel skip n t : 2 ≤ n → effect l skip n (exec (cancel t) l)
  | eff_finish skip n t :
      1 ≤ n →
      (∀ tk, l_tasks l !! t = Some tk → length (t_callbacks tk) ≤ 1) →
      effect l skip n (exec (finish t) l)
  | eff_started n t : effect l (Some t) n (exec (mark_started t) l).

Section effect.
Implicit Types (l : loop callback nat) (w : world) (t : nat) (p : string).

Lemma effect_steps l skip n l' :
  effect l skip n l' → steps_queued skip l → steps_queued skip l'.
Proof.
  intros [] Hq; [done|by apply steps_queued_enqueue|by apply steps_queued_spawn|
                 by apply steps_queued_cancel|by apply steps_queued_finish|].
  unfold exec, mark_started. destruct (l_tasks l !! t) as [tk|] eqn:Ht; [|done].
  intros t' tk' Hs Ht' Hn. simpl in *.
  apply lookup_insert_Some in Ht' as [[<- _]|[_ Ht']]; [done|].
  by apply (Hq t' tk').
Qed.

Lemma effect_cancel_requested l skip n l' t :
  effect l skip n l' → loop_fresh l →
  cancel_requested t l → cancel_requested t l'.
Proof.
  intros [] Hf Hk; [done|done|by apply cancel_requested_spawn|
    by apply cancel_requested_cancel|by apply cancel_requested_finish|
    by apply cancel_requested_mark_started].
Qed.

Lemma effect_measure l skip n l' :
  effect l skip n l' → queue_measure l' ≤ queue_measure l + n.
Proof.
  intros [| | | |skip' n' t Hn Hcb|]; unfold queue_measure; simpl.
  - lia.
  - rewrite fmap_app, sum_list_app. simpl. lia.
  - rewrite fmap_app, sum_list_app. simpl. lia.
  - rewrite cancel_ready, fmap_app, sum_list_app.
    destruct (l_tasks l !! t) as [tk|]; [|simpl; lia].
    destruct (negb _ && _ && _); simpl; lia.
  - unfold exec, finish. destruct (l_tasks l !! t) as [tk|] eqn:Ht; [|simpl; lia].
    simpl. rewrite fmap_app, sum_list_app, <-list_fmap_compose.
    rewrite (sum_list_fmap_same 1 (t_callbacks tk)); [|by apply Forall_true].
    specialize (Hcb tk eq_refl). lia.
  - unfold exec, mark_started. by destruct (l_tasks l !! t); simpl; lia.
Qed.

(** *** The methods *)

Lemma create_monitor_task_effect p w skip :
  effect (w_loop w) skip 2 (w_loop (exec (create_monitor_task p) w)).
Proof.
  unfold exec. destruct (nodes (w_evdev w) !! p) as [name|] eqn:Hn.
  - rewrite (create_monitor_task_ok p name) by done. simpl. by constructor.
  - rewrite create_monitor_task_no_node by done. constructor.
Qed.

Lemma add_device_effect p w skip :
  effect (w_loop w) skip 2 (w_loop (exec (add_device p) w)).
Proof.
  unfold exec. destruct (task_of p w) as [t|] eqn:Hp.
  { rewrite (add_device_present p w t) by done. constructor. }
  destruct (started (w_self w)) eqn:Hs.
  - rewrite add_device_started by done.
    apply (create_monitor_task_effect p (logged INFO _ w)).
  - rewrite add_device_not_started by done. constructor.
Qed.

Lemma remove_device_effect p w skip :
  effect (w_loop w) skip 2 (w_loop (exec (remove_device p) w)).
Proof.
  unfold exec. destruct (task_of p w) as [t|] eqn:Hp.
  - destruct (dict_get p (devices (w_self w))) as [h|] eqn:Hh.
    + destruct (remove_device_running p w t h) as (d & _ & ->); [done..|].
      by constructor.
    + rewrite (remove_device_no_handle p w t) by done. by constructor.
  - rewrite remove_device_not_running by done. simpl.
    destruct (dict_del p (tasks (w_self w))); constructor.
Qed.

Lemma finish_removing_device_effect p t w skip :
  effect (w_loop w) skip 0 (w_loop (exec (finish_removing_device p t) w)).
Proof.
  unfold exec. destruct (dict_del p (tasks (w_self w))) as [d|] eqn:Hd.
  - rewrite (finish_removing_device_present p t w d) by done. constructor.
  - apply dict_del_None in Hd. rewrite finish_removing_device_absent by done.
    constructor.
Qed.

Lemma callbacks_bound w t tk :
  watcher_inv w → l_tasks (w_loop w) !! t = Some tk →
  length (t_callbacks tk) ≤ 1.
Proof.
  intros [_ _ _ Hco] Ht. pose proof (co_callbacks _ _ Hco t tk Ht) as Hcb.
  destruct (t_done tk); [|destruct Hcb as [p Hcb]]; rewrite Hcb; simpl; lia.
Qed.

Lemma resume_task_effect t r w skip :
  watcher_inv w →
  effect (w_loop w) skip 1 (w_loop (exec (resume_task t r) w)).
Proof.
  intros Hinv. destruct (resume_task_world t r w) as (s' & _ & _ & [->| ->]);
    simpl; [constructor|].
  constructor; [done|]. intros tk. by apply callbacks_bound.
Qed.

(** A step of task [t]: afterwards [t] has no step to take. *)
Lemma task_step_effect t w :
  watcher_inv w →
  effect (w_loop w) (Some t) 1 (w_loop (exec (task_step t) w))
  ∧ ∀ tk, l_tasks (w_loop (exec (task_step t) w)) !! t = Some tk →
          needs_step tk = false.
Proof.
  intros Hinv. rewrite task_step_loop. unfold needs_step.
  destruct (l_tasks (w_loop w) !! t) as [tk|] eqn:Ht;
    [|split; [constructor|by intros ?; rewrite Ht]].
  destruct (t_done tk) eqn:Hd;
    [split; [constructor|intros ?; rewrite Ht; by intros [= <-]; rewrite Hd]|].
  destruct (t_must_cancel tk) eqn:Hmc.
  { split; [constructor; [done|]; intros tk'; by apply callbacks_bound|].
    unfold exec, finish. rewrite Ht. simpl. rewrite lookup_insert_eq.
    by intros ? [= <-]. }
  destruct (t_started tk) eqn:Hst.
  - split; [constructor|]. rewrite Ht. intros ? [= <-].
    by rewrite Hd, Hst, Hmc.
  - split; [constructor|]. unfold exec, mark_started. rewrite Ht. simpl.
    rewrite lookup_insert_eq. intros ? [= <-]. simpl. by rewrite Hd, Hmc.
Qed.
End effect.

(** ** The invariant of progress *)

(** [asyncio.gather] waits for tasks whose cancellation was requested. *)
Definition awaited_ok (ts : list (option nat)) (l : loop callback nat) : Prop :=
  Forall (λ o, ∃ t, o = Some t ∧ cancel_requested t l) ts.

Record live_inv (s : system) : Prop := {
  li_steps : steps_queued None (w_loop (sys_world s));
  li_awaited ts :
    sys_phase s = Stopping ts → awaited_ok ts (w_loop (sys_world s));
}.

(** Run the ready queue until it is empty, for [fuel] handles at most. *)
Fixpoint drain (fuel : nat) (s : system) : system :=
  match fuel with
  | 0 => s
  | S n => if enabled Run_ready s then drain n (do_event Run_ready s) else s
  end.

Section live.
Implicit Types (l : loop callback nat) (w : world) (t : nat) (s : system).

Lemma awaited_ok_effect ts l skip n l' :
  effect l skip n l' → loop_fresh l → awaited_ok ts l → awaited_ok ts l'.
Proof.
  intros He Hf Hts. apply (Forall_impl _ _ _ Hts). intros o (t & -> & Hk).
  exists t. split; [done|]. by apply (effect_cancel_requested l skip n).
Qed.

(** *** [start] and [stop] *)

Lemma start_steps w :
  steps_queued None (w_loop w) → steps_queued None (w_loop (exec start w)).
Proof.
  intros Hq. unfold exec at 1. rewrite start_eq.
  apply (for_each_preserves (λ w, steps_queued None (w_loop w))); [|done].
  intros p w0 _. apply effect_steps with (n := 2).
  apply (create_monitor_task_effect p (logged INFO _ w0)).
Qed.

Lemma stop_body_effect o w :
  effect (w_loop w) None 2 (w_loop (exec (stop_body o) w)).
Proof.
  destruct o as [t|]; [|constructor]. unfold exec. rewrite stop_body_Some.
  by constructor.
Qed.

Lemma stop_steps w :
  steps_queued None (w_loop w) → steps_queued None (w_loop (exec stop w)).
Proof.
  intros Hq.
  cut (steps_queued None (w_loop (exec (for_each (dict_values (tasks (w_self w)))
         stop_body) (exec (set_started false) w)))).
  { unfold exec at 1 3. rewrite stop_eq. by destruct (for_each _ _ _) as [[[]|?] ?]. }
  apply (for_each_preserves (λ w, steps_queued None (w_loop w))); [|done].
  intros o w0 _. apply effect_steps with (n := 2), stop_body_effect.
Qed.

(** A task that [self.tasks] holds is a task of the loop. *)
Lemma tasks_values_known w t :
  watcher_inv w → Some t ∈ dict_values (tasks (w_self w)) →
  is_Some (l_tasks (w_loop w) !! t).
Proof.
  intros [Hwf _ _ Hco] [p Hp]%dict_values_elem; [|done].
  assert (entry (tasks (w_self w)) p = Some t) as He by (unfold entry; by rewrite Hp).
  apply (co_entry _ _ Hco) in He as [(tk & Ht & _)|Hs]; [by eexists|].
  apply (co_scheduled _ _ Hco) in Hs as (tk & Ht & _). by eexists.
Qed.

Lemma all_Some {A} (vs : list (option A)) :
  None ∉ vs → ∃ xs, vs = Some <$> xs.
Proof.
  induction vs as [|[x|] vs IH]; intros Hn.
  - by exists [].
  - destruct IH as [xs ->]; [set_solver|]. by exists (x :: xs).
  - set_solver.
Qed.

(** When [stop] returns, the cancellation of every task it gives to
    [gather] was requested. *)
Lemma stop_awaited w ts w' :
  watcher_inv w → stop w = (Ok ts, w') → awaited_ok ts (w_loop w').
Proof.
  intros Hinv. rewrite stop_eq.
  destruct (decide (None ∈ dict_values (tasks (w_self w)))) as [Hn|Hn].
  { pose proof (stop_loop_None _ (exec (set_started false) w) Hn) as Hr.
    unfold eval in Hr. by destruct (for_each _ _ _) as [[[]|?] ?]. }
  destruct (all_Some _ Hn) as [xs Hxs]. rewrite Hxs.
  destruct (stop_loop_Some xs (exec (set_started false) w))
    as (l' & -> & _ & Hlook & _).
  intros [= <- <-]. simpl. apply Forall_fmap, Forall_forall. intros t Ht.
  exists t. split; [done|].
  destruct (tasks_values_known w t Hinv) as [tk Htk].
  { rewrite Hxs. by apply list_elem_of_fmap_2. }
  exists (cancelled tk). rewrite Hlook, decide_True by done. simpl.
  rewrite Htk. split; [done|].
  rewrite cancelled_done, cancelled_must_cancel. destruct (t_done tk); auto.
Qed.
End live.

Section live_step.
Implicit Types (l : loop callback nat) (w : world) (t : nat) (s : system).

(** The task a handle steps, if it is a step. *)
Definition stepped (h : handle callback) : option nat :=
  match h with Step t => Some t | _ => None end.

Lemma popped_steps w h hs :
  l_ready (w_loop w) = h :: hs → steps_queued None (w_loop w) →
  steps_queued (stepped h) (w_loop (popped w)).
Proof.
  intros Hr Hq t tk Hs Ht Hn. specialize (Hq t tk ltac:(done) Ht Hn).
  simpl. rewrite Hr in *. simpl.
  apply elem_of_cons in Hq as [<-|]; [|done]. by destruct Hs.
Qed.

Lemma steps_queued_unskip t l :
  steps_queued (Some t) l →
  (∀ tk, l_tasks l !! t = Some tk → needs_step tk = false) →
  steps_queued None l.
Proof.
  intros Hq Ht t' tk' _ Ht' Hn. destruct (decide (t' = t)) as [->|Hne].
  - by rewrite (Ht tk' Ht') in Hn.
  - apply (Hq t' tk'); [congruence|done..].
Qed.

(** Running a handle queues less than the handle weighs. *)
Lemma run_handle_effect w h hs :
  l_ready (w_loop w) = h :: hs → watcher_inv w →
  ∃ n, n < weight h
    ∧ effect (w_loop (popped w)) (stepped h) n
             (w_loop (exec (run_handle h) (popped w)))
    ∧ ∀ t tk, h = Step t →
        l_tasks (w_loop (exec (run_handle h) (popped w))) !! t = Some tk →
        needs_step tk = false.
Proof.
  intros Hr Hinv.
  assert (handle_ok h) as Hok.
  { destruct Hinv as [_ _ _ [_ _ _ _ _ Hty]]. rewrite Hr in Hty.
    by inversion Hty. }
  destruct h as [t|[p|p|p]|[p|p|p] t]; simpl in *; try done.
  - destruct (task_step_effect t (popped w)) as [He Hn].
    { apply (watcher_inv_popped w (Step t) hs); [done|by intros []|done]. }
    exists 1. split; [lia|]. split; [done|]. intros t' tk [= <-]. apply Hn.
  - exists 2. split; [lia|]. split; [apply (add_device_effect p (popped w))|done].
  - exists 2. split; [lia|]. split; [apply (remove_device_effect p (popped w))|done].
  - exists 0. split; [lia|]. split; [apply (finish_removing_device_effect p t (popped w))|done].
Qed.

Lemma popped_measure w h hs :
  l_ready (w_loop w) = h :: hs →
  queue_measure (w_loop w) = weight h + queue_measure (w_loop (popped w)).
Proof. intros Hr. unfold queue_measure. simpl. by rewrite Hr. Qed.

Lemma run_once_measure s h hs :
  l_ready (w_loop (sys_world s)) = h :: hs → watcher_inv (sys_world s) →
  queue_measure (w_loop (sys_world (run_once s)))
  < queue_measure (w_loop (sys_world s)).
Proof.
  intros Hr Hinv. destruct (run_once_world s h hs Hr) as [-> _].
  destruct (run_handle_effect _ h hs Hr Hinv) as (n & Hn & He & _).
  apply effect_measure in He. rewrite (popped_measure _ h hs Hr). lia.
Qed.

Lemma live_inv_run_once s :
  watcher_inv (sys_world s) → live_inv s → live_inv (run_once s).
Proof.
  intros Hinv [Hq Hk].
  destruct (l_ready (w_loop (sys_world s))) as [|h hs] eqn:Hr.
  { unfold run_once. by rewrite Hr. }
  destruct (run_once_world s h hs Hr) as [Hw Hp].
  destruct (run_handle_effect _ h hs Hr Hinv) as (n & _ & He & Hn).
  pose proof (popped_steps _ h hs Hr Hq) as Hq'.
  apply (effect_steps _ _ _ _ He) in Hq'.
  split; rewrite Hw, ?Hp.
  - destruct h as [t| |]; try done. apply (steps_queued_unskip t); [done|].
    intros tk. by apply Hn.
  - intros ts Hts. apply (awaited_ok_effect _ _ _ _ _ He); [apply Hinv|].
    by apply Hk.
Qed.

(** A step that changes the loop by an effect and stays in its phase. *)
Lemma live_inv_effect n s s' :
  effect (w_loop (sys_world s)) None n (w_loop (sys_world s')) →
  loop_fresh (w_loop (sys_world s)) →
  (∀ ts, sys_phase s' = Stopping ts → sys_phase s = Stopping ts) →
  live_inv s → live_inv s'.
Proof.
  intros He Hf Hp [Hq Hk]. split.
  - by apply (effect_steps _ _ _ _ He).
  - intros ts Hts%Hp. apply (awaited_ok_effect _ _ _ _ _ He); [done|].
    by apply Hk.
Qed.

Lemma live_inv_main_raised e s :
  watcher_inv (sys_world s) → steps_queued None (w_loop (sys_world s)) →
  live_inv (main_raised e s).
Proof.
  intros Hinv Hq. unfold main_raised. case_decide; [|by split].
  rewrite main_handler_eq. pose proof (stop_steps _ Hq) as Hq'.
  pose proof (stop_awaited (sys_world s)) as Hk. unfold eval, exec in *.
  destruct (stop (sys_world s)) as [[ts|e'] w']; split; simpl; try done.
  intros ? [= <-]. by apply (Hk ts w').
Qed.

Lemma live_inv_main_start s :
  watcher_inv (exec start (sys_world s)) → live_inv s →
  live_inv (main_start s).
Proof.
  intros Hinv [Hq _]. unfold main_start. rewrite main_body_eq.
  pose proof (start_steps _ Hq) as Hq'.
  destruct (eval start (sys_world s)); [by split|].
  by apply live_inv_main_raised.
Qed.
End live_step.

Section progress.
Implicit Types (l : loop callback nat) (w : world) (t : nat) (s : system).

Lemma live_inv_new nodes : live_inv (new_system nodes).
Proof. by split. Qed.

(** A step that leaves the loop alone and does not enter the phase
    [Stopping]. *)
Lemma live_inv_same s s' :
  w_loop (sys_world s') = w_loop (sys_world s) →
  (∀ ts, sys_phase s' = Stopping ts → sys_phase s = Stopping ts) →
  live_inv s → live_inv s'.
Proof.
  intros Hl Hp [Hq Hk]. split; rewrite Hl; [done|].
  intros ts Hts%Hp. by apply Hk.
Qed.

Lemma bridge_turn_loop r s :
  w_loop (sys_world (bridge_turn r s)) = w_loop (sys_world s)
  ∧ sys_phase (bridge_turn r s) = sys_phase s.
Proof.
  rewrite bridge_turn_eq.
  destruct (Bridge.turn_world r (view bridge_lens s)) as (_ & _ & _ & Hl & _).
  split; [exact Hl|done].
Qed.

Lemma udev_event_effect d s :
  GamepadsFinder.cb_add (sys_finder s) = cb_add_device →
  effect (w_loop (sys_world s)) None 3 (w_loop (sys_world (udev_event d s)))
  ∧ sys_phase (udev_event d s) = sys_phase s.
Proof.
  intros Ha. unfold udev_event.
  pose proof (GamepadsFinder.deliver_frame d (view finder_lens s))
    as (_ & _ & Hloop).
  unfold zoom, exec in *.
  destruct (GamepadsFinder.deliver d (view finder_lens s)) as [r f]. simpl in *.
  rewrite report_world, report_phase. simpl. split; [|done].
  destruct Hloop as [->| ->]; [constructor|].
  by apply (eff_call _ _ _ (GamepadsFinder.callback_of (sys_finder s) d)).
Qed.

Lemma live_inv_step s s' : step s s' → sys_inv s → live_inv s → live_inv s'.
Proof.
  intros [e He] [[Hw Ha Hr Hl Hu] Hn Hb] Hlive.
  destruct e as [db| | | | | | | |d|p name|p|t|t errno|b|]; simpl in *.
  - apply (live_inv_same s); [|done..]. simpl. unfold exec.
    by rewrite set_init_devices_tasks.
  - apply bool_decide_eq_true in He. rewrite He in Hn.
    apply live_inv_main_start; [|done]. apply watcher_inv_start; [done|].
    intros p. apply task_of_new_loop; [done|by apply Hn].
  - by apply (live_inv_same s).
  - unfold main_resume. destruct (sys_bridge s); try done.
    apply live_inv_main_raised; [done|apply Hlive].
  - destruct (sys_phase s); try done. unfold main_finish.
    destruct (gather_raises _ _); [by apply (live_inv_same s)|].
    destruct (sys_bridge s);
      (apply (live_inv_same s); [|done..]); [done| |done].
    apply (bridge_turn_loop Bridge.Cancel s).
  - destruct (run_main_frame s) as [Hw' Hp'].
    apply (live_inv_same s); [by rewrite Hw'|by intros ts [? ?]%Hp'|done].
  - unfold bridge_step.
    destruct (sys_bridge s), (sys_phase s) eqn:Hp; try done;
      try (by apply (live_inv_same s)).
    destruct (bridge_turn_loop Bridge.Cancel s) as [Hloop Hp'].
    apply (live_inv_same s);
      [exact Hloop|intros ts Hts; rewrite <-Hp'; exact Hts|done].
  - destruct (bridge_turn_loop Bridge.Timer s) as [Hloop Hp].
    apply (live_inv_same s);
      [exact Hloop|intros ts Hts; rewrite <-Hp; exact Hts|done].
  - destruct (udev_event_effect d s Ha) as [Heff Hp].
    apply (live_inv_effect 3 s); [done|apply Hw|by rewrite Hp|done].
  - by apply (live_inv_same s).
  - by apply (live_inv_same s).
  - apply (live_inv_effect 1 s); [|apply Hw|done..].
    by apply (resume_task_effect t Input_event).
  - apply (live_inv_effect 1 s); [|apply Hw|done..].
    by apply (resume_task_effect t (Read_error errno)).
  - by apply (live_inv_same s).
  - by apply live_inv_run_once.
Qed.

Lemma reachable_live_inv nodes s : reachable nodes s → live_inv s.
Proof.
  revert s. apply rtc_ind_r; [apply live_inv_new|].
  intros y z Hy Hstep IH. apply (live_inv_step y); [done| |done].
  by apply (reachable_sys_inv nodes).
Qed.

Lemma weight_pos (h : handle callback) : 0 < weight h.
Proof. destruct h; simpl; lia. Qed.

Lemma queue_measure_0 l : queue_measure l = 0 → l_ready l = [].
Proof.
  unfold queue_measure. destruct (l_ready l) as [|h hs]; [done|]. simpl.
  pose proof (weight_pos h). lia.
Qed.

(** With enough fuel [drain] runs the queue of a looping process empty, by
    steps of the process, and stays in the phase. *)
Lemma drain_spec n : ∀ s,
  sys_inv s → live_inv s → looping (sys_phase s) = true →
  queue_measure (w_loop (sys_world s)) ≤ n →
  rtc step s (drain n s) ∧ sys_inv (drain n s) ∧ live_inv (drain n s)
  ∧ sys_phase (drain n s) = sys_phase s
  ∧ l_ready (w_loop (sys_world (drain n s))) = [].
Proof.
  induction n as [|n IH]; intros s Hinv Hlive Hloop Hm; simpl.
  { split_and!; try done. apply queue_measure_0. lia. }
  unfold enabled. rewrite Hloop. simpl.
  destruct (l_ready (w_loop (sys_world s))) as [|h hs] eqn:Hr; [done|].
  rewrite bool_decide_eq_true_2 by done.
  assert (step s (run_once s)) as Hstep.
  { apply (step_event s Run_ready). simpl. rewrite Hloop, Hr. done. }
  destruct (run_once_world s h hs Hr) as [_ Hp].
  destruct (IH (run_once s)) as (Hrtc & ? & ? & Hp' & ?).
  - by apply (sys_inv_step s).
  - by apply (live_inv_step s).
  - by rewrite Hp.
  - pose proof (run_once_measure s h hs Hr (ci_watcher _ (si_core _ Hinv))). lia.
  - split_and!; try done; [by eapply rtc_l|by rewrite Hp', Hp].
Qed.

(** C24: the ready queue runs empty: from any reachable state in which the
    loop runs, [drain] with the fuel [queue_measure] (three units for a
    hotplug callback, two for a step of a task, one for a done callback)
    reaches, by steps of the process alone and without leaving the phase, a
    state whose ready queue is empty. *)
Theorem drain_terminates nodes s :
  reachable nodes s → looping (sys_phase s) = true →
  let s' := drain (queue_measure (w_loop (sys_world s))) s in
  reachable nodes s'
  ∧ l_ready (w_loop (sys_world s')) = []
  ∧ sys_phase s' = sys_phase s.
Proof.
  intros Hr Hloop s'. subst s'.
  destruct (drain_spec (queue_measure (w_loop (sys_world s))) s)
    as (Hrtc & _ & _ & Hp & Hq);
    [by apply (reachable_sys_inv nodes)|by apply (reachable_live_inv nodes)|
     done|done|].
  split_and!; [|done..]. unfold reachable in *. by etrans.
Qed.

(** When the queue is empty the tasks that [stop] gave to [gather] are
    done. *)
Lemma drained_gathered s ts :
  live_inv s → sys_phase s = Stopping ts →
  l_ready (w_loop (sys_world s)) = [] →
  Forall (λ o, ∃ t, o = Some t ∧ is_done t (w_loop (sys_world s)) = true) ts
  ∧ gathered ts (sys_world s) = true.
Proof.
  intros [Hq Hk] Hp Hrd. specialize (Hk ts Hp).
  assert (Forall (λ o, ∃ t, o = Some t
            ∧ is_done t (w_loop (sys_world s)) = true) ts) as Hdone.
  { apply (Forall_impl _ _ _ Hk). intros o (t & -> & Hc). exists t.
    split; [done|]. by apply cancel_requested_done. }
  split; [done|]. unfold gathered. clear Hk Hp.
  induction Hdone as [|o ts' (t & -> & Hd) _ IH]; [done|].
  simpl. by rewrite Hd, IH.
Qed.

(** C6: [stop] completes: from any reachable state in which [main] waits
    in [await watcher.stop()], running the ready queue empty ends every task
    that [stop] gave to [gather], so that the await ends and [main] with it:
    no monitor outlives the stop of the watcher.  [main] returns, unless a
    monitor was cancelled before its first step: then [gather] raises
    [CancelledError] and [main] ends with it. *)
Theorem stop_completes nodes s ts :
  reachable nodes s → sys_phase s = Stopping ts →
  let s' := drain (queue_measure (w_loop (sys_world s))) s in
  reachable nodes s'
  ∧ Forall (λ o, ∃ t, o = Some t ∧ is_done t (w_loop (sys_world s')) = true) ts
  ∧ enabled Main_stopped s' = true
  ∧ sys_phase (do_event Main_stopped s')
    = (if gather_raises ts (sys_world s') then Crashed CancelledError
       else Stopped).
Proof.
  intros Hr Hp s'. subst s'.
  destruct (drain_spec (queue_measure (w_loop (sys_world s))) s)
    as (Hrtc & _ & Hlive & Hp' & Hrd);
    [by apply (reachable_sys_inv nodes)|by apply (reachable_live_inv nodes)|
     by rewrite Hp|done|].
  rewrite Hp in Hp'. destruct (drained_gathered _ ts Hlive Hp' Hrd) as [Hd Hg].
  split_and!; [unfold reachable in *; by etrans|done| |];
    simpl; rewrite Hp'; [|unfold main_finish; by destruct (gather_raises _ _)].
  by rewrite Hg, Hrd, bool_decide_eq_true_2.
Qed.

Lemma queue_measure_le (l : loop callback nat) :
  queue_measure l ≤ 3 * length (l_ready l).
Proof.
  unfold queue_measure. induction (l_ready l) as [|h hs IH]; [done|].
  rewrite fmap_cons, length_cons.
  change (sum_list (?x :: ?xs)) with (x + sum_list xs).
  destruct h; simpl weight; lia.
Qed.

(** C25: the work a queue causes is bounded.  From any reachable state in
    which the loop runs, three iterations of the loop for each handle in
    the ready queue are enough to run it empty, whatever the handles are
    and however many handles they queue themselves: a hotplug callback
    queues at most a step of a task, and a step at most a done callback.
    With any fuel [n] of at least three times the length of the queue,
    [drain] reaches a state, reachable itself, whose queue is empty. *)
Theorem drain_bound nodes s n :
  reachable nodes s → looping (sys_phase s) = true →
  3 * length (l_ready (w_loop (sys_world s))) ≤ n →
  reachable nodes (drain n s)
  ∧ l_ready (w_loop (sys_world (drain n s))) = [].
Proof.
  intros Hr Hloop Hn.
  destruct (drain_spec n s) as (Hrtc & _ & _ & _ & Hq);
    [by apply (reachable_sys_inv nodes)|by apply (reachable_live_inv nodes)|
     done| |].
  - pose proof (queue_measure_le (w_loop (sys_world s))). lia.
  - split; [|done]. unfold reachable in *. by etrans.
Qed.
End progress.

(** ** Witnesses *)

(** [main] waits in [await watcher.stop()] with the lock released. *)
Definition stopping_state : system := final (interrupt_run ++ [Main_resume]).

Lemma drain_terminates_witness :
  let s' := drain (queue_measure (w_loop (sys_world stopping_state)))
                  stopping_state in
  reachable pad_nodes s'
  ∧ l_ready (w_loop (sys_world s')) = []
  ∧ sys_phase s' = sys_phase stopping_state.
Proof.
  exact (drain_terminates pad_nodes stopping_state
           (run_events_reachable _ _) eq_refl).
Defined.

Lemma stop_completes_witness :
  let s' := drain (queue_measure (w_loop (sys_world stopping_state)))
                  stopping_state in
  reachable pad_nodes s'
  ∧ Forall (λ o, ∃ t, o = Some t ∧ is_done t (w_loop (sys_world s')) = true)
           [Some 0]
  ∧ enabled Main_stopped s' = true
  ∧ sys_phase (do_event Main_stopped s')
    = (if gather_raises [Some 0] (sys_world s') then Crashed CancelledError
       else Stopped).
Proof.
  exact (stop_completes pad_nodes stopping_state [Some 0]
           (run_events_reachable _ _) eq_refl).
Defined.

(** The bound is reached: the removal of a controller takes three
    iterations, for [remove_device], for the step that delivers the
    cancellation and for the done callback, and two leave the last in the
    queue. *)
Lemma drain_bound_witness :
  (reachable pad_nodes (drain 3 removal_queued)
   ∧ l_ready (w_loop (sys_world (drain 3 removal_queued))) = [])
  ∧ l_ready (w_loop (sys_world (drain 2 removal_queued)))
    = [CallDone (cb_finish_removing_device ev3) 0].
Proof.
  split; [|by vm_compute].
  apply (drain_bound pad_nodes removal_queued 3);
    [apply run_events_reachable|done|by vm_compute].
Defined.
