(* ===== verification/Interrupt.v ===== *)
(** * Interrupt: the shutdown of the process, from the interrupt to the exit

    An interrupt cancels [main] while it waits for the inhibit task.  The
    cancellation reaches the inhibit task, which releases the lock and
    ends; [main] wakes up in its handler, stops the finder and the watcher
    and waits for the monitors; the loop runs the cancelled monitors to
    their end; [main] returns and the process exits.  This file composes
    the five steps and proves that they can always be taken, from every
    state in which an interrupt can arrive, and where they end.

    It also proves what the order of the handler is for: once the finder
    is stopped, no hotplug notification reaches the watcher. *)

From S2P Require Import Prelude PyDict Asyncio Evdev Watcher IdleLock Bridge.
From S2P Require Import Finder System Runs Coherent Invariant Reachable.
From S2P Require Import Shutdown Effects Spec Refinement Settled Handles.
From S2P Require Import Liveness.
Import GamepadsWatcher.

(** The observer of the finder is stopped. *)
Definition silent (s : system) : Prop :=
  GamepadsFinder.observer (sys_finder s) = false.

(** The steps of a shutdown after the interrupt, up to the state in which
    [main] waits for the monitors it has cancelled: the inhibit task is
    cancelled, [main] runs its handler, and the loop runs until its queue
    is empty. *)
Definition stopping (s : system) : system :=
  let s1 := do_event Main_resume (do_event Bridge_step (do_event Interrupt s)) in
  drain (queue_measure (w_loop (sys_world s1))) s1.

(** Then [main] ends and the process exits. *)
Definition shutdown (s : system) : system :=
  do_event Exit (do_event Main_stopped (stopping s)).

Section silent.
Implicit Types (s : system) (e : event) (d : GamepadsFinder.Device).

(** A stopped observer delivers nothing. *)
Lemma udev_event_silent d s : silent s → udev_event d s = s.
Proof.
  unfold silent, udev_event, zoom, GamepadsFinder.deliver, bind, gets. simpl.
  intros ->. simpl. by destruct s as [[] [] ? ? ? ? ?].
Qed.

(** The environment and the loop do not start the observer. *)
Lemma silent_env e s : of_main e = false → silent s → silent (do_event e s).
Proof.
  destruct e as [db| | | | | | | |d|p name|p|t|t errno|b|]; try done;
    intros _ Hs; simpl.
  - by rewrite udev_event_silent.
  - unfold run_once. destruct (l_ready _); [done|].
    by destruct (run_handle _ _) as [[[]|?] ?].
Qed.

Lemma silent_main_raised (x : exn) s :
  in_handler (sys_phase (main_raised x s)) = true → silent (main_raised x s).
Proof.
  unfold main_raised. case_decide; [|by destruct x].
  rewrite main_handler_eq. by destruct (eval stop (sys_world s)).
Qed.

(** Once [main] is in its handler the observer is stopped. *)
Lemma silent_step s s' :
  step s s' →
  (in_handler (sys_phase s) = true → silent s) →
  in_handler (sys_phase s') = true → silent s'.
Proof.
  intros [e He] IH Hp. destruct (of_main e) eqn:Hm.
  2: { destruct (do_event_frame e s Hm) as [Hp' _].
       apply silent_env; [done|]. apply IH. by rewrite <-Hp'. }
  destruct e as [db| | | | | | | |d|p name|p|t|t errno|b|]; try done;
    simpl in *.
  - by destruct (main_start_cases s) as [_ [Hp'|Hp']]; rewrite Hp' in Hp.
  - unfold main_resume in *. destruct (sys_bridge s) as [| |x]; [by auto..|].
    by apply silent_main_raised.
  - destruct (sys_phase s) eqn:Hph; try by auto. unfold main_finish in *.
    destruct (gather_raises _ _); [by apply IH|].
    destruct (sys_bridge s); try by apply IH.
    unfold silent. rewrite bridge_turn_eq. by apply IH.
  - unfold run_main in *.
    by destruct (asyncio_run (sys_phase s)) as [[[]|[]]|].
  - destruct (bridge_step_frame s) as [Hp' _]. rewrite Hp' in Hp.
    by destruct (sys_bridge s), (sys_phase s).
  - destruct (bridge_turn_frame Bridge.Timer s) as [Hp' _].
    apply andb_prop in He as [He%bool_decide_eq_true _]. by rewrite Hp', He in Hp.
Qed.

Lemma reachable_silent nodes s :
  reachable nodes s → in_handler (sys_phase s) = true → silent s.
Proof.
  revert s.
  apply (rtc_ind_r (λ s, in_handler (sys_phase s) = true → silent s));
    [done|].
  intros y z _ Hstep IH. by apply (silent_step y).
Qed.
End silent.

(** C21: after [finder.stop()] no hotplug notification reaches the watcher.
    In every reachable state in which [main] is in its handler or has left
    it, the observer of the finder is stopped, and a udev event changes
    nothing: no callback is queued, nothing is logged and no exception is
    reported. *)
Theorem hotplug_silenced nodes s d :
  reachable nodes s → in_handler (sys_phase s) = true →
  silent s ∧ do_event (Udev d) s = s.
Proof.
  intros Hr Hp. pose proof (reachable_silent nodes s Hr Hp) as Hs.
  split; [done|]. by apply udev_event_silent.
Qed.

(** ** The shutdown *)

Section shutdown.
Implicit Types (s : system).

(** The interrupt cancels [main], and the cancellation ends the inhibit
    task, whether it has run or not. *)
Lemma interrupt_cancels s :
  sys_inv s → enabled Interrupt s = true →
  let s' := do_event Bridge_step (do_event Interrupt s) in
  rtc step s s'
  ∧ sys_phase s' = Cancelling
  ∧ sys_bridge s' = B_ended CancelledError
  ∧ same_watcher (sys_world s) (sys_world s').
Proof.
  intros Hinv [Hp%bool_decide_eq_true Hb]%andb_prop. cbv zeta.
  assert (step s (with_phase Cancelling s)) as H1.
  { apply (step_event s Interrupt). simpl. by rewrite Hp, Hb. }
  assert (enabled Bridge_step (with_phase Cancelling s) = true) as He
    by (simpl; by destruct (sys_bridge s)).
  split; [eapply rtc_l; [done|]; by apply rtc_once, (step_event _ Bridge_step)|].
  simpl. unfold bridge_step. simpl.
  destruct (sys_bridge s) eqn:Hbr; try done.
  destruct (bridge_turn_frame Bridge.Cancel (with_phase Cancelling s))
    as [-> ->].
  split_and!; [done| |apply (bridge_turn_world _ (with_phase Cancelling s))].
  rewrite Bridge.cancel_eq'. unfold eval.
  rewrite Bridge.on_cancelled_eq; [done|]. apply Hinv.
Qed.

(** [main] wakes up in its handler; [stop] finds a task in every entry. *)
Lemma handler_runs nodes s :
  reachable nodes s → sys_phase s = Cancelling →
  sys_bridge s = B_ended CancelledError →
  step s (do_event Main_resume s)
  ∧ sys_phase (do_event Main_resume s) = Stopping (dict_values (tasks_of s)).
Proof.
  intros Hr Hp Hb. split.
  { apply (step_event s Main_resume). simpl. by rewrite Hp, Hb. }
  destruct (reachable_settled_inv nodes s Hr) as [Hst Hs].
  pose proof (reachable_watcher_inv nodes s Hr) as Hw. rewrite Hp in *.
  simpl. unfold main_resume, main_raised. rewrite Hb, decide_True by done.
  rewrite main_handler_eq, stop_conforms_ok; [done..|].
  apply settled_stop_conforms; auto.
Qed.

(** [main] ends and the process exits. *)
Lemma main_exits nodes s ts :
  reachable nodes s → sys_phase s = Stopping ts →
  gathered ts (sys_world s) = true → l_ready (w_loop (sys_world s)) = [] →
  let s' := do_event Exit (do_event Main_stopped s) in
  rtc step s s'
  ∧ sys_phase s' = Exited (Ok tt)
  ∧ sys_world s' = sys_world s
  ∧ sys_finder s' = sys_finder s.
Proof.
  intros Hr Hp Hg Hq. cbv zeta.
  pose proof (sh_handler s (reachable_shut_inv nodes s Hr)) as Hb.
  rewrite Hp in Hb. specialize (Hb eq_refl).
  assert (step s (do_event Main_stopped s)) as H1.
  { apply (step_event s Main_stopped). simpl.
    by rewrite Hp, Hg, Hq, bool_decide_eq_true_2. }
  simpl in *. rewrite Hp in *. unfold main_finish in *. rewrite Hb in *.
  destruct (gather_raises ts (sys_world s)).
  - split; [eapply rtc_l; [done|]; by apply rtc_once, (step_event _ Exit)|done].
  - split; [eapply rtc_l; [done|]; by apply rtc_once, (step_event _ Exit)|done].
Qed.
End shutdown.

(** From the interrupt to the empty queue. *)
Lemma interrupt_stops nodes s :
  reachable nodes s → enabled Interrupt s = true →
  reachable nodes (stopping s)
  ∧ sys_phase (stopping s) = Stopping (dict_values (tasks_of s))
  ∧ l_ready (w_loop (sys_world (stopping s))) = []
  ∧ live_inv (stopping s).
Proof.
  intros Hr He. unfold stopping.
  destruct (interrupt_cancels s (reachable_sys_inv nodes s Hr) He)
    as (Hrtc1 & Hp1 & Hb1 & Ht & _).
  set (s1 := do_event Bridge_step (do_event Interrupt s)) in *.
  assert (reachable nodes s1) as Hr1 by (unfold reachable in *; by etrans).
  destruct (handler_runs nodes s1 Hr1 Hp1 Hb1) as [Hstep2 Hp2].
  set (s2 := do_event Main_resume s1) in *.
  assert (reachable nodes s2) as Hr2
    by (unfold reachable in *; by eapply rtc_r).
  unfold tasks_of in Hp2. rewrite Ht in Hp2.
  destruct (drain_spec (queue_measure (w_loop (sys_world s2))) s2)
    as (Hrtc3 & _ & Hlive & Hp3 & Hq3);
    [by apply (reachable_sys_inv nodes)|by apply (reachable_live_inv nodes)|
     by rewrite Hp2|done|].
  split_and!; [unfold reachable in *; by etrans|by rewrite Hp3|done..].
Qed.

(** C7: an interrupt shuts the process down.  From every reachable state
    in which an interrupt can arrive, these steps can be taken one after
    the other: the cancellation of [main] and of the inhibit task, the
    handler of [main], iterations of the loop until its queue is empty, the
    end of [main] and the exit.  At the end the process has exited
    normally, the lock is released and logind has no descriptor of the
    process open, the observer of the finder is stopped, the queue of the
    loop is empty, and every entry that [self.tasks] had when the interrupt
    arrived held a monitor that has ended.  The devices that
    [self.devices] holds are still open: the shutdown closes none. *)
Theorem interrupt_shuts_down nodes s :
  reachable nodes s → enabled Interrupt s = true →
  let s' := shutdown s in
  reachable nodes s'
  ∧ sys_phase s' = Exited (Ok tt)
  ∧ IdleLock.fd (sys_lock s') = None
  ∧ inhibitors (IdleLock.iface (sys_lock s')) = ∅
  ∧ silent s'
  ∧ ready_of s' = []
  ∧ Forall (λ o, ∃ t, o = Some t ∧ is_done t (w_loop (sys_world s')) = true)
           (dict_values (tasks_of s))
  ∧ ∀ p h, dict_get p (devices_of s') = Some h →
           is_open h (w_evdev (sys_world s')) = true.
Proof.
  intros Hr He. cbv zeta. unfold shutdown.
  destruct (interrupt_stops nodes s Hr He) as (Hr3 & Hp3 & Hq3 & Hlive).
  destruct (drained_gathered _ _ Hlive Hp3 Hq3) as [Hdone Hg].
  destruct (main_exits nodes _ _ Hr3 Hp3 Hg Hq3) as (Hrtc & Hp4 & Hw4 & Hf4).
  set (s4 := do_event Exit (do_event Main_stopped (stopping s))) in *.
  assert (reachable nodes s4) as Hr4 by (unfold reachable in *; by etrans).
  destruct (reachable_sys_inv nodes s4 Hr4) as [[_ _ _ Hl Hu] _ Hb].
  assert (IdleLock.fd (sys_lock s4) = None) as Hfd
    by (apply Hu, Hb; by rewrite Hp4).
  pose proof (reachable_handles_inv nodes s4 Hr4) as Hh.
  unfold ready_of, silent, devices_of. rewrite Hw4, Hf4 in *.
  split_and!; try done.
  - unfold IdleLock.lock_inv in Hl. by rewrite Hfd in Hl.
  - apply (reachable_silent nodes); [done|by rewrite Hp3].
  - intros p h [name Hn]%(hi_open _ Hh). unfold is_open. by rewrite Hn.
Qed.

(** ** Witnesses *)

Lemma hotplug_silenced_witness :
  silent (final shutdown_run)
  ∧ do_event (Udev (pad "add")) (final shutdown_run) = final shutdown_run.
Proof.
  apply (hotplug_silenced pad_nodes (final shutdown_run) (pad "add"));
    [apply run_events_reachable|by vm_compute].
Defined.

(** Two controllers are in use when the interrupt arrives, the second
    has not run its first step, and the lock is held. *)
Definition busy : system :=
  final (activity_run ++ [Plug ev5 "Pad B";
                          Udev (GamepadsFinder.joystick "add" "event5" ev5);
                          Run_ready; Input 0; Tick]).

Lemma interrupt_shuts_down_witness :
  (let s' := shutdown busy in
   reachable pad_nodes s'
   ∧ sys_phase s' = Exited (Ok tt)
   ∧ IdleLock.fd (sys_lock s') = None
   ∧ inhibitors (IdleLock.iface (sys_lock s')) = ∅
   ∧ silent s'
   ∧ ready_of s' = []
   ∧ Forall (λ o, ∃ t, o = Some t ∧ is_done t (w_loop (sys_world s')) = true)
            (dict_values (tasks_of busy))
   ∧ ∀ p h, dict_get p (devices_of s') = Some h →
            is_open h (w_evdev (sys_world s')) = true)
  ∧ devices_of (shutdown busy) = [(ev3, 0); (ev5, 1)].
Proof.
  split; [|by vm_compute].
  apply (interrupt_shuts_down pad_nodes busy);
    [apply run_events_reachable|by vm_compute].
Defined.
