(* ===== verification/Ending.v ===== *)
(** * Ending: how [main] and the process end

    [main] ends in one of three ways: it returns, at the end of its
    handler; it raises [CancelledError], when [gather] raises it inside
    the handler; or it raises the exception of a failed [start] or of the
    inhibit task, which the [try] of [main] does not handle.  The entry
    point catches [KeyboardInterrupt] and nothing else.

    The first part of the file types the ways to end ([ends_inv]) and
    derives what the entry point does in each of them.  The second part
    follows the one run in which [main] ends by [CancelledError]: a
    controller is plugged in while the interrupt is on its way, so that
    [stop] cancels a monitor that has not run its first step
    ([late_plug]). *)

From S2P Require Import Prelude PyDict Asyncio Evdev Watcher IdleLock Bridge.
From S2P Require Import Finder System Runs Coherent Invariant Reachable.
From S2P Require Import Shutdown Effects Hotplug Spec Refinement Settled.
From S2P Require Import Attach Handles Liveness Interrupt.
Import GamepadsWatcher.

(** The exceptions [main] does not handle: [OSError] of a device node that
    is missing when [start] opens it, and the D-Bus error of a lock that
    logind refuses. *)
Definition fatal : list exn := [OSError 2; DBusException].

(** How the inhibit task and [main] have ended, if they have. *)
Record ends_inv (s : system) : Prop := {
  en_bridge e :
    sys_bridge s = B_ended e → e ∈ [CancelledError; DBusException];
  en_crashed e : sys_phase s = Crashed e → e ∈ CancelledError :: fatal;
  en_exited r : sys_phase s = Exited r → r ∈ Ok tt :: (Raise <$> fatal);
}.

Section ends.
Implicit Types (s : system) (e : event) (x : exn).

(** Under the invariant of the lock, a turn that the timer starts raises
    only the error of a refused lock: the descriptor it closes is open. *)
Lemma timer_raises_locked (b : Bridge.state Logind.logind) x :
  IdleLock.lock_inv (Bridge.lock b) →
  eval (Bridge.inhibit_idle_when_gamepads_active Bridge.Timer) b = Raise x →
  x = DBusException.
Proof.
  intros Hl Hx. destruct (timer_raises b x Hx) as [->| ->]; [done|].
  exfalso. revert Hx. unfold eval.
  destruct (Bridge.sample b) as [[[]|x'] b'] eqn:E.
  { apply Bridge.timer_ok in E. by rewrite E. }
  assert (x' = DBusException) as ->; last first.
  { by rewrite (Bridge.timer_raise b DBusException b'). }
  pose proof (Bridge.sample_eval b) as Hs. unfold eval in Hs at 1.
  rewrite E in Hs. simpl in Hs. revert Hs. unfold IdleLock.lock_inv in Hl.
  unfold eval, IdleLock.lock_idle, IdleLock.unlock_idle. py_unfold. simpl.
  unfold Logind.inhibit, Logind.close. simpl in Hl.
  destruct (Bridge.flag b), (IdleLock.fd (Bridge.lock b)); simpl; try done.
  - destruct (Logind.refuse _); simpl; [by intros [= ->]|done].
  - rewrite decide_True by (rewrite Hl; set_solver). done.
Qed.

(** The handler of [main] finds a task in every entry: [stop] returns. *)
Lemma handler_stops nodes s :
  reachable nodes s → awaiting (sys_phase s) = true →
  sys_phase (main_raised CancelledError s)
  = Stopping (dict_values (tasks_of s)).
Proof.
  intros Hr Hp. destruct (reachable_settled_inv nodes s Hr) as [Hst Hs].
  pose proof (reachable_watcher_inv nodes s Hr) as Hw.
  unfold main_raised. rewrite decide_True by done.
  rewrite main_handler_eq, stop_conforms_ok; [done..|].
  apply settled_stop_conforms; auto. apply Hs. by destruct (sys_phase s).
Qed.

Lemma ends_inv_same s s' :
  sys_phase s' = sys_phase s → sys_bridge s' = sys_bridge s →
  ends_inv s → ends_inv s'.
Proof. intros Hp Hb []. split; by rewrite ?Hp, ?Hb. Qed.

Lemma ends_inv_phase p s :
  (∀ x, p ≠ Crashed x) → (∀ r, p ≠ Exited r) →
  ends_inv s → ends_inv (with_phase p s).
Proof. intros Hc He [Hb _ _]. split; simpl; [done|congruence..]. Qed.

(** [await inhibit_task] raises what the inhibit task ended by. *)
Lemma ends_inv_main_raised nodes s x :
  reachable nodes s → sys_phase s ∈ [Running; Cancelling] →
  sys_bridge s = B_ended x → ends_inv s → ends_inv (main_raised x s).
Proof.
  intros Hr Hp Hbr Hinv. pose proof (en_bridge s Hinv x Hbr) as Hx.
  assert (awaiting (sys_phase s) = true) as Ha.
  { rewrite !elem_of_cons, elem_of_nil in Hp. by destruct Hp as [->|[->|[]]]. }
  destruct (main_raised_cases x s) as [Hb Hc]. rewrite Hbr in Hb.
  destruct (decide (x = CancelledError)) as [->|Hd].
  - split; rewrite ?(handler_stops nodes), ?Hb by done; try done.
    by intros ? [= <-].
  - split; rewrite ?Hc, ?Hb; try done; intros ? [= <-]; set_solver.
Qed.

(** The entry point. *)
Lemma run_main_cases s :
  sys_bridge (run_main s) = sys_bridge s
  ∧ match sys_phase s with
    | Stopped => run_main s = with_phase (Exited (Ok tt)) s
    | Crashed x =>
        if decide (x ∈ [CancelledError; KeyboardInterrupt])
        then run_main s
             = with_phase (Exited (Ok tt)) (exec (logging_info "Exiting...") s)
        else run_main s = with_phase (Exited (Raise x)) s
    | _ => run_main s = s
    end.
Proof.
  unfold run_main. destruct (sys_phase s) as [| | | | | |x|]; try done.
  destruct x; simpl; try done.
Qed.

Lemma ends_inv_run_main s : ends_inv s → ends_inv (run_main s).
Proof.
  intros [Hb Hc Hx]. destruct (run_main_cases s) as [Hbr Hrun].
  destruct (sys_phase s) as [| | | | | |x|] eqn:Hp;
    try (rewrite Hrun; by split; rewrite ?Hp).
  - rewrite Hrun. split; simpl; [done..|]. intros ? [= <-]. set_solver.
  - specialize (Hc x eq_refl). case_decide as Hk; rewrite Hrun.
    + split; simpl; [done..|]. intros ? [= <-]. set_solver.
    + split; simpl; [done..|]. intros ? [= <-]. unfold fatal in *. set_solver.
Qed.

Lemma ends_inv_step nodes s s' :
  reachable nodes s → step s s' → ends_inv s → ends_inv s'.
Proof.
  intros Hr [e He] Hinv. destruct (of_main e) eqn:Hm; last first.
  { destruct (do_event_frame e s Hm). by apply (ends_inv_same s). }
  pose proof (reachable_sys_inv nodes s Hr) as [[_ _ _ Hl _] _ _].
  destruct e as [db| | | | | | | |d|p name|p|t|t errno|b|]; try done;
    simpl in *.
  - destruct (main_start_cases s) as [Hb [Hp|Hp]], Hinv as [Hbr _ _];
      split; rewrite ?Hb, ?Hp; try done; intros ? [= <-]; set_solver.
  - apply ends_inv_phase; by auto.
  - apply andb_prop in He as [Hp%bool_decide_eq_true He]. unfold main_resume.
    destruct (sys_bridge s) as [| |x] eqn:Hbr; try done.
    by apply (ends_inv_main_raised nodes).
  - destruct (sys_phase s) eqn:Hp; try done. unfold main_finish.
    rewrite (sh_handler s (reachable_shut_inv nodes s Hr)) by by rewrite Hp.
    destruct (gather_raises _ _); [|apply ends_inv_phase; by auto].
    destruct Hinv as [Hb _ _]. split; simpl; [done| |done].
    intros ? [= <-]. set_solver.
  - by apply ends_inv_run_main.
  - destruct (bridge_step_frame s) as [Hp _]. destruct Hinv as [Hb Hc Hx].
    split; rewrite ?Hp; [|done..]. unfold bridge_step.
    destruct (sys_bridge s) eqn:Hbr, (sys_phase s); try done;
      try (simpl; intros ? [= <-]; set_solver).
    rewrite bridge_turn_eq. simpl. rewrite Bridge.cancel_eq'. unfold eval.
    rewrite Bridge.on_cancelled_eq by done. simpl. intros ? [= <-]. set_solver.
  - destruct (bridge_turn_frame Bridge.Timer s) as [Hp Hb].
    destruct Hinv as [Hbr Hc Hx]. split; rewrite ?Hp; [|done..].
    rewrite Hb. intros x.
    destruct (eval _ _) as [[]|x'] eqn:E; [apply Hbr|].
    intros [= <-]. apply timer_raises_locked in E as ->; [set_solver|done].
Qed.

Lemma reachable_ends_inv nodes s : reachable nodes s → ends_inv s.
Proof.
  revert s. apply rtc_ind_r; [by split|].
  intros y z Hy Hstep IH. by apply (ends_inv_step nodes y).
Qed.
End ends.

(** C34: how the process ends.  In a reachable state in which [main] has
    ended, the entry point ends the process in one of three ways.  When
    [main] returned, [asyncio.run] returns and nothing is logged.  When
    [main] ended by [CancelledError], [asyncio.run] raises
    [KeyboardInterrupt], the entry point catches it, logs its message and
    the process ends normally.  Otherwise [main] ended by the [OSError] of
    a failed start or by the D-Bus error of a refused lock, and the process
    ends by that exception: nothing else is caught, and nothing is logged.
    The watcher, the devices and the lock are as [main] left them. *)
Theorem exit_cases nodes s :
  reachable nodes s → enabled Exit s = true →
  let s' := do_event Exit s in
  reachable nodes s'
  ∧ sys_world s' = sys_world s ∧ sys_lock s' = sys_lock s
  ∧ match sys_phase s with
    | Stopped => sys_phase s' = Exited (Ok tt) ∧ sys_root s' = sys_root s
    | Crashed x =>
        if decide (x = CancelledError) then
          sys_phase s' = Exited (Ok tt)
          ∧ sys_root s' = emit INFO "Exiting..." (sys_root s)
        else
          sys_phase s' = Exited (Raise x) ∧ sys_root s' = sys_root s
          ∧ x ∈ fatal
    | _ => False
    end.
Proof.
  intros Hr He. cbv zeta.
  split; [by eapply rtc_r; [|apply (step_event s Exit)]|].
  pose proof (en_crashed s (reachable_ends_inv nodes s Hr)) as Hc.
  destruct (run_main_cases s) as [_ Hrun]. simpl in *.
  destruct (sys_phase s) as [| | | | | |x|]; try done; [by rewrite Hrun|].
  specialize (Hc x eq_refl). unfold fatal in *.
  destruct (decide (x = CancelledError)) as [->|Hx]; [by rewrite Hrun|].
  rewrite decide_False in Hrun by set_solver. rewrite Hrun.
  split_and!; try done. set_solver.
Qed.

(** [main] has returned after an interrupt; logind has refused the lock. *)
Lemma exit_cases_witness :
  (let s := final shutdown_run in
   sys_phase (do_event Exit s) = Exited (Ok tt)
   ∧ sys_root (do_event Exit s) = sys_root s)
  ∧ (let s := final refused_run in
     sys_phase (do_event Exit s) = Exited (Raise DBusException)).
Proof.
  pose proof (exit_cases pad_nodes (final shutdown_run)
                (run_events_reachable _ _) eq_refl) as (_ & _ & _ & H1).
  pose proof (exit_cases pad_nodes (final refused_run)
                (run_events_reachable _ _) eq_refl) as (_ & _ & _ & H2).
  split; [exact H1|exact (proj1 H2)].
Defined.

(** ** A monitor that is cancelled before its first step *)

(** The first step of task [t] has not run. *)
Definition unstarted (t : nat) (l : loop callback nat) : bool :=
  match l_tasks l !! t with Some tk => negb (t_started tk) | None => false end.

(** It never will: the cancellation of [t] was requested before. *)
Definition doomed (t : nat) (l : loop callback nat) : Prop :=
  unstarted t l = true ∧ cancel_requested t l.

Section doomed.
Context (t : nat).
Implicit Types (l : loop callback nat) (w : world) (s : system).

Lemma unstarted_cancel t' l : unstarted t (exec (cancel t') l) = unstarted t l.
Proof.
  unfold unstarted. rewrite cancel_lookup. case_decide; [|done].
  destruct (l_tasks l !! t) as [tk|]; [|done]. simpl.
  by rewrite cancelled_started.
Qed.

Lemma unstarted_finish t' l : unstarted t (exec (finish t') l) = unstarted t l.
Proof.
  unfold unstarted, exec, finish.
  destruct (l_tasks l !! t') as [tk'|] eqn:Ht'; [|done]. simpl.
  destruct (decide (t' = t)) as [->|Hne];
    [by rewrite lookup_insert_eq, Ht'|by rewrite lookup_insert_ne].
Qed.

(** What the program does to the loop leaves the first step of [t] to
    [t]. *)
Lemma effect_unstarted l skip n l' :
  effect l skip n l' → loop_fresh l → skip ≠ Some t →
  unstarted t l = true → unstarted t l' = true.
Proof.
  intros [] Hf Hs; try done.
  - unfold unstarted. simpl. intros Hu. rewrite lookup_insert_ne; [done|].
    intros <-. by rewrite (create_task_fresh l Hf) in Hu.
  - by rewrite unstarted_cancel.
  - by rewrite unstarted_finish.
  - unfold unstarted, exec, mark_started.
    destruct (l_tasks l !! t0) as [tk0|]; [|done]. simpl.
    rewrite lookup_insert_ne; [done|congruence].
Qed.

Lemma stop_unstarted w :
  unstarted t (w_loop w) = true → unstarted t (w_loop (exec stop w)) = true.
Proof.
  apply (stop_preserves (λ w, unstarted t (w_loop w) = true)); [done|].
  intros t' w0. simpl. by rewrite unstarted_cancel.
Qed.

(** An iteration of the loop ends a doomed task or leaves it doomed. *)
Lemma run_once_doomed s :
  watcher_inv (sys_world s) → doomed t (w_loop (sys_world s)) →
  doomed t (w_loop (sys_world (run_once s))).
Proof.
  intros Hinv [Hu Hc].
  destruct (l_ready (w_loop (sys_world s))) as [|h hs] eqn:Hr.
  { unfold run_once. by rewrite Hr. }
  destruct (run_once_world s h hs Hr) as [-> _].
  destruct (run_handle_effect _ h hs Hr Hinv) as (n & _ & He & _).
  assert (loop_fresh (w_loop (popped (sys_world s)))) as Hf by apply Hinv.
  split; [|by apply (effect_cancel_requested _ _ _ _ _ He)].
  destruct (decide (stepped h = Some t)) as [Hs|Hs];
    [|by apply (effect_unstarted _ _ _ _ He)].
  destruct h as [t'| |]; try done. injection Hs as ->. simpl.
  rewrite task_step_loop. simpl. destruct Hc as (tk & Ht & Hk).
  unfold unstarted in Hu. rewrite Ht in *.
  destruct (t_done tk) eqn:Hd; [by unfold unstarted; simpl; rewrite Ht|].
  destruct Hk as [Hk|Hk]; [done|]. rewrite Hk.
  rewrite unstarted_finish. unfold unstarted. simpl. by rewrite Ht.
Qed.

Lemma drain_doomed n : ∀ s,
  sys_inv s → doomed t (w_loop (sys_world s)) →
  doomed t (w_loop (sys_world (drain n s))).
Proof.
  induction n as [|n IH]; intros s Hinv Hd; [done|]. cbn [drain].
  destruct (enabled Run_ready s) eqn:He; [|done]. apply IH.
  - apply (sys_inv_step s); [by apply (step_event s Run_ready)|done].
  - apply run_once_doomed; [apply Hinv|done].
Qed.

(** When it is done it has ended cancelled. *)
Lemma doomed_ended l :
  doomed t l → is_done t l = true →
  ∃ tk, l_tasks l !! t = Some tk ∧ t_done tk && negb (t_started tk) = true.
Proof.
  intros [Hu (tk & Ht & _)]. unfold unstarted, is_done in *.
  rewrite Ht in *. intros Hd. exists tk. by rewrite Hd, Hu.
Qed.
End doomed.

(** ** A controller that is plugged in while the interrupt is on its way

    The interrupt cancels [main], which cancels the inhibit task and queues
    its wake-up.  udev reports a new controller, and the observer queues
    [add_device] behind that wake-up.  The inhibit task ends and queues the
    wake-up of [main]; the loop runs [add_device], which creates the
    monitor and queues its first step, behind the wake-up of [main].  So
    the handler of [main] runs first, and [stop] cancels a monitor that has
    not started. *)

(** The process up to the end of [main]. *)
Definition late_plug (d : GamepadsFinder.Device) (s : system) : system :=
  let s1 :=
    do_event Main_resume
      (run_once (do_event Bridge_step (do_event (Udev d) (do_event Interrupt s))))
  in
  do_event Main_stopped (drain (queue_measure (w_loop (sys_world s1))) s1).

Section late_plug.
Implicit Types (s : system) (d : GamepadsFinder.Device).

(** The cancellation reaches the inhibit task, which ends by it, whether
    it has run or not, and touches nothing but the lock and the root
    logger. *)
Lemma bridge_cancelled s :
  sys_inv s → sys_phase s = Cancelling → (∀ x, sys_bridge s ≠ B_ended x) →
  let s' := do_event Bridge_step s in
  step s s'
  ∧ sys_phase s' = Cancelling
  ∧ sys_bridge s' = B_ended CancelledError
  ∧ sys_world s' = sys_world s.
Proof.
  intros Hinv Hp Hb. cbv zeta.
  split; [apply (step_event s Bridge_step); simpl; rewrite Hp;
          by destruct (sys_bridge s) as [| |x]; [..|destruct (Hb x)]|].
  simpl. unfold bridge_step. rewrite Hp.
  destruct (sys_bridge s) as [| |x] eqn:Hbr; [done| |by destruct (Hb x)].
  rewrite bridge_turn_eq. simpl. rewrite Bridge.cancel_eq'. unfold eval, exec.
  rewrite Bridge.cancel_eq, Bridge.on_cancelled_eq by apply Hinv. done.
Qed.

(** From the interrupt to the return of [add_device]. *)
Lemma late_plug_added ns s d name :
  reachable ns s → enabled Interrupt s = true →
  GamepadsFinder.observer (sys_finder s) = true →
  GamepadsFinder.subsystem d = GamepadsFinder.SUBSYSTEM →
  GamepadsFinder.passes d = true → GamepadsFinder.action d = "add"%string →
  dict_get (GamepadsFinder.device_node d) (tasks_of s) = None →
  nodes (w_evdev (sys_world s)) !! GamepadsFinder.device_node d = Some name →
  ready_of s = [] →
  let s1 := run_once (do_event Bridge_step (do_event (Udev d)
                                              (do_event Interrupt s))) in
  reachable ns s1
  ∧ sys_world s1 = added d name s
  ∧ sys_phase s1 = Cancelling
  ∧ sys_bridge s1 = B_ended CancelledError.
Proof.
  intros Hr [Hp%bool_decide_eq_true Hb]%andb_prop Hobs Hsub Hpass Hadd Htask
    Hnode Hready. cbv zeta.
  assert (started (w_self (sys_world s)) = true) as Hst
    by (apply (reachable_settled_inv ns s Hr); by rewrite Hp).
  set (sa := do_event Interrupt s).
  assert (reachable ns sa) as Hra.
  { eapply rtc_r; [done|]. apply (step_event s Interrupt). simpl.
    by rewrite Hp, bool_decide_eq_true_2. }
  destruct (udev_event_passes d sa (si_core _ (reachable_sys_inv _ _ Hra))
              Hobs Hsub Hpass) as (Hwb & Hpb & _).
  cbv zeta in Hwb. rewrite Hadd, decide_True in Hwb by done.
  set (sb := do_event (Udev d) sa) in *.
  assert (reachable ns sb) as Hrb
    by (eapply rtc_r; [done|]; by apply (step_event sa (Udev d))).
  destruct (bridge_cancelled sb (reachable_sys_inv _ _ Hrb) Hpb)
    as (Hstep & Hpc & Hbc & Hwc).
  { intros x. destruct (do_event_frame (Udev d) sa eq_refl) as [_ Hbb].
    fold sb in Hbb. rewrite Hbb. simpl. by destruct (sys_bridge s). }
  set (sc := do_event Bridge_step sb) in *.
  pose proof (eq_trans Hwc Hwb) as Hwc'. clear Hwc.
  assert (reachable ns sc) as Hrc by (by eapply rtc_r).
  pose proof (attach_turn_1 d name s Hst Htask Hnode Hready sc Hwc') as Hd.
  split; [|by rewrite Hd].
  eapply rtc_r; [done|]. apply (step_event sc Run_ready). simpl.
  rewrite Hpc, Hwc'. simpl. unfold ready_of in Hready. by rewrite Hready.
Qed.

(** From the wake-up of [main] in its handler to the empty queue: the
    monitor that had not started has ended cancelled, and [gather]
    raises. *)
Lemma late_plug_stopped ns s p t :
  reachable ns s → sys_phase s = Cancelling →
  sys_bridge s = B_ended CancelledError →
  task_of p (sys_world s) = Some t →
  unstarted t (w_loop (sys_world s)) = true →
  let s1 := do_event Main_resume s in
  let s2 := drain (queue_measure (w_loop (sys_world s1))) s1 in
  reachable ns s2
  ∧ ended_cancelled t (sys_world s2) = true
  ∧ ∃ ts, sys_phase s2 = Stopping ts
          ∧ gathered ts (sys_world s2) = true
          ∧ gather_raises ts (sys_world s2) = true
          ∧ l_ready (w_loop (sys_world s2)) = [].
Proof.
  intros Hr Hp Hb Ht Hu. cbv zeta.
  destruct (handler_runs ns s Hr Hp Hb) as [Hstep Hp1].
  set (s1 := do_event Main_resume s) in *.
  set (ts := dict_values (tasks_of s)) in *.
  assert (reachable ns s1) as Hr1 by (by eapply rtc_r).
  assert (Some t ∈ ts) as Hin.
  { apply dict_values_elem; [apply (reachable_watcher_inv ns s Hr)|].
    exists p. by apply task_of_Some. }
  assert (doomed t (w_loop (sys_world s1))) as Hd.
  { split.
    - unfold s1. simpl. unfold main_resume. rewrite Hb, main_raised_world.
      rewrite decide_True by done. by apply stop_unstarted.
    - pose proof (li_awaited s1 (reachable_live_inv ns s1 Hr1) ts Hp1) as Ha.
      destruct (proj1 (Forall_forall _ _) Ha _ Hin) as (t' & [= <-] & Hc).
      done. }
  destruct (drain_spec (queue_measure (w_loop (sys_world s1))) s1)
    as (Hrtc & _ & Hlive & Hp2 & Hq);
    [by apply (reachable_sys_inv ns)|by apply (reachable_live_inv ns)|
     by rewrite Hp1|done|].
  apply (drain_doomed t (queue_measure (w_loop (sys_world s1)))) in Hd;
    [|by apply (reachable_sys_inv ns)].
  set (s2 := drain _ s1) in *. rewrite Hp1 in Hp2.
  destruct (drained_gathered s2 ts Hlive Hp2 Hq) as [Hdone Hg].
  destruct (proj1 (Forall_forall _ _) Hdone _ Hin) as (t' & [= <-] & Hdn).
  destruct (doomed_ended t _ Hd Hdn) as (tk & Htk & Hend).
  assert (ended_cancelled t (sys_world s2) = true) as He
    by (unfold ended_cancelled; by rewrite Htk).
  split_and!; [unfold reachable in *; by etrans|done|].
  exists ts. split_and!; try done.
  apply existsb_exists. exists (Some t). split; [|done].
  by apply list_elem_of_In.
Qed.
End late_plug.

(** C29: a controller that is plugged in while the interrupt is on its way
    makes [main] end by [CancelledError].  In a reachable state in which an
    interrupt can arrive and the queue of the loop is empty, let the
    interrupt arrive and then the udev event of a new joystick, before the
    inhibit task has taken its cancellation.  When the inhibit task has
    ended, the loop has run [add_device], [main] has run its handler and
    the loop has run its queue empty, the monitor of the new controller
    has ended cancelled without having run, so [gather] raises
    [CancelledError] inside the handler: [main] ends by it and does not
    reach [inhibit_task.cancel()].  [asyncio.run] turns it into
    [KeyboardInterrupt], and the entry point logs its message and ends
    normally, with the lock released. *)
Theorem late_plug_ends_main ns s d name :
  reachable ns s → enabled Interrupt s = true →
  GamepadsFinder.observer (sys_finder s) = true →
  GamepadsFinder.subsystem d = GamepadsFinder.SUBSYSTEM →
  GamepadsFinder.passes d = true → GamepadsFinder.action d = "add"%string →
  dict_get (GamepadsFinder.device_node d) (tasks_of s) = None →
  nodes (w_evdev (sys_world s)) !! GamepadsFinder.device_node d = Some name →
  ready_of s = [] →
  let t := l_next (w_loop (sys_world s)) in
  let s1 := late_plug d s in
  let s' := do_event Exit s1 in
  reachable ns s'
  ∧ ended_cancelled t (sys_world s1) = true
  ∧ sys_phase s1 = Crashed CancelledError
  ∧ sys_phase s' = Exited (Ok tt)
  ∧ sys_root s' = emit INFO "Exiting..." (sys_root s1)
  ∧ IdleLock.fd (sys_lock s') = None
  ∧ ready_of s' = [].
Proof.
  intros Hr He Hobs Hsub Hpass Hadd Htask Hnode Hready. cbv zeta.
  destruct (late_plug_added ns s d name) as (Hr1 & Hw1 & Hp1 & Hb1); [done..|].
  unfold late_plug. set (s1 := run_once _) in *.
  destruct (late_plug_stopped ns s1 (GamepadsFinder.device_node d)
              (l_next (w_loop (sys_world s)))) as (Hr2 & Hend & ts & Hst);
    [done..| | |].
  { rewrite Hw1. unfold task_of, added. simpl.
    by rewrite entry_set, decide_True. }
  { rewrite Hw1. unfold unstarted, added. simpl. by rewrite lookup_insert_eq. }
  set (s2 := drain _ _) in *. destruct Hst as (Hp2 & Hg & Hgr & Hq).
  assert (do_event Main_stopped s2 = with_phase (Crashed CancelledError) s2)
    as Hfin by (simpl; rewrite Hp2; unfold main_finish; by rewrite Hgr).
  assert (reachable ns (do_event Main_stopped s2)) as Hr3.
  { eapply rtc_r; [done|]. apply (step_event s2 Main_stopped). simpl.
    by rewrite Hp2, Hg, Hq. }
  rewrite Hfin in *. set (s3 := with_phase _ s2) in *.
  assert (reachable ns (do_event Exit s3)) as Hr4
    by (eapply rtc_r; [done|]; by apply (step_event s3 Exit)).
  split_and!; try done.
  apply (reachable_sys_inv ns _ Hr4). by apply (reachable_sys_inv ns _ Hr4).
Qed.

Lemma late_plug_ends_main_witness :
  let d := GamepadsFinder.joystick "add" "event5" ev5 in
  let s' := do_event Exit (late_plug d plugged) in
  reachable pad_nodes s'
  ∧ ended_cancelled 1 (sys_world (late_plug d plugged)) = true
  ∧ sys_phase (late_plug d plugged) = Crashed CancelledError
  ∧ sys_phase s' = Exited (Ok tt).
Proof.
  cbv zeta.
  destruct (late_plug_ends_main pad_nodes plugged
              (GamepadsFinder.joystick "add" "event5" ev5) "Pad B")
    as (H1 & H2 & H3 & H4 & _);
    [apply run_events_reachable|by vm_compute..|].
  exact (conj H1 (conj H2 (conj H3 H4))).
Defined.
